(** * landlab grid core: flux divergence, node/link mappers, Voronoi topology

    A shallow embedding of the functions of [landlab/grid/grid_funcs.py],
    [landlab/grid/mappers.py] and [landlab/grid/voronoi.py] that the
    specification speaks about.

    Conventions of the embedding.
    - A one-dimensional numpy array is a [list]; a two-dimensional one is a
      list of rows.  Integer arrays hold [Z] (ids, with the sentinel -1),
      float arrays hold real numbers [R]: arithmetic is exact, the rounding
      of IEEE doubles is not represented.  Where the rounding decides what
      the program does (the orientation of links, module [VoronoiDoubles])
      the arrays hold IEEE doubles instead.
    - Indexing follows Python: an index [i] with [-n <= i < n] is valid on an
      array of length [n], a negative one counts from the end, anything else
      raises [IndexError].
    - A function that can raise returns a [result]: [Ok v] or [Raise e]. *)

From Stdlib Require Import String.
From Stdlib Require Import Reals Lra Lia ZArith Bool Arith List.
From Stdlib Require Import Sorted Permutation.
From Stdlib Require Floats.
Import ListNotations.

(** ** Python exceptions and results *)

Module Py.

Inductive exn : Type :=
| AssertionError
| IndexError
| ValueError
| KeyError
| AttributeError.

Inductive result (A : Type) : Type :=
| Ok (a : A)
| Raise (e : exn).

Arguments Ok {A} a.
Arguments Raise {A} e.

Definition bind {A B : Type} (c : result A) (k : A -> result B) : result B :=
  match c with
  | Ok a => k a
  | Raise e => Raise e
  end.

Definition py_assert (b : bool) : result unit :=
  if b then Ok tt else Raise AssertionError.

Definition raises {A : Type} (c : result A) : Prop :=
  exists e, c = Raise e.

Fixpoint mapM {A B : Type} (f : A -> result B) (l : list A) : result (list B) :=
  match l with
  | [] => Ok []
  | x :: xs =>
      bind (f x) (fun y => bind (mapM f xs) (fun ys => Ok (y :: ys)))
  end.

Fixpoint foldM {S A : Type} (body : S -> A -> result S) (l : list A) (s : S)
  : result S :=
  match l with
  | [] => Ok s
  | x :: xs => bind (body s x) (fun s' => foldM body xs s')
  end.

(** [for i in range(n): s = body(s, i)] *)
Definition for_range {S : Type} (n : nat) (body : S -> nat -> result S) (s : S)
  : result S :=
  foldM body (seq 0 n) s.

End Py.

Declare Scope py_scope.
Delimit Scope py_scope with py.
Notation "x <- c ;; k" := (Py.bind c (fun x => k))
  (at level 61, c at next level, right associativity) : py_scope.
Notation "'check' b ;; k" := (Py.bind (Py.py_assert b) (fun _ => k))
  (at level 61, b at next level, right associativity) : py_scope.

(** ** numpy arrays *)

Module Np.
Import Py.
Local Open Scope py_scope.

(** Position in an array of length [n] that the Python index [i] denotes. *)
Definition norm_index (n : nat) (i : Z) : option nat :=
  if ((0 <=? i) && (i <? Z.of_nat n))%Z then Some (Z.to_nat i)
  else if ((- Z.of_nat n <=? i) && (i <? 0))%Z then Some (Z.to_nat (Z.of_nat n + i))
  else None.

(** [a[i]] *)
Definition getitem {A : Type} (a : list A) (i : Z) : result A :=
  match norm_index (length a) i with
  | Some k =>
      match nth_error a k with
      | Some x => Ok x
      | None => Raise IndexError
      end
  | None => Raise IndexError
  end.

(** Whether [i] is a valid index of an array of length [n], and the element
    it denotes ([d] when it is not valid): what [getitem] returns when it
    does not raise. *)
Definition valid_index (n : nat) (i : Z) : bool :=
  match norm_index n i with
  | Some _ => true
  | None => false
  end.

Definition item_or {A : Type} (d : A) (a : list A) (i : Z) : A :=
  match norm_index (length a) i with
  | Some k => nth k a d
  | None => d
  end.

(** No two entries denote the same position (an invalid entry counts as a
    clash). *)
Fixpoint distinct (l : list (option nat)) : bool :=
  match l with
  | [] => true
  | x :: t =>
      negb (existsb (fun y => match x, y with
                              | Some a, Some b => a =? b
                              | _, _ => true
                              end) t)
      && distinct t
  end.

(** [a[idx]] for an integer array [idx] (fancy indexing: a fresh array). *)
Definition take {A : Type} (a : list A) (idx : list Z) : result (list A) :=
  mapM (getitem a) idx.

Fixpoint set_nth {A : Type} (k : nat) (x : A) (a : list A) : list A :=
  match a, k with
  | [], _ => []
  | _ :: t, O => x :: t
  | h :: t, S k' => h :: set_nth k' x t
  end.

(** [a[i] = x] *)
Definition setitem {A : Type} (a : list A) (i : Z) (x : A) : result (list A) :=
  match norm_index (length a) i with
  | Some k => Ok (set_nth k x a)
  | None => Raise IndexError
  end.

Fixpoint zip_with {A B C : Type} (f : A -> B -> C) (a : list A) (b : list B)
  : list C :=
  match a, b with
  | x :: a', y :: b' => f x y :: zip_with f a' b'
  | _, _ => []
  end.

(** Broadcasting of a one-dimensional operand to length [n]: it has that
    length already, or it has length 1 and is repeated. *)
Definition broadcast_to {A : Type} (n : nat) (v : list A) : result (list A) :=
  if length v =? n then Ok v
  else match v with
       | [x] => Ok (repeat x n)
       | _ => Raise ValueError
       end.

(** Elementwise binary operation [f(a, b)] with broadcasting. *)
Definition broadcast2 {A B C : Type} (f : A -> B -> C) (a : list A) (b : list B)
  : result (list C) :=
  let n := if length a =? 1 then length b else length a in
  a' <- broadcast_to n a ;;
  b' <- broadcast_to n b ;;
  Ok (zip_with f a' b').

(** In-place operation [a op= b]: the result keeps the shape of [a]. *)
Definition inplace2 {A B : Type} (f : A -> B -> A) (a : list A) (b : list B)
  : result (list A) :=
  b' <- broadcast_to (length a) b ;;
  Ok (zip_with f a b').

(** [a[:n] = v] *)
Definition assign_prefix {A : Type} (a : list A) (n : nat) (v : list A)
  : result (list A) :=
  let m := Nat.min n (length a) in
  v' <- broadcast_to m v ;;
  Ok (v' ++ skipn m a).

(** [a[idx] = v] for an integer array [idx]: assignments run in order, a
    repeated index keeps the last value. *)
Definition scatter {A : Type} (a : list A) (idx : list Z) (v : list A)
  : result (list A) :=
  v' <- broadcast_to (length idx) v ;;
  foldM (fun acc iv => setitem acc (fst iv) (snd iv)) (combine idx v') a.

(** [numpy.zeros(n)] *)
Definition zeros (n : nat) : list R := repeat 0%R n.

(** Comparisons of floats as booleans. *)
Definition Rltb (x y : R) : bool := if Rlt_dec x y then true else false.
Definition Rleb (x y : R) : bool := if Rle_dec x y then true else false.

(** [numpy.where(mask)] on a one-dimensional boolean array: the positions
    that hold [True], ascending. *)
Fixpoint where_from (k : nat) (mask : list bool) : list Z :=
  match mask with
  | [] => []
  | b :: t => if b then Z.of_nat k :: where_from (S k) t else where_from (S k) t
  end.

Definition where1 (mask : list bool) : list Z := where_from 0 mask.

(** [numpy.amax] of a one-dimensional array; an empty one raises. *)
Definition amax (a : list R) : result R :=
  match a with
  | [] => Raise ValueError
  | x :: t => Ok (fold_left Rmax t x)
  end.

(** Elementwise operation with broadcasting whose combining function can
    itself raise; with [broadcast2] underneath it is the elementwise
    operation on two-dimensional arrays (rows first, then columns). *)
Definition broadcast2M {A B C : Type} (f : A -> B -> result C)
  (a : list A) (b : list B) : result (list C) :=
  let n := if length a =? 1 then length b else length a in
  a' <- broadcast_to n a ;;
  b' <- broadcast_to n b ;;
  mapM (fun p => f (fst p) (snd p)) (combine a' b').

(** [numpy.where(cond, x, y)]: the three operands are broadcast together. *)
Definition where3 {A : Type} (cond : list bool) (x y : list A)
  : result (list A) :=
  let n := if negb (length cond =? 1) then length cond
           else if negb (length x =? 1) then length x
           else length y in
  cond' <- broadcast_to n cond ;;
  x' <- broadcast_to n x ;;
  y' <- broadcast_to n y ;;
  Ok (zip_with (fun (c : bool) (xy : A * A) => if c then fst xy else snd xy)
        cond' (combine x' y')).

(** [out[:] = v] *)
Definition assign_all {A : Type} (out : list A) (v : list A) : result (list A) :=
  broadcast_to (length out) v.

(** An elementwise function called with [out=out]: the result is broadcast
    into the buffer. *)
Definition ufunc_out {A B : Type} (out : list A) (v : list B) : result (list B) :=
  broadcast_to (length out) v.

(** A reduction called with [out=out] needs a buffer of the result's shape. *)
Definition into_out {A B : Type} (out : list A) (v : list B) : result (list B) :=
  if length out =? length v then Ok v else Raise ValueError.

(** [numpy.sum] of a one-dimensional array. *)
Definition sum (a : list R) : R := fold_left Rplus a 0%R.

(** A float that may be infinite or not a number, where the code tests for
    it. *)
Inductive float64 : Type :=
| Finite (r : R)
| PosInf
| NegInf
| NaN.

(** [numpy.divide] of a float by an integer count: 0/0 is NaN, x/0 is
    infinite. *)
Definition divide (x : R) (n : nat) : float64 :=
  match n with
  | O => if Req_dec_T x 0 then NaN
         else if Rlt_dec x 0 then NegInf else PosInf
  | S _ => Finite (x / INR n)
  end.

Definition isnan (v : float64) : bool :=
  match v with
  | NaN => true
  | _ => false
  end.

(** [numpy.count_nonzero] of a boolean array. *)
Definition count_nonzero (mask : list bool) : nat :=
  length (filter (fun b => b) mask).

End Np.

(** ** grid_funcs.py *)

Module GridFuncs.
Import Py Np.
Local Open Scope py_scope.

(** The attributes of a [ModelGrid] that [calculate_flux_divergence_at_nodes]
    reads, and the node status that says which boundary nodes are closed. *)
Record ModelGrid : Type := {
  number_of_nodes : nat;
  number_of_active_links : nat;
  status_at_node : list Z;
  face_width : list R;
  node_active_inlink_matrix : list (list Z);
  node_active_outlink_matrix : list (list Z);
  node_at_cell : list Z;
  core_cells : list Z;
  area_of_cell : list R
}.

(** [grid.empty(centering='node')]: an array with one slot per node; its
    content is overwritten before it is read. *)
Definition empty_at_node (grid : ModelGrid) : list R :=
  zeros (number_of_nodes grid).

(** One pass of the loop over the rows of the inlink/outlink matrices. *)
Definition add_row (grid : ModelGrid) (flux : list R) (net_unit_flux : list R)
  (i : nat) : result (list R) :=
  outrow <- getitem (node_active_outlink_matrix grid) (Z.of_nat i) ;;
  outflux <- take flux outrow ;;
  net_unit_flux <- inplace2 Rplus net_unit_flux outflux ;;
  inrow <- getitem (node_active_inlink_matrix grid) (Z.of_nat i) ;;
  influx <- take flux inrow ;;
  inplace2 Rminus net_unit_flux influx.

Definition calculate_flux_divergence_at_nodes (grid : ModelGrid)
  (active_link_flux : list R) (out : option (list R)) : result (list R) :=
  check (length active_link_flux =? number_of_active_links grid) ;;
  let out := match out with
             | None => empty_at_node grid
             | Some buf => buf
             end in
  let net_unit_flux := map (fun _ => 0%R) out in
  check (length net_unit_flux =? number_of_nodes grid) ;;
  let n := length active_link_flux in
  total <- broadcast2 Rmult active_link_flux (face_width grid) ;;
  flux <- assign_prefix (zeros (n + 1)) n total ;;
  net_unit_flux <-
    for_range (length (node_active_inlink_matrix grid))
      (add_row grid flux) net_unit_flux ;;
  node_at_active_cell <- take (node_at_cell grid) (core_cells grid) ;;
  areas <- take (area_of_cell grid) (core_cells grid) ;;
  current <- take net_unit_flux node_at_active_cell ;;
  quotient <- inplace2 Rdiv current areas ;;
  scatter net_unit_flux node_at_active_cell quotient.

End GridFuncs.


(** ** grid_funcs.py: resolving link values into components *)

Module GridResolve.
Import Py Np.
Local Open Scope py_scope.

(** The attributes of a [ModelGrid] that the two resolving functions read. *)
Record ModelGrid : Type := {
  node_x : list R;
  node_y : list R;
  link_length : list R;
  node_at_link_head : list Z;
  node_at_link_tail : list Z;
  active_links : list Z;
  activelink_tonode : list Z;
  activelink_fromnode : list Z
}.

(** Division is that of the reals: the quotient by a length of zero, which
    numpy gives as an infinity or a nan, is not represented. *)
Definition resolve_values_on_active_links (grid : ModelGrid)
  (active_link_values : list R) : result (list R * list R) :=
  link_lengths <- take (link_length grid) (active_links grid) ;;
  to_x <- take (node_x grid) (activelink_tonode grid) ;;
  from_x <- take (node_x grid) (activelink_fromnode grid) ;;
  dx <- broadcast2 Rminus to_x from_x ;;
  ux <- broadcast2 Rdiv dx link_lengths ;;
  x <- broadcast2 Rmult ux active_link_values ;;
  to_y <- take (node_y grid) (activelink_tonode grid) ;;
  from_y <- take (node_y grid) (activelink_fromnode grid) ;;
  dy <- broadcast2 Rminus to_y from_y ;;
  uy <- broadcast2 Rdiv dy link_lengths ;;
  y <- broadcast2 Rmult uy active_link_values ;;
  Ok (x, y).

Definition resolve_values_on_links (grid : ModelGrid) (link_values : list R)
  : result (list R * list R) :=
  to_x <- take (node_x grid) (node_at_link_head grid) ;;
  from_x <- take (node_x grid) (node_at_link_tail grid) ;;
  dx <- broadcast2 Rminus to_x from_x ;;
  ux <- broadcast2 Rdiv dx (link_length grid) ;;
  x <- broadcast2 Rmult ux link_values ;;
  to_y <- take (node_y grid) (node_at_link_head grid) ;;
  from_y <- take (node_y grid) (node_at_link_tail grid) ;;
  dy <- broadcast2 Rminus to_y from_y ;;
  uy <- broadcast2 Rdiv dy (link_length grid) ;;
  y <- broadcast2 Rmult uy link_values ;;
  Ok (x, y).

End GridResolve.
(** ** mappers.py *)

Module Mappers.
Import Py Np.
Local Open Scope py_scope.

(** The attributes of a [ModelGrid] that the mappers read.  [at_node] and
    [at_link] are the field stores, keyed by field name. *)
Record ModelGrid : Type := {
  number_of_nodes : nat;
  number_of_links : nat;
  node_at_link_tail : list Z;
  node_at_link_head : list Z;
  links_at_node : list (list Z);
  link_dirs_at_node : list (list Z);
  at_node : list (string * list R);
  at_link : list (string * list R)
}.

(** A mapper takes a field name or the array itself. *)
Inductive field_arg : Type :=
| FieldName (name : string)
| FieldArray (values : list R).

Fixpoint lookup_field (fields : list (string * list R)) (name : string)
  : result (list R) :=
  match fields with
  | [] => Raise KeyError
  | (k, v) :: rest => if String.eqb k name then Ok v else lookup_field rest name
  end.

(** [if type(var_name) is str: var_name = grid.at_xxx[var_name]] *)
Definition resolve (fields : list (string * list R)) (arg : field_arg)
  : result (list R) :=
  match arg with
  | FieldName name => lookup_field fields name
  | FieldArray values => Ok values
  end.

Definition empty_at_node (grid : ModelGrid) : list R :=
  zeros (number_of_nodes grid).

Definition empty_at_link (grid : ModelGrid) : list R :=
  zeros (number_of_links grid).

Definition default_out (out : option (list R)) (fresh : list R) : list R :=
  match out with
  | None => fresh
  | Some buf => buf
  end.

Definition map_value_at_min_node_to_link (grid : ModelGrid)
  (control_name value_name : field_arg) (out : option (list R))
  : result (list R) :=
  let out := default_out out (empty_at_link grid) in
  control <- resolve (at_node grid) control_name ;;
  value <- resolve (at_node grid) value_name ;;
  head_control <- take control (node_at_link_head grid) ;;
  tail_control <- take control (node_at_link_tail grid) ;;
  head_vals <- take value (node_at_link_head grid) ;;
  tail_vals <- take value (node_at_link_tail grid) ;;
  cond <- broadcast2 Rltb tail_control head_control ;;
  chosen <- where3 cond tail_vals head_vals ;;
  assign_all out chosen.

Definition map_value_at_max_node_to_link (grid : ModelGrid)
  (control_name value_name : field_arg) (out : option (list R))
  : result (list R) :=
  let out := default_out out (empty_at_link grid) in
  control <- resolve (at_node grid) control_name ;;
  value <- resolve (at_node grid) value_name ;;
  head_control <- take control (node_at_link_head grid) ;;
  tail_control <- take control (node_at_link_tail grid) ;;
  head_vals <- take value (node_at_link_head grid) ;;
  tail_vals <- take value (node_at_link_tail grid) ;;
  cond <- broadcast2 (fun t h => Rltb h t) tail_control head_control ;;
  chosen <- where3 cond tail_vals head_vals ;;
  assign_all out chosen.

(** [var_name[grid.links_at_node] * grid.link_dirs_at_node] *)
Definition values_at_links (grid : ModelGrid) (var : list R)
  : result (list (list R)) :=
  gathered <- mapM (take var) (links_at_node grid) ;;
  broadcast2M (broadcast2 (fun (v : R) (d : Z) => (v * IZR d)%R))
    gathered (link_dirs_at_node grid).

Definition negate (a : list (list R)) : list (list R) :=
  map (map Ropp) a.

Definition map_upwind_node_link_max_to_node (grid : ModelGrid)
  (var_name : field_arg) (out : option (list R)) : result (list R) :=
  let out := default_out out (empty_at_node grid) in
  var <- resolve (at_link grid) var_name ;;
  values <- values_at_links grid var ;;
  maxima <- mapM amax (negate values) ;;
  into_out out maxima.

(** [vals_in_positive * vals_above_zero]: a boolean counts as 1 or 0. *)
Definition mask_mul (v : R) (b : bool) : R :=
  (v * (if b then 1 else 0))%R.

Definition map_upwind_node_link_mean_to_node (grid : ModelGrid)
  (var_name : field_arg) (out : option (list R)) : result (list float64) :=
  let out := default_out out (empty_at_node grid) in
  var <- resolve (at_link grid) var_name ;;
  values <- values_at_links grid var ;;
  let vals_in_positive := negate values in
  let vals_above_zero := map (map (fun v => Rltb 0 v)) vals_in_positive in
  let total_vals :=
    map (fun row => sum (zip_with mask_mul row (map (fun v => Rltb 0 v) row)))
      vals_in_positive in
  let link_count := map count_nonzero vals_above_zero in
  quotient <- ufunc_out out (zip_with divide total_vals link_count) ;;
  Ok (map (fun v => if isnan v then Finite 0 else v) quotient).

End Mappers.

(** ** mappers.py: the other mappers *)

Module NpMore.
Import Py Np.
Local Open Scope py_scope.

(** [numpy.amin] of a one-dimensional array; an empty one raises. *)
Definition amin (a : list R) : result R :=
  match a with
  | [] => Raise ValueError
  | x :: t => Ok (fold_left Rmin t x)
  end.

(** [numpy.argmax] of a one-dimensional array: the first position of the
    largest entry. *)
Fixpoint argmax_from (best : R) (best_at i : nat) (a : list R) : nat :=
  match a with
  | [] => best_at
  | x :: t =>
      if Rlt_dec best x then argmax_from x i (S i) t
      else argmax_from best best_at (S i) t
  end.

Definition argmax (a : list R) : result nat :=
  match a with
  | [] => Raise ValueError
  | x :: t => Ok (argmax_from x 0 1 t)
  end.

(** [numpy.finfo(dtype=float).max], the largest double:
    (2 - 2^-52) * 2^1023. *)
Definition float_max : R := IZR (2 ^ 1024 - 2 ^ 971).

(** Whether two two-dimensional arrays have the same shape. *)
Fixpoint same_shape {A B : Type} (a : list (list A)) (b : list (list B))
  : bool :=
  match a, b with
  | [], [] => true
  | r :: a', s :: b' => (length r =? length s) && same_shape a' b'
  | _, _ => false
  end.

(** [a[mask] = v] for a boolean mask of the shape of [a]. *)
Definition mask_assign2 {A : Type} (a : list (list A))
  (mask : list (list bool)) (v : A) : result (list (list A)) :=
  if same_shape a mask then
    Ok (zip_with (zip_with (fun (x : A) (m : bool) => if m then v else x))
          a mask)
  else Raise IndexError.

(** [a[numpy.arange(n), cols]]: entry [cols[i]] of row [i]; the two index
    arrays are broadcast against each other. *)
Definition pick_in_rows {A : Type} (a : list (list A)) (n : nat)
  (cols : list nat) : result (list A) :=
  match broadcast2 (fun (i : nat) (c : nat) => (i, c)) (seq 0 n) cols with
  | Raise _ => Raise IndexError
  | Ok pairs =>
      mapM (fun ic => row <- getitem a (Z.of_nat (fst ic)) ;;
                      getitem row (Z.of_nat (snd ic)))
        pairs
  end.

End NpMore.

Module MappersMore.
Import Py Np NpMore Mappers.
Local Open Scope py_scope.

Definition map_link_head_node_to_link (grid : ModelGrid)
  (var_name : field_arg) (out : option (list R)) : result (list R) :=
  var <- resolve (at_node grid) var_name ;;
  let out := default_out out (empty_at_link grid) in
  at_head <- take var (node_at_link_head grid) ;;
  assign_all out at_head.

Definition map_link_tail_node_to_link (grid : ModelGrid)
  (var_name : field_arg) (out : option (list R)) : result (list R) :=
  let out := default_out out (empty_at_link grid) in
  var <- resolve (at_node grid) var_name ;;
  at_tail <- take var (node_at_link_tail grid) ;;
  assign_all out at_tail.

Definition map_min_of_link_nodes_to_link (grid : ModelGrid)
  (var_name : field_arg) (out : option (list R)) : result (list R) :=
  let out := default_out out (empty_at_link grid) in
  var <- resolve (at_node grid) var_name ;;
  at_head <- take var (node_at_link_head grid) ;;
  at_tail <- take var (node_at_link_tail grid) ;;
  smaller <- broadcast2 Rmin at_head at_tail ;;
  ufunc_out out smaller.

Definition map_max_of_link_nodes_to_link (grid : ModelGrid)
  (var_name : field_arg) (out : option (list R)) : result (list R) :=
  let out := default_out out (empty_at_link grid) in
  var <- resolve (at_node grid) var_name ;;
  at_head <- take var (node_at_link_head grid) ;;
  at_tail <- take var (node_at_link_tail grid) ;;
  larger <- broadcast2 Rmax at_head at_tail ;;
  ufunc_out out larger.

Definition map_mean_of_link_nodes_to_link (grid : ModelGrid)
  (var_name : field_arg) (out : option (list R)) : result (list R) :=
  let out := default_out out (empty_at_link grid) in
  var <- resolve (at_node grid) var_name ;;
  at_head <- take var (node_at_link_head grid) ;;
  at_tail <- take var (node_at_link_tail grid) ;;
  total <- broadcast2 Rplus at_head at_tail ;;
  assign_all out (map (fun v => (0.5 * v)%R) total).

(** [values_at_linksX]: the link values followed by one more entry, which
    the index -1 of a missing link reads.  [numpy.empty] leaves the array
    uninitialised; both assignments together overwrite all of it. *)
Definition values_at_linksX (grid : ModelGrid) (var_name : field_arg)
  (last_entry : R) : result (list R) :=
  let valuesX := zeros (number_of_links grid + 1) in
  valuesX <- setitem valuesX (-1) last_entry ;;
  var <- resolve (at_link grid) var_name ;;
  assign_prefix valuesX (length valuesX - 1) var.

Definition map_min_of_node_links_to_node (grid : ModelGrid)
  (var_name : field_arg) (out : option (list R)) : result (list R) :=
  let out := default_out out (empty_at_node grid) in
  valuesX <- values_at_linksX grid var_name float_max ;;
  rows <- mapM (take valuesX) (links_at_node grid) ;;
  minima <- mapM amin rows ;;
  into_out out minima.

Definition map_max_of_node_links_to_node (grid : ModelGrid)
  (var_name : field_arg) (out : option (list R)) : result (list R) :=
  let out := default_out out (empty_at_node grid) in
  valuesX <- values_at_linksX grid var_name (- float_max) ;;
  rows <- mapM (take valuesX) (links_at_node grid) ;;
  maxima <- mapM amax rows ;;
  into_out out maxima.

Definition map_downwind_node_link_max_to_node (grid : ModelGrid)
  (var_name : field_arg) (out : option (list R)) : result (list R) :=
  let out := default_out out (empty_at_node grid) in
  var <- resolve (at_link grid) var_name ;;
  values <- values_at_links grid var ;;
  steepest_links_at_node <- mapM amax values ;;
  ufunc_out out (map Rabs steepest_links_at_node).

Definition map_downwind_node_link_mean_to_node (grid : ModelGrid)
  (var_name : field_arg) (out : option (list R)) : result (list float64) :=
  let out := default_out out (empty_at_node grid) in
  var <- resolve (at_link grid) var_name ;;
  values <- values_at_links grid var ;;
  let vals_in_positive := values in
  let vals_above_zero := map (map (fun v => Rltb 0 v)) vals_in_positive in
  let total_vals :=
    map (fun row => sum (zip_with mask_mul row (map (fun v => Rltb 0 v) row)))
      vals_in_positive in
  let link_count := map count_nonzero vals_above_zero in
  quotient <- ufunc_out out (zip_with divide total_vals link_count) ;;
  Ok (map (fun v => if isnan v then Finite 0 else v) quotient).

Definition map_value_at_upwind_node_link_max_to_node (grid : ModelGrid)
  (control_name value_name : field_arg) (out : option (list R))
  : result (list R) :=
  let out := default_out out (empty_at_node grid) in
  control <- resolve (at_link grid) control_name ;;
  value <- resolve (at_link grid) value_name ;;
  values_at_nodes <- values_at_links grid control ;;
  which_link <- mapM argmax (negate values_at_nodes) ;;
  let invalid_links := map (map (fun v => Rleb 0 v)) values_at_nodes in
  link_vals <- mapM (take value) (links_at_node grid) ;;
  link_vals_without_invalids <- mask_assign2 link_vals invalid_links 0%R ;;
  picked <- pick_in_rows link_vals_without_invalids (number_of_nodes grid)
              which_link ;;
  assign_all out picked.

Definition map_value_at_downwind_node_link_max_to_node (grid : ModelGrid)
  (control_name value_name : field_arg) (out : option (list R))
  : result (list R) :=
  let out := default_out out (empty_at_node grid) in
  control <- resolve (at_link grid) control_name ;;
  value <- resolve (at_link grid) value_name ;;
  values_at_nodes <- values_at_links grid control ;;
  which_link <- mapM argmax values_at_nodes ;;
  let invalid_links := map (map (fun v => Rleb v 0)) values_at_nodes in
  link_vals <- mapM (take value) (links_at_node grid) ;;
  link_vals_without_invalids <- mask_assign2 link_vals invalid_links 0%R ;;
  picked <- pick_in_rows link_vals_without_invalids (number_of_nodes grid)
              which_link ;;
  assign_all out picked.

End MappersMore.
(** ** voronoi.py *)

Module Voronoi.
Import Py Np.
Local Open Scope py_scope.

Definition point : Type := (R * R)%type.

(** *** Point order *)

(** Stable insertion sort on a real key: [x] goes before the first element
    whose key is not smaller, so equal keys keep their input order. *)
Fixpoint insert_by {A : Type} (key : A -> R) (x : A) (l : list A) : list A :=
  match l with
  | [] => [x]
  | y :: t => if Rle_dec (key x) (key y) then x :: y :: t
              else y :: insert_by key x t
  end.

Definition stable_sort_by {A : Type} (key : A -> R) (l : list A) : list A :=
  fold_right (insert_by key) [] l.

(** [a.argsort(kind='mergesort')]: the positions of [a], sorted stably by
    the value they hold. *)
Definition argsort (a : list R) : list nat :=
  stable_sort_by (fun i => nth i a 0%R) (seq 0 (length a)).

(** Modelled from the spec: [argsort_points_by_x_then_y] of
    [landlab.core.utils] is imported by voronoi.py but is not among the
    sources.  The spec calls the order "x then y"; the doctest of
    [VoronoiDelaunayGrid], which shows the helper's effect on twelve lattice
    points, fixes the reading: a stable sort on x followed by a stable sort
    on y of the outcome. *)
Definition argsort_points_by_x_then_y (pts : list point) : list nat :=
  let a := argsort (map fst pts) in
  let b := argsort (map (fun i => nth i (map snd pts) 0%R) a) in
  map (fun j => nth j a 0%nat) b.

(** Modelled from the spec: [sort_points_by_x_then_y] of
    [landlab.core.utils], absent from the sources like the helper above: the
    points taken in the order [argsort_points_by_x_then_y] gives.  The array
    is sorted in place and returned. *)
Definition sort_points_by_x_then_y (pts : list point) : list point :=
  map (fun i => nth i pts (0%R, 0%R)) (argsort_points_by_x_then_y pts).

(** *** Links and faces from the Voronoi diagram *)

(** A [scipy.spatial.Voronoi] object of a planar point set: every ridge has
    two generator points and two vertex ids, -1 for a vertex at infinity. *)
Record VoronoiDiagram : Type := {
  points : list point;
  vertices : list point;
  ridge_points : list (Z * Z);
  ridge_vertices : list (Z * Z);
  regions : list (list Z)
}.

Definition SUSPICIOUSLY_BIG : R := 40000000.

Definition is_valid_voronoi_ridge (vor : VoronoiDiagram) (n : Z) : result bool :=
  rv <- getitem (ridge_vertices vor) n ;;
  if negb (fst rv =? -1)%Z && negb (snd rv =? -1)%Z then
    v1 <- getitem (vertices vor) (fst rv) ;;
    v2 <- getitem (vertices vor) (snd rv) ;;
    biggest <- amax [Rabs (fst v1); Rabs (snd v1); Rabs (fst v2); Rabs (snd v2)] ;;
    Ok (Rltb biggest SUSPICIOUSLY_BIG)
  else Ok false.

(** [numpy.count_nonzero(numpy.array(vor.ridge_vertices) == -1)] *)
Definition count_undefined (rv : list (Z * Z)) : nat :=
  count_nonzero
    (flat_map (fun r => [(fst r =? -1)%Z; (snd r =? -1)%Z]) rv).

Definition midpoint (p q : point) : point :=
  ((fst p + fst q) / 2, (snd p + snd q) / 2)%R.

(** The arrays the loop over the links fills, and the face counter [j]. *)
Record LinkArrays : Type := {
  link_fromnode : list Z;
  link_tonode : list Z;
  active_links : list Z;
  face_width : list R;
  next_face : nat
}.

Definition link_step (vor : VoronoiDiagram) (ind : list Z) (s : LinkArrays)
  (i : nat) : result LinkArrays :=
  n <- getitem ind (Z.of_nat i) ;;
  rp <- getitem (ridge_points vor) n ;;
  fromnode <- setitem (link_fromnode s) (Z.of_nat i) (fst rp) ;;
  tonode <- setitem (link_tonode s) (Z.of_nat i) (snd rp) ;;
  rv <- getitem (ridge_vertices vor) n ;;
  let face_corner1 := fst rv in
  let face_corner2 := snd rv in
  valid <- is_valid_voronoi_ridge vor n ;;
  if valid then
    c1 <- getitem (vertices vor) face_corner1 ;;
    c2 <- getitem (vertices vor) face_corner2 ;;
    let dx := (fst c2 - fst c1)%R in
    let dy := (snd c2 - snd c1)%R in
    width <- setitem (face_width s) (Z.of_nat (next_face s))
               (sqrt (dx * dx + dy * dy)) ;;
    active <- setitem (active_links s) (Z.of_nat (next_face s)) (Z.of_nat i) ;;
    Ok {| link_fromnode := fromnode; link_tonode := tonode;
          active_links := active; face_width := width;
          next_face := S (next_face s) |}
  else
    Ok {| link_fromnode := fromnode; link_tonode := tonode;
          active_links := active_links s; face_width := face_width s;
          next_face := next_face s |}.

Definition create_links_and_faces_from_voronoi_diagram (vor : VoronoiDiagram)
  : result (list Z * list Z * list Z * list R) :=
  let num_links := length (ridge_points vor) in
  let num_active_links :=
    (Z.of_nat num_links - Z.of_nat (count_undefined (ridge_vertices vor)))%Z in
  if (num_active_links <? 0)%Z then Raise ValueError
  else
    let start :=
      {| link_fromnode := repeat (-1)%Z num_links;
         link_tonode := repeat (-1)%Z num_links;
         active_links := repeat (-1)%Z (Z.to_nat num_active_links);
         face_width := repeat (-1)%R (Z.to_nat num_active_links);
         next_face := 0 |} in
    link_midpoints <-
      mapM (fun rp => p <- getitem (points vor) (fst rp) ;;
                      q <- getitem (points vor) (snd rp) ;;
                      Ok (midpoint p q))
        (ridge_points vor) ;;
    let ind := map Z.of_nat (argsort_points_by_x_then_y link_midpoints) in
    s <- for_range num_links (link_step vor ind) start ;;
    Ok (link_fromnode s, link_tonode s, active_links s, face_width s).

(** *** Link orientation *)

(** [numpy.arctan2(y, x)] on exact reals: the angle of the point [(x, y)],
    in (-pi, pi].  Which links are flipped depends on the rounding of this
    angle in doubles, within one unit in the last place of the 135 degree
    direction; that is the subject of [VoronoiDoubles].  What is proved on
    this definition holds whichever links are flipped. *)
Definition arctan2 (y x : R) : R :=
  if Rlt_dec 0 x then atan (y / x)
  else if Rlt_dec x 0 then
         if Rle_dec 0 y then atan (y / x) + PI else atan (y / x) - PI
  else if Rlt_dec 0 y then PI / 2
  else if Rlt_dec y 0 then - (PI / 2)
  else 0.

(** The node and link arrays of a [VoronoiDelaunayGrid], and the attributes
    that the patch queries create on first use ([None]: not set yet). *)
Inductive entry : Type :=
| Id (z : Z)
| NaNEntry.

Record MaskedArray : Type := {
  ma_data : list (list entry);
  ma_mask : list (list bool)
}.

(** A [scipy.spatial.Delaunay] object: the points and the triangles. *)
Record Triangulation : Type := {
  tri_points : list point;
  simplices : list (list Z)
}.

Record VoronoiDelaunayGrid : Type := {
  pts : list point;
  vor : VoronoiDiagram;
  node_x : list R;
  node_y : list R;
  status_at_node : list Z;
  node_at_link_tail : list Z;
  node_at_link_head : list Z;
  _nodes_at_patch : option (list (list Z));
  _number_of_patches : option nat;
  _patches_at_node : option MaskedArray;
  set_bad_value : option bool
}.

Definition with_links (self : VoronoiDelaunayGrid) (tail head : list Z)
  : VoronoiDelaunayGrid :=
  {| pts := pts self; vor := vor self;
     node_x := node_x self; node_y := node_y self;
     status_at_node := status_at_node self;
     node_at_link_tail := tail; node_at_link_head := head;
     _nodes_at_patch := _nodes_at_patch self;
     _number_of_patches := _number_of_patches self;
     _patches_at_node := _patches_at_node self;
     set_bad_value := set_bad_value self |}.

(** [link_angle -= 2 * numpy.pi * (link_angle >= numpy.pi)] *)
Definition wrap_angle (a : R) : R :=
  (a - 2 * PI * (if Rle_dec PI a then 1 else 0))%R.

(** The angle whose sign decides the flip, from the link offsets. *)
Definition link_angle (dx dy : R) : R :=
  wrap_angle (arctan2 dx dy + PI / 4).

Definition reorient_links_upper_right (self : VoronoiDelaunayGrid)
  : result VoronoiDelaunayGrid :=
  head_x <- take (node_x self) (node_at_link_head self) ;;
  tail_x <- take (node_x self) (node_at_link_tail self) ;;
  link_dx <- broadcast2 Rminus head_x tail_x ;;
  head_y <- take (node_y self) (node_at_link_head self) ;;
  tail_y <- take (node_y self) (node_at_link_tail self) ;;
  link_dy <- broadcast2 Rminus head_y tail_y ;;
  angles <- broadcast2 link_angle link_dx link_dy ;;
  let flip_locs := where1 (map (fun a => Rltb a 0) angles) in
  if 0 <? length flip_locs then
    fromnode_temp <- take (node_at_link_tail self) flip_locs ;;
    tonode_temp <- take (node_at_link_head self) flip_locs ;;
    tail <- scatter (node_at_link_tail self) flip_locs tonode_temp ;;
    head <- scatter (node_at_link_head self) flip_locs fromnode_temp ;;
    Ok (with_links self tail head)
  else Ok self.

(** *** Patches *)

(** The values the [nodata] argument is called with: an integer or a
    string. *)
Inductive pyval : Type :=
| PyInt (z : Z)
| PyStr (s : string).

Definition Reqb (x y : R) : bool := if Req_dec_T x y then true else false.

(** [numpy.array_equal] on two arrays of points. *)
Fixpoint array_equal (a b : list point) : bool :=
  match a, b with
  | [], [] => true
  | p :: a', q :: b' =>
      Reqb (fst p) (fst q) && Reqb (snd p) (snd q) && array_equal a' b'
  | _, _ => false
  end.

Definition with_patches (self : VoronoiDelaunayGrid)
  (nodes : option (list (list Z))) (count : option nat)
  (table : option MaskedArray) (flag : option bool) : VoronoiDelaunayGrid :=
  {| pts := pts self; vor := vor self;
     node_x := node_x self; node_y := node_y self;
     status_at_node := status_at_node self;
     node_at_link_tail := node_at_link_tail self;
     node_at_link_head := node_at_link_head self;
     _nodes_at_patch := nodes;
     _number_of_patches := count;
     _patches_at_node := table;
     set_bad_value := flag |}.

(** Modelled from the spec: [number_of_nodes] is a property of the base
    class [ModelGrid], whose module is not among the sources: one node per
    coordinate pair. *)
Definition number_of_nodes (self : VoronoiDelaunayGrid) : nat :=
  length (node_x self).

(** Modelled from the spec: [is_boundary(i, boundary_flag)] of the base
    class, not among the sources: the node's status equals the flag (4 is
    the status of a closed boundary node). *)
Definition is_boundary (self : VoronoiDelaunayGrid) (i : Z) (boundary_flag : Z)
  : result bool :=
  status <- getitem (status_at_node self) i ;;
  Ok (status =? boundary_flag)%Z.

(** [numpy.argwhere(numpy.equal(nodes_at_patch, i))[:, 0]]: the row of every
    occurrence of [i], rows ascending. *)
Fixpoint rows_containing (i : Z) (k : nat) (rows : list (list Z)) : list Z :=
  match rows with
  | [] => []
  | r :: t =>
      map (fun _ => Z.of_nat k) (filter (Z.eqb i) r)
      ++ rows_containing i (S k) t
  end.

(** The largest number of vertices of a Voronoi region. *)
Definition max_dimension (regions : list (list Z)) : nat :=
  fold_left (fun m r => if m <? length r then length r else m) regions 0.

Definition patch_row_step (self : VoronoiDelaunayGrid)
  (nodes_at_patch : list (list Z)) (table : list (list entry)) (i : nat)
  : result (list (list entry)) :=
  closed <- is_boundary self (Z.of_nat i) 4 ;;
  if negb closed then
    let patches_with_node := rows_containing (Z.of_nat i) 0 nodes_at_patch in
    row <- getitem table (Z.of_nat i) ;;
    row' <- assign_prefix row (length patches_with_node)
              (map Id patches_with_node) ;;
    setitem table (Z.of_nat i) row'
  else Ok table.

Definition is_minus_one (e : entry) : bool :=
  match e with
  | Id z => (z =? -1)%Z
  | NaNEntry => false
  end.

Section Patches.

(** [scipy.spatial.Delaunay], the triangulation back end. *)
Variable Delaunay : list point -> Triangulation.

(** [BAD_INDEX_VALUE] of [landlab.grid.base], which is not among the
    sources. *)
Variable BAD_INDEX_VALUE : Z.

(** The chain [if nodata == -1 ... elif ... else raise ValueError]; the
    conversion of NaN to the integer type of the table is left symbolic. *)
Definition resolve_nodata (nodata : pyval) : result entry :=
  match nodata with
  | PyInt z => if (z =? -1)%Z then Ok (Id (-1)) else Raise ValueError
  | PyStr s =>
      if String.eqb s "bad_value" then Ok (Id BAD_INDEX_VALUE)
      else if String.eqb s "nan" then Ok NaNEntry
      else Raise ValueError
  end.

(** A method returns the grid as it leaves it, together with its result or
    the exception it raised. *)
Definition create_patches_from_delaunay_diagram (self : VoronoiDelaunayGrid)
  (pts : list point) (vor : VoronoiDiagram) (nodata : pyval)
  : VoronoiDelaunayGrid * result unit :=
  let tri := Delaunay pts in
  if negb (array_equal (tri_points tri) (points vor)) then
    (self, Raise AssertionError)
  else
    match resolve_nodata nodata with
    | Raise e => (self, Raise e)
    | Ok fill =>
        let self1 :=
          with_patches self (Some (simplices tri))
            (Some (length (simplices tri)))
            (_patches_at_node self) (set_bad_value self) in
        let width := max_dimension (regions vor) in
        let empty := repeat (repeat fill width) (number_of_nodes self) in
        match for_range (number_of_nodes self)
                (patch_row_step self (simplices tri)) empty with
        | Raise e => (self1, Raise e)
        | Ok table =>
            (with_patches self1 (_nodes_at_patch self1)
               (_number_of_patches self1)
               (Some {| ma_data := table;
                        ma_mask := map (map is_minus_one) table |})
               (set_bad_value self1),
             Ok tt)
        end
    end.

(** [return self._patches_at_node] *)
Definition read_patches_at_node (self : VoronoiDelaunayGrid)
  : VoronoiDelaunayGrid * result MaskedArray :=
  match _patches_at_node self with
  | Some table => (self, Ok table)
  | None => (self, Raise AttributeError)
  end.

Definition is_default_nodata (nodata : pyval) : bool :=
  match nodata with
  | PyInt z => (z =? -1)%Z
  | PyStr _ => false
  end.

Definition patches_at_node (self : VoronoiDelaunayGrid) (nodata : pyval)
  : VoronoiDelaunayGrid * result MaskedArray :=
  if is_default_nodata nodata then
    match _patches_at_node self with
    | Some table => (self, Ok table)
    | None =>
        match create_patches_from_delaunay_diagram self (pts self) (vor self)
                nodata with
        | (self', Raise e) => (self', Raise e)
        | (self', Ok _) => read_patches_at_node self'
        end
    end
  else
    match set_bad_value self with
    | None =>
        match create_patches_from_delaunay_diagram self (pts self) (vor self)
                nodata with
        | (self', Raise e) => (self', Raise e)
        | (self', Ok _) =>
            read_patches_at_node
              (with_patches self' (_nodes_at_patch self')
                 (_number_of_patches self') (_patches_at_node self')
                 (Some true))
        end
    | Some _ => read_patches_at_node self
    end.

End Patches.

End Voronoi.

(** ** voronoi.py: geometry helpers and node-cell connectivity *)

Module VoronoiGeometry.
Import Py Np Voronoi.
Local Open Scope py_scope.

(** [simple_poly_area(x, y)] for one-dimensional coordinate arrays: the
    slices [x[:-1]] and [x[1:]] are [removelast x] and [tl x], Python's
    [sum] adds the entries to 0 from the left.  The coordinates are exact
    reals here: the rounding of the products and sums in doubles is not
    represented. *)
Definition simple_poly_area (x y : list R) : result R :=
  a <- broadcast2 Rmult (removelast x) (tl y) ;;
  b <- broadcast2 Rmult (tl x) (removelast y) ;;
  d <- broadcast2 Rminus a b ;;
  x_last <- getitem x (-1) ;;
  y_first <- getitem y 0 ;;
  x_first <- getitem x 0 ;;
  y_last <- getitem y (-1) ;;
  Ok (0.5 * Rabs (sum d + x_last * y_first - x_first * y_last))%R.

(** [pts[idx, 0]] and [pts[idx, 1]] *)
Definition column0 (pts : list point) (idx : list Z) : result (list R) :=
  mapM (fun i => p <- getitem pts i ;; Ok (fst p)) idx.

Definition column1 (pts : list point) (idx : list Z) : result (list R) :=
  mapM (fun i => p <- getitem pts i ;; Ok (snd p)) idx.

(** [calculate_link_lengths(pts, link_from, link_to)], on exact reals: the
    rounding, overflow and underflow of the squares in doubles are not
    represented. *)
Definition calculate_link_lengths (pts : list point)
  (link_from link_to : list Z) : result (list R) :=
  to_x <- column0 pts link_to ;;
  from_x <- column0 pts link_from ;;
  dx <- broadcast2 Rminus to_x from_x ;;
  to_y <- column1 pts link_to ;;
  from_y <- column1 pts link_from ;;
  dy <- broadcast2 Rminus to_y from_y ;;
  dx2 <- broadcast2 Rmult dx dx ;;
  dy2 <- broadcast2 Rmult dy dy ;;
  total <- broadcast2 Rplus dx2 dy2 ;;
  Ok (map sqrt total).

Section Connectivity.

(** [CORE_NODE] and [BAD_INDEX_VALUE] of [landlab.grid.base], which is not
    among the sources. *)
Variable CORE_NODE : Z.
Variable BAD_INDEX_VALUE : Z.

(** The variables of the loop of [setup_node_cell_connectivity]. *)
Record Connectivity : Type := {
  cell : Z;
  node_cell : list Z;
  cell_node : list Z
}.

Definition connectivity_step (node_status : list Z) (s : Connectivity)
  (node : nat) : result Connectivity :=
  status <- getitem node_status (Z.of_nat node) ;;
  if (status =? CORE_NODE)%Z then
    node_cell' <- setitem (node_cell s) (Z.of_nat node) (cell s) ;;
    cell_node' <- setitem (cell_node s) (cell s) (Z.of_nat node) ;;
    Ok {| cell := (cell s + 1)%Z; node_cell := node_cell';
          cell_node := cell_node' |}
  else Ok s.

(** [numpy.zeros(ncells, dtype=int)] raises [ValueError] for a negative
    size. *)
Definition setup_node_cell_connectivity (node_status : list Z) (ncells : Z)
  : result (list Z * list Z) :=
  check (ncells =? Z.of_nat (count_nonzero
                               (map (fun s => (s =? CORE_NODE)%Z) node_status)))%Z ;;
  let start :=
    {| cell := 0;
       node_cell := repeat BAD_INDEX_VALUE (length node_status);
       cell_node := repeat 0%Z (Z.to_nat ncells) |} in
  if (ncells <? 0)%Z then Raise ValueError
  else
    s <- for_range (length node_status) (connectivity_step node_status) start ;;
    Ok (node_cell s, cell_node s).

End Connectivity.

End VoronoiGeometry.

(** ** voronoi.py: the patch properties *)

Module VoronoiQueries.
Import Py Np Voronoi.
Local Open Scope py_scope.

Section Queries.

Variable Delaunay : list point -> Triangulation.
Variable BAD_INDEX_VALUE : Z.

(** [try: return self._number_of_patches; except AttributeError: ...]: the
    patches are built with the default nodata value -1. *)
Definition number_of_patches (self : VoronoiDelaunayGrid)
  : VoronoiDelaunayGrid * result nat :=
  match _number_of_patches self with
  | Some n => (self, Ok n)
  | None =>
      match create_patches_from_delaunay_diagram Delaunay BAD_INDEX_VALUE
              self (pts self) (vor self) (PyInt (-1)) with
      | (self', Raise e) => (self', Raise e)
      | (self', Ok _) =>
          match _number_of_patches self' with
          | Some n => (self', Ok n)
          | None => (self', Raise AttributeError)
          end
      end
  end.

Definition nodes_at_patch (self : VoronoiDelaunayGrid)
  : VoronoiDelaunayGrid * result (list (list Z)) :=
  match _nodes_at_patch self with
  | Some rows => (self, Ok rows)
  | None =>
      match create_patches_from_delaunay_diagram Delaunay BAD_INDEX_VALUE
              self (pts self) (vor self) (PyInt (-1)) with
      | (self', Raise e) => (self', Raise e)
      | (self', Ok _) =>
          match _nodes_at_patch self' with
          | Some rows => (self', Ok rows)
          | None => (self', Raise AttributeError)
          end
      end
  end.

End Queries.

End VoronoiQueries.

(** ** voronoi.py: links from a triangulation *)

Module VoronoiLinks.
Import Py Np.
Local Open Scope py_scope.

(** The attributes of a [scipy.spatial.Delaunay] object that
    [create_links_from_triangulation] reads: the corners of every triangle
    and, opposite each corner, the neighbouring triangle or -1. *)
Record Delaunay : Type := {
  simplices : list (list Z);
  neighbors : list (list Z)
}.

(** [tri.nsimplex]: the number of triangles. *)
Definition nsimplex (tri : Delaunay) : nat := length (simplices tri).

(** [a[t, i]] on a two-dimensional array. *)
Definition getitem2 {A : Type} (a : list (list A)) (t i : Z) : result A :=
  row <- getitem a t ;;
  getitem row i.

(** The variables of the loop over the triangles. *)
Record LinkState : Type := {
  link_fromnode : list Z;
  link_tonode : list Z;
  link_id : nat;
  tridone : list bool
}.

(** The body of the loop over the vertices [i] of triangle [t]. *)
Definition vertex_step (tri : Delaunay) (t : nat) (s : LinkState) (i : nat)
  : result LinkState :=
  neighbor <- getitem2 (neighbors tri) (Z.of_nat t) (Z.of_nat i) ;;
  add <- (if (neighbor =? -1)%Z then Ok true
          else done <- getitem (tridone s) neighbor ;; Ok (negb done)) ;;
  if add : bool then
    a <- getitem2 (simplices tri) (Z.of_nat t) (Z.of_nat ((i + 1) mod 3)) ;;
    fromnode <- setitem (link_fromnode s) (Z.of_nat (link_id s)) a ;;
    b <- getitem2 (simplices tri) (Z.of_nat t) (Z.of_nat ((i + 2) mod 3)) ;;
    tonode <- setitem (link_tonode s) (Z.of_nat (link_id s)) b ;;
    Ok {| link_fromnode := fromnode; link_tonode := tonode;
          link_id := S (link_id s); tridone := tridone s |}
  else Ok s.

(** The body of the loop over the triangles. *)
Definition triangle_step (tri : Delaunay) (s : LinkState) (t : nat)
  : result LinkState :=
  s' <- foldM (vertex_step tri t) [0; 1; 2] s ;;
  done <- setitem (tridone s') (Z.of_nat t) true ;;
  Ok {| link_fromnode := link_fromnode s'; link_tonode := link_tonode s';
        link_id := link_id s'; tridone := done |}.

(** [numpy.zeros(num_links, dtype=int)] raises [ValueError] for a negative
    size. *)
Definition create_links_from_triangulation (tri : Delaunay)
  : result (list Z * list Z * Z) :=
  let num_shared_links :=
    count_nonzero (map (fun n => (-1 <? n)%Z) (concat (neighbors tri))) in
  let num_links :=
    (3 * Z.of_nat (nsimplex tri) - Z.of_nat num_shared_links / 2)%Z in
  if (num_links <? 0)%Z then Raise ValueError
  else
    let start :=
      {| link_fromnode := repeat 0%Z (Z.to_nat num_links);
         link_tonode := repeat 0%Z (Z.to_nat num_links);
         link_id := 0;
         tridone := repeat false (nsimplex tri) |} in
    s <- for_range (nsimplex tri) (triangle_step tri) start ;;
    Ok (link_fromnode s, link_tonode s, num_links).

End VoronoiLinks.

(** ** voronoi.py: the construction of a grid *)

Module VoronoiInit.
Import Py Np Voronoi VoronoiGeometry.
Local Open Scope py_scope.

(** A [scipy.spatial.ConvexHull] object of planar points: the edges of the
    hull, and the coplanar points with the facet and the vertex they are
    next to. *)
Record ConvexHullObject : Type := {
  hull_simplices : list (Z * Z);
  hull_coplanar : list (Z * Z * Z)
}.

(** A [scipy.spatial.Voronoi] object: the diagram, and the region of every
    input point. *)
Record VoronoiObject : Type := {
  diagram : VoronoiDiagram;
  point_region : list Z
}.

(** The attributes of [self] that [_initialize] writes, in three groups. *)
Record NodeTables : Type := {
  pts : list point;
  node_x : list R;
  node_y : list R
}.

Record CellTables : Type := {
  node_status : list Z;
  core_nodes : list Z;
  boundary_nodes : list Z;
  core_cells : list Z;
  node_at_cell : list Z;
  cell_at_node : list Z;
  area_of_cell : list R
}.

Record LinkTables : Type := {
  node_at_link_tail : list Z;
  node_at_link_head : list Z;
  active_links_ids : list Z;
  face_width : list R;
  status_at_link : list Z;
  link_length : list R
}.

Record Grid : Type := {
  nodes : NodeTables;
  cells : CellTables;
  links : LinkTables;
  vor : option VoronoiObject
}.

(** What [_initialize] calls and voronoi.py does not define: the geometry
    back ends of scipy, the order in which Python lists a set, and the
    constants, properties and methods of the base class [ModelGrid], which
    act on the attributes above. *)
Record Backend : Type := {
  ConvexHull : list point -> result ConvexHullObject;
  scipy_Voronoi : list point -> result VoronoiObject;
  set_items : list Z -> list Z;
  CORE_NODE : Z;
  BAD_INDEX_VALUE : Z;
  INACTIVE_LINK : Z;
  number_of_cells : Grid -> result Z;
  sort_links_by_midpoint : Grid -> result Grid;
  _setup_inlink_and_outlink_matrices : Grid -> result Grid;
  _reset_link_status_list : Grid -> result Grid;
  make_links_and_link_dirs_at_node : Grid -> result Grid;
  _make_link_unit_vectors : Grid -> result Grid
}.

(** A grid before [_initialize] has set anything. *)
Definition unset : Grid :=
  {| nodes := {| pts := []; node_x := []; node_y := [] |};
     cells := {| node_status := []; core_nodes := []; boundary_nodes := [];
                 core_cells := []; node_at_cell := []; cell_at_node := [];
                 area_of_cell := [] |};
     links := {| node_at_link_tail := []; node_at_link_head := [];
                 active_links_ids := []; face_width := [];
                 status_at_link := []; link_length := [] |};
     vor := None |}.

Definition with_nodes (self : Grid) (n : NodeTables) : Grid :=
  {| nodes := n; cells := cells self; links := links self; vor := vor self |}.

Definition with_cells (self : Grid) (c : CellTables) : Grid :=
  {| nodes := nodes self; cells := c; links := links self; vor := vor self |}.

Definition with_links (self : Grid) (l : LinkTables) : Grid :=
  {| nodes := nodes self; cells := cells self; links := l; vor := vor self |}.

Definition with_vor (self : Grid) (v : VoronoiObject) : Grid :=
  {| nodes := nodes self; cells := cells self; links := links self;
     vor := Some v |}.

Section Construction.

Variable env : Backend.

(** [find_perimeter_nodes(pts)]; [as_id_array] leaves an array of ids as it
    is.  The method sets [_node_status], [_core_cells], [_node_at_cell] and
    [_boundary_nodes]; [kept] is the attribute [_core_nodes], which it only
    returns. *)
Definition find_perimeter_nodes (self : Grid) (pts : list point)
  : result (Grid * (list Z * list Z * list Z)) :=
  let kept := core_nodes (cells self) in
  hull <- ConvexHull env pts ;;
  let convex_hull_nodes :=
    set_items env (flat_map (fun e => [fst e; snd e]) (hull_simplices hull)) in
  let coplanar_nodes := map (fun c => fst (fst c)) (hull_coplanar hull) in
  let boundary_nodes := convex_hull_nodes ++ coplanar_nodes in
  let node_status := repeat 0%Z (length pts) in
  node_status <- scatter node_status boundary_nodes [1%Z] ;;
  let core_nodes := where1 (map (fun s => (s =? 0)%Z) node_status) in
  let self :=
    with_cells self
      {| node_status := node_status;
         core_nodes := kept;
         boundary_nodes := boundary_nodes;
         core_cells := map Z.of_nat (seq 0 (length core_nodes));
         node_at_cell := core_nodes;
         cell_at_node := cell_at_node (cells self);
         area_of_cell := area_of_cell (cells self) |} in
  Ok (self, (node_status, core_nodes, boundary_nodes)).

(** The body of the loop over the nodes that have a cell. *)
Definition cell_area_step (v : VoronoiObject) (self : Grid) (node : Z)
  : result Grid :=
  r <- getitem (point_region v) node ;;
  region <- getitem (regions (diagram v)) r ;;
  xv <- column0 (vertices (diagram v)) region ;;
  r <- getitem (point_region v) node ;;
  region <- getitem (regions (diagram v)) r ;;
  yv <- column1 (vertices (diagram v)) region ;;
  area <- simple_poly_area xv yv ;;
  cell <- getitem (cell_at_node (cells self)) node ;;
  areas <- setitem (area_of_cell (cells self)) cell area ;;
  Ok (with_cells self
        {| node_status := node_status (cells self);
           core_nodes := core_nodes (cells self);
           boundary_nodes := boundary_nodes (cells self);
           core_cells := core_cells (cells self);
           node_at_cell := node_at_cell (cells self);
           cell_at_node := cell_at_node (cells self);
           area_of_cell := areas |}).

(** [self.reorient_links_upper_right()], which reads the node coordinates
    and exchanges entries of the two link arrays. *)
Definition reorient (self : Grid) (v : VoronoiObject) : result Grid :=
  g <- reorient_links_upper_right
         {| Voronoi.pts := pts (nodes self);
            Voronoi.vor := diagram v;
            Voronoi.node_x := node_x (nodes self);
            Voronoi.node_y := node_y (nodes self);
            Voronoi.status_at_node := node_status (cells self);
            Voronoi.node_at_link_tail := node_at_link_tail (links self);
            Voronoi.node_at_link_head := node_at_link_head (links self);
            Voronoi._nodes_at_patch := None;
            Voronoi._number_of_patches := None;
            Voronoi._patches_at_node := None;
            Voronoi.set_bad_value := None |} ;;
  Ok (with_links self
        {| node_at_link_tail := Voronoi.node_at_link_tail g;
           node_at_link_head := Voronoi.node_at_link_head g;
           active_links_ids := active_links_ids (links self);
           face_width := face_width (links self);
           status_at_link := status_at_link (links self);
           link_length := link_length (links self) |}).

(** [_initialize(x, y, reorient_links)].  The helper sorts the array of
    points in place, so the local [pts], and with it [x] and [y], are in
    sorted order too. *)
Definition _initialize (x y : list R) (reorient_links : bool) : result Grid :=
  if negb (length x =? length y) then Raise ValueError
  else
    let pts := sort_points_by_x_then_y (combine x y) in
    let x := map fst pts in
    let y := map snd pts in
    let self := with_nodes unset {| pts := pts; node_x := x; node_y := y |} in
    found <- find_perimeter_nodes self pts ;;
    let self := fst found in
    let self :=
      with_cells self
        {| node_status := fst (fst (snd found));
           core_nodes := snd (fst (snd found));
           boundary_nodes := snd (snd found);
           core_cells := core_cells (cells self);
           node_at_cell := node_at_cell (cells self);
           cell_at_node := cell_at_node (cells self);
           area_of_cell := area_of_cell (cells self) |} in
    ncells <- number_of_cells env self ;;
    tables <- setup_node_cell_connectivity (CORE_NODE env)
                (BAD_INDEX_VALUE env) (node_status (cells self)) ncells ;;
    let self :=
      with_cells self
        {| node_status := node_status (cells self);
           core_nodes := core_nodes (cells self);
           boundary_nodes := boundary_nodes (cells self);
           core_cells := core_cells (cells self);
           node_at_cell := snd tables;
           cell_at_node := fst tables;
           area_of_cell := area_of_cell (cells self) |} in
    active_cell_at_node <- take (cell_at_node (cells self))
                             (core_nodes (cells self)) ;;
    v <- scipy_Voronoi env pts ;;
    let self := with_vor self v in
    ncells <- number_of_cells env self ;;
    if (ncells <? 0)%Z then Raise ValueError
    else
      let self :=
        with_cells self
          {| node_status := node_status (cells self);
             core_nodes := core_nodes (cells self);
             boundary_nodes := boundary_nodes (cells self);
             core_cells := core_cells (cells self);
             node_at_cell := node_at_cell (cells self);
             cell_at_node := cell_at_node (cells self);
             area_of_cell := zeros (Z.to_nat ncells) |} in
      self <- foldM (cell_area_step v) (node_at_cell (cells self)) self ;;
      made <- create_links_and_faces_from_voronoi_diagram (diagram v) ;;
      let self :=
        with_links self
          {| node_at_link_tail := fst (fst (fst made));
             node_at_link_head := snd (fst (fst made));
             active_links_ids := snd (fst made);
             face_width := snd made;
             status_at_link :=
               repeat (INACTIVE_LINK env) (length (fst (fst (fst made))));
             link_length := link_length (links self) |} in
      self <- sort_links_by_midpoint env self ;;
      self <- (if reorient_links then reorient self v else Ok self) ;;
      lengths <- calculate_link_lengths pts (node_at_link_tail (links self))
                   (node_at_link_head (links self)) ;;
      let self :=
        with_links self
          {| node_at_link_tail := node_at_link_tail (links self);
             node_at_link_head := node_at_link_head (links self);
             active_links_ids := active_links_ids (links self);
             face_width := face_width (links self);
             status_at_link := status_at_link (links self);
             link_length := lengths |} in
      self <- _setup_inlink_and_outlink_matrices env self ;;
      self <- _reset_link_status_list env self ;;
      self <- make_links_and_link_dirs_at_node env self ;;
      _make_link_unit_vectors env self.

End Construction.

End VoronoiInit.

(** ** voronoi.py on IEEE doubles: the orientation of links *)

Module VoronoiDoubles.
Import Py Np PrimFloat.
Local Open Scope py_scope.

(** [numpy.pi], the double nearest to pi: 3.141592653589793. *)
Definition pi : float := 0x1.921fb54442d18p+1%float.

(** The node and link arrays that [reorient_links_upper_right] reads and
    writes. *)
Record Grid : Type := {
  node_x : list float;
  node_y : list float;
  node_at_link_tail : list Z;
  node_at_link_head : list Z
}.

Definition with_links (self : Grid) (tail head : list Z) : Grid :=
  {| node_x := node_x self; node_y := node_y self;
     node_at_link_tail := tail; node_at_link_head := head |}.

Section Reorient.

(** [numpy.arctan2] on doubles: the [atan2] of the C library. *)
Variable arctan2 : float -> float -> float.

(** [numpy.arctan2(link_dx, link_dy) + numpy.pi / 4], then
    [link_angle -= 2 * numpy.pi * (link_angle >= numpy.pi)], where the
    comparison counts as 1.0 or 0.0. *)
Definition link_angle (dx dy : float) : float :=
  let link_angle := (arctan2 dx dy + pi / 4)%float in
  (link_angle - 2 * pi * (if leb pi link_angle then 1 else 0))%float.

Definition reorient_links_upper_right (self : Grid) : result Grid :=
  head_x <- take (node_x self) (node_at_link_head self) ;;
  tail_x <- take (node_x self) (node_at_link_tail self) ;;
  link_dx <- broadcast2 sub head_x tail_x ;;
  head_y <- take (node_y self) (node_at_link_head self) ;;
  tail_y <- take (node_y self) (node_at_link_tail self) ;;
  link_dy <- broadcast2 sub head_y tail_y ;;
  angles <- broadcast2 link_angle link_dx link_dy ;;
  let flip_locs := where1 (map (fun a => ltb a 0%float) angles) in
  if (0 <? length flip_locs)%nat then
    fromnode_temp <- take (node_at_link_tail self) flip_locs ;;
    tonode_temp <- take (node_at_link_head self) flip_locs ;;
    tail <- scatter (node_at_link_tail self) flip_locs tonode_temp ;;
    head <- scatter (node_at_link_head self) flip_locs fromnode_temp ;;
    Ok (with_links self tail head)
  else Ok self.

End Reorient.

End VoronoiDoubles.
(** ** Concrete grids *)

Module Examples.

(** *** The 4 x 5 raster grid of the doctest of
    [calculate_flux_divergence_at_nodes]

    Nodes are numbered row by row from the lower left, unit spacing.  The
    core nodes are 6, 7, 8, 11, 12, 13; the seventeen active links, in id
    order, are 1-6, 2-7, 3-8, 5-6, 6-7, 7-8, 8-9, 6-11, 7-12, 8-13, 10-11,
    11-12, 12-13, 13-14, 11-16, 12-17, 13-18 (tail-head).  Row 0 of the
    inlink (outlink) matrix holds the active link that enters a node from
    the south (leaves to the north), row 1 the one from the west (to the
    east); -1 where there is none. *)
Definition raster45 : GridFuncs.ModelGrid :=
  {| GridFuncs.number_of_nodes := 20;
     GridFuncs.number_of_active_links := 17;
     GridFuncs.status_at_node :=
       [1; 1; 1; 1; 1;
        1; 0; 0; 0; 1;
        1; 0; 0; 0; 1;
        1; 1; 1; 1; 1]%Z;
     GridFuncs.face_width := repeat 1%R 17;
     GridFuncs.node_active_inlink_matrix :=
       [[-1; -1; -1; -1; -1;
         -1;  0;  1;  2; -1;
         -1;  7;  8;  9; -1;
         -1; 14; 15; 16; -1];
        [-1; -1; -1; -1; -1;
         -1;  3;  4;  5;  6;
         -1; 10; 11; 12; 13;
         -1; -1; -1; -1; -1]]%Z;
     GridFuncs.node_active_outlink_matrix :=
       [[-1;  0;  1;  2; -1;
         -1;  7;  8;  9; -1;
         -1; 14; 15; 16; -1;
         -1; -1; -1; -1; -1];
        [-1; -1; -1; -1; -1;
          3;  4;  5;  6; -1;
         10; 11; 12; 13; -1;
         -1; -1; -1; -1; -1]]%Z;
     GridFuncs.node_at_cell := [6; 7; 8; 11; 12; 13]%Z;
     GridFuncs.core_cells := [0; 1; 2; 3; 4; 5]%Z;
     GridFuncs.area_of_cell := repeat 1%R 6 |}.

(** The same lattice with every perimeter node closed (status 4): only the
    links between core nodes stay active, in id order 6-7, 7-8, 6-11, 7-12,
    8-13, 11-12, 12-13.  Closing the boundary changes the status of nodes
    and links, not the faces: [face_width] keeps its seventeen entries. *)
Definition raster45_closed : GridFuncs.ModelGrid :=
  {| GridFuncs.number_of_nodes := 20;
     GridFuncs.number_of_active_links := 7;
     GridFuncs.status_at_node :=
       [4; 4; 4; 4; 4;
        4; 0; 0; 0; 4;
        4; 0; 0; 0; 4;
        4; 4; 4; 4; 4]%Z;
     GridFuncs.face_width := repeat 1%R 17;
     GridFuncs.node_active_inlink_matrix :=
       [[-1; -1; -1; -1; -1;
         -1; -1; -1; -1; -1;
         -1;  2;  3;  4; -1;
         -1; -1; -1; -1; -1];
        [-1; -1; -1; -1; -1;
         -1; -1;  0;  1; -1;
         -1; -1;  5;  6; -1;
         -1; -1; -1; -1; -1]]%Z;
     GridFuncs.node_active_outlink_matrix :=
       [[-1; -1; -1; -1; -1;
         -1;  2;  3;  4; -1;
         -1; -1; -1; -1; -1;
         -1; -1; -1; -1; -1];
        [-1; -1; -1; -1; -1;
         -1;  0;  1; -1; -1;
         -1;  5;  6; -1; -1;
         -1; -1; -1; -1; -1]]%Z;
     GridFuncs.node_at_cell := [6; 7; 8; 11; 12; 13]%Z;
     GridFuncs.core_cells := [0; 1; 2; 3; 4; 5]%Z;
     GridFuncs.area_of_cell := repeat 1%R 6 |}.

(** *** The 3 x 4 raster grid of the mapper doctests

    Seventeen links: three horizontal ones per row of nodes and four
    vertical ones between two rows, numbered row by row from the bottom. *)
Definition raster34 : Mappers.ModelGrid :=
  {| Mappers.number_of_nodes := 12;
     Mappers.number_of_links := 17;
     Mappers.node_at_link_tail :=
       [0; 1; 2; 0; 1; 2; 3; 4; 5; 6; 4; 5; 6; 7; 8; 9; 10]%Z;
     Mappers.node_at_link_head :=
       [1; 2; 3; 4; 5; 6; 7; 5; 6; 7; 8; 9; 10; 11; 9; 10; 11]%Z;
     Mappers.links_at_node :=
       [[ 0;  3; -1; -1]; [ 1;  4;  0; -1]; [ 2;  5;  1; -1]; [-1;  6;  2; -1];
        [ 7; 10; -1;  3]; [ 8; 11;  7;  4]; [ 9; 12;  8;  5]; [-1; 13;  9;  6];
        [14; -1; -1; 10]; [15; -1; 14; 11]; [16; -1; 15; 12]; [-1; -1; 16; 13]]%Z;
     Mappers.link_dirs_at_node :=
       [[-1; -1;  0;  0]; [-1; -1;  1;  0]; [-1; -1;  1;  0]; [ 0; -1;  1;  0];
        [-1; -1;  0;  1]; [-1; -1;  1;  1]; [-1; -1;  1;  1]; [ 0; -1;  1;  1];
        [-1;  0;  0;  1]; [-1;  0;  1;  1]; [-1;  0;  1;  1]; [ 0;  0;  1;  1]]%Z;
     Mappers.at_node :=
       [("z"%string, [0; 1; 2; 3; 7; 6; 5; 4; 8; 9; 10; 11]%R);
        ("vals_to_map"%string,
         [0; 10; 20; 30; 70; 60; 50; 40; 80; 90; 100; 110]%R)];
     Mappers.at_link :=
       [("grad"%string,
         [-1; -2; -1; 0; 0; 0; 0; -1; -2; -1; 0; 0; 0; 0; -1; -2; -1]%R)] |}.

(** The link field of the doctest of the upwind mean. *)
Definition grad_mean_doctest : list R :=
  [-1; -2; -1; -2; -3; -4; -5; -1; -2; -1; -1; -2; -3; -4; -1; -2; -1]%R.

(** *** A 3 x 3 raster grid for the mappers

    Nodes are numbered row by row from the lower left; the twelve links, in
    id order, are 0-1, 1-2, 0-3, 1-4, 2-5, 3-4, 4-5, 3-6, 4-7, 5-8, 6-7, 7-8
    (tail-head).  A row of [links_at_node] lists the links to the east,
    north, west and south of a node, -1 where there is none; the direction
    is -1 for a link that leaves the node, 1 for one that enters it and 0
    for the padding.  The centre node 4 is the only one with four links. *)
Definition raster33 : Mappers.ModelGrid :=
  {| Mappers.number_of_nodes := 9;
     Mappers.number_of_links := 12;
     Mappers.node_at_link_tail := [0; 1; 0; 1; 2; 3; 4; 3; 4; 5; 6; 7]%Z;
     Mappers.node_at_link_head := [1; 2; 3; 4; 5; 4; 5; 6; 7; 8; 7; 8]%Z;
     Mappers.links_at_node :=
       [[ 0;  2; -1; -1]; [ 1;  3;  0; -1]; [-1;  4;  1; -1];
        [ 5;  7; -1;  2]; [ 6;  8;  5;  3]; [-1;  9;  6;  4];
        [10; -1; -1;  7]; [11; -1; 10;  8]; [-1; -1; 11;  9]]%Z;
     Mappers.link_dirs_at_node :=
       [[-1; -1;  0;  0]; [-1; -1;  1;  0]; [ 0; -1;  1;  0];
        [-1; -1;  0;  1]; [-1; -1;  1;  1]; [ 0; -1;  1;  1];
        [-1;  0;  0;  1]; [-1;  0;  1;  1]; [ 0;  0;  1;  1]]%Z;
     Mappers.at_node := [];
     Mappers.at_link := [] |}.

(** A link field that carries flux out of node 4 along all four of its
    links: negative (downhill along the link) on the links 4-5 and 4-7 that
    leave it, positive on the links 3-4 and 1-4 that enter it, 0
    elsewhere. *)
Definition grad_from_centre : list R :=
  [0; 0; 0; 1; 0; 1; -1; 0; -1; 0; 0; 0]%R.

(** A control field that ties the two ends of every link, and a value field
    that tells the nodes apart. *)
Definition flat_control : list R := repeat 0%R 9.

Definition node_labels : list R :=
  [0; 10; 20; 30; 40; 50; 60; 70; 80]%R.

(** *** The lattice of the [VoronoiDelaunayGrid] doctest

    [x = [0, 0, 0, 0, 1, 1, 1, 1, 2, 2, 2, 2]] and
    [y = [0, 1, 2, 3, 0, 1, 2, 3, 0, 1, 2, 3]]. *)
Definition lattice_x : list R := [0; 0; 0; 0; 1; 1; 1; 1; 2; 2; 2; 2]%R.

Definition lattice_y : list R := [0; 1; 2; 3; 0; 1; 2; 3; 0; 1; 2; 3]%R.

(** *** Four points with a sliver triangle

    A (0, 0), C (2, 0), B (1, eps) and D (1, 1), numbered 0 to 3 in this
    order (ascending y, then x), with [eps] = 1e-8: B lies just above the
    middle of the edge A-C, so the Delaunay triangle A-B-C is a sliver and
    its circumcentre, the Voronoi vertex 0, lies far below the points. *)
Definition eps : R := (/ 100000000)%R.

Definition sliver_points : list Voronoi.point :=
  [(0, 0); (2, 0); (1, eps); (1, 1)]%R.

(** The circumcentres of the triangles A-B-C, A-B-D and B-C-D. *)
Definition sliver_vertices : list Voronoi.point :=
  [(1, (eps * eps - 1) / (2 * eps));
   ((1 - eps) / 2, (1 + eps) / 2);
   ((3 + eps) / 2, (1 + eps) / 2)]%R.

(** One ridge per Delaunay edge: A-B, B-C, A-C, A-D, C-D, B-D.  The ridges
    of the hull edges A-C, A-D and C-D run to infinity (vertex -1). *)
Definition sliver_vor : Voronoi.VoronoiDiagram :=
  {| Voronoi.points := sliver_points;
     Voronoi.vertices := sliver_vertices;
     Voronoi.ridge_points :=
       [(0, 2); (2, 1); (0, 1); (0, 3); (1, 3); (2, 3)]%Z;
     Voronoi.ridge_vertices :=
       [(0, 1); (0, 2); (-1, 0); (-1, 1); (-1, 2); (1, 2)]%Z;
     Voronoi.regions := [[-1; 0; 1]; [-1; 0; 2]; [0; 1; 2]; [-1; 1; 2]]%Z |}.

(** The grid on these points, with the links in the order and direction
    [create_links_and_faces_from_voronoi_diagram] gives them: A-C, A-B,
    B-C, A-D, C-D, B-D.  Only B is a core node. *)
Definition sliver_grid : Voronoi.VoronoiDelaunayGrid :=
  {| Voronoi.pts := sliver_points;
     Voronoi.vor := sliver_vor;
     Voronoi.node_x := map fst sliver_points;
     Voronoi.node_y := map snd sliver_points;
     Voronoi.status_at_node := [1; 1; 0; 1]%Z;
     Voronoi.node_at_link_tail := [0; 0; 2; 0; 1; 2]%Z;
     Voronoi.node_at_link_head := [1; 2; 1; 3; 3; 3]%Z;
     Voronoi._nodes_at_patch := None;
     Voronoi._number_of_patches := None;
     Voronoi._patches_at_node := None;
     Voronoi.set_bad_value := None |}.

(** The same grid with every link reversed. *)
Definition backward_grid : Voronoi.VoronoiDelaunayGrid :=
  Voronoi.with_links sliver_grid
    [1; 2; 1; 3; 3; 3]%Z [0; 0; 2; 0; 1; 2]%Z.

(** The Delaunay triangulation of the four points: the triangles A-B-D,
    B-C-D and A-C-B.  Any other point set is left without triangles. *)
Definition sliver_delaunay (pts : list Voronoi.point) : Voronoi.Triangulation :=
  {| Voronoi.tri_points := pts;
     Voronoi.simplices := [[0; 2; 3]; [2; 1; 3]; [0; 1; 2]]%Z |}.

(** The largest 32-bit integer, as the bad index value. *)
Definition bad_index : Z := 2147483647.

(** The patches at each node of the sliver grid, padded with the bad index
    value; no entry is -1, so nothing is masked. *)
Definition sliver_table : Voronoi.MaskedArray :=
  {| Voronoi.ma_data :=
       [[Voronoi.Id 0; Voronoi.Id 2; Voronoi.Id bad_index];
        [Voronoi.Id 1; Voronoi.Id 2; Voronoi.Id bad_index];
        [Voronoi.Id 0; Voronoi.Id 1; Voronoi.Id 2];
        [Voronoi.Id 0; Voronoi.Id 1; Voronoi.Id bad_index]];
     Voronoi.ma_mask := repeat (repeat false 3) 4 |}.

(** [numpy.arange(rmg.number_of_links)] on the 3 x 4 raster: every link
    holds its own id. *)
Definition link_ids : list R :=
  [0; 1; 2; 3; 4; 5; 6; 7; 8; 9; 10; 11; 12; 13; 14; 15; 16]%R.

(** A right triangle with sides 3, 4 and 5: three nodes, three links that
    go round it, the first and the last of them active. *)
Definition triangle : GridResolve.ModelGrid :=
  {| GridResolve.node_x := [0; 3; 3]%R;
     GridResolve.node_y := [0; 0; 4]%R;
     GridResolve.link_length := [3; 4; 5]%R;
     GridResolve.node_at_link_head := [1; 2; 0]%Z;
     GridResolve.node_at_link_tail := [0; 1; 2]%Z;
     GridResolve.active_links := [0; 2]%Z;
     GridResolve.activelink_tonode := [1; 0]%Z;
     GridResolve.activelink_fromnode := [0; 2]%Z |}.

(** Two triangles that share the edge between the nodes 1 and 2. *)
Definition two_triangles : VoronoiLinks.Delaunay :=
  {| VoronoiLinks.simplices := [[0; 1; 2]; [1; 3; 2]]%Z;
     VoronoiLinks.neighbors := [[1; -1; -1]; [-1; 0; -1]]%Z |}.

(** *** Constructing the grid of the four sliver points

    The four points listed in ascending x order, ties by ascending y:
    A, B, D, C. *)
Definition by_x_xs : list R := [0; 1; 1; 2]%R.

Definition by_x_ys : list R := [0; eps; 1; 0]%R.

(** The convex hull of the points in the order A, C, B, D: the triangle
    A-C-D, with B inside it and no coplanar point. *)
Definition sliver_hull : VoronoiInit.ConvexHullObject :=
  {| VoronoiInit.hull_simplices := [(0, 1); (1, 3); (3, 0)]%Z;
     VoronoiInit.hull_coplanar := [] |}.

(** Their Voronoi diagram with the region of every point: the regions of
    A, C and D are open, that of B is the triangle of the three
    vertices. *)
Definition sliver_voronoi : VoronoiInit.VoronoiObject :=
  {| VoronoiInit.diagram := sliver_vor;
     VoronoiInit.point_region := [0; 1; 2; 3]%Z |}.

(** A back end for these four points: the two geometry objects above, the
    distinct items of a list for its set, one cell per core cell, and
    base-class methods that change none of the tables. *)
Definition sliver_backend : VoronoiInit.Backend :=
  {| VoronoiInit.ConvexHull := fun _ => Py.Ok sliver_hull;
     VoronoiInit.scipy_Voronoi := fun _ => Py.Ok sliver_voronoi;
     VoronoiInit.set_items := nodup Z.eq_dec;
     VoronoiInit.CORE_NODE := 0%Z;
     VoronoiInit.BAD_INDEX_VALUE := bad_index;
     VoronoiInit.INACTIVE_LINK := 4%Z;
     VoronoiInit.number_of_cells :=
       fun g =>
         Py.Ok (Z.of_nat (length (VoronoiInit.core_cells
                                    (VoronoiInit.cells g))));
     VoronoiInit.sort_links_by_midpoint := @Py.Ok VoronoiInit.Grid;
     VoronoiInit._setup_inlink_and_outlink_matrices := @Py.Ok VoronoiInit.Grid;
     VoronoiInit._reset_link_status_list := @Py.Ok VoronoiInit.Grid;
     VoronoiInit.make_links_and_link_dirs_at_node := @Py.Ok VoronoiInit.Grid;
     VoronoiInit._make_link_unit_vectors := @Py.Ok VoronoiInit.Grid |}.

End Examples.

(** ** A link at the edge of the upper-right half, in doubles *)

Module DoubleExamples.
Import PrimFloat.

(** A link of a lattice with spacing 0.1: from the node at (0, 0.3) to the
    node at (0.1, 0.2).  The doubles are the nearest to the decimals: 0.1
    is 0x1.999999999999ap-4, 0.2 is 0x1.999999999999ap-3 and 0.3 is
    0x1.3333333333333p-2. *)
Definition tail_x : float := 0%float.
Definition tail_y : float := 0x1.3333333333333p-2%float.
Definition head_x : float := 0x1.999999999999ap-4%float.
Definition head_y : float := 0x1.999999999999ap-3%float.

(** What the C library's [atan2] returns for the offsets of the link taken
    forward, [atan2(0.1, -0.09999999999999998) = 2.356194490192345], and
    backward, [atan2(-0.1, 0.09999999999999998) = -0.7853981633974485]:
    the doubles nearest to the exact angles. *)
Definition angle_forward : float := 0x1.2d97c7f3321d2p+1%float.
Definition angle_backward : float := (-0x1.921fb54442d1ap-1)%float.

(** A function that has these two values where the link needs them. *)
Definition sample_arctan2 (a b : float) : float :=
  if ltb 0%float a then angle_forward else angle_backward.

(** Three nodes of the lattice and the three links between them; link 0 is
    the link above. *)
Definition corner : VoronoiDoubles.Grid :=
  {| VoronoiDoubles.node_x := [tail_x; head_x; head_x];
     VoronoiDoubles.node_y := [tail_y; head_y; tail_y];
     VoronoiDoubles.node_at_link_tail := [0; 0; 1]%Z;
     VoronoiDoubles.node_at_link_head := [1; 2; 2]%Z |}.

End DoubleExamples.
(** ** Reading the flux-divergence result *)

Module FluxSpec.
Import Py Np GridFuncs.

(** The element that a valid index denotes; 0 for an index out of range. *)
Definition at_index (a : list R) (i : Z) : R := item_or 0%R a i.

(** Flux times face width per active link, with the extra zero slot that
    the sentinel -1 reads. *)
Definition face_flux (grid : ModelGrid) (active_link_flux : list R) : list R :=
  zip_with Rmult active_link_flux (face_width grid) ++ [0%R].

(** The link id stored for node [n] in row [r] of a link matrix. *)
Definition link_of (matrix : list (list Z)) (r n : nat) : Z :=
  nth n (nth r matrix []) (-1)%Z.

Definition rows (grid : ModelGrid) : list nat :=
  seq 0 (length (node_active_inlink_matrix grid)).

(** Sum over the matrix rows of the values [v] at the links of node [n]. *)
Definition link_sum (matrix : list (list Z)) (rs : list nat) (v : list R)
  (n : nat) : R :=
  fold_right (fun r acc => (at_index v (link_of matrix r n) + acc)%R) 0%R rs.

Definition outgoing (grid : ModelGrid) (flux : list R) (n : nat) : R :=
  link_sum (node_active_outlink_matrix grid) (rows grid) (face_flux grid flux) n.

Definition incoming (grid : ModelGrid) (flux : list R) (n : nat) : R :=
  link_sum (node_active_inlink_matrix grid) (rows grid) (face_flux grid flux) n.

(** Total width of the faces of the links that leave, resp. enter, a
    node. *)
Definition padded_width (grid : ModelGrid) : list R :=
  face_width grid ++ [0%R].

Definition out_width (grid : ModelGrid) (n : nat) : R :=
  link_sum (node_active_outlink_matrix grid) (rows grid) (padded_width grid) n.

Definition in_width (grid : ModelGrid) (n : nat) : R :=
  link_sum (node_active_inlink_matrix grid) (rows grid) (padded_width grid) n.

(** The node that owns cell [c], as a position in the node arrays. *)
Definition node_of_cell (grid : ModelGrid) (c : Z) : option nat :=
  if valid_index (length (node_at_cell grid)) c then
    norm_index (number_of_nodes grid) (item_or 0%Z (node_at_cell grid) c)
  else None.

Definition area_of (grid : ModelGrid) (c : Z) : R :=
  at_index (area_of_cell grid) c.

(** What one pass of the loop over the matrix rows does to the running
    sums, for rows that fit the grid. *)
Definition row_update (grid : ModelGrid) (flux : list R) (net : list R)
  (i : nat) : list R :=
  zip_with Rminus
    (zip_with Rplus net
       (map (at_index flux) (nth i (node_active_outlink_matrix grid) [])))
    (map (at_index flux) (nth i (node_active_inlink_matrix grid) [])).

Definition row_ok (grid : ModelGrid) (row : list Z) : bool :=
  (length row =? number_of_nodes grid)
  && forallb (valid_index (number_of_active_links grid + 1)) row.

(** The tables of a grid fit together: sizes agree, link ids are active link
    ids or the sentinel, every core cell has its own node. *)
Definition well_formed (grid : ModelGrid) : bool :=
  (length (face_width grid) =? number_of_active_links grid)
  && (length (node_active_outlink_matrix grid)
      =? length (node_active_inlink_matrix grid))
  && forallb (row_ok grid) (node_active_inlink_matrix grid)
  && forallb (row_ok grid) (node_active_outlink_matrix grid)
  && forallb (valid_index (length (node_at_cell grid))) (core_cells grid)
  && forallb (valid_index (length (area_of_cell grid))) (core_cells grid)
  && forallb (fun c => match node_of_cell grid c with
                       | Some _ => true
                       | None => false
                       end) (core_cells grid)
  && distinct (map (node_of_cell grid) (core_cells grid)).

(** Node status codes: 0 is a core node, 4 a closed boundary node. *)
Definition is_core (grid : ModelGrid) (n : nat) : bool :=
  match nth_error (status_at_node grid) n with
  | Some s => (s =? 0)%Z
  | None => false
  end.

Definition boundary_fully_closed (grid : ModelGrid) : bool :=
  forallb (fun s => (s =? 0)%Z || (s =? 4)%Z) (status_at_node grid).

Definition has_cell (grid : ModelGrid) (n : nat) : bool :=
  existsb (fun c => match node_of_cell grid c with
                    | Some m => m =? n
                    | None => false
                    end) (core_cells grid).

End FluxSpec.

(** ** Reading the mapper results *)

Module MapSpec.
Import Py Np Mappers.

(** The link tables have one entry per link and only name nodes for which
    the node arrays [control] and [value] hold an entry. *)
Definition links_fit (grid : ModelGrid) (control value : list R) : bool :=
  (length (node_at_link_head grid) =? number_of_links grid)
  && (length (node_at_link_tail grid) =? number_of_links grid)
  && forallb (valid_index (length control)) (node_at_link_head grid)
  && forallb (valid_index (length control)) (node_at_link_tail grid)
  && forallb (valid_index (length value)) (node_at_link_head grid)
  && forallb (valid_index (length value)) (node_at_link_tail grid).

Definition head_of (grid : ModelGrid) (l : nat) : Z :=
  nth l (node_at_link_head grid) 0%Z.

Definition tail_of (grid : ModelGrid) (l : nat) : Z :=
  nth l (node_at_link_tail grid) 0%Z.

(** The entries of row [n] of [-(var[links_at_node] * link_dirs_at_node)]:
    positive where a link brings flux into node [n]. *)
Definition inflow_row (var : list R) (links dirs : list Z) : list R :=
  map Ropp (zip_with (fun (v : R) (d : Z) => (v * IZR d)%R)
              (map (item_or 0%R var) links) dirs).

Definition no_upwind_link (row : list R) : Prop :=
  Forall (fun v => (v <= 0)%R) row.

End MapSpec.

Module PointSpec.
Import Voronoi.

(** Ascending x, ties broken by ascending y. *)
Definition x_then_y (p q : point) : Prop :=
  (fst p < fst q \/ (fst p = fst q /\ snd p <= snd q))%R.

(** Ascending y, ties broken by ascending x. *)
Definition y_then_x (p q : point) : Prop :=
  (snd p < snd q \/ (snd p = snd q /\ fst p <= fst q))%R.

(** The order a stable sort on [key] makes of a list that was in the order
    [before]: by key, and as before among equal keys. *)
Definition refined_by {A : Type} (key : A -> R) (before : A -> A -> Prop)
  (a b : A) : Prop :=
  (key a < key b \/ (key a = key b /\ before a b))%R.

End PointSpec.

Module LinkSpec.
Import Np Voronoi.

(** [a[mask]] and [where(mask, yes, no)], for arrays as long as the mask. *)
Fixpoint pick {A : Type} (mask : list bool) (a : list A) : list A :=
  match mask, a with
  | m :: ms, x :: xs => if m then x :: pick ms xs else pick ms xs
  | _, _ => []
  end.

Fixpoint select {A : Type} (mask : list bool) (yes no : list A) : list A :=
  match mask, yes, no with
  | m :: ms, y :: ys, n :: ns => (if m then y else n) :: select ms ys ns
  | _, _, _ => []
  end.

Definition x_of (g : VoronoiDelaunayGrid) (i : Z) : R :=
  item_or 0%R (node_x g) i.

Definition y_of (g : VoronoiDelaunayGrid) (i : Z) : R :=
  item_or 0%R (node_y g) i.

(** Whether a link from node [t] to node [h] gets flipped. *)
Definition flips (g : VoronoiDelaunayGrid) (t h : Z) : bool :=
  Rltb (link_angle (x_of g h - x_of g t) (y_of g h - y_of g t)) 0.

(** The link arrays are equally long and name nodes of the grid. *)
Definition links_ok (g : VoronoiDelaunayGrid) : bool :=
  (length (node_at_link_tail g) =? length (node_at_link_head g))
  && forallb (valid_index (length (node_x g))) (node_at_link_tail g)
  && forallb (valid_index (length (node_x g))) (node_at_link_head g)
  && forallb (valid_index (length (node_y g))) (node_at_link_tail g)
  && forallb (valid_index (length (node_y g))) (node_at_link_head g).

Definition oriented_tail (g : VoronoiDelaunayGrid) : list Z :=
  zip_with (fun t h => if flips g t h then h else t)
    (node_at_link_tail g) (node_at_link_head g).

Definition oriented_head (g : VoronoiDelaunayGrid) : list Z :=
  zip_with (fun t h => if flips g t h then t else h)
    (node_at_link_tail g) (node_at_link_head g).

End LinkSpec.

Module PatchSpec.
Import Voronoi.

(** The nodata options the patch queries know: -1, 'bad_value' and 'nan'. *)
Definition valid_nodata (nodata : pyval) : bool :=
  match nodata with
  | PyInt z => (z =? -1)%Z
  | PyStr s => String.eqb s "bad_value" || String.eqb s "nan"
  end.

End PatchSpec.

Module FaceSpec.
Import Voronoi.

(** The squared distance of two points. *)
Definition dist2 (p q : point) : R :=
  ((fst p - fst q) * (fst p - fst q) + (snd p - snd q) * (snd p - snd q))%R.

End FaceSpec.

(** ** Reading the geometry helpers *)

Module AreaSpec.
Import Voronoi.

(** The cross product of two position vectors: twice the signed area of the
    triangle they span with the origin. *)
Definition cross (p q : point) : R :=
  (fst p * snd q - fst q * snd p)%R.

(** The sum of the cross products of consecutive vertices, and the term
    that closes the polygon. *)
Fixpoint open_chain (l : list point) : R :=
  match l with
  | p :: (q :: _) as t => (cross p q + open_chain t)%R
  | _ => 0%R
  end.

Definition closing (l : list point) : R :=
  cross (last l (0, 0)%R) (hd (0, 0)%R l).

(** The shoelace formula. *)
Definition shoelace (l : list point) : R :=
  (0.5 * Rabs (open_chain l + closing l))%R.

Definition translate (a b : R) (p : point) : point :=
  (fst p + a, snd p + b)%R.

End AreaSpec.

Module LengthSpec.
Import Np Voronoi.

(** The point an index denotes in [pts]. *)
Definition node_point (pts : list point) (i : Z) : point :=
  item_or (0, 0)%R pts i.

(** The Euclidean distance of two points. *)
Definition distance (p q : point) : R :=
  sqrt ((fst q - fst p) * (fst q - fst p) + (snd q - snd p) * (snd q - snd p)).

(** The two index arrays are equally long and name points of [pts]. *)
Definition ends_ok (pts : list point) (link_from link_to : list Z) : bool :=
  (length link_from =? length link_to)
  && forallb (valid_index (length pts)) link_from
  && forallb (valid_index (length pts)) link_to.

End LengthSpec.

Module CellSpec.
Import Np.

(** Which nodes are core nodes, and how many. *)
Definition core_mask (core : Z) (node_status : list Z) : list bool :=
  map (fun s => (s =? core)%Z) node_status.

Definition core_count (core : Z) (node_status : list Z) : nat :=
  count_nonzero (core_mask core node_status).

(** [numpy.where(node_status == core)[0]]: the core nodes, ascending. *)
Definition core_nodes (core : Z) (node_status : list Z) : list Z :=
  where1 (core_mask core node_status).

(** The core nodes numbered from [c] in the order of their ids, [bad] at
    the other nodes. *)
Fixpoint number_cells (core bad : Z) (c : Z) (node_status : list Z) : list Z :=
  match node_status with
  | [] => []
  | s :: t =>
      if (s =? core)%Z then c :: number_cells core bad (c + 1) t
      else bad :: number_cells core bad c t
  end.

End CellSpec.

Module NodeLinkSpec.
Import Np Mappers.

(** The value a slot of [links_at_node] reads: the link's value, or the
    extra last entry for the entry -1 of a missing link. *)
Definition link_or (var : list R) (last_entry : R) (e : Z) : R :=
  if (e =? -1)%Z then last_entry else item_or 0%R var e.

(** Every node has a row of slots, no row is empty, and every slot holds a
    link id or -1. *)
Definition rows_ok (grid : ModelGrid) : bool :=
  (length (links_at_node grid) =? number_of_nodes grid)
  && forallb (fun row =>
                negb (length row =? 0)
                && forallb (fun e => (-1 <=? e)%Z
                                     && (e <? Z.of_nat (number_of_links grid))%Z)
                     row)
       (links_at_node grid).

Definition row_min (r : list R) : R :=
  match r with
  | [] => 0%R
  | x :: t => fold_left Rmin t x
  end.

Definition row_max (r : list R) : R :=
  match r with
  | [] => 0%R
  | x :: t => fold_left Rmax t x
  end.

End NodeLinkSpec.

Module WindSpec.
Import Np NpMore Mappers.

(** The slots and the directions have the same shape, one non-empty row
    per node, and every slot holds a valid index of the link array. *)
Definition dirs_ok (grid : ModelGrid) (var : list R) : bool :=
  (length (links_at_node grid) =? number_of_nodes grid)
  && same_shape (links_at_node grid) (link_dirs_at_node grid)
  && forallb (fun row =>
                negb (length row =? 0)
                && forallb (valid_index (length var)) row)
       (links_at_node grid).

(** [var[links_at_node] * link_dirs_at_node] *)
Definition flux_rows (grid : ModelGrid) (var : list R) : list (list R) :=
  zip_with (zip_with (fun (e d : Z) => (item_or 0%R var e * IZR d)%R))
    (links_at_node grid) (link_dirs_at_node grid).

End WindSpec.

Module PickSpec.
Import Np NpMore Mappers WindSpec.

(** The position [numpy.argmax] picks in a row (0 in an empty one). *)
Definition argmax_ix (a : list R) : nat :=
  match a with
  | [] => 0
  | x :: t => argmax_from x 0 1 t
  end.

(** What the two value mappers record at node [i]: with [score] turning a
    flux into what [argmax] compares and [invalid] telling which fluxes do
    not count, the value of the link in the slot [argmax] picks, or 0 where
    that slot does not count. *)
Definition picked_value (grid : ModelGrid) (control value : list R)
  (score : R -> R) (invalid : R -> bool) (i : nat) : R :=
  let fluxes := nth i (flux_rows grid control) [] in
  let j := argmax_ix (map score fluxes) in
  if invalid (nth j fluxes 0%R) then 0%R
  else item_or 0%R value (nth j (nth i (links_at_node grid) []) 0%Z).

End PickSpec.

(** ** Reading the resolving functions *)

Module ResolveSpec.
Import Py Np GridResolve.
Local Open Scope py_scope.

(** The tables of link ends are as long as the table of link lengths and
    hold valid node indices. *)
Definition links_ok (grid : ModelGrid) : bool :=
  (length (node_at_link_head grid) =? length (link_length grid))
  && (length (node_at_link_tail grid) =? length (link_length grid))
  && (length (node_x grid) =? length (node_y grid))
  && forallb (valid_index (length (node_x grid))) (node_at_link_head grid)
  && forallb (valid_index (length (node_x grid))) (node_at_link_tail grid).

(** One component of the values: the difference of the coordinate [coord]
    between the two ends of every link, over the link's length, times the
    link's value. *)
Definition component (coord : list R) (to from : list Z)
  (lengths values : list R) : list R :=
  zip_with Rmult
    (zip_with Rdiv
       (zip_with Rminus (map (item_or 0%R coord) to)
          (map (item_or 0%R coord) from))
       lengths)
    values.

(** The expression [np.multiply((coord[to] - coord[from]) / lengths, values)]
    that both functions evaluate, once for each coordinate. *)
Definition run_component (coord : list R) (to from : list Z)
  (lengths values : list R) : result (list R) :=
  a <- take coord to ;;
  b <- take coord from ;;
  d <- broadcast2 Rminus a b ;;
  u <- broadcast2 Rdiv d lengths ;;
  broadcast2 Rmult u values.

End ResolveSpec.

(** ** Reading the patch table *)

Module PatchTableSpec.
Import Np Voronoi.

(** Node [i] is a closed boundary node. *)
Definition closed_node (self : VoronoiDelaunayGrid) (i : nat) : bool :=
  (item_or 0%Z (status_at_node self) (Z.of_nat i) =? 4)%Z.

(** The patches that have node [i] as a corner. *)
Definition patches_of (simplices : list (list Z)) (i : nat) : list Z :=
  rows_containing (Z.of_nat i) 0 simplices.

(** Row [i] of the table: the patches of the node and then the fill value,
    or the fill value alone at a closed node. *)
Definition patch_row (fill : entry) (width : nat) (self : VoronoiDelaunayGrid)
  (simplices : list (list Z)) (i : nat) : list entry :=
  if closed_node self i then repeat fill width
  else map Id (patches_of simplices i)
       ++ repeat fill (width - length (patches_of simplices i)).

(** Every node has a status, and no open node has more patches than the
    table is wide. *)
Definition table_fits (self : VoronoiDelaunayGrid) (simplices : list (list Z))
  (width : nat) : bool :=
  (number_of_nodes self <=? length (status_at_node self))
  && forallb (fun i => closed_node self i
                       || (length (patches_of simplices i) <=? width))
       (seq 0 (number_of_nodes self)).

(** The number of patches and the patches themselves are set together. *)
Definition cache_ok (self : VoronoiDelaunayGrid) : bool :=
  match _number_of_patches self, _nodes_at_patch self with
  | None, None => true
  | Some n, Some rows => n =? length rows
  | _, _ => false
  end.

End PatchTableSpec.

(** ** Reading the links of a triangulation *)

Module TriLinkSpec.
Import Np VoronoiLinks.

(** The edge opposite corner [i] of triangle [t] is listed when no triangle
    lies across it, or one that comes later (or [t] itself). *)
Definition listed (t : nat) (neighbor : Z) : bool :=
  (neighbor =? -1)%Z || (Z.of_nat t <=? neighbor)%Z.

(** The two ends of that edge. *)
Definition edge (corners : list Z) (i : nat) : Z * Z :=
  (nth ((i + 1) mod 3) corners 0%Z, nth ((i + 2) mod 3) corners 0%Z).

(** The edges listed for triangle [t], for its corners [vs]. *)
Definition edges_of_triangle (tri : Delaunay) (t : nat) (vs : list nat)
  : list (Z * Z) :=
  flat_map (fun i =>
              if listed t (nth i (nth t (neighbors tri) []) 0%Z)
              then [edge (nth t (simplices tri) []) i] else [])
    vs.

(** The edges listed for the triangles [ts], in the order of the loop. *)
Definition edges_of (tri : Delaunay) (ts : list nat) : list (Z * Z) :=
  flat_map (fun t => edges_of_triangle tri t [0; 1; 2]) ts.

(** The number of entries of the neighbour table, from row [t] on, that
    [p] holds of. *)
Fixpoint count_entries (p : nat -> Z -> bool) (t : nat) (rows : list (list Z))
  : nat :=
  match rows with
  | [] => 0
  | r :: rest => length (filter (p t) r) + count_entries p (S t) rest
  end.

(** Every triangle has three corners and three neighbour entries, each -1
    or a triangle. *)
Definition table_ok (tri : Delaunay) : bool :=
  (length (neighbors tri) =? nsimplex tri)
  && forallb (fun r => length r =? 3) (simplices tri)
  && forallb (fun r =>
                (length r =? 3)
                && forallb (fun n => (-1 <=? n)%Z
                                     && (n <? Z.of_nat (nsimplex tri))%Z) r)
       (neighbors tri).

(** Being a neighbour is mutual: as many entries name an earlier triangle
    as name a later one, and no triangle is its own neighbour. *)
Definition mutual (tri : Delaunay) : bool :=
  (count_entries (fun t n => (0 <=? n)%Z && (n <? Z.of_nat t)%Z) 0
     (neighbors tri)
   =? count_entries (fun t n => (Z.of_nat t <? n)%Z) 0 (neighbors tri))
  && (count_entries (fun t n => (n =? Z.of_nat t)%Z) 0 (neighbors tri) =? 0).

(** The variables of the loop when the edges [E] have been written to
    arrays of [n] slots and the first [t] of [T] triangles are done. *)
Definition state_after (n : nat) (E : list (Z * Z)) (t T : nat) : LinkState :=
  {| link_fromnode := map fst E ++ repeat 0%Z (n - length E);
     link_tonode := map snd E ++ repeat 0%Z (n - length E);
     link_id := length E;
     tridone := repeat true t ++ repeat false (T - t) |}.

End TriLinkSpec.

(** ** Reading the orientation of links in doubles *)

Module DoubleLinkSpec.
Import Np PrimFloat VoronoiDoubles DoubleExamples.

Definition x_of (g : Grid) (i : Z) : float := item_or 0%float (node_x g) i.

Definition y_of (g : Grid) (i : Z) : float := item_or 0%float (node_y g) i.

(** Whether a link from node [t] to node [h] gets flipped. *)
Definition flips (arctan2 : float -> float -> float) (g : Grid) (t h : Z)
  : bool :=
  ltb (link_angle arctan2 (x_of g h - x_of g t) (y_of g h - y_of g t))%float
    0%float.

(** The link arrays are equally long and name nodes of the grid. *)
Definition links_ok (g : Grid) : bool :=
  (length (node_at_link_tail g) =? length (node_at_link_head g))%nat
  && forallb (valid_index (length (node_x g))) (node_at_link_tail g)
  && forallb (valid_index (length (node_x g))) (node_at_link_head g)
  && forallb (valid_index (length (node_y g))) (node_at_link_tail g)
  && forallb (valid_index (length (node_y g))) (node_at_link_head g).

Definition oriented_tail (arctan2 : float -> float -> float) (g : Grid)
  : list Z :=
  zip_with (fun t h => if flips arctan2 g t h then h else t)
    (node_at_link_tail g) (node_at_link_head g).

Definition oriented_head (arctan2 : float -> float -> float) (g : Grid)
  : list Z :=
  zip_with (fun t h => if flips arctan2 g t h then t else h)
    (node_at_link_tail g) (node_at_link_head g).

(** [arctan2] has the values of the C library at the offsets of the example
    link, taken forward and backward. *)
Definition libm_at_link (arctan2 : float -> float -> float) : Prop :=
  arctan2 (head_x - tail_x)%float (head_y - tail_y)%float = angle_forward
  /\ arctan2 (tail_x - head_x)%float (tail_y - head_y)%float = angle_backward.

(** Link [k] of the grid goes from a node at (0, 0.3) to a node at
    (0.1, 0.2). *)
Definition is_example_link (g : Grid) (k : nat) : Prop :=
  (k < length (node_at_link_tail g))%nat
  /\ x_of g (nth k (node_at_link_tail g) 0%Z) = tail_x
  /\ y_of g (nth k (node_at_link_tail g) 0%Z) = tail_y
  /\ x_of g (nth k (node_at_link_head g) 0%Z) = head_x
  /\ y_of g (nth k (node_at_link_head g) 0%Z) = head_y.

End DoubleLinkSpec.

(** ** Reading the construction of a grid *)

Module InitSpec.
Import Py VoronoiInit.

(** A method of the base class leaves the points and the node coordinates
    as they are. *)
Definition keeps_nodes (step : Grid -> result Grid) : Prop :=
  forall s s' : Grid, step s = Ok s' -> nodes s' = nodes s.

Definition base_keeps_nodes (env : Backend) : Prop :=
  keeps_nodes (sort_links_by_midpoint env)
  /\ keeps_nodes (_setup_inlink_and_outlink_matrices env)
  /\ keeps_nodes (_reset_link_status_list env)
  /\ keeps_nodes (make_links_and_link_dirs_at_node env)
  /\ keeps_nodes (_make_link_unit_vectors env).

(** The node tables of a grid whose points are [p]. *)
Definition nodes_of (p : list Voronoi.point) : NodeTables :=
  {| pts := p; node_x := map fst p; node_y := map snd p |}.

End InitSpec.
(** ** Facts about the array operations *)

Module NpFacts.
Import Py Np.
Local Open Scope py_scope.

Lemma norm_index_lt (n : nat) (i : Z) (k : nat) :
  norm_index n i = Some k -> k < n.
Proof.
  unfold norm_index.
  destruct ((0 <=? i) && (i <? Z.of_nat n))%Z eqn:E1.
  - intros H. inversion H. apply andb_true_iff in E1. lia.
  - destruct ((- Z.of_nat n <=? i) && (i <? 0))%Z eqn:E2; [| discriminate].
    intros H. inversion H. apply andb_true_iff in E2. lia.
Qed.

Lemma norm_index_of_nat (n k : nat) :
  k < n -> norm_index n (Z.of_nat k) = Some k.
Proof.
  intros H. unfold norm_index.
  replace ((0 <=? Z.of_nat k) && (Z.of_nat k <? Z.of_nat n))%Z with true.
  - now rewrite Nat2Z.id.
  - symmetry. apply andb_true_iff. split; lia.
Qed.

Lemma getitem_valid {A : Type} (d : A) (a : list A) (i : Z) :
  valid_index (length a) i = true -> getitem a i = Ok (item_or d a i).
Proof.
  unfold valid_index, getitem, item_or.
  destruct (norm_index (length a) i) as [k |] eqn:E; [| discriminate].
  intros _. apply norm_index_lt in E.
  destruct (nth_error a k) as [x |] eqn:Ek.
  - now rewrite (nth_error_nth _ _ d Ek).
  - apply nth_error_None in Ek. lia.
Qed.

Lemma getitem_of_nat {A : Type} (d : A) (a : list A) (k : nat) :
  k < length a -> getitem a (Z.of_nat k) = Ok (nth k a d).
Proof.
  intros H. rewrite (getitem_valid d).
  - unfold item_or. now rewrite norm_index_of_nat.
  - unfold valid_index. now rewrite norm_index_of_nat.
Qed.

Lemma mapM_ok {A B : Type} (f : A -> result B) (g : A -> B) (l : list A) :
  (forall x, In x l -> f x = Ok (g x)) -> mapM f l = Ok (map g l).
Proof.
  induction l as [| x xs IH]; intros H; simpl; [reflexivity |].
  rewrite (H x (or_introl eq_refl)). simpl.
  rewrite IH; [reflexivity |]. intros y Hy. apply H. now right.
Qed.

Lemma take_valid {A : Type} (d : A) (a : list A) (idx : list Z) :
  forallb (valid_index (length a)) idx = true ->
  take a idx = Ok (map (item_or d a) idx).
Proof.
  intros H. apply mapM_ok. intros i Hi.
  apply getitem_valid. rewrite forallb_forall in H. now apply H.
Qed.

Lemma zip_with_length {A B C : Type} (f : A -> B -> C) (a : list A) (b : list B) :
  length (zip_with f a b) = Nat.min (length a) (length b).
Proof.
  revert b. induction a as [| x a IH]; intros [| y b]; simpl; auto.
Qed.

Lemma nth_zip_with {A B C : Type} (f : A -> B -> C) (a : list A) (b : list B)
  (n : nat) (da : A) (db : B) (dc : C) :
  n < length a -> n < length b ->
  nth n (zip_with f a b) dc = f (nth n a da) (nth n b db).
Proof.
  revert b n. induction a as [| x a IH]; intros [| y b] [| n]; simpl; intros Ha Hb;
    try lia; [reflexivity |].
  apply IH; lia.
Qed.

Lemma nth_map_in {A B : Type} (f : A -> B) (l : list A) (n : nat) (da : A) (db : B) :
  n < length l -> nth n (map f l) db = f (nth n l da).
Proof.
  intros H. rewrite (nth_indep _ db (f da)) by (now rewrite length_map).
  apply map_nth.
Qed.

Lemma broadcast_to_same {A : Type} (n : nat) (v : list A) :
  length v = n -> broadcast_to n v = Ok v.
Proof.
  intros H. unfold broadcast_to. apply Nat.eqb_eq in H. now rewrite H.
Qed.

Lemma broadcast2_same {A B C : Type} (f : A -> B -> C) (a : list A) (b : list B) :
  length a = length b -> broadcast2 f a b = Ok (zip_with f a b).
Proof.
  intros H. unfold broadcast2.
  assert (Hn : (if length a =? 1 then length b else length a) = length a)
    by (destruct (length a =? 1); congruence).
  rewrite Hn. rewrite broadcast_to_same by reflexivity. simpl.
  rewrite broadcast_to_same by congruence. reflexivity.
Qed.

Lemma inplace2_same {A B : Type} (f : A -> B -> A) (a : list A) (b : list B) :
  length b = length a -> inplace2 f a b = Ok (zip_with f a b).
Proof.
  intros H. unfold inplace2. rewrite broadcast_to_same by assumption.
  reflexivity.
Qed.

Lemma foldM_app {S A : Type} (body : S -> A -> result S) (l1 l2 : list A) (s : S) :
  foldM body (l1 ++ l2) s = bind (foldM body l1 s) (foldM body l2).
Proof.
  revert s. induction l1 as [| x l1 IH]; intros s; simpl; [reflexivity |].
  destruct (body s x); simpl; auto.
Qed.

Lemma foldM_ok {S A : Type} (body : S -> A -> result S) (step : S -> A -> S)
  (inv : S -> Prop) (l : list A) (s : S) :
  inv s ->
  (forall s x, inv s -> In x l -> body s x = Ok (step s x) /\ inv (step s x)) ->
  foldM body l s = Ok (fold_left step l s) /\ inv (fold_left step l s).
Proof.
  revert s. induction l as [| x l IH]; intros s Hs H; simpl; [auto |].
  destruct (H s x Hs (or_introl eq_refl)) as [E Hi]. rewrite E. simpl.
  apply IH; [assumption |]. intros s' y Hs' Hy. apply H; [assumption | now right].
Qed.

Lemma set_nth_length {A : Type} (k : nat) (x : A) (a : list A) :
  length (set_nth k x a) = length a.
Proof.
  revert k. induction a as [| h t IH]; intros [| k]; simpl; auto.
Qed.

Lemma nth_set_nth_same {A : Type} (k : nat) (x d : A) (a : list A) :
  k < length a -> nth k (set_nth k x a) d = x.
Proof.
  revert k. induction a as [| h t IH]; intros [| k]; simpl; intros H; try lia; auto.
  apply IH. lia.
Qed.

Lemma nth_set_nth_other {A : Type} (k n : nat) (x d : A) (a : list A) :
  n <> k -> nth n (set_nth k x a) d = nth n a d.
Proof.
  revert k n. induction a as [| h t IH]; intros [| k] [| n]; simpl; intros H;
    try congruence; auto.
Qed.

Lemma distinct_head (x : nat) (t : list (option nat)) :
  distinct (Some x :: t) = true -> ~ In (Some x) t /\ distinct t = true.
Proof.
  simpl. intros H. apply andb_true_iff in H. destruct H as [H1 H2].
  split; [| assumption]. intros Hin.
  apply negb_true_iff in H1.
  assert (Hex : existsb (fun y => match y with
                                  | Some b => x =? b
                                  | None => true
                                  end) t = true).
  { apply existsb_exists. exists (Some x). split; [assumption |].
    apply Nat.eqb_refl. }
  congruence.
Qed.

(** [a[idx] = v] with valid indices: every position that no index denotes
    keeps its value; when the indices denote distinct positions, position
    [idx[j]] receives [v[j]]. *)
Lemma scatter_spec {A : Type} (d : A) (idx : list Z) :
  forall (a v : list A),
    length v = length idx ->
    forallb (valid_index (length a)) idx = true ->
    exists res,
      scatter a idx v = Ok res /\
      length res = length a /\
      (forall n, ~ In (Some n) (map (norm_index (length a)) idx) ->
                 nth n res d = nth n a d) /\
      (distinct (map (norm_index (length a)) idx) = true ->
       forall j i n, nth_error idx j = Some i ->
                     norm_index (length a) i = Some n ->
                     nth n res d = nth j v d).
Proof.
  unfold scatter. induction idx as [| i idx IH]; intros a v Hlen Hvalid.
  - destruct v; [| discriminate]. simpl. exists a. repeat split; auto.
    intros _ [| j] i n H; discriminate.
  - destruct v as [| x v]; [discriminate |].
    rewrite broadcast_to_same by assumption. simpl.
    simpl in Hvalid. apply andb_true_iff in Hvalid. destruct Hvalid as [Hi Hrest].
    unfold setitem at 1. unfold valid_index in Hi.
    destruct (norm_index (length a) i) as [k |] eqn:Ek; [| discriminate].
    simpl. pose proof (norm_index_lt _ _ _ Ek) as Hk.
    destruct (IH (set_nth k x a) v) as (res & Hres & Hl & Hkeep & Hput).
    + simpl in Hlen. lia.
    + now rewrite set_nth_length.
    + rewrite broadcast_to_same in Hres by (simpl in Hlen; lia). simpl in Hres.
      rewrite set_nth_length in *.
      exists res. split; [assumption |]. split; [assumption |]. split.
      * intros n Hn. rewrite Hkeep.
        -- apply nth_set_nth_other. intros ->. apply Hn. now left.
        -- intros Hin. apply Hn. now right.
      * intros Hd. apply distinct_head in Hd. destruct Hd as [Hnot Hd].
        intros [| j] i' n Hj Hn'; simpl in Hj.
        -- inversion Hj; subst i'. rewrite Ek in Hn'. inversion Hn'; subst n.
           rewrite Hkeep by assumption. simpl. now apply nth_set_nth_same.
        -- simpl. now apply (Hput Hd j i' n).
Qed.

Lemma Rltb_true (x y : R) : (x < y)%R -> Rltb x y = true.
Proof.
  intros H. unfold Rltb. destruct (Rlt_dec x y); [reflexivity | contradiction].
Qed.

Lemma Rltb_false (x y : R) : (y <= x)%R -> Rltb x y = false.
Proof.
  intros H. unfold Rltb. destruct (Rlt_dec x y); [lra | reflexivity].
Qed.

End NpFacts.

(** Evaluation of the array programs on concrete data: the list and index
    structure computes, the arithmetic on reals is left to [lra]. *)
Ltac r_eval :=
  cbv -[Rplus Rminus Rmult Rdiv Rinv Ropp IZR INR R0 R1 Rmax Rabs sqrt atan PI
        Np.Rltb Np.Rleb Rlt_dec Rle_dec Req_dec_T].

Ltac r_decide :=
  repeat match goal with
    | |- context [Np.Rltb ?a ?b] =>
        first [ rewrite (NpFacts.Rltb_true a b) by lra
              | rewrite (NpFacts.Rltb_false a b) by lra ]
    | |- context [Rabs ?a] =>
        first [ rewrite (Rabs_right a) by lra
              | rewrite (Rabs_left a) by lra ]
    | |- context [Rmax ?a ?b] =>
        first [ rewrite (Rmax_left a b) by lra
              | rewrite (Rmax_right a b) by lra ]
    | |- context [Req_dec_T ?a ?b] =>
        destruct (Req_dec_T a b); [try (exfalso; lra) | try (exfalso; lra)]
    | |- context [Rlt_dec ?a ?b] =>
        destruct (Rlt_dec a b); [try (exfalso; lra) | try (exfalso; lra)]
    | |- context [Rle_dec ?a ?b] =>
        destruct (Rle_dec a b); [try (exfalso; lra) | try (exfalso; lra)]
    end.

Ltac r_list :=
  repeat (apply f_equal2; [try lra; try (f_equal; lra) |]); try reflexivity.
(** ** Properties of [calculate_flux_divergence_at_nodes] *)

Module FluxFacts.
Import Py Np NpFacts GridFuncs FluxSpec.
Local Open Scope R_scope.

Lemma row_ok_spec (g : ModelGrid) (row : list Z) :
  row_ok g row = true ->
  length row = number_of_nodes g /\
  forallb (valid_index (number_of_active_links g + 1)) row = true.
Proof.
  unfold row_ok. intros H. apply andb_true_iff in H. destruct H as [H1 H2].
  apply Nat.eqb_eq in H1. auto.
Qed.

Lemma well_formed_spec (g : ModelGrid) :
  well_formed g = true ->
  length (face_width g) = number_of_active_links g /\
  length (node_active_outlink_matrix g) = length (node_active_inlink_matrix g) /\
  forallb (row_ok g) (node_active_inlink_matrix g) = true /\
  forallb (row_ok g) (node_active_outlink_matrix g) = true /\
  forallb (valid_index (length (node_at_cell g))) (core_cells g) = true /\
  forallb (valid_index (length (area_of_cell g))) (core_cells g) = true /\
  (forall c, In c (core_cells g) -> exists n, node_of_cell g c = Some n) /\
  distinct (map (node_of_cell g) (core_cells g)) = true.
Proof.
  unfold well_formed. rewrite !andb_true_iff, !Nat.eqb_eq.
  intros (((((((H1 & H2) & H3) & H4) & H5) & H6) & H7) & H8).
  repeat split; try assumption.
  intros c Hc. rewrite forallb_forall in H7. specialize (H7 c Hc).
  destruct (node_of_cell g c) as [n |]; [now exists n | discriminate].
Qed.

Lemma wf_rows (g : ModelGrid) (i : nat) :
  well_formed g = true ->
  (i < length (node_active_inlink_matrix g))%nat ->
  row_ok g (nth i (node_active_inlink_matrix g) []) = true /\
  row_ok g (nth i (node_active_outlink_matrix g) []) = true /\
  (i < length (node_active_outlink_matrix g))%nat.
Proof.
  intros Hwf Hi.
  destruct (well_formed_spec g Hwf) as (_ & Hrows & Hin & Hout & _).
  rewrite forallb_forall in Hin, Hout.
  split; [| split].
  - apply Hin. now apply nth_In.
  - apply Hout. apply nth_In. lia.
  - lia.
Qed.

Lemma add_row_ok (g : ModelGrid) (fl net : list R) (i : nat) :
  well_formed g = true ->
  length fl = (number_of_active_links g + 1)%nat ->
  length net = number_of_nodes g ->
  (i < length (node_active_inlink_matrix g))%nat ->
  add_row g fl net i = Ok (row_update g fl net i) /\
  length (row_update g fl net i) = number_of_nodes g.
Proof.
  intros Hwf Hfl Hnet Hi.
  destruct (wf_rows g i Hwf Hi) as (Hin & Hout & Hio).
  apply row_ok_spec in Hin, Hout.
  destruct Hin as [Lin Vin], Hout as [Lout Vout].
  unfold add_row, row_update.
  rewrite (getitem_of_nat []) by assumption. simpl.
  rewrite (take_valid 0) by (now rewrite Hfl). simpl.
  rewrite inplace2_same by (rewrite length_map; congruence). simpl.
  rewrite (getitem_of_nat []) by assumption. simpl.
  rewrite (take_valid 0) by (now rewrite Hfl). simpl.
  rewrite inplace2_same
    by (rewrite zip_with_length, !length_map; lia).
  split; [reflexivity |].
  rewrite !zip_with_length, !length_map. lia.
Qed.

Lemma nth_row_update (g : ModelGrid) (fl net : list R) (i n : nat) :
  well_formed g = true ->
  length net = number_of_nodes g ->
  (i < length (node_active_inlink_matrix g))%nat ->
  (n < number_of_nodes g)%nat ->
  nth n (row_update g fl net i) 0 =
  nth n net 0
  + at_index fl (link_of (node_active_outlink_matrix g) i n)
  - at_index fl (link_of (node_active_inlink_matrix g) i n).
Proof.
  intros Hwf Hnet Hi Hn.
  destruct (wf_rows g i Hwf Hi) as (Hin & Hout & Hio).
  apply row_ok_spec in Hin, Hout.
  destruct Hin as [Lin Vin], Hout as [Lout Vout].
  unfold row_update, link_of.
  rewrite (nth_zip_with Rminus _ _ n 0 0)
    by (rewrite ?zip_with_length, ?length_map; lia).
  rewrite (nth_zip_with Rplus _ _ n 0 0) by (rewrite ?length_map; lia).
  rewrite !(nth_map_in _ _ _ (-1)%Z) by lia.
  reflexivity.
Qed.

Lemma loop_ok (g : ModelGrid) (fl net : list R) :
  well_formed g = true ->
  length fl = (number_of_active_links g + 1)%nat ->
  length net = number_of_nodes g ->
  for_range (length (node_active_inlink_matrix g)) (add_row g fl) net
  = Ok (fold_left (row_update g fl) (rows g) net) /\
  length (fold_left (row_update g fl) (rows g) net) = number_of_nodes g.
Proof.
  intros Hwf Hfl Hnet. unfold for_range, rows.
  apply (foldM_ok _ _ (fun s => length s = number_of_nodes g)); [assumption |].
  intros s x Hs Hx. apply in_seq in Hx. apply add_row_ok; auto. lia.
Qed.

Lemma nth_loop (g : ModelGrid) (fl : list R) (n : nat) :
  well_formed g = true ->
  (n < number_of_nodes g)%nat ->
  forall (rs : list nat) (net : list R),
    (forall r, In r rs -> (r < length (node_active_inlink_matrix g))%nat) ->
    length net = number_of_nodes g ->
    length (fold_left (row_update g fl) rs net) = number_of_nodes g /\
    nth n (fold_left (row_update g fl) rs net) 0 =
    nth n net 0
    + link_sum (node_active_outlink_matrix g) rs fl n
    - link_sum (node_active_inlink_matrix g) rs fl n.
Proof.
  intros Hwf Hn. induction rs as [| r rs IH]; intros net Hrs Hnet; simpl.
  - split; [assumption | ring].
  - assert (Hr : (r < length (node_active_inlink_matrix g))%nat)
      by (apply Hrs; now left).
    assert (Hlen : length (row_update g fl net r) = number_of_nodes g).
    { unfold row_update.
      destruct (wf_rows g r Hwf Hr) as (Hin & Hout & _).
      apply row_ok_spec in Hin, Hout.
      rewrite !zip_with_length, !length_map. lia. }
    destruct (IH (row_update g fl net r)) as [L E]; auto.
    { intros r' Hr'. apply Hrs. now right. }
    split; [assumption |]. rewrite E.
    rewrite nth_row_update by assumption. ring.
Qed.

Lemma skipn_zeros (n : nat) : skipn n (zeros (n + 1)) = [0].
Proof.
  unfold zeros. induction n as [| n IH]; simpl; [reflexivity | assumption].
Qed.

Lemma node_of_cell_lt (g : ModelGrid) (c : Z) (n : nat) :
  node_of_cell g c = Some n -> (n < number_of_nodes g)%nat.
Proof.
  unfold node_of_cell. destruct (valid_index _ c); [| discriminate].
  apply norm_index_lt.
Qed.

Lemma has_cell_false (g : ModelGrid) (n : nat) :
  has_cell g n = false ->
  ~ In (Some n) (map (node_of_cell g) (core_cells g)).
Proof.
  unfold has_cell. intros H Hin. apply in_map_iff in Hin.
  destruct Hin as (c & Hc & Hin).
  assert (E : existsb (fun c => match node_of_cell g c with
                               | Some m => (m =? n)%nat
                               | None => false
                               end) (core_cells g) = true).
  { apply existsb_exists. exists c. split; [assumption |].
    rewrite Hc. apply Nat.eqb_refl. }
  congruence.
Qed.

(** What the function returns on a well-formed grid: at the node of a core
    cell the net face flux (outgoing minus incoming) divided by the cell
    area; at every other node the net face flux itself. *)
Theorem flux_divergence_spec (g : ModelGrid) (flux : list R) :
  well_formed g = true ->
  length flux = number_of_active_links g ->
  exists res,
    calculate_flux_divergence_at_nodes g flux None = Ok res /\
    length res = number_of_nodes g /\
    (forall c n, In c (core_cells g) -> node_of_cell g c = Some n ->
       nth n res 0 = (outgoing g flux n - incoming g flux n) / area_of g c) /\
    (forall n, (n < number_of_nodes g)%nat -> has_cell g n = false ->
       nth n res 0 = outgoing g flux n - incoming g flux n).
Proof.
  intros Hwf Hlen.
  destruct (well_formed_spec g Hwf)
    as (Hwidth & _ & _ & _ & Hcells & Hareas & Hnodes & Hdistinct).
  unfold calculate_flux_divergence_at_nodes.
  rewrite Hlen, Nat.eqb_refl. simpl.
  unfold empty_at_node. rewrite length_map. unfold zeros at 1.
  rewrite repeat_length, Nat.eqb_refl. simpl.
  rewrite broadcast2_same by congruence. simpl.
  unfold assign_prefix.
  assert (Hz : length (zeros (number_of_active_links g + 1))
               = (number_of_active_links g + 1)%nat)
    by (unfold zeros; apply repeat_length).
  rewrite Hz.
  replace (Nat.min (number_of_active_links g) (number_of_active_links g + 1))
    with (number_of_active_links g) by lia.
  rewrite broadcast_to_same
    by (rewrite zip_with_length; lia).
  simpl. rewrite skipn_zeros. fold (face_flux g flux).
  assert (Hfl : length (face_flux g flux) = (number_of_active_links g + 1)%nat).
  { unfold face_flux. rewrite length_app, zip_with_length. simpl. lia. }
  set (net0 := map (fun _ : R => 0) (zeros (number_of_nodes g))).
  assert (Hnet0 : length net0 = number_of_nodes g).
  { unfold net0, zeros. now rewrite length_map, repeat_length. }
  destruct (loop_ok g (face_flux g flux) net0 Hwf Hfl Hnet0) as [Eloop Lloop].
  rewrite Eloop. simpl.
  set (net := fold_left (row_update g (face_flux g flux)) (rows g) net0) in *.
  rewrite (take_valid 0%Z) by assumption. simpl.
  rewrite (take_valid 0) by assumption. simpl.
  set (idx := map (item_or 0%Z (node_at_cell g)) (core_cells g)).
  assert (Hpos : map (norm_index (length net)) idx
                 = map (node_of_cell g) (core_cells g)).
  { unfold idx. rewrite map_map. apply map_ext_in. intros c Hc.
    unfold node_of_cell. rewrite forallb_forall in Hcells.
    rewrite (Hcells c Hc). now rewrite Lloop. }
  assert (Hvalid : forallb (valid_index (length net)) idx = true).
  { apply forallb_forall. intros i Hi. unfold idx in Hi.
    apply in_map_iff in Hi. destruct Hi as (c & <- & Hc).
    destruct (Hnodes c Hc) as [n Hn]. unfold node_of_cell in Hn.
    rewrite forallb_forall in Hcells. rewrite (Hcells c Hc) in Hn.
    unfold valid_index. rewrite Lloop. now rewrite Hn. }
  rewrite (take_valid 0) by assumption. simpl.
  rewrite inplace2_same by (unfold idx; now rewrite !length_map). simpl.
  destruct (scatter_spec 0 idx net
              (zip_with Rdiv (map (item_or 0 net) idx)
                 (map (item_or 0 (area_of_cell g)) (core_cells g))))
    as (res & Eres & Lres & Hkeep & Hput).
  { unfold idx. rewrite zip_with_length, !length_map. lia. }
  { assumption. }
  exists res. split; [assumption |]. split; [congruence |].
  assert (Hnet : forall n, (n < number_of_nodes g)%nat ->
            nth n net 0 = outgoing g flux n - incoming g flux n).
  { intros n Hn. unfold net.
    destruct (nth_loop g (face_flux g flux) n Hwf Hn (rows g) net0) as [_ E].
    - intros r Hr. unfold rows in Hr. apply in_seq in Hr. lia.
    - assumption.
    - rewrite E. unfold outgoing, incoming.
      replace (nth n net0 0) with 0; [ring |].
      unfold net0. rewrite (nth_map_in _ _ _ 0) by
        (unfold zeros; rewrite repeat_length; lia).
      reflexivity. }
  split.
  - intros c n Hc Hcn.
    destruct (In_nth_error _ _ Hc) as [j Hj].
    assert (Hjlt : (j < length (core_cells g))%nat)
      by (apply nth_error_Some; congruence).
    rewrite Hpos in Hput.
    rewrite (Hput Hdistinct j (item_or 0%Z (node_at_cell g) c) n).
    + rewrite (nth_zip_with Rdiv _ _ j 0 0)
        by (unfold idx; rewrite !length_map; assumption).
      unfold idx. rewrite map_map.
      rewrite !(nth_map_in _ _ _ 0%Z) by assumption.
      rewrite (nth_error_nth _ _ 0%Z Hj).
      unfold area_of, at_index. f_equal.
      unfold item_or at 1.
      assert (Hn' : norm_index (length net) (item_or 0%Z (node_at_cell g) c)
                    = Some n).
      { unfold node_of_cell in Hcn. rewrite forallb_forall in Hcells.
        rewrite (Hcells c Hc) in Hcn. now rewrite Lloop. }
      rewrite Hn'. apply Hnet. now apply node_of_cell_lt with c.
    + unfold idx. now apply map_nth_error.
    + unfold node_of_cell in Hcn. rewrite forallb_forall in Hcells.
      rewrite (Hcells c Hc) in Hcn. now rewrite Lloop.
  - intros n Hn Hnone. rewrite Hkeep.
    + now apply Hnet.
    + rewrite Hpos. now apply has_cell_false.
Qed.

End FluxFacts.
Module UniformFlux.
Import Py Np NpFacts GridFuncs FluxSpec FluxFacts.
Local Open Scope R_scope.

Lemma zip_with_repeat (f : R) (w : list R) (n : nat) :
  length w = n -> zip_with Rmult (repeat f n) w = map (Rmult f) w.
Proof.
  revert n. induction w as [| x w IH]; intros [| n] H; simpl in *;
    try discriminate; [reflexivity |].
  f_equal. apply IH. lia.
Qed.

Lemma face_flux_uniform (g : ModelGrid) (f : R) :
  length (face_width g) = number_of_active_links g ->
  face_flux g (repeat f (number_of_active_links g))
  = map (Rmult f) (padded_width g).
Proof.
  intros H. unfold face_flux, padded_width.
  rewrite zip_with_repeat by assumption. rewrite map_app. simpl.
  now rewrite Rmult_0_r.
Qed.

Lemma at_index_scaled (f : R) (v : list R) (i : Z) :
  at_index (map (Rmult f) v) i = f * at_index v i.
Proof.
  unfold at_index, item_or. rewrite length_map.
  destruct (norm_index (length v) i) as [k |] eqn:E.
  - apply norm_index_lt in E. now rewrite (nth_map_in _ _ _ 0).
  - ring.
Qed.

Lemma link_sum_scaled (m : list (list Z)) (rs : list nat) (f : R) (v : list R)
  (n : nat) :
  link_sum m rs (map (Rmult f) v) n = f * link_sum m rs v n.
Proof.
  induction rs as [| r rs IH]; simpl; [ring |].
  rewrite IH, at_index_scaled. ring.
Qed.

(** The product of the flux and the face widths does not broadcast two
    arrays of different lengths. *)
Lemma face_width_mismatch_raises (g : ModelGrid) (flux : list R)
  (out : option (list R)) :
  length flux = number_of_active_links g ->
  length (match out with
          | None => empty_at_node g
          | Some buf => buf
          end) = number_of_nodes g ->
  length (face_width g) <> length flux ->
  length (face_width g) <> 1%nat ->
  length flux <> 1%nat ->
  calculate_flux_divergence_at_nodes g flux out = Raise ValueError.
Proof.
  intros Hlen Hout Hw Hw1 Hf1. unfold calculate_flux_divergence_at_nodes.
  apply Nat.eqb_eq in Hlen. rewrite Hlen. cbn [py_assert bind].
  rewrite length_map. apply Nat.eqb_eq in Hout. rewrite Hout.
  cbn [py_assert bind].
  unfold broadcast2.
  replace (length flux =? 1)%nat with false
    by (symmetry; apply Nat.eqb_neq; exact Hf1).
  rewrite broadcast_to_same by reflexivity. cbn [bind].
  unfold broadcast_to.
  replace (length (face_width g) =? length flux)%nat with false
    by (symmetry; apply Nat.eqb_neq; exact Hw).
  destruct (face_width g) as [| w0 [| w1 t]]; [reflexivity | | reflexivity].
  simpl in Hw1. congruence.
Qed.

End UniformFlux.

(** C1: the doctest of the function
    itself, a 4 x 5 raster grid with unit flux on its seventeen active
    links.  The six core nodes get the net flux over the cell area, which is
    0 here; the boundary nodes 1, 2, 3, 5, 9, 10, 14, 16, 17, 18 have no cell
    and yet are not 0: they keep the undivided net flux of their one active
    link. *)
Theorem doctest_boundary_nodes_keep_net_flux :
  GridFuncs.calculate_flux_divergence_at_nodes Examples.raster45
    (repeat 1%R 17) None
  = Py.Ok [ 0;  1;  1;  1;  0;
            1;  0;  0;  0; -1;
            1;  0;  0;  0; -1;
            0; -1; -1; -1;  0]%R
  /\ FluxSpec.has_cell Examples.raster45 1 = false
  /\ FluxSpec.well_formed Examples.raster45 = true.
Proof.
  split; [| split; reflexivity].
  cbv -[Rplus Rminus Rmult Rdiv Rinv Ropp IZR].
  f_equal. repeat (apply f_equal2; [lra |]). reflexivity.
Qed.

(** C2: the call does not get as far as a divergence on a grid with a
    closed boundary.  On the 4 x 5 raster with every perimeter node closed
    seven links are active while [face_width] keeps one entry for each of
    the seventeen faces, so the product of the flux and the face widths,
    which the comment above it takes to have one entry per active link,
    raises [ValueError], whatever the uniform flux. *)
Theorem closed_boundary_uniform_flux_raises :
  FluxSpec.boundary_fully_closed Examples.raster45_closed = true
  /\ GridFuncs.number_of_active_links Examples.raster45_closed = 7
  /\ length (GridFuncs.face_width Examples.raster45_closed) = 17
  /\ forall f : R,
       GridFuncs.calculate_flux_divergence_at_nodes Examples.raster45_closed
         (repeat f 7) None
       = Py.Raise Py.ValueError.
Proof.
  split; [reflexivity |]. split; [reflexivity |]. split; [reflexivity |].
  intros f.
  apply UniformFlux.face_width_mismatch_raises;
    try reflexivity; simpl; lia.
Qed.

(** X30: for a uniform flux on a well-formed grid (one face width per
    active link), floats read as exact reals, the divergence at the node of
    a core cell of non-zero area is 0 whenever the faces of the active links
    that leave the node are as wide in total as those of the links that
    enter it. *)
Theorem uniform_flux_zero_where_widths_balance :
  forall (grid : GridFuncs.ModelGrid) (f : R) (c : Z) (n : nat),
    FluxSpec.well_formed grid = true ->
    In c (GridFuncs.core_cells grid) ->
    FluxSpec.node_of_cell grid c = Some n ->
    FluxSpec.area_of grid c <> 0%R ->
    FluxSpec.out_width grid n = FluxSpec.in_width grid n ->
    exists res,
      GridFuncs.calculate_flux_divergence_at_nodes grid
        (repeat f (GridFuncs.number_of_active_links grid)) None = Py.Ok res
      /\ nth n res 0%R = 0%R.
Proof.
  intros grid f c n Hwf Hc Hn _ Hbal.
  destruct (FluxFacts.flux_divergence_spec grid
              (repeat f (GridFuncs.number_of_active_links grid)) Hwf
              (repeat_length _ _))
    as (res & Eres & _ & Hcore & _).
  exists res. split; [assumption |].
  rewrite (Hcore c n Hc Hn).
  unfold FluxSpec.outgoing, FluxSpec.incoming.
  destruct (FluxFacts.well_formed_spec grid Hwf) as (Hwidth & _).
  rewrite UniformFlux.face_flux_uniform by assumption.
  rewrite !UniformFlux.link_sum_scaled.
  fold (FluxSpec.out_width grid n). fold (FluxSpec.in_width grid n).
  rewrite Hbal. unfold Rdiv. ring.
Qed.

Lemma uniform_flux_zero_where_widths_balance_witness :
  exists res,
    GridFuncs.calculate_flux_divergence_at_nodes Examples.raster45
      (repeat 1%R 17) None = Py.Ok res
    /\ nth 6 res 0%R = 0%R.
Proof.
  apply (uniform_flux_zero_where_widths_balance Examples.raster45 1%R 0%Z 6).
  - reflexivity.
  - simpl. auto.
  - reflexivity.
  - cbv -[Rplus Rminus Rmult Rdiv Rinv Ropp IZR]. lra.
  - cbv -[Rplus Rminus Rmult Rdiv Rinv Ropp IZR]. lra.
Defined.

(** C7: a flux array whose length differs from the grid's number of active
    links makes the call raise [AssertionError], whatever the output buffer;
    no result array is produced. *)
Theorem flux_length_mismatch_raises :
  forall (grid : GridFuncs.ModelGrid) (active_link_flux : list R)
         (out : option (list R)),
    length active_link_flux <> GridFuncs.number_of_active_links grid ->
    GridFuncs.calculate_flux_divergence_at_nodes grid active_link_flux out
    = Py.Raise Py.AssertionError.
Proof.
  intros grid flux out Hlen.
  unfold GridFuncs.calculate_flux_divergence_at_nodes.
  apply Nat.eqb_neq in Hlen. rewrite Hlen. reflexivity.
Qed.

Lemma flux_length_mismatch_raises_witness :
  GridFuncs.calculate_flux_divergence_at_nodes Examples.raster45
    [1%R; 1%R; 1%R] None
  = Py.Raise Py.AssertionError.
Proof.
  apply flux_length_mismatch_raises. simpl. lia.
Defined.
(** ** Properties of the mappers *)

Module MapFacts.
Import Py Np NpFacts Mappers MapSpec.
Local Open Scope R_scope.

Lemma where3_same {A : Type} (cond : list bool) (x y : list A) :
  length x = length cond -> length y = length cond ->
  where3 cond x y
  = Ok (zip_with (fun (c : bool) (xy : A * A) => if c then fst xy else snd xy)
          cond (combine x y)).
Proof.
  intros Hx Hy. unfold where3.
  assert (Hn : (if negb (length cond =? 1) then length cond
                else if negb (length x =? 1) then length x else length y)
               = length cond).
  { destruct (length cond =? 1); simpl; [| reflexivity].
    destruct (length x =? 1); simpl; congruence. }
  rewrite Hn. rewrite !broadcast_to_same by congruence. reflexivity.
Qed.

Lemma Rltb_irrefl (x : R) : Rltb x x = false.
Proof.
  unfold Rltb. destruct (Rlt_dec x x) as [H |]; [| reflexivity].
  exfalso. now apply (Rlt_irrefl x).
Qed.

Lemma links_fit_spec (g : ModelGrid) (control value : list R) :
  links_fit g control value = true ->
  length (node_at_link_head g) = number_of_links g /\
  length (node_at_link_tail g) = number_of_links g /\
  forallb (valid_index (length control)) (node_at_link_head g) = true /\
  forallb (valid_index (length control)) (node_at_link_tail g) = true /\
  forallb (valid_index (length value)) (node_at_link_head g) = true /\
  forallb (valid_index (length value)) (node_at_link_tail g) = true.
Proof.
  unfold links_fit. rewrite !andb_true_iff, !Nat.eqb_eq. tauto.
Qed.

(** Both "value at the min/max node" mappers share their shape: a strict
    comparison [test] of the tail and the head control decides for the
    tail. *)
Lemma select_spec (g : ModelGrid) (control value : list R)
  (test : R -> R -> bool) :
  links_fit g control value = true ->
  exists res,
    (head_control <- take control (node_at_link_head g) ;;
     tail_control <- take control (node_at_link_tail g) ;;
     head_vals <- take value (node_at_link_head g) ;;
     tail_vals <- take value (node_at_link_tail g) ;;
     cond <- broadcast2 test tail_control head_control ;;
     chosen <- where3 cond tail_vals head_vals ;;
     assign_all (default_out None (empty_at_link g)) chosen)%py = Ok res /\
    length res = number_of_links g /\
    forall l, (l < number_of_links g)%nat ->
      nth l res 0 =
      if test (item_or 0 control (tail_of g l)) (item_or 0 control (head_of g l))
      then item_or 0 value (tail_of g l)
      else item_or 0 value (head_of g l).
Proof.
  intros Hfit.
  destruct (links_fit_spec g control value Hfit)
    as (Lh & Lt & Vch & Vct & Vvh & Vvt).
  rewrite !(take_valid 0) by assumption. simpl.
  rewrite broadcast2_same by (rewrite !length_map; congruence). simpl.
  rewrite where3_same
    by (rewrite zip_with_length, !length_map; lia).
  simpl. unfold assign_all, default_out, empty_at_link, zeros.
  rewrite repeat_length.
  rewrite broadcast_to_same
    by (rewrite !zip_with_length, length_combine, !length_map; lia).
  eexists. split; [reflexivity |]. split.
  - rewrite !zip_with_length, length_combine, !length_map. lia.
  - intros l Hl.
    rewrite (nth_zip_with _ _ _ l false (0, 0))
      by (rewrite ?zip_with_length, ?length_combine, !length_map; lia).
    rewrite combine_nth by (rewrite !length_map; congruence).
    rewrite (nth_zip_with test _ _ l 0 0) by (rewrite !length_map; lia).
    rewrite !(nth_map_in _ _ _ 0%Z) by lia.
    reflexivity.
Qed.

End MapFacts.

(** C9: on a link whose tail and head have equal control values, both
    mappers return the value at the head node. *)
Theorem tie_selects_head_value :
  forall (grid : Mappers.ModelGrid) (control_name value_name : Mappers.field_arg)
         (control value : list R) (l : nat),
    Mappers.resolve (Mappers.at_node grid) control_name = Py.Ok control ->
    Mappers.resolve (Mappers.at_node grid) value_name = Py.Ok value ->
    MapSpec.links_fit grid control value = true ->
    l < Mappers.number_of_links grid ->
    Np.item_or 0%R control (MapSpec.tail_of grid l)
    = Np.item_or 0%R control (MapSpec.head_of grid l) ->
    exists at_min at_max,
      Mappers.map_value_at_min_node_to_link grid control_name value_name None
      = Py.Ok at_min
      /\ Mappers.map_value_at_max_node_to_link grid control_name value_name None
         = Py.Ok at_max
      /\ nth l at_min 0%R = Np.item_or 0%R value (MapSpec.head_of grid l)
      /\ nth l at_max 0%R = Np.item_or 0%R value (MapSpec.head_of grid l).
Proof.
  intros grid cn vn control value l Hc Hv Hfit Hl Htie.
  destruct (MapFacts.select_spec grid control value Np.Rltb Hfit)
    as (rmin & Emin & _ & Pmin).
  destruct (MapFacts.select_spec grid control value
              (fun t h => Np.Rltb h t) Hfit)
    as (rmax & Emax & _ & Pmax).
  exists rmin, rmax.
  unfold Mappers.map_value_at_min_node_to_link,
    Mappers.map_value_at_max_node_to_link.
  rewrite Hc, Hv. simpl.
  split; [exact Emin |]. split; [exact Emax |].
  rewrite (Pmin l Hl), (Pmax l Hl), Htie, MapFacts.Rltb_irrefl.
  split; reflexivity.
Qed.

Lemma tie_selects_head_value_witness :
  exists at_min at_max,
    Mappers.map_value_at_min_node_to_link Examples.raster33
      (Mappers.FieldArray Examples.flat_control)
      (Mappers.FieldArray Examples.node_labels) None = Py.Ok at_min
    /\ Mappers.map_value_at_max_node_to_link Examples.raster33
         (Mappers.FieldArray Examples.flat_control)
         (Mappers.FieldArray Examples.node_labels) None = Py.Ok at_max
    /\ nth 3 at_min 0%R = 40%R
    /\ nth 3 at_max 0%R = 40%R.
Proof.
  apply (tie_selects_head_value Examples.raster33
           (Mappers.FieldArray Examples.flat_control)
           (Mappers.FieldArray Examples.node_labels)
           Examples.flat_control Examples.node_labels 3).
  - reflexivity.
  - reflexivity.
  - reflexivity.
  - simpl. lia.
  - reflexivity.
Defined.

Module UpwindFacts.
Import Py Np Mappers MapSpec.

(** Without a positive entry the mask of a row is empty: nothing is summed
    and nothing is counted. *)
Lemma masked_sum_without_upwind (row : list R) (acc : R) :
  no_upwind_link row ->
  fold_left Rplus (zip_with mask_mul row (map (fun v => Rltb 0 v) row)) acc
  = acc.
Proof.
  intros H. revert acc. induction H as [| v row Hv _ IH]; intros acc.
  - reflexivity.
  - simpl. rewrite IH. unfold mask_mul.
    rewrite (NpFacts.Rltb_false 0 v Hv). lra.
Qed.

Lemma count_without_upwind (row : list R) :
  no_upwind_link row ->
  count_nonzero (map (fun v => Rltb 0 v) row) = 0.
Proof.
  intros H. unfold count_nonzero.
  induction H as [| v row Hv _ IH].
  - reflexivity.
  - simpl. rewrite (NpFacts.Rltb_false 0 v Hv). exact IH.
Qed.

(** The quotient of the mean mapper at a row without upwind link is 0/0, so
    the final [isnan] pass records 0 there. *)
Lemma mean_without_upwind (row : list R) :
  no_upwind_link row ->
  (let q := divide (sum (zip_with mask_mul row (map (fun v => Rltb 0 v) row)))
              (count_nonzero (map (fun v => Rltb 0 v) row)) in
   if isnan q then Finite 0 else q) = Finite 0.
Proof.
  intros H. unfold sum. rewrite masked_sum_without_upwind by exact H.
  rewrite count_without_upwind by exact H.
  simpl. destruct (Req_dec_T 0 0) as [_ | N]; [reflexivity | lra].
Qed.

End UpwindFacts.

(** C6: on the 3 x 3 raster, with a link field that carries flux away from
    the centre node along all four of its links, node 4 has no upwind link,
    yet [map_upwind_node_link_max_to_node] records -1 there, not 0;
    [map_upwind_node_link_mean_to_node] records 0 at the same node. *)
Theorem upwind_max_negative_without_upwind_link :
  MapSpec.no_upwind_link
    (MapSpec.inflow_row Examples.grad_from_centre
       (nth 4 (Mappers.links_at_node Examples.raster33) [])
       (nth 4 (Mappers.link_dirs_at_node Examples.raster33) []))
  /\ Mappers.map_upwind_node_link_max_to_node Examples.raster33
       (Mappers.FieldArray Examples.grad_from_centre) None
     = Py.Ok [0; 1; 0; 1; -1; 1; 0; 1; 0]%R
  /\ Mappers.map_upwind_node_link_mean_to_node Examples.raster33
       (Mappers.FieldArray Examples.grad_from_centre) None
     = Py.Ok (map Np.Finite [0; 1; 0; 1; 0; 1; 0; 1; 0]%R).
Proof.
  split; [| split].
  - r_eval. repeat constructor; lra.
  - r_eval. r_decide. f_equal. r_list.
  - r_eval. r_decide. r_eval. cbn [INR]. r_decide. f_equal. r_list.
Qed.

(** The doctests of the mappers, on the embedding. *)
Module MapperDoctests.
Import Py Np Mappers.

Lemma upwind_max_doctest :
  map_upwind_node_link_max_to_node Examples.raster34 (FieldName "grad") None
  = Ok [0; 1; 2; 1; 0; 1; 2; 1; 0; 1; 2; 1]%R.
Proof. r_eval. r_decide. f_equal. r_list. Qed.

Lemma upwind_mean_doctest :
  map_upwind_node_link_mean_to_node Examples.raster34
    (FieldArray Examples.grad_mean_doctest) None
  = Ok (map Finite [0; 1; 2; 1; 2; 2; 3; 3; 1; 3 / 2; 5 / 2; 5 / 2]%R).
Proof.
  r_eval. r_decide. r_eval. cbn [INR]. r_decide. f_equal. r_list.
Qed.

Lemma value_at_min_node_doctest :
  map_value_at_min_node_to_link Examples.raster34
    (FieldName "z") (FieldName "vals_to_map") None
  = Ok [0; 10; 20; 0; 10; 20; 30; 60; 50; 40; 70; 60; 50; 40; 80; 90; 100]%R.
Proof. r_eval. r_decide. reflexivity. Qed.

End MapperDoctests.

(** ** Facts about the point order *)

Module SortFacts.
Import Py Np Voronoi PointSpec.

Section Insert.
Context {A : Type} (key : A -> R).

Lemma insert_by_le (x y : A) (t : list A) :
  (key x <= key y)%R -> insert_by key x (y :: t) = x :: y :: t.
Proof.
  intros H. simpl. destruct (Rle_dec (key x) (key y)); [reflexivity | lra].
Qed.

Lemma insert_by_gt (x y : A) (t : list A) :
  (key y < key x)%R -> insert_by key x (y :: t) = y :: insert_by key x t.
Proof.
  intros H. simpl. destruct (Rle_dec (key x) (key y)); [lra | reflexivity].
Qed.

Lemma insert_by_perm (x : A) (l : list A) :
  Permutation (x :: l) (insert_by key x l).
Proof.
  induction l as [| y t IH]; simpl.
  - apply Permutation_refl.
  - destruct (Rle_dec (key x) (key y)).
    + apply Permutation_refl.
    + apply perm_trans with (y :: x :: t); [apply perm_swap |].
      apply perm_skip. exact IH.
Qed.

Lemma stable_sort_by_perm (l : list A) :
  Permutation l (stable_sort_by key l).
Proof.
  induction l as [| x t IH]; simpl.
  - apply perm_nil.
  - apply perm_trans with (x :: stable_sort_by key t).
    + apply perm_skip. exact IH.
    + apply insert_by_perm.
Qed.

Lemma Forall_insert_by (P : A -> Prop) (x : A) (l : list A) :
  P x -> Forall P l -> Forall P (insert_by key x l).
Proof.
  intros Hx Hl.
  apply (Permutation_Forall (insert_by_perm x l)).
  constructor; assumption.
Qed.

Variable before : A -> A -> Prop.

Lemma refined_by_key (a b : A) :
  refined_by key before a b -> (key a <= key b)%R.
Proof. unfold refined_by. intros [H | [H _]]; lra. Qed.

(** Insertion keeps the refined order, provided the new element came before
    all the others. *)
Lemma insert_by_sorted (x : A) (s : list A) :
  StronglySorted (refined_by key before) s ->
  Forall (before x) s ->
  StronglySorted (refined_by key before) (insert_by key x s).
Proof.
  intros Hs. induction Hs as [| y t Ht IH Hy]; intros Hx.
  - simpl. constructor; constructor.
  - inversion Hx as [| ? ? Hxy Hxt]; subst. simpl.
    destruct (Rle_dec (key x) (key y)) as [Hle | Hgt].
    + constructor; [constructor; assumption |].
      assert (Hall : forall z, In z (y :: t) -> (key y <= key z)%R).
      { intros z [-> | Hz]; [lra |].
        apply refined_by_key. rewrite Forall_forall in Hy. apply Hy, Hz. }
      apply Forall_forall. intros z Hz.
      pose proof (Hall z Hz) as Hk.
      rewrite Forall_forall in Hx. pose proof (Hx z Hz) as Hb.
      unfold refined_by.
      destruct (Rlt_dec (key x) (key z)); [left; assumption | right].
      split; [lra | exact Hb].
    + constructor; [apply IH; exact Hxt |].
      apply Forall_insert_by; [| exact Hy].
      left. lra.
Qed.

(** Stability: a stable sort of a list that is in the order [before] leaves
    it in the order "by key, then as before". *)
Lemma stable_sort_by_refines (l : list A) :
  StronglySorted before l ->
  StronglySorted (refined_by key before) (stable_sort_by key l).
Proof.
  intros Hl. induction Hl as [| x t Ht IH Hx]; simpl.
  - constructor.
  - apply insert_by_sorted; [exact IH |].
    apply (Permutation_Forall (stable_sort_by_perm t)). exact Hx.
Qed.

End Insert.

Lemma StronglySorted_impl {A : Type} (P Q : A -> A -> Prop) (l : list A) :
  (forall a b, P a b -> Q a b) -> StronglySorted P l -> StronglySorted Q l.
Proof.
  intros HPQ H. induction H as [| x t Ht IH Hx]; constructor.
  - exact IH.
  - revert Hx. apply Forall_impl. intros b. apply HPQ.
Qed.

Lemma StronglySorted_trivial {A : Type} (l : list A) :
  StronglySorted (fun _ _ => True) l.
Proof.
  induction l as [| x t IH]; constructor; [exact IH |].
  apply Forall_forall. intros; exact I.
Qed.

(** Sorting positions by the key of what they hold, then reading the
    entries, is sorting the entries. *)
Lemma map_insert_by {A B : Type} (f : A -> B) (key : B -> R) (x : A)
  (l : list A) :
  map f (insert_by (fun i => key (f i)) x l) = insert_by key (f x) (map f l).
Proof.
  induction l as [| y t IH]; simpl; [reflexivity |].
  destruct (Rle_dec (key (f x)) (key (f y))); simpl; [reflexivity |].
  rewrite IH. reflexivity.
Qed.

Lemma map_stable_sort_by {A B : Type} (f : A -> B) (key : B -> R)
  (l : list A) :
  map f (stable_sort_by (fun i => key (f i)) l)
  = stable_sort_by key (map f l).
Proof.
  induction l as [| x t IH]; simpl; [reflexivity |].
  rewrite map_insert_by, IH. reflexivity.
Qed.

Lemma insert_by_ext {A : Type} (k1 k2 : A -> R) (x : A) (l : list A) :
  (forall a, k1 a = k2 a) -> insert_by k1 x l = insert_by k2 x l.
Proof.
  intros H. induction l as [| y t IH]; simpl; [reflexivity |].
  rewrite !H, IH. reflexivity.
Qed.

Lemma stable_sort_by_ext {A : Type} (k1 k2 : A -> R) (l : list A) :
  (forall a, k1 a = k2 a) -> stable_sort_by k1 l = stable_sort_by k2 l.
Proof.
  intros H. induction l as [| x t IH]; simpl; [reflexivity |].
  rewrite IH. apply insert_by_ext, H.
Qed.

Lemma map_nth_seq {A : Type} (l : list A) (d : A) :
  map (fun i => nth i l d) (seq 0 (length l)) = l.
Proof.
  apply nth_ext with (d := d) (d' := d).
  - rewrite length_map, length_seq. reflexivity.
  - intros n Hn. rewrite length_map, length_seq in Hn.
    rewrite (nth_indep _ d (nth 0 l d))
      by (rewrite length_map, length_seq; exact Hn).
    rewrite (map_nth (fun i => nth i l d) (seq 0 (length l)) 0 n).
    rewrite seq_nth by exact Hn. reflexivity.
Qed.

(** Reading [l] at the positions [argsort] gives for its keys sorts [l]. *)
Lemma take_argsort {A : Type} (key : A -> R) (l : list A) (d : A) :
  key d = 0%R ->
  map (fun i => nth i l d) (argsort (map key l))
  = stable_sort_by key l.
Proof.
  intros Hd. unfold argsort. rewrite length_map.
  rewrite (stable_sort_by_ext _ (fun i => key (nth i l d))).
  - rewrite (map_stable_sort_by (fun i => nth i l d) key).
    rewrite map_nth_seq. reflexivity.
  - intros i. rewrite <- Hd. apply map_nth.
Qed.

Lemma argsort_in_range (a : list R) (j : nat) :
  In j (argsort a) -> j < length a.
Proof.
  intros H. unfold argsort in H.
  apply (Permutation_in _ (Permutation_sym (stable_sort_by_perm _ _))) in H.
  apply in_seq in H. lia.
Qed.

Lemma argsort_length (a : list R) : length (argsort a) = length a.
Proof.
  unfold argsort.
  rewrite <- (Permutation_length (stable_sort_by_perm _ _)).
  apply length_seq.
Qed.

(** The helper sorts stably on x and then stably on y. *)
Lemma sort_points_two_passes (pts : list point) :
  sort_points_by_x_then_y pts
  = stable_sort_by snd (stable_sort_by fst pts).
Proof.
  unfold sort_points_by_x_then_y, argsort_points_by_x_then_y.
  set (a := argsort (map fst pts)).
  set (d := (0%R, 0%R)).
  assert (Ha : map (fun i => nth i pts d) a = stable_sort_by fst pts)
    by (apply take_argsort; reflexivity).
  assert (Hys : map (fun i => nth i (map snd pts) 0%R) a
                = map snd (stable_sort_by fst pts)).
  { rewrite <- Ha, map_map. apply map_ext. intros i.
    apply (map_nth snd pts d). }
  rewrite Hys, map_map.
  rewrite <- (take_argsort snd (stable_sort_by fst pts) d) by reflexivity.
  apply map_ext_in. intros j Hj.
  apply argsort_in_range in Hj. rewrite length_map in Hj.
  rewrite <- Ha. rewrite <- Ha, length_map in Hj.
  rewrite (nth_indep (map (fun i => nth i pts d) a) d (nth 0 pts d))
    by (rewrite length_map; exact Hj).
  rewrite (map_nth (fun i => nth i pts d) a 0 j). reflexivity.
Qed.

Lemma sort_points_perm (pts : list point) :
  Permutation pts (sort_points_by_x_then_y pts).
Proof.
  rewrite sort_points_two_passes.
  apply perm_trans with (stable_sort_by fst pts); apply stable_sort_by_perm.
Qed.

Lemma sort_points_sorted (pts : list point) :
  StronglySorted y_then_x (sort_points_by_x_then_y pts).
Proof.
  rewrite sort_points_two_passes.
  apply (StronglySorted_impl
           (refined_by snd (refined_by fst (fun _ _ => True)))).
  - unfold refined_by, y_then_x. intros p q [H | [H1 [H2 | [H2 _]]]].
    + left; exact H.
    + right; split; [exact H1 | lra].
    + right; split; [exact H1 | lra].
  - apply stable_sort_by_refines, stable_sort_by_refines.
    apply StronglySorted_trivial.
Qed.

End SortFacts.

(** One comparison of an insertion on concrete keys. *)
Ltac sort_step :=
  match goal with
  | |- context [Voronoi.insert_by ?k ?x []] =>
      change (Voronoi.insert_by k x []) with [x]
  | |- context [Voronoi.insert_by ?k ?x (?y :: ?t)] =>
      first [ rewrite (SortFacts.insert_by_le k x y t) by (cbn; lra)
            | rewrite (SortFacts.insert_by_gt k x y t) by (cbn; lra) ]
  end.

(** ** Facts about the link orientation *)

Module AngleFacts.
Import Voronoi.
Local Open Scope R_scope.

Lemma atan_lt_m1 q : q < -1 -> atan q < - (PI / 4).
Proof.
  intros H. rewrite <- atan_1, <- atan_opp. apply atan_increasing. exact H.
Qed.

Lemma atan_ge_m1 q : -1 <= q -> - (PI / 4) <= atan q.
Proof.
  intros H. rewrite <- atan_1, <- atan_opp.
  destruct H as [H | <-]; [left; apply atan_increasing; exact H | right; reflexivity].
Qed.

Lemma atan_pos q : 0 < q -> 0 < atan q.
Proof. intros H. rewrite <- atan_0. apply atan_increasing, H. Qed.

Lemma atan_nonpos q : q <= 0 -> atan q <= 0.
Proof.
  intros H. rewrite <- atan_0.
  destruct H as [H | ->]; [left; apply atan_increasing, H | right; reflexivity].
Qed.

Lemma link_angle_negative (dx dy : R) :
  link_angle dx dy < 0 <-> dx + dy < 0 \/ (dx + dy = 0 /\ 0 < dx).
Proof.
  pose proof PI_RGT_0 as Hpi.
  unfold link_angle, wrap_angle, arctan2.
  destruct (Rlt_dec 0 dy) as [Hy | Hy];
    [| destruct (Rlt_dec dy 0) as [Hy' | Hy']].
  - pose proof (atan_bound (dx / dy)) as [Hlo Hhi].
    assert (Hdx : dx = dx / dy * dy) by (field; lra).
    set (q := dx / dy) in *. clearbody q. subst dx.
    destruct (Rle_dec PI (atan q + PI / 4)); [lra |].
    destruct (Rlt_dec q (-1)) as [Hlt | Hge].
    + pose proof (atan_lt_m1 _ Hlt). split; [intros _; left; nra | lra].
    + pose proof (atan_ge_m1 q ltac:(lra)).
      split; [lra |]. intros [K | [K1 K2]]; nra.
  - pose proof (atan_bound (dx / dy)) as [Hlo Hhi].
    assert (Hdx : dx = dx / dy * dy) by (field; lra).
    set (q := dx / dy) in *. clearbody q. subst dx.
    destruct (Rle_dec 0 (q * dy)) as [Hx | Hx].
    + assert (Hq : q <= 0) by nra.
      pose proof (atan_nonpos q Hq).
      destruct (Rlt_dec q (-1)) as [Hlt | Hge].
      * pose proof (atan_lt_m1 _ Hlt).
        destruct (Rle_dec PI (atan q + PI + PI / 4)); [lra |].
        split; [lra |]. intros [K | [K1 K2]]; nra.
      * pose proof (atan_ge_m1 q ltac:(lra)).
        destruct (Rle_dec PI (atan q + PI + PI / 4)); [| lra].
        split; [| lra]. intros _.
        destruct (Req_dec q (-1)) as [-> | Hne]; [right; split; lra | left; nra].
    + assert (Hq : 0 < q) by nra.
      pose proof (atan_pos q Hq).
      destruct (Rle_dec PI (atan q - PI + PI / 4)); [lra |].
      split; [intros _; left; nra | lra].
  - assert (dy = 0) by lra. subst dy.
    destruct (Rlt_dec 0 dx); [destruct (Rle_dec PI (PI / 2 + PI / 4)); lra |].
    destruct (Rlt_dec dx 0); [destruct (Rle_dec PI (- (PI / 2) + PI / 4)); lra |].
    destruct (Rle_dec PI (0 + PI / 4)); lra.
Qed.

End AngleFacts.

Module OrientFacts.
Import Py Np Voronoi LinkSpec.
Local Open Scope py_scope.

Lemma pick_length {A : Type} (k : nat) (mask : list bool) :
  forall a : list A,
    length mask = length a ->
    length (pick mask a) = length (where_from k mask).
Proof.
  revert k. induction mask as [| m ms IH]; intros k [| x xs] H; simpl in *;
    try reflexivity; try discriminate.
  destruct m; simpl; rewrite (IH (S k) xs) by lia; reflexivity.
Qed.

Lemma take_where {A : Type} (mask : list bool) :
  forall pre b : list A,
    length mask = length b ->
    take (pre ++ b) (where_from (length pre) mask) = Ok (pick mask b).
Proof.
  unfold take.
  induction mask as [| m ms IH]; intros pre [| x xs] H; simpl in *;
    try reflexivity; try discriminate.
  assert (E : pre ++ x :: xs = (pre ++ [x]) ++ xs)
    by (rewrite <- app_assoc; reflexivity).
  assert (L : S (length pre) = length (pre ++ [x]))
    by (rewrite length_app; simpl; lia).
  destruct m; simpl.
  - rewrite (NpFacts.getitem_of_nat x)
      by (rewrite length_app; simpl; lia).
    rewrite nth_middle. simpl.
    rewrite E, L, IH by lia. reflexivity.
  - rewrite E, L, IH by lia. reflexivity.
Qed.

Lemma set_nth_middle {A : Type} (pre : list A) (x y : A) (t : list A) :
  set_nth (length pre) y (pre ++ x :: t) = pre ++ y :: t.
Proof.
  induction pre as [| p pre IH]; simpl; [reflexivity |].
  rewrite IH. reflexivity.
Qed.

Lemma assign_where {A : Type} (mask : list bool) :
  forall pre a b : list A,
    length mask = length a ->
    length mask = length b ->
    foldM (fun acc iv => setitem acc (fst iv) (snd iv))
      (combine (where_from (length pre) mask) (pick mask b)) (pre ++ a)
    = Ok (pre ++ select mask b a).
Proof.
  induction mask as [| m ms IH]; intros pre [| x xs] [| y ys] Ha Hb;
    simpl in *; try reflexivity; try discriminate.
  assert (L : S (length pre) = length (pre ++ [if m then y else x]))
    by (rewrite length_app; simpl; lia).
  assert (E : forall t, pre ++ (if m then y else x) :: t
                        = (pre ++ [if m then y else x]) ++ t)
    by (intros t; rewrite <- app_assoc; reflexivity).
  destruct m; simpl.
  - unfold setitem at 1. simpl fst. simpl snd.
    rewrite NpFacts.norm_index_of_nat by (rewrite length_app; simpl; lia).
    simpl. rewrite set_nth_middle.
    rewrite (E xs), (E (select ms ys xs)), L. apply IH; lia.
  - rewrite (E xs), (E (select ms ys xs)), L. apply IH; lia.
Qed.

(** [a[where(mask)] = b[where(mask)]] *)
Lemma scatter_where {A : Type} (mask : list bool) (a b : list A) :
  length mask = length a ->
  length mask = length b ->
  scatter a (where1 mask) (pick mask b) = Ok (select mask b a).
Proof.
  intros Ha Hb. unfold scatter, where1.
  rewrite NpFacts.broadcast_to_same by (apply pick_length; exact Hb).
  simpl. apply (assign_where mask [] a b Ha Hb).
Qed.

Lemma select_none {A : Type} (k : nat) (mask : list bool) :
  forall yes no : list A,
    where_from k mask = [] ->
    length mask = length yes ->
    length mask = length no ->
    select mask yes no = no.
Proof.
  revert k. induction mask as [| m ms IH]; intros k [| y ys] [| n ns] H Hy Hn;
    simpl in *; try reflexivity; try discriminate.
  destruct m; [discriminate |].
  rewrite (IH (S k)) by (assumption || lia). reflexivity.
Qed.

Lemma select_zip_with {A B C : Type} (test : A -> B -> bool)
  (f g : A -> B -> C) (a : list A) :
  forall b : list B,
    select (zip_with test a b) (zip_with f a b) (zip_with g a b)
    = zip_with (fun x y => if test x y then f x y else g x y) a b.
Proof.
  induction a as [| x a IH]; intros [| y b]; simpl; try reflexivity.
  rewrite IH. reflexivity.
Qed.

Lemma zip_with_map {A B A' B' C : Type} (f : A' -> B' -> C)
  (p : A -> A') (q : B -> B') (a : list A) :
  forall b : list B,
    zip_with f (map p a) (map q b) = zip_with (fun x y => f (p x) (q y)) a b.
Proof.
  induction a as [| x a IH]; intros [| y b]; simpl; try reflexivity.
  rewrite IH. reflexivity.
Qed.

Lemma zip_with_zip_with {A B C D E : Type} (f : C -> D -> E)
  (p : A -> B -> C) (q : A -> B -> D) (a : list A) :
  forall b : list B,
    zip_with f (zip_with p a b) (zip_with q a b)
    = zip_with (fun x y => f (p x y) (q x y)) a b.
Proof.
  induction a as [| x a IH]; intros [| y b]; simpl; try reflexivity.
  rewrite IH. reflexivity.
Qed.

Lemma map_zip_with {A B C D : Type} (f : C -> D) (p : A -> B -> C)
  (a : list A) :
  forall b : list B,
    map f (zip_with p a b) = zip_with (fun x y => f (p x y)) a b.
Proof.
  induction a as [| x a IH]; intros [| y b]; simpl; try reflexivity.
  rewrite IH. reflexivity.
Qed.

Lemma zip_with_swap {A B C : Type} (f : A -> B -> C) (a : list A) :
  forall b : list B, zip_with f a b = zip_with (fun y x => f x y) b a.
Proof.
  induction a as [| x a IH]; intros [| y b]; simpl; try reflexivity.
  rewrite IH. reflexivity.
Qed.

Lemma zip_with_fst {A B : Type} (a : list A) :
  forall b : list B, length a = length b -> zip_with (fun x _ => x) a b = a.
Proof.
  induction a as [| x a IH]; intros [| y b] H; simpl in *;
    try reflexivity; try discriminate.
  rewrite IH by lia. reflexivity.
Qed.

Lemma zip_with_snd {A B : Type} (a : list A) :
  forall b : list B, length a = length b -> zip_with (fun _ y => y) a b = b.
Proof.
  induction a as [| x a IH]; intros [| y b] H; simpl in *;
    try reflexivity; try discriminate.
  rewrite IH by lia. reflexivity.
Qed.

Lemma zip_with_ext {A B C : Type} (f g : A -> B -> C) (a : list A) :
  forall b : list B,
    (forall x y, f x y = g x y) -> zip_with f a b = zip_with g a b.
Proof.
  induction a as [| x a IH]; intros [| y b] H; simpl; try reflexivity.
  rewrite H, IH by exact H. reflexivity.
Qed.

Lemma forallb_zip_with {A : Type} (P : A -> bool) (f : A -> A -> A)
  (a : list A) :
  forall b : list A,
    (forall x y, f x y = x \/ f x y = y) ->
    forallb P a = true -> forallb P b = true ->
    forallb P (zip_with f a b) = true.
Proof.
  induction a as [| x a IH]; intros [| y b] Hf Ha Hb; simpl in *;
    try reflexivity.
  apply andb_true_iff in Ha. destruct Ha as [Hx Ha].
  apply andb_true_iff in Hb. destruct Hb as [Hy Hb].
  apply andb_true_iff. split; [| apply IH; assumption].
  destruct (Hf x y) as [-> | ->]; assumption.
Qed.

End OrientFacts.

Module ReorientFacts.
Import Py Np Voronoi LinkSpec.
Local Open Scope py_scope.

Lemma links_ok_spec (g : VoronoiDelaunayGrid) :
  links_ok g = true ->
  length (node_at_link_tail g) = length (node_at_link_head g)
  /\ forallb (valid_index (length (node_x g))) (node_at_link_tail g) = true
  /\ forallb (valid_index (length (node_x g))) (node_at_link_head g) = true
  /\ forallb (valid_index (length (node_y g))) (node_at_link_tail g) = true
  /\ forallb (valid_index (length (node_y g))) (node_at_link_head g) = true.
Proof.
  unfold links_ok. intros H.
  repeat (apply andb_true_iff in H; destruct H as [H ?]).
  apply Nat.eqb_eq in H. repeat split; assumption.
Qed.

Lemma select_swap {A : Type} (test : A -> A -> bool) (a : list A) :
  forall b : list A,
    select (zip_with test a b) b a
    = zip_with (fun x y => if test x y then y else x) a b.
Proof.
  induction a as [| x a IH]; intros [| y b]; simpl; try reflexivity.
  rewrite IH. reflexivity.
Qed.

Lemma select_keep {A : Type} (test : A -> A -> bool) (a : list A) :
  forall b : list A,
    select (zip_with test a b) a b
    = zip_with (fun x y => if test x y then x else y) a b.
Proof.
  induction a as [| x a IH]; intros [| y b]; simpl; try reflexivity.
  rewrite IH. reflexivity.
Qed.

(** The mask [link_angle < 0] of the code, link by link. *)
Lemma flip_mask (g : VoronoiDelaunayGrid) (tail head : list Z) :
  map (fun a => Rltb a 0)
    (zip_with link_angle
       (zip_with Rminus (map (item_or 0%R (node_x g)) head)
          (map (item_or 0%R (node_x g)) tail))
       (zip_with Rminus (map (item_or 0%R (node_y g)) head)
          (map (item_or 0%R (node_y g)) tail)))
  = zip_with (flips g) tail head.
Proof.
  rewrite !OrientFacts.zip_with_map, OrientFacts.zip_with_zip_with,
    OrientFacts.map_zip_with, OrientFacts.zip_with_swap.
  reflexivity.
Qed.

Lemma with_links_same (g : VoronoiDelaunayGrid) :
  with_links g (node_at_link_tail g) (node_at_link_head g) = g.
Proof. destruct g. reflexivity. Qed.

(** What [reorient_links_upper_right] does to a grid with sound link
    arrays: it returns, with every flipped link's ends exchanged. *)
Lemma reorient_spec (g : VoronoiDelaunayGrid) :
  links_ok g = true ->
  reorient_links_upper_right g
  = Ok (with_links g (oriented_tail g) (oriented_head g)).
Proof.
  intros Hok.
  destruct (links_ok_spec g Hok) as (Hlen & Hxt & Hxh & Hyt & Hyh).
  unfold reorient_links_upper_right.
  rewrite (NpFacts.take_valid 0%R (node_x g)) by exact Hxh.
  rewrite (NpFacts.take_valid 0%R (node_x g)) by exact Hxt.
  cbn [bind].
  rewrite NpFacts.broadcast2_same by (rewrite !length_map; lia).
  rewrite (NpFacts.take_valid 0%R (node_y g)) by exact Hyh.
  rewrite (NpFacts.take_valid 0%R (node_y g)) by exact Hyt.
  cbn [bind].
  rewrite NpFacts.broadcast2_same by (rewrite !length_map; lia).
  cbn [bind].
  rewrite NpFacts.broadcast2_same
    by (rewrite !NpFacts.zip_with_length, !length_map; lia).
  cbn [bind]. rewrite flip_mask.
  set (mask := zip_with (flips g) (node_at_link_tail g) (node_at_link_head g)).
  assert (Hmt : length mask = length (node_at_link_tail g))
    by (unfold mask; rewrite NpFacts.zip_with_length; lia).
  assert (Hmh : length mask = length (node_at_link_head g)) by lia.
  assert (Et : select mask (node_at_link_head g) (node_at_link_tail g)
               = oriented_tail g) by apply select_swap.
  assert (Eh : select mask (node_at_link_tail g) (node_at_link_head g)
               = oriented_head g) by apply select_keep.
  destruct (0 <? length (where1 mask)) eqn:Hflip.
  - pose proof (OrientFacts.take_where mask [] (node_at_link_tail g) Hmt)
      as Tt.
    pose proof (OrientFacts.take_where mask [] (node_at_link_head g) Hmh)
      as Th.
    cbn [app length] in Tt, Th. fold (where1 mask) in Tt, Th.
    rewrite Tt, Th. cbn [bind].
    rewrite (OrientFacts.scatter_where mask _ _ Hmt Hmh).
    rewrite (OrientFacts.scatter_where mask _ _ Hmh Hmt).
    cbn [bind]. rewrite Et, Eh. reflexivity.
  - apply Nat.ltb_ge in Hflip.
    assert (Hnone : where_from 0 mask = [])
      by (unfold where1 in Hflip; destruct (where_from 0 mask);
          [reflexivity | simpl in Hflip; lia]).
    rewrite <- Et, <- Eh.
    rewrite (OrientFacts.select_none 0 mask _ _ Hnone Hmh Hmt).
    rewrite (OrientFacts.select_none 0 mask _ _ Hnone Hmt Hmh).
    rewrite with_links_same. reflexivity.
Qed.

Lemma links_ok_oriented (g : VoronoiDelaunayGrid) :
  links_ok g = true ->
  links_ok (with_links g (oriented_tail g) (oriented_head g)) = true.
Proof.
  intros Hok.
  destruct (links_ok_spec g Hok) as (Hlen & Hxt & Hxh & Hyt & Hyh).
  unfold links_ok. cbn [with_links node_at_link_tail node_at_link_head
                        node_x node_y].
  unfold oriented_tail, oriented_head.
  rewrite !NpFacts.zip_with_length, Nat.eqb_refl. simpl.
  rewrite !OrientFacts.forallb_zip_with; try assumption; try reflexivity;
    intros x y; destruct (flips g x y); auto.
Qed.

Lemma flips_true (g : VoronoiDelaunayGrid) (t h : Z) :
  let dx := (x_of g h - x_of g t)%R in
  let dy := (y_of g h - y_of g t)%R in
  (dx + dy < 0 \/ (dx + dy = 0 /\ 0 < dx))%R -> flips g t h = true.
Proof.
  cbv zeta. intros H. apply AngleFacts.link_angle_negative in H.
  unfold flips. apply NpFacts.Rltb_true, H.
Qed.

Lemma flips_false (g : VoronoiDelaunayGrid) (t h : Z) :
  let dx := (x_of g h - x_of g t)%R in
  let dy := (y_of g h - y_of g t)%R in
  (0 < dx + dy \/ (dx + dy = 0 /\ dx <= 0))%R -> flips g t h = false.
Proof.
  cbv zeta. intros H. unfold flips. apply NpFacts.Rltb_false.
  apply Rnot_lt_le. intros Hneg.
  apply AngleFacts.link_angle_negative in Hneg. lra.
Qed.

(** Turning every link of the example grid round is undone by the
    reorientation: all six links are flipped back. *)
Lemma backward_grid_reoriented :
  reorient_links_upper_right Examples.backward_grid = Ok Examples.sliver_grid.
Proof.
  rewrite reorient_spec by reflexivity.
  unfold oriented_tail, oriented_head, Examples.backward_grid.
  cbn [with_links node_at_link_tail node_at_link_head zip_with].
  rewrite !flips_true;
    try (cbv [x_of y_of item_or norm_index Examples.sliver_grid with_links
              node_x node_y Examples.sliver_points map fst snd length nth
              Z.leb Z.ltb Z.compare Z.of_nat Z.to_nat andb Pos.compare
              Pos.compare_cont Pos.of_succ_nat Pos.succ Pos.to_nat
              Pos.iter_op Nat.add Z.opp Z.add Examples.eps];
         cbv zeta; lra).
  reflexivity.
Qed.

End ReorientFacts.

(** ** Facts about the orientation of links in doubles *)

Module DoubleFacts.
Import Py Np LinkSpec VoronoiDoubles DoubleExamples DoubleLinkSpec.
Local Open Scope py_scope.

Lemma double_links_ok_spec (g : Grid) :
  links_ok g = true ->
  length (node_at_link_tail g) = length (node_at_link_head g)
  /\ forallb (valid_index (length (node_x g))) (node_at_link_tail g) = true
  /\ forallb (valid_index (length (node_x g))) (node_at_link_head g) = true
  /\ forallb (valid_index (length (node_y g))) (node_at_link_tail g) = true
  /\ forallb (valid_index (length (node_y g))) (node_at_link_head g) = true.
Proof.
  unfold links_ok. intros H.
  apply andb_true_iff in H. destruct H as [H Hyh].
  apply andb_true_iff in H. destruct H as [H Hyt].
  apply andb_true_iff in H. destruct H as [H Hxh].
  apply andb_true_iff in H. destruct H as [Hlen Hxt].
  apply Nat.eqb_eq in Hlen. repeat split; assumption.
Qed.

Section WithAtan2.

Variable arctan2 : PrimFloat.float -> PrimFloat.float -> PrimFloat.float.

(** The mask [link_angle < 0] of the code, link by link. *)
Lemma double_flip_mask (g : Grid) (tail head : list Z) :
  map (fun a => PrimFloat.ltb a PrimFloat.zero)
    (zip_with (link_angle arctan2)
       (zip_with PrimFloat.sub
          (map (item_or PrimFloat.zero (node_x g)) head)
          (map (item_or PrimFloat.zero (node_x g)) tail))
       (zip_with PrimFloat.sub
          (map (item_or PrimFloat.zero (node_y g)) head)
          (map (item_or PrimFloat.zero (node_y g)) tail)))
  = zip_with (flips arctan2 g) tail head.
Proof.
  rewrite !OrientFacts.zip_with_map, OrientFacts.zip_with_zip_with,
    OrientFacts.map_zip_with, OrientFacts.zip_with_swap.
  reflexivity.
Qed.

Lemma double_with_links_same (g : Grid) :
  with_links g (node_at_link_tail g) (node_at_link_head g) = g.
Proof. destruct g. reflexivity. Qed.

(** What [reorient_links_upper_right] does to a grid with sound link
    arrays: it returns, with every flipped link's ends exchanged. *)
Lemma double_reorient_spec (g : Grid) :
  links_ok g = true ->
  reorient_links_upper_right arctan2 g
  = Ok (with_links g (oriented_tail arctan2 g) (oriented_head arctan2 g)).
Proof.
  intros Hok.
  destruct (double_links_ok_spec g Hok) as (Hlen & Hxt & Hxh & Hyt & Hyh).
  unfold reorient_links_upper_right.
  rewrite (NpFacts.take_valid PrimFloat.zero (node_x g)) by exact Hxh.
  rewrite (NpFacts.take_valid PrimFloat.zero (node_x g)) by exact Hxt.
  cbn [bind].
  rewrite NpFacts.broadcast2_same by (rewrite !length_map; lia).
  rewrite (NpFacts.take_valid PrimFloat.zero (node_y g)) by exact Hyh.
  rewrite (NpFacts.take_valid PrimFloat.zero (node_y g)) by exact Hyt.
  cbn [bind].
  rewrite NpFacts.broadcast2_same by (rewrite !length_map; lia).
  cbn [bind].
  rewrite NpFacts.broadcast2_same
    by (rewrite !NpFacts.zip_with_length, !length_map; lia).
  cbn [bind]. rewrite double_flip_mask.
  set (mask := zip_with (flips arctan2 g) (node_at_link_tail g)
                 (node_at_link_head g)).
  assert (Hmt : length mask = length (node_at_link_tail g))
    by (unfold mask; rewrite NpFacts.zip_with_length; lia).
  assert (Hmh : length mask = length (node_at_link_head g)) by lia.
  assert (Et : select mask (node_at_link_head g) (node_at_link_tail g)
               = oriented_tail arctan2 g) by apply ReorientFacts.select_swap.
  assert (Eh : select mask (node_at_link_tail g) (node_at_link_head g)
               = oriented_head arctan2 g) by apply ReorientFacts.select_keep.
  destruct (0 <? length (where1 mask)) eqn:Hflip.
  - pose proof (OrientFacts.take_where mask [] (node_at_link_tail g) Hmt)
      as Tt.
    pose proof (OrientFacts.take_where mask [] (node_at_link_head g) Hmh)
      as Th.
    cbn [app length] in Tt, Th. fold (where1 mask) in Tt, Th.
    rewrite Tt, Th. cbn [bind].
    rewrite (OrientFacts.scatter_where mask _ _ Hmt Hmh).
    rewrite (OrientFacts.scatter_where mask _ _ Hmh Hmt).
    cbn [bind]. rewrite Et, Eh. reflexivity.
  - apply Nat.ltb_ge in Hflip.
    assert (Hnone : where_from 0 mask = [])
      by (unfold where1 in Hflip; destruct (where_from 0 mask);
          [reflexivity | simpl in Hflip; lia]).
    rewrite <- Et, <- Eh.
    rewrite (OrientFacts.select_none 0 mask _ _ Hnone Hmh Hmt).
    rewrite (OrientFacts.select_none 0 mask _ _ Hnone Hmt Hmh).
    rewrite double_with_links_same. reflexivity.
Qed.

Lemma double_links_ok_oriented (g : Grid) :
  links_ok g = true ->
  links_ok (with_links g (oriented_tail arctan2 g) (oriented_head arctan2 g))
  = true.
Proof.
  intros Hok.
  destruct (double_links_ok_spec g Hok) as (Hlen & Hxt & Hxh & Hyt & Hyh).
  unfold links_ok. cbn [with_links node_at_link_tail node_at_link_head
                        node_x node_y].
  unfold oriented_tail, oriented_head.
  rewrite !NpFacts.zip_with_length, Nat.eqb_refl. simpl.
  rewrite !OrientFacts.forallb_zip_with; try assumption; try reflexivity;
    intros x y; destruct (flips arctan2 g x y); auto.
Qed.

(** The ends of one link after a pass. *)
Lemma double_oriented_nth (g : Grid) (k : nat) :
  length (node_at_link_tail g) = length (node_at_link_head g) ->
  k < length (node_at_link_tail g) ->
  let t := nth k (node_at_link_tail g) 0%Z in
  let h := nth k (node_at_link_head g) 0%Z in
  nth k (oriented_tail arctan2 g) 0%Z = (if flips arctan2 g t h then h else t)
  /\ nth k (oriented_head arctan2 g) 0%Z
     = (if flips arctan2 g t h then t else h).
Proof.
  intros Hlen Hk. cbv zeta. unfold oriented_tail, oriented_head.
  split; rewrite (NpFacts.nth_zip_with _ _ _ k 0%Z 0%Z 0%Z) by lia;
    reflexivity.
Qed.

Hypothesis Hlibm : libm_at_link arctan2.

(** With the values of the C library, the angle of the example link is
    negative in both directions: forward, adding pi/4 to the angle rounds
    to pi, which counts as a half turn too far; backward, it leaves
    -2.2e-16. *)
Lemma double_angle_forward :
  PrimFloat.ltb
    (link_angle arctan2 (PrimFloat.sub head_x tail_x)
       (PrimFloat.sub head_y tail_y))
    PrimFloat.zero = true.
Proof.
  destruct Hlibm as [Hf _]. unfold link_angle. rewrite Hf.
  vm_compute. reflexivity.
Qed.

Lemma double_angle_backward :
  PrimFloat.ltb
    (link_angle arctan2 (PrimFloat.sub tail_x head_x)
       (PrimFloat.sub tail_y head_y))
    PrimFloat.zero = true.
Proof.
  destruct Hlibm as [_ Hb]. unfold link_angle. rewrite Hb.
  vm_compute. reflexivity.
Qed.

End WithAtan2.

Lemma ends_differ : tail_x <> head_x.
Proof.
  intros E.
  pose proof (f_equal (fun v => PrimFloat.eqb v head_x) E) as F.
  vm_compute in F. discriminate F.
Qed.

End DoubleFacts.

(** C5: in doubles the reorientation is not idempotent.  Take a grid with
    sound link arrays in which some link goes from a node at (0, 0.3) to a
    node at (0.1, 0.2), as the links of a lattice with spacing 0.1 do.  Its
    offsets are dx = 0.1 and dy = -0.09999999999999998, a direction just
    inside the upper-right half.  With the values the C library's [atan2]
    has at these offsets, [reorient_links_upper_right] exchanges the ends
    of this link, and a second call exchanges them back: the second call
    does not return the tail and head arrays of the first. *)
Theorem reorient_flips_link_on_every_call :
  forall (arctan2 : PrimFloat.float -> PrimFloat.float -> PrimFloat.float)
         (g : VoronoiDoubles.Grid) (k : nat),
    DoubleLinkSpec.libm_at_link arctan2 ->
    DoubleLinkSpec.links_ok g = true ->
    DoubleLinkSpec.is_example_link g k ->
    exists g1 g2 : VoronoiDoubles.Grid,
      VoronoiDoubles.reorient_links_upper_right arctan2 g = Py.Ok g1
      /\ VoronoiDoubles.reorient_links_upper_right arctan2 g1 = Py.Ok g2
      /\ nth k (VoronoiDoubles.node_at_link_tail g1) 0%Z
         = nth k (VoronoiDoubles.node_at_link_head g) 0%Z
      /\ nth k (VoronoiDoubles.node_at_link_head g1) 0%Z
         = nth k (VoronoiDoubles.node_at_link_tail g) 0%Z
      /\ nth k (VoronoiDoubles.node_at_link_tail g2) 0%Z
         = nth k (VoronoiDoubles.node_at_link_tail g) 0%Z
      /\ nth k (VoronoiDoubles.node_at_link_head g2) 0%Z
         = nth k (VoronoiDoubles.node_at_link_head g) 0%Z
      /\ VoronoiDoubles.node_at_link_tail g2
         <> VoronoiDoubles.node_at_link_tail g1.
Proof.
  intros arctan2 g k Hlibm Hok (Hk & Hxt & Hyt & Hxh & Hyh).
  destruct (DoubleFacts.double_links_ok_spec g Hok) as (Hlen & _).
  set (t := nth k (VoronoiDoubles.node_at_link_tail g) 0%Z) in *.
  set (h := nth k (VoronoiDoubles.node_at_link_head g) 0%Z) in *.
  set (g1 := VoronoiDoubles.with_links g
               (DoubleLinkSpec.oriented_tail arctan2 g)
               (DoubleLinkSpec.oriented_head arctan2 g)).
  set (g2 := VoronoiDoubles.with_links g1
               (DoubleLinkSpec.oriented_tail arctan2 g1)
               (DoubleLinkSpec.oriented_head arctan2 g1)).
  assert (Hok1 : DoubleLinkSpec.links_ok g1 = true)
    by (apply DoubleFacts.double_links_ok_oriented, Hok).
  assert (Ffwd : DoubleLinkSpec.flips arctan2 g t h = true).
  { unfold DoubleLinkSpec.flips. rewrite Hxt, Hyt, Hxh, Hyh.
    apply DoubleFacts.double_angle_forward, Hlibm. }
  assert (Fback : DoubleLinkSpec.flips arctan2 g1 h t = true).
  { unfold DoubleLinkSpec.flips.
    change (DoubleLinkSpec.x_of g1) with (DoubleLinkSpec.x_of g).
    change (DoubleLinkSpec.y_of g1) with (DoubleLinkSpec.y_of g).
    rewrite Hxt, Hyt, Hxh, Hyh.
    apply DoubleFacts.double_angle_backward, Hlibm. }
  destruct (DoubleFacts.double_oriented_nth arctan2 g k Hlen Hk) as [Et1 Eh1].
  fold t h in Et1, Eh1. rewrite Ffwd in Et1, Eh1.
  assert (Hlen1 : length (VoronoiDoubles.node_at_link_tail g1)
                  = length (VoronoiDoubles.node_at_link_head g1))
    by (destruct (DoubleFacts.double_links_ok_spec g1 Hok1) as (H & _);
        exact H).
  assert (Hk1 : k < length (VoronoiDoubles.node_at_link_tail g1)).
  { unfold g1. cbn [VoronoiDoubles.with_links VoronoiDoubles.node_at_link_tail].
    unfold DoubleLinkSpec.oriented_tail.
    rewrite NpFacts.zip_with_length. lia. }
  destruct (DoubleFacts.double_oriented_nth arctan2 g1 k Hlen1 Hk1)
    as [Et2 Eh2].
  change (VoronoiDoubles.node_at_link_tail g1)
    with (DoubleLinkSpec.oriented_tail arctan2 g) in Et2, Eh2.
  change (VoronoiDoubles.node_at_link_head g1)
    with (DoubleLinkSpec.oriented_head arctan2 g) in Et2, Eh2.
  rewrite Et1, Eh1, Fback in Et2, Eh2.
  exists g1, g2.
  split; [apply DoubleFacts.double_reorient_spec, Hok |].
  split; [apply DoubleFacts.double_reorient_spec, Hok1 |].
  split; [exact Et1 |]. split; [exact Eh1 |].
  split; [exact Et2 |]. split; [exact Eh2 |].
  intros E.
  assert (Eth : t = h).
  { change (VoronoiDoubles.node_at_link_tail g2)
      with (DoubleLinkSpec.oriented_tail arctan2 g1) in E.
    change (VoronoiDoubles.node_at_link_tail g1)
      with (DoubleLinkSpec.oriented_tail arctan2 g) in E.
    rewrite <- Et2, <- Et1, E. reflexivity. }
  apply DoubleFacts.ends_differ. rewrite <- Hxt, <- Hxh, Eth. reflexivity.
Qed.

Lemma reorient_flips_link_on_every_call_witness :
  exists g1 g2 : VoronoiDoubles.Grid,
    VoronoiDoubles.reorient_links_upper_right DoubleExamples.sample_arctan2
      DoubleExamples.corner = Py.Ok g1
    /\ VoronoiDoubles.reorient_links_upper_right DoubleExamples.sample_arctan2
         g1 = Py.Ok g2
    /\ nth 0 (VoronoiDoubles.node_at_link_tail g1) 0%Z = 1%Z
    /\ nth 0 (VoronoiDoubles.node_at_link_head g1) 0%Z = 0%Z
    /\ nth 0 (VoronoiDoubles.node_at_link_tail g2) 0%Z = 0%Z
    /\ nth 0 (VoronoiDoubles.node_at_link_head g2) 0%Z = 1%Z
    /\ VoronoiDoubles.node_at_link_tail g2
       <> VoronoiDoubles.node_at_link_tail g1.
Proof.
  apply (reorient_flips_link_on_every_call DoubleExamples.sample_arctan2
           DoubleExamples.corner 0).
  - split; vm_compute; reflexivity.
  - reflexivity.
  - repeat split. simpl. lia.
Defined.

(** C10: [reorient_links_upper_right] keeps the number of links and every
    link's pair of end nodes: link by link, tail and head are as before or
    exchanged. *)
Theorem reorient_keeps_endpoints :
  forall g : Voronoi.VoronoiDelaunayGrid,
    LinkSpec.links_ok g = true ->
    exists g1,
      Voronoi.reorient_links_upper_right g = Py.Ok g1
      /\ length (Voronoi.node_at_link_tail g1)
         = length (Voronoi.node_at_link_tail g)
      /\ length (Voronoi.node_at_link_head g1)
         = length (Voronoi.node_at_link_head g)
      /\ forall l : nat,
           l < length (Voronoi.node_at_link_tail g) ->
           let tail := nth l (Voronoi.node_at_link_tail g) 0%Z in
           let head := nth l (Voronoi.node_at_link_head g) 0%Z in
           let tail1 := nth l (Voronoi.node_at_link_tail g1) 0%Z in
           let head1 := nth l (Voronoi.node_at_link_head g1) 0%Z in
           (tail1 = tail /\ head1 = head) \/ (tail1 = head /\ head1 = tail).
Proof.
  intros g Hok.
  destruct (ReorientFacts.links_ok_spec g Hok) as (Hlen & _).
  eexists. split; [apply ReorientFacts.reorient_spec, Hok |].
  cbn [Voronoi.with_links Voronoi.node_at_link_tail Voronoi.node_at_link_head].
  unfold LinkSpec.oriented_tail, LinkSpec.oriented_head.
  rewrite !NpFacts.zip_with_length.
  split; [lia |]. split; [lia |].
  intros l Hl. cbv zeta.
  rewrite !(NpFacts.nth_zip_with _ _ _ l 0%Z 0%Z 0%Z) by lia.
  destruct (LinkSpec.flips g _ _); [right | left]; split; reflexivity.
Qed.

Lemma reorient_keeps_endpoints_witness :
  exists g1,
    Voronoi.reorient_links_upper_right Examples.backward_grid = Py.Ok g1
    /\ length (Voronoi.node_at_link_tail g1) = 6
    /\ length (Voronoi.node_at_link_head g1) = 6
    /\ forall l : nat,
         l < 6 ->
         let tail := nth l (Voronoi.node_at_link_tail Examples.backward_grid) 0%Z in
         let head := nth l (Voronoi.node_at_link_head Examples.backward_grid) 0%Z in
         let tail1 := nth l (Voronoi.node_at_link_tail g1) 0%Z in
         let head1 := nth l (Voronoi.node_at_link_head g1) 0%Z in
         (tail1 = tail /\ head1 = head) \/ (tail1 = head /\ head1 = tail).
Proof.
  apply (reorient_keeps_endpoints Examples.backward_grid).
  reflexivity.
Defined.

Module FaceFacts.
Import Py Np Voronoi FaceSpec.
Local Open Scope py_scope.

(** The link midpoints of the sliver diagram, and the ridges in the order
    of their midpoints: A-C, A-B, B-C, A-D, C-D, B-D. *)
Lemma sliver_midpoints :
  exists mids,
    mapM (fun rp => p <- getitem (points Examples.sliver_vor) (fst rp) ;;
                    q <- getitem (points Examples.sliver_vor) (snd rp) ;;
                    Ok (midpoint p q))
      (ridge_points Examples.sliver_vor) = Ok mids
    /\ argsort_points_by_x_then_y mids = [2; 0; 1; 3; 4; 5].
Proof.
  eexists. split; [r_eval; reflexivity |].
  unfold argsort_points_by_x_then_y, argsort.
  cbn [map length seq fst snd stable_sort_by fold_right].
  repeat sort_step.
  cbn [map nth length seq stable_sort_by fold_right].
  repeat sort_step.
  reflexivity.
Qed.

(** The vertices of the sliver diagram are the circumcentres of the
    triangles A-B-C, A-B-D and B-C-D: the diagram is the Voronoi diagram of
    the four points. *)
Lemma sliver_vertices_are_circumcentres :
  let A := (0, 0)%R in
  let C := (2, 0)%R in
  let B := (1, Examples.eps)%R in
  let D := (1, 1)%R in
  let v0 := nth 0 Examples.sliver_vertices (0, 0)%R in
  let v1 := nth 1 Examples.sliver_vertices (0, 0)%R in
  let v2 := nth 2 Examples.sliver_vertices (0, 0)%R in
  (dist2 v0 A = dist2 v0 B /\ dist2 v0 A = dist2 v0 C)
  /\ (dist2 v1 A = dist2 v1 B /\ dist2 v1 A = dist2 v1 D)
  /\ (dist2 v2 B = dist2 v2 C /\ dist2 v2 B = dist2 v2 D).
Proof.
  cbv [FaceSpec.dist2 fst snd nth Examples.sliver_vertices Examples.eps].
  repeat split; field.
Qed.

(** The links of the sliver diagram, as the function lists them. *)
Lemma sliver_links :
  exists widths : list R,
    create_links_and_faces_from_voronoi_diagram Examples.sliver_vor
    = Ok ([0; 0; 2; 0; 1; 2]%Z, [1; 2; 1; 3; 3; 3]%Z, [5; -1; -1]%Z, widths).
Proof.
  eexists.
  unfold create_links_and_faces_from_voronoi_diagram.
  destruct sliver_midpoints as (mids & Hm & Hind).
  cbv zeta. rewrite Hm. cbn [bind]. rewrite Hind. clear Hm Hind mids.
  r_eval. r_decide. r_eval. r_decide. r_eval. r_decide. r_eval.
  reflexivity.
Qed.

End FaceFacts.

(** C3: the sliver diagram has six ridges, three of them with an undefined
    vertex, so [create_links_and_faces_from_voronoi_diagram] makes room for
    three active links; but the ridges of the links A-B and B-C end at the
    far-away vertex 0 and are not valid, so only the link B-D gets a face.
    Two of the three entries of [active_links] and [face_width] keep their
    initial -1: no link id and no width. *)
Theorem sliver_ridges_leave_unset_faces :
  Voronoi.create_links_and_faces_from_voronoi_diagram Examples.sliver_vor
  = Py.Ok ([0; 0; 2; 0; 1; 2]%Z, [1; 2; 1; 3; 3; 3]%Z,
           [5; -1; -1]%Z, [1 + Examples.eps; -1; -1]%R)
  /\ Py.mapM (Voronoi.is_valid_voronoi_ridge Examples.sliver_vor)
       [0; 1; 2; 3; 4; 5]%Z
     = Py.Ok [false; false; false; false; false; true].
Proof.
  split.
  - unfold Voronoi.create_links_and_faces_from_voronoi_diagram.
    destruct FaceFacts.sliver_midpoints as (mids & Hm & Hind).
    cbv zeta. rewrite Hm. cbn [Py.bind]. rewrite Hind. clear Hm Hind mids.
    r_eval. r_decide. r_eval. r_decide. r_eval. r_decide. r_eval.
    do 3 f_equal.
    match goal with
    | |- sqrt ?a = _ =>
        replace a with ((1 + / 100000000) * (1 + / 100000000))%R by lra
    end.
    apply sqrt_square. lra.
  - r_eval. r_decide. reflexivity.
Qed.

Module PatchFacts.
Import Py Np Voronoi PatchSpec.

Lemma resolve_nodata_invalid (bad : Z) (nodata : pyval) :
  valid_nodata nodata = false -> resolve_nodata bad nodata = Raise ValueError.
Proof.
  destruct nodata as [z | s]; simpl; intros H.
  - rewrite H. reflexivity.
  - apply orb_false_iff in H. destruct H as [-> ->]. reflexivity.
Qed.

Lemma invalid_is_not_default (nodata : pyval) :
  valid_nodata nodata = false -> is_default_nodata nodata = false.
Proof. destruct nodata; simpl; auto. Qed.

(** Building the patch table with an unknown nodata option raises and
    leaves the grid as it was. *)
Lemma create_patches_invalid (delaunay : list point -> Triangulation)
  (bad : Z) (self : VoronoiDelaunayGrid) (pts : list point)
  (vor : VoronoiDiagram) (nodata : pyval) :
  valid_nodata nodata = false ->
  exists e,
    create_patches_from_delaunay_diagram delaunay bad self pts vor nodata
    = (self, Raise e).
Proof.
  intros H. unfold create_patches_from_delaunay_diagram.
  destruct (negb (array_equal (tri_points (delaunay pts)) (points vor))).
  - exists AssertionError. reflexivity.
  - rewrite (resolve_nodata_invalid bad nodata H).
    exists ValueError. reflexivity.
Qed.

End PatchFacts.




(** ** Facts about [simple_poly_area] *)

Module AreaFacts.
Import Py Np Voronoi VoronoiGeometry AreaSpec.
Local Open Scope py_scope.
Local Open Scope R_scope.

Lemma fold_left_Rplus (l : list R) (a : R) :
  fold_left Rplus l a = a + fold_left Rplus l 0.
Proof.
  revert a. induction l as [| v l IH]; intros a; simpl; [lra |].
  rewrite (IH (a + v)), (IH (0 + v)). lra.
Qed.

Lemma sum_cons (v : R) (l : list R) : sum (v :: l) = v + sum l.
Proof.
  unfold sum. simpl. rewrite fold_left_Rplus. lra.
Qed.

Lemma removelast_length {A : Type} (l : list A) :
  length (removelast l) = pred (length l).
Proof.
  induction l as [| a [| b t] IH]; try reflexivity.
  change (S (length (removelast (b :: t))) = S (length t)).
  rewrite IH. reflexivity.
Qed.

Lemma tl_length {A : Type} (l : list A) : length (tl l) = pred (length l).
Proof. destruct l; reflexivity. Qed.

(** The array the code sums is the chain of cross products. *)
Lemma sum_cross_terms (x : list R) :
  forall y : list R,
    length x = length y ->
    sum (zip_with Rminus (zip_with Rmult (removelast x) (tl y))
           (zip_with Rmult (tl x) (removelast y)))
    = open_chain (combine x y).
Proof.
  induction x as [| x0 [| x1 t] IH]; intros [| y0 [| y1 t']] H;
    try discriminate; try reflexivity.
  change (removelast (x0 :: x1 :: t)) with (x0 :: removelast (x1 :: t)).
  change (removelast (y0 :: y1 :: t')) with (y0 :: removelast (y1 :: t')).
  change (tl (y0 :: y1 :: t')) with (y1 :: tl (y1 :: t')).
  change (tl (x0 :: x1 :: t)) with (x1 :: tl (x1 :: t)).
  cbn [zip_with]. rewrite sum_cons.
  rewrite (IH (y1 :: t')) by (simpl in *; lia).
  reflexivity.
Qed.

Lemma getitem_first {A : Type} (d a : A) (l : list A) :
  getitem (a :: l) 0 = Ok a.
Proof. reflexivity. Qed.

Lemma getitem_last {A : Type} (d : A) (l : list A) :
  l <> [] -> getitem l (-1) = Ok (last l d).
Proof.
  intros Hne.
  assert (Hlen : (0 < length l)%nat) by (destruct l; [congruence | simpl; lia]).
  rewrite (NpFacts.getitem_valid d).
  - f_equal. unfold item_or, norm_index.
    replace ((0 <=? -1) && (-1 <? Z.of_nat (length l)))%Z with false
      by reflexivity.
    replace ((- Z.of_nat (length l) <=? -1) && (-1 <? 0))%Z with true
      by (symmetry; apply andb_true_iff; split; lia).
    replace (Z.to_nat (Z.of_nat (length l) + -1)) with (pred (length l))
      by lia.
    clear Hlen. induction l as [| a [| b t] IH]; [congruence | reflexivity |].
    change (nth (length t) (b :: t) d = last (b :: t) d).
    apply IH. discriminate.
  - unfold valid_index, norm_index.
    replace ((0 <=? -1) && (-1 <? Z.of_nat (length l)))%Z with false
      by reflexivity.
    replace ((- Z.of_nat (length l) <=? -1) && (-1 <? 0))%Z with true
      by (symmetry; apply andb_true_iff; split; lia).
    reflexivity.
Qed.

Lemma last_combine (x : list R) :
  forall y : list R,
    length x = length y ->
    last (A := point) (combine x y) (0, 0) = (last x 0, last y 0).
Proof.
  induction x as [| x0 [| x1 t] IH]; intros [| y0 [| y1 t']] H;
    try discriminate; try reflexivity.
  change (last (A := point) (combine (x1 :: t) (y1 :: t')) (0, 0)
          = (last (x1 :: t) 0, last (y1 :: t') 0)).
  apply IH. simpl in *; lia.
Qed.

(** What the function computes on the vertices of a polygon: the shoelace
    formula. *)
Lemma simple_poly_area_spec (x y : list R) :
  length x = length y ->
  x <> [] ->
  simple_poly_area x y = Ok (shoelace (combine x y)).
Proof.
  intros Hlen Hne. unfold simple_poly_area.
  assert (Hy : y <> []) by (destruct y; [destruct x; [congruence | discriminate] | discriminate]).
  rewrite NpFacts.broadcast2_same
    by (rewrite removelast_length, tl_length; lia).
  cbn [bind].
  rewrite NpFacts.broadcast2_same
    by (rewrite removelast_length, tl_length; lia).
  cbn [bind].
  rewrite NpFacts.broadcast2_same
    by (rewrite !NpFacts.zip_with_length, !removelast_length, !tl_length; lia).
  cbn [bind].
  rewrite (getitem_last 0 x Hne), (getitem_last 0 y Hy). cbn [bind].
  destruct x as [| x0 xt]; [congruence |].
  destruct y as [| y0 yt]; [congruence |].
  rewrite (getitem_first 0 x0), (getitem_first 0 y0). cbn [bind].
  rewrite sum_cross_terms by exact Hlen.
  unfold shoelace, closing, cross.
  rewrite (last_combine (x0 :: xt) (y0 :: yt) Hlen).
  cbn [combine hd fst snd].
  do 3 f_equal. lra.
Qed.

Lemma cross_antisym (p q : point) : cross q p = - cross p q.
Proof. unfold cross. lra. Qed.

Lemma cross_self (p : point) : cross p p = 0.
Proof. unfold cross. lra. Qed.

Lemma open_chain_snoc (l : list point) (p : point) :
  open_chain (l ++ [p])
  = open_chain l + match l with
                   | [] => 0
                   | _ => cross (last l (0, 0)) p
                   end.
Proof.
  induction l as [| a [| b t] IH].
  - simpl. lra.
  - simpl. lra.
  - change (cross a b + open_chain ((b :: t) ++ [p])
            = cross a b + open_chain (b :: t) + cross (last (b :: t) (0, 0)) p).
    rewrite IH. lra.
Qed.

Lemma last_rev {A : Type} (d : A) (l : list A) : last (rev l) d = hd d l.
Proof.
  destruct l as [| a t]; [reflexivity |].
  simpl. apply last_last.
Qed.

Lemma hd_rev {A : Type} (d : A) (l : list A) : hd d (rev l) = last l d.
Proof.
  rewrite <- (rev_involutive l) at 2. rewrite last_rev. reflexivity.
Qed.

Lemma open_chain_rev (l : list point) :
  open_chain (rev l) = - open_chain l.
Proof.
  induction l as [| a [| b t] IH].
  - simpl. lra.
  - simpl. lra.
  - change (rev (a :: b :: t)) with (rev (b :: t) ++ [a]).
    rewrite open_chain_snoc, IH.
    destruct (rev (b :: t)) as [| c r] eqn:E.
    + apply (f_equal (@length point)) in E. rewrite length_rev in E.
      discriminate.
    + rewrite <- E, last_rev.
      change (open_chain (a :: b :: t)) with (cross a b + open_chain (b :: t)).
      cbn [hd]. rewrite (cross_antisym a b). lra.
Qed.

Lemma shoelace_rev (l : list point) : shoelace (rev l) = shoelace l.
Proof.
  unfold shoelace, closing.
  rewrite open_chain_rev, last_rev, hd_rev.
  unfold point in *.
  rewrite (cross_antisym (last l (0, 0)) (hd (0, 0) l)).
  replace (- open_chain l + - cross (last l (0, 0)) (hd (0, 0) l))
    with (- (open_chain l + cross (last l (0, 0)) (hd (0, 0) l))) by lra.
  rewrite Rabs_Ropp. reflexivity.
Qed.

(** Starting the polygon at its second vertex. *)
Lemma shoelace_rotate (p : point) (t : list point) :
  shoelace (t ++ [p]) = shoelace (p :: t).
Proof.
  unfold shoelace, closing. rewrite open_chain_snoc, last_last.
  destruct t as [| q t].
  - simpl. do 2 f_equal. lra.
  - change (hd (0, 0) ((q :: t) ++ [p])) with q.
    change (last (p :: q :: t) (0, 0)) with (last (q :: t) (0, 0)).
    change (open_chain (p :: q :: t)) with (cross p q + open_chain (q :: t)).
    cbn [hd]. do 2 f_equal. lra.
Qed.

Lemma open_chain_translate (a b : R) (l : list point) :
  open_chain (map (translate a b) l)
  = open_chain l
    + a * (snd (last l (0, 0)) - snd (hd (0, 0) l))
    - b * (fst (last l (0, 0)) - fst (hd (0, 0) l)).
Proof.
  induction l as [| p [| q t] IH].
  - simpl. lra.
  - simpl. lra.
  - change (map (translate a b) (p :: q :: t))
      with (translate a b p :: map (translate a b) (q :: t)).
    change (open_chain (translate a b p :: map (translate a b) (q :: t)))
      with (cross (translate a b p) (translate a b q)
            + open_chain (map (translate a b) (q :: t))).
    rewrite IH.
    change (open_chain (p :: q :: t)) with (cross p q + open_chain (q :: t)).
    change (last (p :: q :: t) (0, 0)) with (last (q :: t) (0, 0)).
    cbn [hd]. unfold cross, translate. cbn [fst snd]. lra.
Qed.

Lemma last_map {A B : Type} (f : A -> B) (d : A) (l : list A) :
  l <> [] -> last (map f l) (f d) = f (last l d).
Proof.
  induction l as [| a [| b t] IH]; intros H; [congruence | reflexivity |].
  change (last (map f (b :: t)) (f d) = f (last (b :: t) d)).
  apply IH. discriminate.
Qed.

Lemma last_indep_translate (a b : R) (l : list point) :
  l <> [] ->
  last (map (translate a b) l) (0, 0) = translate a b (last l (0, 0)).
Proof.
  induction l as [| p [| q t] IH]; intros H; [congruence | reflexivity |].
  change (last (map (translate a b) (q :: t)) (0, 0)
          = translate a b (last (q :: t) (0, 0))).
  apply IH. discriminate.
Qed.

Lemma shoelace_translate (a b : R) (l : list point) :
  shoelace (map (translate a b) l) = shoelace l.
Proof.
  destruct l as [| p t]; [reflexivity |].
  unfold shoelace, closing. rewrite open_chain_translate.
  rewrite (last_indep_translate a b (p :: t)) by discriminate.
  cbn [map hd]. unfold cross, translate. cbn [fst snd].
  do 2 f_equal. lra.
Qed.

End AreaFacts.

Module AreaLists.
Import Py Np Voronoi VoronoiGeometry AreaSpec.

Lemma combine_app {A B : Type} (x x' : list A) :
  forall (y y' : list B),
    length x = length y ->
    combine (x ++ x') (y ++ y') = combine x y ++ combine x' y'.
Proof.
  induction x as [| a x IH]; intros [| b y] y' H; try discriminate;
    [reflexivity |].
  simpl. rewrite IH by (simpl in H; lia). reflexivity.
Qed.

Lemma combine_rev {A B : Type} (x : list A) :
  forall y : list B,
    length x = length y -> combine (rev x) (rev y) = rev (combine x y).
Proof.
  induction x as [| a x IH]; intros [| b y] H; try discriminate;
    [reflexivity |].
  simpl. rewrite <- IH by (simpl in H; lia).
  rewrite combine_app by (rewrite !length_rev; simpl in H; lia).
  reflexivity.
Qed.

Lemma combine_snoc {A B : Type} (x : list A) (y : list B) (a : A) (b : B) :
  length x = length y -> combine (x ++ [a]) (y ++ [b]) = combine x y ++ [(a, b)].
Proof.
  intros H. rewrite combine_app by exact H. reflexivity.
Qed.

Lemma combine_translate (a b : R) (x : list R) :
  forall y : list R,
    combine (map (fun v => (v + a)%R) x) (map (fun v => (v + b)%R) y)
    = map (translate a b) (combine x y).
Proof.
  induction x as [| u x IH]; intros [| v y]; try reflexivity.
  simpl. rewrite IH. reflexivity.
Qed.

(** The doctest: a 2 x 1 rectangle. *)
Lemma simple_poly_area_doctest :
  simple_poly_area [3; 1; 1; 3]%R [3 / 2; 3 / 2; 1 / 2; 1 / 2]%R = Ok 2%R.
Proof.
  rewrite AreaFacts.simple_poly_area_spec by (reflexivity || discriminate).
  unfold shoelace, closing. simpl. unfold cross. simpl.
  f_equal.
  match goal with
  | |- (_ * Rabs ?a)%R = _ => replace a with 4%R by lra
  end.
  rewrite Rabs_right by lra. lra.
Qed.

End AreaLists.

(** X1: with floats read as exact reals, the area [simple_poly_area]
    returns does not change when the polygon is moved: adding [a] to every
    x coordinate and [b] to every y coordinate gives the same result.  (In
    doubles the products round, and a large shift loses the area.) *)
Theorem poly_area_translation :
  forall (a b : R) (x y : list R),
    length x = length y ->
    VoronoiGeometry.simple_poly_area
      (map (fun v => (v + a)%R) x) (map (fun v => (v + b)%R) y)
    = VoronoiGeometry.simple_poly_area x y.
Proof.
  intros a b x y H.
  destruct x as [| x0 xt].
  - destruct y; [reflexivity | discriminate].
  - rewrite !AreaFacts.simple_poly_area_spec;
      try discriminate; try (rewrite !length_map; exact H); try exact H.
    rewrite AreaLists.combine_translate, AreaFacts.shoelace_translate.
    reflexivity.
Qed.

Lemma poly_area_translation_witness :
  VoronoiGeometry.simple_poly_area
    (map (fun v => (v + 10)%R) [3; 1; 1; 3]%R)
    (map (fun v => (v + -2)%R) [3 / 2; 3 / 2; 1 / 2; 1 / 2]%R)
  = VoronoiGeometry.simple_poly_area [3; 1; 1; 3]%R [3 / 2; 3 / 2; 1 / 2; 1 / 2]%R.
Proof.
  apply (poly_area_translation 10 (-2) [3; 1; 1; 3]%R [3 / 2; 3 / 2; 1 / 2; 1 / 2]%R).
  reflexivity.
Defined.

(** X2: with floats read as exact reals, the area does not depend on the
    sense in which the vertices are listed: the vertices in reverse order
    (clockwise instead of counterclockwise) give the same result.  (In
    doubles the two sums can differ in their last digits.) *)
Theorem poly_area_reversal :
  forall x y : list R,
    length x = length y ->
    VoronoiGeometry.simple_poly_area (rev x) (rev y)
    = VoronoiGeometry.simple_poly_area x y.
Proof.
  intros x y H.
  destruct x as [| x0 xt].
  - destruct y; [reflexivity | discriminate].
  - rewrite !AreaFacts.simple_poly_area_spec; try discriminate; try exact H.
    + rewrite AreaLists.combine_rev by exact H.
      rewrite AreaFacts.shoelace_rev. reflexivity.
    + rewrite !length_rev. exact H.
    + intros E. apply (f_equal (@length R)) in E.
      rewrite length_rev in E. discriminate.
Qed.

Lemma poly_area_reversal_witness :
  VoronoiGeometry.simple_poly_area
    (rev [3; 1; 1; 3]%R) (rev [3 / 2; 3 / 2; 1 / 2; 1 / 2]%R)
  = VoronoiGeometry.simple_poly_area [3; 1; 1; 3]%R [3 / 2; 3 / 2; 1 / 2; 1 / 2]%R.
Proof.
  apply (poly_area_reversal [3; 1; 1; 3]%R [3 / 2; 3 / 2; 1 / 2; 1 / 2]%R).
  reflexivity.
Defined.

(** X3: with floats read as exact reals, the area does not depend on the
    vertex the list starts with: moving the first vertex to the end gives
    the same result.  (In doubles the two sums can differ in their last
    digits.) *)
Theorem poly_area_rotation :
  forall (x0 y0 : R) (xt yt : list R),
    length xt = length yt ->
    VoronoiGeometry.simple_poly_area (xt ++ [x0]) (yt ++ [y0])
    = VoronoiGeometry.simple_poly_area (x0 :: xt) (y0 :: yt).
Proof.
  intros x0 y0 xt yt H.
  rewrite !AreaFacts.simple_poly_area_spec; try discriminate.
  - rewrite AreaLists.combine_snoc by exact H.
    rewrite AreaFacts.shoelace_rotate. reflexivity.
  - simpl. rewrite H. reflexivity.
  - rewrite !length_app, H. reflexivity.
  - intros E. apply (f_equal (@length R)) in E.
    rewrite length_app in E. simpl in E. lia.
Qed.

Lemma poly_area_rotation_witness :
  VoronoiGeometry.simple_poly_area ([1; 1; 3] ++ [3])%R ([3 / 2; 1 / 2; 1 / 2] ++ [3 / 2])%R
  = VoronoiGeometry.simple_poly_area [3; 1; 1; 3]%R [3 / 2; 3 / 2; 1 / 2; 1 / 2]%R.
Proof.
  apply (poly_area_rotation 3 (3 / 2) [1; 1; 3]%R [3 / 2; 1 / 2; 1 / 2]%R).
  reflexivity.
Defined.

(** X4: with floats read as exact reals, a polygon of one or two vertices
    has area 0.  (In doubles the four products of two vertices need not
    cancel.) *)
Theorem poly_area_degenerate :
  forall x y : list R,
    length x = length y ->
    1 <= length x <= 2 ->
    VoronoiGeometry.simple_poly_area x y = Py.Ok 0%R.
Proof.
  intros x y H Hn.
  rewrite AreaFacts.simple_poly_area_spec;
    [| exact H | destruct x; [simpl in Hn; lia | discriminate]].
  f_equal.
  destruct x as [| x0 [| x1 [| x2 t]]]; simpl in Hn; try lia;
    destruct y as [| y0 [| y1 [| y2 t']]]; try discriminate;
    unfold AreaSpec.shoelace, AreaSpec.closing; simpl;
    unfold AreaSpec.cross; simpl;
    match goal with
    | |- (_ * Rabs ?a)%R = _ => replace a with 0%R by lra
    end;
    rewrite Rabs_R0; lra.
Qed.

Lemma poly_area_degenerate_witness :
  VoronoiGeometry.simple_poly_area [3; 1]%R [3 / 2; 1 / 2]%R = Py.Ok 0%R.
Proof.
  apply (poly_area_degenerate [3; 1]%R [3 / 2; 1 / 2]%R).
  - reflexivity.
  - simpl. lia.
Defined.

(** X5: without a vertex [simple_poly_area] raises, whatever the y array
    holds; with two empty arrays the exception is the [IndexError] of
    [x[-1]]. *)
Theorem poly_area_no_vertex_raises :
  VoronoiGeometry.simple_poly_area [] [] = Py.Raise Py.IndexError
  /\ forall y : list R, Py.raises (VoronoiGeometry.simple_poly_area [] y).
Proof.
  split; [reflexivity |].
  intros y. unfold Py.raises, VoronoiGeometry.simple_poly_area.
  destruct y as [| y0 [| y1 [| y2 t]]].
  - exists Py.IndexError. reflexivity.
  - exists Py.IndexError. reflexivity.
  - exists Py.IndexError. reflexivity.
  - exists Py.ValueError. reflexivity.
Qed.

(** ** Facts about [calculate_link_lengths] *)

Module LengthFacts.
Import Py Np Voronoi VoronoiGeometry LengthSpec.
Local Open Scope py_scope.

Lemma column0_valid (pts : list point) (idx : list Z) :
  forallb (valid_index (length pts)) idx = true ->
  column0 pts idx = Ok (map (fun i => fst (node_point pts i)) idx).
Proof.
  intros H. apply NpFacts.mapM_ok. intros i Hi.
  rewrite (NpFacts.getitem_valid (0, 0)%R)
    by (rewrite forallb_forall in H; apply H, Hi).
  reflexivity.
Qed.

Lemma column1_valid (pts : list point) (idx : list Z) :
  forallb (valid_index (length pts)) idx = true ->
  column1 pts idx = Ok (map (fun i => snd (node_point pts i)) idx).
Proof.
  intros H. apply NpFacts.mapM_ok. intros i Hi.
  rewrite (NpFacts.getitem_valid (0, 0)%R)
    by (rewrite forallb_forall in H; apply H, Hi).
  reflexivity.
Qed.

Lemma ends_ok_spec (pts : list point) (link_from link_to : list Z) :
  ends_ok pts link_from link_to = true ->
  length link_from = length link_to
  /\ forallb (valid_index (length pts)) link_from = true
  /\ forallb (valid_index (length pts)) link_to = true.
Proof.
  unfold ends_ok. intros H.
  repeat (apply andb_true_iff in H; destruct H as [H ?]).
  apply Nat.eqb_eq in H. repeat split; assumption.
Qed.

Lemma ends_ok_intro (pts : list point) (link_from link_to : list Z) :
  length link_from = length link_to ->
  forallb (valid_index (length pts)) link_from = true ->
  forallb (valid_index (length pts)) link_to = true ->
  ends_ok pts link_from link_to = true.
Proof.
  intros Hlen Hf Ht. unfold ends_ok.
  rewrite Hf, Ht, Hlen, Nat.eqb_refl. reflexivity.
Qed.

(** On sound index arrays the function returns the distance of the two end
    points of every link. *)
Lemma calculate_link_lengths_spec (pts : list point)
  (link_from link_to : list Z) :
  ends_ok pts link_from link_to = true ->
  calculate_link_lengths pts link_from link_to
  = Ok (zip_with (fun f t => distance (node_point pts f) (node_point pts t))
          link_from link_to).
Proof.
  intros Hok. destruct (ends_ok_spec _ _ _ Hok) as (Hlen & Hf & Ht).
  unfold calculate_link_lengths.
  rewrite (column0_valid pts link_to Ht), (column0_valid pts link_from Hf).
  cbn [bind].
  rewrite NpFacts.broadcast2_same by (rewrite !length_map; lia).
  rewrite (column1_valid pts link_to Ht), (column1_valid pts link_from Hf).
  cbn [bind].
  rewrite NpFacts.broadcast2_same by (rewrite !length_map; lia).
  cbn [bind].
  rewrite NpFacts.broadcast2_same by reflexivity. cbn [bind].
  rewrite NpFacts.broadcast2_same by reflexivity. cbn [bind].
  rewrite NpFacts.broadcast2_same
    by (rewrite !NpFacts.zip_with_length, !length_map; lia).
  cbn [bind]. f_equal.
  rewrite !OrientFacts.zip_with_map.
  rewrite !OrientFacts.zip_with_zip_with.
  rewrite OrientFacts.map_zip_with.
  rewrite OrientFacts.zip_with_swap.
  reflexivity.
Qed.

Lemma distance_sym (p q : point) : distance q p = distance p q.
Proof. unfold distance. f_equal. ring. Qed.

Lemma distance_nonneg (p q : point) : (0 <= distance p q)%R.
Proof. unfold distance. apply sqrt_pos. Qed.

Lemma distance_zero (p q : point) : distance p q = 0%R <-> p = q.
Proof.
  unfold distance. destruct p as [px py], q as [qx qy]. cbn [fst snd].
  split.
  - intros H.
    pose proof (Rle_0_sqr (qx - px)) as Hx.
    pose proof (Rle_0_sqr (qy - py)) as Hy. unfold Rsqr in Hx, Hy.
    apply sqrt_eq_0 in H; [| lra].
    assert (Ex : ((qx - px) * (qx - px) = 0)%R) by lra.
    assert (Ey : ((qy - py) * (qy - py) = 0)%R) by lra.
    apply Rmult_integral in Ex. apply Rmult_integral in Ey.
    f_equal; [destruct Ex; lra | destruct Ey; lra].
  - intros E. inversion E; subst.
    replace ((qx - qx) * (qx - qx) + (qy - qy) * (qy - qy))%R with 0%R by ring.
    apply sqrt_0.
Qed.

(** The doctest: the sides of a 3-4-5 triangle. *)
Lemma calculate_link_lengths_doctest :
  calculate_link_lengths [(0, 0); (3, 0); (3, 4)]%R [0; 1; 2]%Z [1; 2; 0]%Z
  = Ok [3; 4; 5]%R.
Proof.
  rewrite calculate_link_lengths_spec by reflexivity.
  cbn [zip_with]. unfold distance, node_point.
  cbv [item_or norm_index length nth Z.leb Z.ltb Z.compare Z.of_nat Z.to_nat
       andb Pos.compare Pos.compare_cont Pos.of_succ_nat Pos.succ Pos.to_nat
       Pos.iter_op Nat.add Z.opp Z.add fst snd].
  f_equal. repeat apply f_equal2; try reflexivity.
  - replace ((3 - 0) * (3 - 0) + (0 - 0) * (0 - 0))%R with (3 * 3)%R by ring.
    apply sqrt_square. lra.
  - replace ((3 - 3) * (3 - 3) + (4 - 0) * (4 - 0))%R with (4 * 4)%R by ring.
    apply sqrt_square. lra.
  - replace ((0 - 3) * (0 - 3) + (0 - 4) * (0 - 4))%R with (5 * 5)%R by ring.
    apply sqrt_square. lra.
Qed.

End LengthFacts.

(** X6: the length of a link does not depend on its direction: exchanging
    the "from" and "to" arrays gives the same lengths, one per link. *)
Theorem link_lengths_symmetric :
  forall (pts : list Voronoi.point) (link_from link_to : list Z),
    LengthSpec.ends_ok pts link_from link_to = true ->
    exists lengths,
      VoronoiGeometry.calculate_link_lengths pts link_from link_to
      = Py.Ok lengths
      /\ VoronoiGeometry.calculate_link_lengths pts link_to link_from
         = Py.Ok lengths
      /\ length lengths = length link_from.
Proof.
  intros pts lf lt Hok.
  destruct (LengthFacts.ends_ok_spec _ _ _ Hok) as (Hlen & Hf & Ht).
  assert (Hok' : LengthSpec.ends_ok pts lt lf = true).
  { apply LengthFacts.ends_ok_intro; [symmetry |..]; assumption. }
  eexists. split; [apply LengthFacts.calculate_link_lengths_spec, Hok |].
  split.
  - rewrite (LengthFacts.calculate_link_lengths_spec _ _ _ Hok'). f_equal.
    rewrite OrientFacts.zip_with_swap.
    apply OrientFacts.zip_with_ext. intros f t.
    apply LengthFacts.distance_sym.
  - rewrite NpFacts.zip_with_length. lia.
Qed.

Lemma link_lengths_symmetric_witness :
  exists lengths,
    VoronoiGeometry.calculate_link_lengths
      [(0, 0); (3, 0); (3, 4)]%R [0; 1; 2]%Z [1; 2; 0]%Z = Py.Ok lengths
    /\ VoronoiGeometry.calculate_link_lengths
         [(0, 0); (3, 0); (3, 4)]%R [1; 2; 0]%Z [0; 1; 2]%Z = Py.Ok lengths
    /\ length lengths = 3.
Proof.
  apply (link_lengths_symmetric
           [(0, 0); (3, 0); (3, 4)]%R [0; 1; 2]%Z [1; 2; 0]%Z).
  reflexivity.
Defined.

(** X7: with floats read as exact reals, a link's length is never
    negative, and it is 0 exactly when the link joins a point to itself or
    to a point with the same coordinates.  (In doubles the squares of very
    small offsets underflow to 0.) *)
Theorem link_length_zero_iff_same_point :
  forall (pts : list Voronoi.point) (link_from link_to : list Z),
    LengthSpec.ends_ok pts link_from link_to = true ->
    exists lengths,
      VoronoiGeometry.calculate_link_lengths pts link_from link_to
      = Py.Ok lengths
      /\ forall l : nat,
           l < length link_from ->
           (0 <= nth l lengths 0)%R
           /\ (nth l lengths 0%R = 0%R
               <-> LengthSpec.node_point pts (nth l link_from 0%Z)
                   = LengthSpec.node_point pts (nth l link_to 0%Z)).
Proof.
  intros pts lf lt Hok.
  destruct (LengthFacts.ends_ok_spec _ _ _ Hok) as (Hlen & _ & _).
  eexists. split; [apply LengthFacts.calculate_link_lengths_spec, Hok |].
  intros l Hl.
  rewrite (NpFacts.nth_zip_with _ _ _ l 0%Z 0%Z 0%R) by lia.
  split; [apply LengthFacts.distance_nonneg | apply LengthFacts.distance_zero].
Qed.

Lemma link_length_zero_iff_same_point_witness :
  exists lengths,
    VoronoiGeometry.calculate_link_lengths
      [(0, 0); (3, 0); (3, 4)]%R [0; 1; 2]%Z [1; 2; 2]%Z = Py.Ok lengths
    /\ forall l : nat,
         l < 3 ->
         (0 <= nth l lengths 0)%R
         /\ (nth l lengths 0%R = 0%R
             <-> LengthSpec.node_point [(0, 0); (3, 0); (3, 4)]%R
                   (nth l [0; 1; 2]%Z 0%Z)
                 = LengthSpec.node_point [(0, 0); (3, 0); (3, 4)]%R
                     (nth l [1; 2; 2]%Z 0%Z)).
Proof.
  apply (link_length_zero_iff_same_point
           [(0, 0); (3, 0); (3, 4)]%R [0; 1; 2]%Z [1; 2; 2]%Z).
  reflexivity.
Defined.

(** X8: reorienting the links does not change their lengths: on a grid
    whose node coordinates are those of its points, the lengths computed
    from the link arrays after [reorient_links_upper_right] are the lengths
    computed before. *)
Theorem link_lengths_unchanged_by_reorientation :
  forall g : Voronoi.VoronoiDelaunayGrid,
    LinkSpec.links_ok g = true ->
    Voronoi.node_x g = map fst (Voronoi.pts g) ->
    Voronoi.node_y g = map snd (Voronoi.pts g) ->
    exists g1 lengths,
      Voronoi.reorient_links_upper_right g = Py.Ok g1
      /\ VoronoiGeometry.calculate_link_lengths (Voronoi.pts g)
           (Voronoi.node_at_link_tail g) (Voronoi.node_at_link_head g)
         = Py.Ok lengths
      /\ VoronoiGeometry.calculate_link_lengths (Voronoi.pts g1)
           (Voronoi.node_at_link_tail g1) (Voronoi.node_at_link_head g1)
         = Py.Ok lengths.
Proof.
  intros g Hok Hx Hy.
  destruct (ReorientFacts.links_ok_spec g Hok) as (Hlen & Hxt & Hxh & _ & _).
  rewrite Hx, length_map in Hxt, Hxh.
  assert (Hends : LengthSpec.ends_ok (Voronoi.pts g)
                    (Voronoi.node_at_link_tail g) (Voronoi.node_at_link_head g)
                  = true).
  { apply LengthFacts.ends_ok_intro; assumption. }
  pose proof (ReorientFacts.links_ok_oriented g Hok) as Hok1.
  destruct (ReorientFacts.links_ok_spec _ Hok1) as (Hlen1 & Hxt1 & Hxh1 & _ & _).
  cbn [Voronoi.with_links Voronoi.node_x Voronoi.node_at_link_tail
       Voronoi.node_at_link_head] in Hlen1, Hxt1, Hxh1.
  rewrite Hx, length_map in Hxt1, Hxh1.
  do 2 eexists.
  split; [apply ReorientFacts.reorient_spec, Hok |].
  split; [apply LengthFacts.calculate_link_lengths_spec, Hends |].
  cbn [Voronoi.with_links Voronoi.pts Voronoi.node_at_link_tail
       Voronoi.node_at_link_head].
  rewrite LengthFacts.calculate_link_lengths_spec
    by (apply LengthFacts.ends_ok_intro; assumption).
  f_equal. unfold LinkSpec.oriented_tail, LinkSpec.oriented_head.
  rewrite OrientFacts.zip_with_zip_with.
  apply OrientFacts.zip_with_ext. intros t h.
  destruct (LinkSpec.flips g t h);
    [apply LengthFacts.distance_sym | reflexivity].
Qed.

Lemma link_lengths_unchanged_by_reorientation_witness :
  exists g1 lengths,
    Voronoi.reorient_links_upper_right Examples.backward_grid = Py.Ok g1
    /\ VoronoiGeometry.calculate_link_lengths
         (Voronoi.pts Examples.backward_grid)
         (Voronoi.node_at_link_tail Examples.backward_grid)
         (Voronoi.node_at_link_head Examples.backward_grid)
       = Py.Ok lengths
    /\ VoronoiGeometry.calculate_link_lengths (Voronoi.pts g1)
         (Voronoi.node_at_link_tail g1) (Voronoi.node_at_link_head g1)
       = Py.Ok lengths.
Proof.
  apply (link_lengths_unchanged_by_reorientation Examples.backward_grid);
    reflexivity.
Defined.

(** ** Facts about [setup_node_cell_connectivity] *)

Module CellFacts.
Import Py Np VoronoiGeometry CellSpec.
Local Open Scope py_scope.

Section WithCodes.
Variables core bad : Z.

Lemma where_from_app (k : nat) (m1 m2 : list bool) :
  where_from k (m1 ++ m2) = where_from k m1 ++ where_from (k + length m1) m2.
Proof.
  revert k. induction m1 as [| b m1 IH]; intros k; simpl.
  - rewrite Nat.add_0_r. reflexivity.
  - rewrite IH. replace (S k + length m1) with (k + S (length m1)) by lia.
    destruct b; reflexivity.
Qed.

Lemma where_from_length (k : nat) (m : list bool) :
  length (where_from k m) = count_nonzero m.
Proof.
  revert k. unfold count_nonzero.
  induction m as [| b m IH]; intros k; simpl; [reflexivity |].
  destruct b; simpl; rewrite IH; reflexivity.
Qed.

Lemma core_count_app (l1 l2 : list Z) :
  core_count core (l1 ++ l2) = core_count core l1 + core_count core l2.
Proof.
  unfold core_count, core_mask, count_nonzero.
  rewrite map_app, filter_app, length_app. reflexivity.
Qed.

Lemma number_cells_length (c : Z) (l : list Z) :
  length (number_cells core bad c l) = length l.
Proof.
  revert c. induction l as [| s l IH]; intros c; simpl; [reflexivity |].
  destruct (s =? core)%Z; simpl; rewrite IH; reflexivity.
Qed.

Lemma number_cells_app (c : Z) (l1 l2 : list Z) :
  number_cells core bad c (l1 ++ l2)
  = number_cells core bad c l1
    ++ number_cells core bad (c + Z.of_nat (core_count core l1)) l2.
Proof.
  revert c. induction l1 as [| s l1 IH]; intros c.
  - simpl. rewrite Z.add_0_r. reflexivity.
  - unfold core_count, core_mask, count_nonzero in *. simpl.
    destruct (s =? core)%Z; simpl; rewrite IH; do 2 f_equal;
      f_equal; lia.
Qed.

Lemma core_nodes_snoc (pre : list Z) (s : Z) :
  where_from 0 (core_mask core (pre ++ [s]))
  = where_from 0 (core_mask core pre)
    ++ (if (s =? core)%Z then [Z.of_nat (length pre)] else []).
Proof.
  unfold core_mask. rewrite map_app, where_from_app, length_map. simpl.
  destruct (s =? core)%Z; reflexivity.
Qed.

Lemma core_count_cons (s : Z) (rest : list Z) :
  core_count core (s :: rest)
  = (if (s =? core)%Z then 1 else 0) + core_count core rest.
Proof.
  unfold core_count, core_mask, count_nonzero. simpl.
  destruct (s =? core)%Z; reflexivity.
Qed.

Lemma core_count_snoc (pre : list Z) (s : Z) :
  core_count core (pre ++ [s])
  = core_count core pre + (if (s =? core)%Z then 1 else 0).
Proof.
  rewrite core_count_app, core_count_cons.
  unfold core_count, core_mask, count_nonzero. simpl. lia.
Qed.

Lemma number_cells_snoc (pre : list Z) (s : Z) :
  number_cells core bad 0 (pre ++ [s])
  = number_cells core bad 0 pre
    ++ [if (s =? core)%Z then Z.of_nat (core_count core pre) else bad].
Proof.
  rewrite number_cells_app. simpl.
  destruct (s =? core)%Z; reflexivity.
Qed.

Lemma getitem_middle {A : Type} (pre : list A) (x : A) (rest : list A) :
  getitem (pre ++ x :: rest) (Z.of_nat (length pre)) = Ok x.
Proof.
  rewrite (NpFacts.getitem_of_nat x) by (rewrite length_app; simpl; lia).
  rewrite nth_middle. reflexivity.
Qed.

Lemma setitem_middle {A : Type} (pre : list A) (x y : A) (rest : list A) :
  setitem (pre ++ x :: rest) (Z.of_nat (length pre)) y
  = Ok (pre ++ y :: rest).
Proof.
  unfold setitem.
  rewrite NpFacts.norm_index_of_nat by (rewrite length_app; simpl; lia).
  rewrite OrientFacts.set_nth_middle. reflexivity.
Qed.

(** The loop, started after the nodes of [pre], finishes the two tables. *)
Lemma loop_from (rest : list Z) :
  forall pre : list Z,
    foldM (connectivity_step core (pre ++ rest))
      (seq (length pre) (length rest))
      {| cell := Z.of_nat (core_count core pre);
         node_cell := number_cells core bad 0 pre ++ repeat bad (length rest);
         cell_node := where_from 0 (core_mask core pre)
                      ++ repeat 0%Z (core_count core rest) |}
    = Ok {| cell := Z.of_nat (core_count core (pre ++ rest));
            node_cell := number_cells core bad 0 (pre ++ rest);
            cell_node := where_from 0 (core_mask core (pre ++ rest)) |}.
Proof.
  induction rest as [| s rest IH]; intros pre.
  - simpl. rewrite !app_nil_r. reflexivity.
  - cbn [length seq foldM]. unfold connectivity_step at 1.
    rewrite getitem_middle. cbn [bind cell node_cell cell_node].
    rewrite core_count_cons.
    assert (E : pre ++ s :: rest = (pre ++ [s]) ++ rest)
      by (rewrite <- app_assoc; reflexivity).
    assert (L : S (length pre) = length (pre ++ [s]))
      by (rewrite length_app; simpl; lia).
    rewrite E, L. rewrite <- (IH (pre ++ [s])).
    rewrite core_count_snoc, number_cells_snoc, core_nodes_snoc.
    destruct (s =? core)%Z.
    + cbn [Nat.add repeat].
      rewrite <- (number_cells_length 0 pre) at 1.
      rewrite setitem_middle. cbn [bind].
      pose proof (where_from_length 0 (core_mask core pre)) as W.
      fold (core_count core pre) in W.
      rewrite <- W at 1.
      rewrite setitem_middle. cbn [bind].
      rewrite <- !app_assoc. cbn [app].
      replace (Z.of_nat (core_count core pre) + 1)%Z
        with (Z.of_nat (core_count core pre + 1)) by lia.
      reflexivity.
    + cbn [Nat.add repeat]. rewrite Nat.add_0_r, app_nil_r.
      rewrite <- !app_assoc. reflexivity.
Qed.

(** The function returns the numbering of the core nodes and the list of
    the core nodes, when [ncells] is their number. *)
Lemma setup_spec (node_status : list Z) :
  setup_node_cell_connectivity core bad node_status
    (Z.of_nat (core_count core node_status))
  = Ok (number_cells core bad 0 node_status, core_nodes core node_status).
Proof.
  unfold setup_node_cell_connectivity.
  fold (core_mask core node_status). fold (core_count core node_status).
  rewrite Z.eqb_refl. cbn [py_assert bind].
  replace (Z.of_nat (core_count core node_status) <? 0)%Z with false
    by (symmetry; apply Z.ltb_ge; lia).
  rewrite Nat2Z.id. unfold for_range.
  assert (H : foldM (connectivity_step core node_status)
                (seq 0 (length node_status))
                {| cell := 0;
                   node_cell := repeat bad (length node_status);
                   cell_node := repeat 0%Z (core_count core node_status) |}
              = Ok {| cell := Z.of_nat (core_count core node_status);
                      node_cell := number_cells core bad 0 node_status;
                      cell_node := where_from 0 (core_mask core node_status) |})
    by exact (loop_from node_status []).
  rewrite H. reflexivity.
Qed.

Lemma number_cells_other (l : list Z) :
  forall (c : Z) (n : nat),
    n < length l ->
    (nth n l 0 =? core)%Z = false ->
    nth n (number_cells core bad c l) 0%Z = bad.
Proof.
  induction l as [| s l IH]; intros c n Hn Hs; simpl in Hn; [lia |].
  destruct n as [| n]; simpl in Hs |- *.
  - rewrite Hs. reflexivity.
  - destruct (s =? core)%Z; simpl; apply IH; (lia || assumption).
Qed.

Lemma number_cells_core (l : list Z) :
  forall (c : Z) (n : nat),
    n < length l ->
    (nth n l 0 =? core)%Z = true ->
    nth n (number_cells core bad c l) 0%Z
    = (c + Z.of_nat (core_count core (firstn n l)))%Z.
Proof.
  induction l as [| s l IH]; intros c n Hn Hs; simpl in Hn; [lia |].
  destruct n as [| n].
  - simpl in Hs |- *. rewrite Hs. simpl.
    unfold core_count, core_mask, count_nonzero. simpl. lia.
  - cbn [firstn]. rewrite core_count_cons. simpl in Hs |- *.
    destruct (s =? core)%Z; simpl; rewrite IH by (lia || assumption); lia.
Qed.

Lemma core_nodes_at (l : list Z) :
  forall (k n : nat),
    n < length l ->
    (nth n l 0 =? core)%Z = true ->
    nth (core_count core (firstn n l)) (where_from k (core_mask core l)) 0%Z
    = Z.of_nat (k + n).
Proof.
  induction l as [| s l IH]; intros k n Hn Hs; simpl in Hn; [lia |].
  destruct n as [| n].
  - simpl in Hs |- *. rewrite Hs. simpl. f_equal. lia.
  - cbn [firstn]. rewrite core_count_cons. simpl in Hs |- *.
    destruct (s =? core)%Z; simpl;
      rewrite (IH (S k) n) by (lia || assumption); f_equal; lia.
Qed.

Lemma core_node_exists (l : list Z) :
  forall (k j : nat),
    j < core_count core l ->
    exists n,
      n < length l
      /\ (nth n l 0 =? core)%Z = true
      /\ core_count core (firstn n l) = j
      /\ nth j (where_from k (core_mask core l)) 0%Z = Z.of_nat (k + n).
Proof.
  induction l as [| s l IH]; intros k j Hj.
  - unfold core_count, core_mask, count_nonzero in Hj. simpl in Hj. lia.
  - rewrite core_count_cons in Hj.
    destruct (s =? core)%Z eqn:Es.
    + destruct j as [| j].
      * exists 0. simpl. rewrite Es. simpl.
        repeat split; try lia; try reflexivity; try (f_equal; lia).
      * destruct (IH (S k) j) as (n & Hn & Hs & Hc & Hw); [simpl in Hj; lia |].
        exists (S n). cbn [firstn]. rewrite core_count_cons, Es.
        simpl. rewrite Es. simpl. rewrite Hw.
        repeat split; try lia; try assumption; try (f_equal; lia).
    + destruct (IH (S k) j) as (n & Hn & Hs & Hc & Hw); [simpl in Hj; lia |].
      exists (S n). cbn [firstn]. rewrite core_count_cons, Es.
      simpl. rewrite Es. rewrite Hw.
      repeat split; try lia; try assumption; try (f_equal; lia).
Qed.

Lemma core_count_firstn (l : list Z) (n : nat) :
  n < length l ->
  (nth n l 0 =? core)%Z = true ->
  core_count core (firstn n l) < core_count core l.
Proof.
  intros Hn Hs.
  rewrite <- (firstn_skipn n l) at 2. rewrite core_count_app.
  destruct (skipn n l) as [| s t] eqn:E.
  - apply (f_equal (@length Z)) in E. rewrite length_skipn in E.
    simpl in E. lia.
  - assert (s = nth n l 0%Z).
    { rewrite <- (firstn_skipn n l) at 1. rewrite E.
      rewrite app_nth2 by (rewrite length_firstn; lia).
      rewrite length_firstn. replace (n - Nat.min n (length l)) with 0 by lia.
      reflexivity. }
    subst s. rewrite core_count_cons, Hs. lia.
Qed.

End WithCodes.

End CellFacts.

(** X9: called with the number of core nodes, [setup_node_cell_connectivity]
    returns; its second array lists the core nodes in ascending order, that
    is [numpy.where(node_status == CORE_NODE)[0]], the array that
    [find_perimeter_nodes] stores as the nodes of the cells; the first
    array has one entry per node. *)
Theorem connectivity_lists_core_nodes :
  forall (core bad : Z) (node_status : list Z),
    exists node_cell,
      VoronoiGeometry.setup_node_cell_connectivity core bad node_status
        (Z.of_nat (CellSpec.core_count core node_status))
      = Py.Ok (node_cell, CellSpec.core_nodes core node_status)
      /\ length node_cell = length node_status.
Proof.
  intros core bad node_status. eexists.
  split; [apply CellFacts.setup_spec |].
  apply CellFacts.number_cells_length.
Qed.

(** X10: the two arrays of [setup_node_cell_connectivity] are inverse to
    each other: the node of cell [c] is a core node whose cell is [c], the
    cell of a core node [n] has [n] as its node, and every other node has
    the bad index value as its cell. *)
Theorem connectivity_round_trip :
  forall (core bad : Z) (node_status : list Z),
    exists node_cell cell_node,
      VoronoiGeometry.setup_node_cell_connectivity core bad node_status
        (Z.of_nat (CellSpec.core_count core node_status))
      = Py.Ok (node_cell, cell_node)
      /\ (forall c : nat,
            c < CellSpec.core_count core node_status ->
            exists n : nat,
              n < length node_status
              /\ nth c cell_node 0%Z = Z.of_nat n
              /\ nth n node_status 0%Z = core
              /\ nth n node_cell 0%Z = Z.of_nat c)
      /\ (forall n : nat,
            n < length node_status ->
            nth n node_status 0%Z = core ->
            exists c : nat,
              c < CellSpec.core_count core node_status
              /\ nth n node_cell 0%Z = Z.of_nat c
              /\ nth c cell_node 0%Z = Z.of_nat n)
      /\ (forall n : nat,
            n < length node_status ->
            nth n node_status 0%Z <> core ->
            nth n node_cell 0%Z = bad).
Proof.
  intros core bad node_status. do 2 eexists.
  split; [apply CellFacts.setup_spec |].
  split; [| split].
  - intros c Hc.
    destruct (CellFacts.core_node_exists core node_status 0 c Hc)
      as (n & Hn & Hs & Hcount & Hw).
    exists n. split; [exact Hn |]. split; [exact Hw |].
    split; [apply Z.eqb_eq, Hs |].
    rewrite (CellFacts.number_cells_core core bad node_status 0 n Hn Hs).
    rewrite Hcount. lia.
  - intros n Hn Hs. apply Z.eqb_eq in Hs.
    exists (CellSpec.core_count core (firstn n node_status)).
    split; [apply CellFacts.core_count_firstn; assumption |].
    split.
    + rewrite (CellFacts.number_cells_core core bad node_status 0 n Hn Hs).
      lia.
    + apply (CellFacts.core_nodes_at core node_status 0 n Hn Hs).
  - intros n Hn Hs. apply Z.eqb_neq in Hs.
    apply CellFacts.number_cells_other; assumption.
Qed.

(** X11: a number of cells that differs from the number of core nodes
    makes [setup_node_cell_connectivity] fail its assertion. *)
Theorem connectivity_wrong_cell_count :
  forall (core bad : Z) (node_status : list Z) (ncells : Z),
    ncells <> Z.of_nat (CellSpec.core_count core node_status) ->
    VoronoiGeometry.setup_node_cell_connectivity core bad node_status ncells
    = Py.Raise Py.AssertionError.
Proof.
  intros core bad node_status ncells H.
  unfold VoronoiGeometry.setup_node_cell_connectivity.
  apply Z.eqb_neq in H. unfold CellSpec.core_count, CellSpec.core_mask in H.
  rewrite H. reflexivity.
Qed.

Lemma connectivity_wrong_cell_count_witness :
  VoronoiGeometry.setup_node_cell_connectivity 0 (-1) [1; 0; 0; 1; 0]%Z 2
  = Py.Raise Py.AssertionError.
Proof.
  apply (connectivity_wrong_cell_count 0 (-1) [1; 0; 0; 1; 0]%Z 2).
  vm_compute. lia.
Defined.

(** ** Facts about the mappers from link ends to links *)

Module LinkMapFacts.
Import Py Np NpMore Mappers MappersMore MapSpec.
Local Open Scope py_scope.

Lemma assign_all_same {A : Type} (out v : list A) :
  length v = length out -> assign_all out v = Ok v.
Proof. intros H. apply NpFacts.broadcast_to_same, H. Qed.

Lemma empty_at_link_length (g : ModelGrid) :
  length (empty_at_link g) = number_of_links g.
Proof. unfold empty_at_link, zeros. apply repeat_length. Qed.

(** The common shape of the mappers that combine the values at the two
    ends of a link. *)
Lemma ends_spec (g : ModelGrid) (var : list R) (f : R -> R -> R) :
  links_fit g var var = true ->
  (at_head <- take var (node_at_link_head g) ;;
   at_tail <- take var (node_at_link_tail g) ;;
   r <- broadcast2 f at_head at_tail ;;
   ufunc_out (empty_at_link g) r)%py
  = Ok (zip_with (fun h t => f (item_or 0%R var h) (item_or 0%R var t))
          (node_at_link_head g) (node_at_link_tail g)).
Proof.
  intros Hfit.
  destruct (MapFacts.links_fit_spec g var var Hfit)
    as (Hh & Ht & Vh & Vt & _ & _).
  rewrite (NpFacts.take_valid 0%R var _ Vh), (NpFacts.take_valid 0%R var _ Vt).
  cbn [bind].
  rewrite NpFacts.broadcast2_same by (rewrite !length_map; lia).
  cbn [bind]. unfold ufunc_out.
  rewrite NpFacts.broadcast_to_same
    by (rewrite NpFacts.zip_with_length, !length_map, empty_at_link_length; lia).
  rewrite OrientFacts.zip_with_map. reflexivity.
Qed.

Lemma ends_length (g : ModelGrid) (var : list R) (f : R -> R -> R) :
  links_fit g var var = true ->
  length (zip_with (fun h t => f (item_or 0%R var h) (item_or 0%R var t))
            (node_at_link_head g) (node_at_link_tail g))
  = number_of_links g.
Proof.
  intros Hfit.
  destruct (MapFacts.links_fit_spec g var var Hfit) as (Hh & Ht & _).
  rewrite NpFacts.zip_with_length. lia.
Qed.

Lemma ends_nth (g : ModelGrid) (var : list R) (f : R -> R -> R) (l : nat) :
  links_fit g var var = true ->
  l < number_of_links g ->
  nth l (zip_with (fun h t => f (item_or 0%R var h) (item_or 0%R var t))
           (node_at_link_head g) (node_at_link_tail g)) 0%R
  = f (item_or 0%R var (head_of g l)) (item_or 0%R var (tail_of g l)).
Proof.
  intros Hfit Hl.
  destruct (MapFacts.links_fit_spec g var var Hfit) as (Hh & Ht & _).
  rewrite (NpFacts.nth_zip_with _ _ _ l 0%Z 0%Z 0%R) by lia.
  reflexivity.
Qed.

Lemma min_spec (g : ModelGrid) (var_name : field_arg) (var : list R) :
  resolve (at_node g) var_name = Ok var ->
  links_fit g var var = true ->
  map_min_of_link_nodes_to_link g var_name None
  = Ok (zip_with (fun h t => Rmin (item_or 0%R var h) (item_or 0%R var t))
          (node_at_link_head g) (node_at_link_tail g)).
Proof.
  intros Hr Hfit. unfold map_min_of_link_nodes_to_link.
  rewrite Hr. cbn [bind default_out]. apply (ends_spec g var Rmin Hfit).
Qed.

Lemma max_spec (g : ModelGrid) (var_name : field_arg) (var : list R) :
  resolve (at_node g) var_name = Ok var ->
  links_fit g var var = true ->
  map_max_of_link_nodes_to_link g var_name None
  = Ok (zip_with (fun h t => Rmax (item_or 0%R var h) (item_or 0%R var t))
          (node_at_link_head g) (node_at_link_tail g)).
Proof.
  intros Hr Hfit. unfold map_max_of_link_nodes_to_link.
  rewrite Hr. cbn [bind default_out]. apply (ends_spec g var Rmax Hfit).
Qed.

Lemma mean_spec (g : ModelGrid) (var_name : field_arg) (var : list R) :
  resolve (at_node g) var_name = Ok var ->
  links_fit g var var = true ->
  map_mean_of_link_nodes_to_link g var_name None
  = Ok (zip_with (fun h t => (0.5 * (item_or 0%R var h + item_or 0%R var t))%R)
          (node_at_link_head g) (node_at_link_tail g)).
Proof.
  intros Hr Hfit. unfold map_mean_of_link_nodes_to_link.
  rewrite Hr. cbn [bind default_out].
  destruct (MapFacts.links_fit_spec g var var Hfit)
    as (Hh & Ht & Vh & Vt & _ & _).
  rewrite (NpFacts.take_valid 0%R var _ Vh), (NpFacts.take_valid 0%R var _ Vt).
  cbn [bind].
  rewrite NpFacts.broadcast2_same by (rewrite !length_map; lia).
  cbn [bind].
  rewrite assign_all_same
    by (rewrite length_map, NpFacts.zip_with_length, !length_map,
          empty_at_link_length; lia).
  rewrite OrientFacts.zip_with_map, OrientFacts.map_zip_with. reflexivity.
Qed.

Lemma head_spec (g : ModelGrid) (var_name : field_arg) (var : list R) :
  resolve (at_node g) var_name = Ok var ->
  links_fit g var var = true ->
  map_link_head_node_to_link g var_name None
  = Ok (map (item_or 0%R var) (node_at_link_head g)).
Proof.
  intros Hr Hfit. unfold map_link_head_node_to_link.
  rewrite Hr. cbn [bind default_out].
  destruct (MapFacts.links_fit_spec g var var Hfit)
    as (Hh & Ht & Vh & Vt & _ & _).
  rewrite (NpFacts.take_valid 0%R var _ Vh). cbn [bind].
  apply assign_all_same. rewrite length_map, empty_at_link_length. exact Hh.
Qed.

Lemma tail_spec (g : ModelGrid) (var_name : field_arg) (var : list R) :
  resolve (at_node g) var_name = Ok var ->
  links_fit g var var = true ->
  map_link_tail_node_to_link g var_name None
  = Ok (map (item_or 0%R var) (node_at_link_tail g)).
Proof.
  intros Hr Hfit. unfold map_link_tail_node_to_link.
  rewrite Hr. cbn [bind default_out].
  destruct (MapFacts.links_fit_spec g var var Hfit)
    as (Hh & Ht & Vh & Vt & _ & _).
  rewrite (NpFacts.take_valid 0%R var _ Vt). cbn [bind].
  apply assign_all_same. rewrite length_map, empty_at_link_length. exact Ht.
Qed.

End LinkMapFacts.

(** X12: the five mappers from the ends of a link agree with each other:
    on every link the minimum and the maximum are the smaller and the
    larger of the head value and the tail value, and the mean lies between
    them, halfway. *)
Theorem link_node_mappers_ordered :
  forall (grid : Mappers.ModelGrid) (var_name : Mappers.field_arg)
         (var : list R),
    Mappers.resolve (Mappers.at_node grid) var_name = Py.Ok var ->
    MapSpec.links_fit grid var var = true ->
    exists at_head at_tail lo mid hi,
      MappersMore.map_link_head_node_to_link grid var_name None = Py.Ok at_head
      /\ MappersMore.map_link_tail_node_to_link grid var_name None
         = Py.Ok at_tail
      /\ MappersMore.map_min_of_link_nodes_to_link grid var_name None
         = Py.Ok lo
      /\ MappersMore.map_mean_of_link_nodes_to_link grid var_name None
         = Py.Ok mid
      /\ MappersMore.map_max_of_link_nodes_to_link grid var_name None
         = Py.Ok hi
      /\ forall l : nat,
           l < Mappers.number_of_links grid ->
           nth l lo 0%R = Rmin (nth l at_head 0%R) (nth l at_tail 0%R)
           /\ nth l hi 0%R = Rmax (nth l at_head 0%R) (nth l at_tail 0%R)
           /\ (nth l lo 0 <= nth l mid 0 <= nth l hi 0)%R
           /\ (2 * nth l mid 0 = nth l lo 0 + nth l hi 0)%R.
Proof.
  intros grid var_name var Hr Hfit.
  destruct (MapFacts.links_fit_spec grid var var Hfit) as (Hh & Ht & _).
  do 5 eexists.
  split; [apply (LinkMapFacts.head_spec grid var_name var Hr Hfit) |].
  split; [apply (LinkMapFacts.tail_spec grid var_name var Hr Hfit) |].
  split; [apply (LinkMapFacts.min_spec grid var_name var Hr Hfit) |].
  split; [apply (LinkMapFacts.mean_spec grid var_name var Hr Hfit) |].
  split; [apply (LinkMapFacts.max_spec grid var_name var Hr Hfit) |].
  intros l Hl.
  rewrite (LinkMapFacts.ends_nth grid var Rmin l Hfit Hl).
  rewrite (LinkMapFacts.ends_nth grid var Rmax l Hfit Hl).
  rewrite (LinkMapFacts.ends_nth grid var
             (fun a b => (0.5 * (a + b))%R) l Hfit Hl).
  rewrite (NpFacts.nth_map_in (Np.item_or 0%R var) _ l 0%Z 0%R) by lia.
  rewrite (NpFacts.nth_map_in (Np.item_or 0%R var) _ l 0%Z 0%R) by lia.
  fold (MapSpec.head_of grid l). fold (MapSpec.tail_of grid l).
  set (h := Np.item_or 0%R var (MapSpec.head_of grid l)).
  set (t := Np.item_or 0%R var (MapSpec.tail_of grid l)).
  split; [reflexivity |]. split; [reflexivity |].
  unfold Rmin, Rmax. destruct (Rle_dec h t); repeat split; lra.
Qed.

Lemma link_node_mappers_ordered_witness :
  exists at_head at_tail lo mid hi,
    MappersMore.map_link_head_node_to_link Examples.raster34
      (Mappers.FieldName "z") None = Py.Ok at_head
    /\ MappersMore.map_link_tail_node_to_link Examples.raster34
         (Mappers.FieldName "z") None = Py.Ok at_tail
    /\ MappersMore.map_min_of_link_nodes_to_link Examples.raster34
         (Mappers.FieldName "z") None = Py.Ok lo
    /\ MappersMore.map_mean_of_link_nodes_to_link Examples.raster34
         (Mappers.FieldName "z") None = Py.Ok mid
    /\ MappersMore.map_max_of_link_nodes_to_link Examples.raster34
         (Mappers.FieldName "z") None = Py.Ok hi
    /\ forall l : nat,
         l < 17 ->
         nth l lo 0%R = Rmin (nth l at_head 0%R) (nth l at_tail 0%R)
         /\ nth l hi 0%R = Rmax (nth l at_head 0%R) (nth l at_tail 0%R)
         /\ (nth l lo 0 <= nth l mid 0 <= nth l hi 0)%R
         /\ (2 * nth l mid 0 = nth l lo 0 + nth l hi 0)%R.
Proof.
  apply (link_node_mappers_ordered Examples.raster34 (Mappers.FieldName "z")
           [0; 1; 2; 3; 7; 6; 5; 4; 8; 9; 10; 11]%R);
    reflexivity.
Defined.

(** X13: mapping the value at the node with the smaller control value,
    with a field as its own control, is mapping the minimum of the link's
    two nodes: [map_value_at_min_node_to_link(grid, z, z)] and
    [map_min_of_link_nodes_to_link(grid, z)] return the same array. *)
Theorem value_at_min_node_of_itself :
  forall (grid : Mappers.ModelGrid) (var_name : Mappers.field_arg)
         (var : list R),
    Mappers.resolve (Mappers.at_node grid) var_name = Py.Ok var ->
    MapSpec.links_fit grid var var = true ->
    exists res,
      Mappers.map_value_at_min_node_to_link grid var_name var_name None
      = Py.Ok res
      /\ MappersMore.map_min_of_link_nodes_to_link grid var_name None
         = Py.Ok res.
Proof.
  intros grid var_name var Hr Hfit.
  destruct (MapFacts.select_spec grid var var Np.Rltb Hfit)
    as (res & E & Hlen & Hnth).
  exists res. split.
  - unfold Mappers.map_value_at_min_node_to_link. rewrite Hr. exact E.
  - rewrite (LinkMapFacts.min_spec grid var_name var Hr Hfit). f_equal.
    apply (nth_ext _ _ 0%R 0%R).
    + rewrite (LinkMapFacts.ends_length grid var Rmin Hfit). lia.
    + intros l Hl.
      rewrite (LinkMapFacts.ends_length grid var Rmin Hfit) in Hl.
      rewrite (LinkMapFacts.ends_nth grid var Rmin l Hfit Hl), (Hnth l Hl).
      unfold Np.Rltb, Rmin.
      destruct (Rlt_dec _ _), (Rle_dec _ _); lra.
Qed.

Lemma value_at_min_node_of_itself_witness :
  exists res,
    Mappers.map_value_at_min_node_to_link Examples.raster34
      (Mappers.FieldName "z") (Mappers.FieldName "z") None = Py.Ok res
    /\ MappersMore.map_min_of_link_nodes_to_link Examples.raster34
         (Mappers.FieldName "z") None = Py.Ok res.
Proof.
  apply (value_at_min_node_of_itself Examples.raster34 (Mappers.FieldName "z")
           [0; 1; 2; 3; 7; 6; 5; 4; 8; 9; 10; 11]%R);
    reflexivity.
Defined.

(** X14: likewise for the maximum:
    [map_value_at_max_node_to_link(grid, z, z)] and
    [map_max_of_link_nodes_to_link(grid, z)] return the same array. *)
Theorem value_at_max_node_of_itself :
  forall (grid : Mappers.ModelGrid) (var_name : Mappers.field_arg)
         (var : list R),
    Mappers.resolve (Mappers.at_node grid) var_name = Py.Ok var ->
    MapSpec.links_fit grid var var = true ->
    exists res,
      Mappers.map_value_at_max_node_to_link grid var_name var_name None
      = Py.Ok res
      /\ MappersMore.map_max_of_link_nodes_to_link grid var_name None
         = Py.Ok res.
Proof.
  intros grid var_name var Hr Hfit.
  destruct (MapFacts.select_spec grid var var (fun t h => Np.Rltb h t) Hfit)
    as (res & E & Hlen & Hnth).
  exists res. split.
  - unfold Mappers.map_value_at_max_node_to_link. rewrite Hr. exact E.
  - rewrite (LinkMapFacts.max_spec grid var_name var Hr Hfit). f_equal.
    apply (nth_ext _ _ 0%R 0%R).
    + rewrite (LinkMapFacts.ends_length grid var Rmax Hfit). lia.
    + intros l Hl.
      rewrite (LinkMapFacts.ends_length grid var Rmax Hfit) in Hl.
      rewrite (LinkMapFacts.ends_nth grid var Rmax l Hfit Hl), (Hnth l Hl).
      unfold Np.Rltb, Rmax.
      destruct (Rlt_dec _ _), (Rle_dec _ _); lra.
Qed.

Lemma value_at_max_node_of_itself_witness :
  exists res,
    Mappers.map_value_at_max_node_to_link Examples.raster34
      (Mappers.FieldName "z") (Mappers.FieldName "z") None = Py.Ok res
    /\ MappersMore.map_max_of_link_nodes_to_link Examples.raster34
         (Mappers.FieldName "z") None = Py.Ok res.
Proof.
  apply (value_at_max_node_of_itself Examples.raster34 (Mappers.FieldName "z")
           [0; 1; 2; 3; 7; 6; 5; 4; 8; 9; 10; 11]%R);
    reflexivity.
Defined.

(** ** Facts about the mappers from a node's links to the node *)

Module NodeLinkFacts.
Import Py Np NpMore Mappers MappersMore NodeLinkSpec.
Local Open Scope py_scope.

Lemma setitem_last {A : Type} (pre : list A) (x y : A) :
  setitem (pre ++ [x]) (-1) y = Ok (pre ++ [y]).
Proof.
  unfold setitem, norm_index. rewrite length_app. cbn [length].
  replace ((0 <=? -1) && (-1 <? Z.of_nat (length pre + 1)))%Z with false
    by reflexivity.
  replace ((- Z.of_nat (length pre + 1) <=? -1) && (-1 <? 0))%Z with true
    by (symmetry; apply andb_true_iff; split;
        [apply Z.leb_le; lia | reflexivity]).
  replace (Z.to_nat (Z.of_nat (length pre + 1) + -1)) with (length pre) by lia.
  rewrite OrientFacts.set_nth_middle. reflexivity.
Qed.

Lemma values_at_linksX_spec (g : ModelGrid) (var_name : field_arg)
  (var : list R) (s : R) :
  resolve (at_link g) var_name = Ok var ->
  length var = number_of_links g ->
  values_at_linksX g var_name s = Ok (var ++ [s]).
Proof.
  intros Hr Hlen. unfold values_at_linksX, zeros.
  rewrite repeat_app. cbn [repeat].
  rewrite setitem_last. cbn [bind]. rewrite Hr. cbn [bind].
  unfold assign_prefix.
  rewrite length_app, repeat_length. cbn [length].
  replace (Nat.min (number_of_links g + 1 - 1) (number_of_links g + 1))
    with (number_of_links g) by lia.
  rewrite NpFacts.broadcast_to_same by exact Hlen. cbn [bind].
  rewrite skipn_app, repeat_length, Nat.sub_diag.
  rewrite skipn_all2 by (rewrite repeat_length; lia).
  reflexivity.
Qed.

Lemma slot_value (var : list R) (s : R) (e : Z) :
  (-1 <= e < Z.of_nat (length var))%Z ->
  getitem (var ++ [s]) e = Ok (link_or var s e).
Proof.
  intros He. unfold link_or.
  destruct (e =? -1)%Z eqn:E.
  - apply Z.eqb_eq in E. subst e.
    rewrite (AreaFacts.getitem_last s) by (destruct var; discriminate).
    rewrite last_last. reflexivity.
  - apply Z.eqb_neq in E.
    replace e with (Z.of_nat (Z.to_nat e)) by lia.
    rewrite (NpFacts.getitem_of_nat 0%R) by (rewrite length_app; simpl; lia).
    rewrite app_nth1 by lia.
    unfold item_or. rewrite NpFacts.norm_index_of_nat by lia.
    reflexivity.
Qed.

Lemma rows_ok_spec (g : ModelGrid) :
  rows_ok g = true ->
  length (links_at_node g) = number_of_nodes g
  /\ forall row, In row (links_at_node g) ->
       row <> []
       /\ forall e, In e row -> (-1 <= e < Z.of_nat (number_of_links g))%Z.
Proof.
  unfold rows_ok. intros H. apply andb_true_iff in H. destruct H as [Hn Hrows].
  apply Nat.eqb_eq in Hn. split; [exact Hn |].
  intros row Hrow. rewrite forallb_forall in Hrows.
  specialize (Hrows row Hrow). apply andb_true_iff in Hrows.
  destruct Hrows as [Hne Hall]. split.
  - intros ->. discriminate.
  - intros e He. rewrite forallb_forall in Hall. specialize (Hall e He).
    apply andb_true_iff in Hall. destruct Hall as [H1 H2].
    apply Z.leb_le in H1. apply Z.ltb_lt in H2. lia.
Qed.

(** The common shape of the two mappers: a reduction over the values that
    the slots of each row read. *)
Lemma node_links_spec (g : ModelGrid) (var_name : field_arg) (var : list R)
  (s : R) (reduce : list R -> result R) (red : list R -> R) :
  (forall r, r <> [] -> reduce r = Ok (red r)) ->
  resolve (at_link g) var_name = Ok var ->
  length var = number_of_links g ->
  rows_ok g = true ->
  (valuesX <- values_at_linksX g var_name s ;;
   rows <- mapM (take valuesX) (links_at_node g) ;;
   reduced <- mapM reduce rows ;;
   into_out (empty_at_node g) reduced)%py
  = Ok (map (fun row => red (map (link_or var s) row)) (links_at_node g)).
Proof.
  intros Hred Hr Hlen Hok.
  destruct (rows_ok_spec g Hok) as (Hn & Hrows).
  rewrite (values_at_linksX_spec g var_name var s Hr Hlen). cbn [bind].
  rewrite (NpFacts.mapM_ok _ (map (link_or var s))).
  - cbn [bind].
    rewrite (NpFacts.mapM_ok _ red).
    + cbn [bind]. unfold into_out, empty_at_node, zeros.
      rewrite repeat_length, !length_map, Hn, Nat.eqb_refl.
      rewrite map_map. reflexivity.
    + intros r Hin. apply in_map_iff in Hin.
      destruct Hin as (row & <- & Hrow).
      apply Hred. destruct (Hrows row Hrow) as [Hne _].
      destruct row; [congruence | discriminate].
  - intros row Hrow. unfold take. apply NpFacts.mapM_ok.
    intros e He. apply slot_value. rewrite Hlen.
    apply (proj2 (Hrows row Hrow)), He.
Qed.

Lemma fold_min_le (t : list R) (x : R) :
  (fold_left Rmin t x <= x)%R
  /\ forall y, In y t -> (fold_left Rmin t x <= y)%R.
Proof.
  revert x. induction t as [| a t IH]; intros x; simpl.
  - split; [lra | tauto].
  - destruct (IH (Rmin x a)) as [H1 H2].
    pose proof (Rmin_l x a). pose proof (Rmin_r x a).
    split; [lra |]. intros y [<- | Hy]; [lra | apply H2, Hy].
Qed.

Lemma fold_min_in (t : list R) (x : R) :
  fold_left Rmin t x = x \/ In (fold_left Rmin t x) t.
Proof.
  revert x. induction t as [| a t IH]; intros x; simpl; [left; reflexivity |].
  destruct (IH (Rmin x a)) as [H | H]; [| right; right; exact H].
  rewrite H. unfold Rmin. destruct (Rle_dec x a); [left | right; left];
    reflexivity.
Qed.

Lemma fold_max_ge (t : list R) (x : R) :
  (x <= fold_left Rmax t x)%R
  /\ forall y, In y t -> (y <= fold_left Rmax t x)%R.
Proof.
  revert x. induction t as [| a t IH]; intros x; simpl.
  - split; [lra | tauto].
  - destruct (IH (Rmax x a)) as [H1 H2].
    pose proof (Rmax_l x a). pose proof (Rmax_r x a).
    split; [lra |]. intros y [<- | Hy]; [lra | apply H2, Hy].
Qed.

Lemma fold_max_in (t : list R) (x : R) :
  fold_left Rmax t x = x \/ In (fold_left Rmax t x) t.
Proof.
  revert x. induction t as [| a t IH]; intros x; simpl; [left; reflexivity |].
  destruct (IH (Rmax x a)) as [H | H]; [| right; right; exact H].
  rewrite H. unfold Rmax. destruct (Rle_dec x a); [right; left | left];
    reflexivity.
Qed.

Lemma row_min_le (r : list R) (y : R) : In y r -> (row_min r <= y)%R.
Proof.
  destruct r as [| x t]; simpl; [intros [] |].
  destruct (fold_min_le t x) as [H1 H2].
  intros [<- | Hy]; [exact H1 | apply H2, Hy].
Qed.

Lemma row_min_in (r : list R) : r <> [] -> In (row_min r) r.
Proof.
  destruct r as [| x t]; [congruence |]. intros _. simpl.
  destruct (fold_min_in t x) as [-> | H]; [left; reflexivity | right; exact H].
Qed.

Lemma row_max_ge (r : list R) (y : R) : In y r -> (y <= row_max r)%R.
Proof.
  destruct r as [| x t]; simpl; [intros [] |].
  destruct (fold_max_ge t x) as [H1 H2].
  intros [<- | Hy]; [exact H1 | apply H2, Hy].
Qed.

Lemma row_max_in (r : list R) : r <> [] -> In (row_max r) r.
Proof.
  destruct r as [| x t]; [congruence |]. intros _. simpl.
  destruct (fold_max_in t x) as [-> | H]; [left; reflexivity | right; exact H].
Qed.

Lemma all_or_some (row : list Z) :
  (forall e, In e row -> e = (-1)%Z)
  \/ (exists e, In e row /\ e <> (-1)%Z).
Proof.
  induction row as [| a row IH].
  - left. intros e [].
  - destruct (Z.eq_dec a (-1)) as [-> | Ha].
    + destruct IH as [H | (e & He & Hne)].
      * left. intros e [<- | He]; [reflexivity | apply H, He].
      * right. exists e. split; [right; exact He | exact Hne].
    + right. exists a. split; [left; reflexivity | exact Ha].
Qed.

Lemma link_or_real (var : list R) (s : R) (e : Z) :
  e <> (-1)%Z -> link_or var s e = item_or 0%R var e.
Proof.
  intros H. unfold link_or. apply Z.eqb_neq in H. rewrite H. reflexivity.
Qed.

Lemma item_in (var : list R) (e : Z) :
  (0 <= e < Z.of_nat (length var))%Z -> In (item_or 0%R var e) var.
Proof.
  intros H. unfold item_or.
  replace e with (Z.of_nat (Z.to_nat e)) by lia.
  rewrite NpFacts.norm_index_of_nat by lia.
  apply nth_In. lia.
Qed.

Lemma float_max_large : (1000 <= float_max)%R.
Proof.
  unfold float_max. apply IZR_le.
  apply Z.leb_le. vm_compute. reflexivity.
Qed.

End NodeLinkFacts.

(** X15: [map_min_of_node_links_to_node] records at every node a lower
    bound of the values of the node's links that one of them attains; the
    entries -1 of missing links never show, unless the node has no link at
    all, where the largest float is recorded.  (Link values are taken not to
    exceed the largest float.) *)
Theorem node_links_min_is_minimum :
  forall (grid : Mappers.ModelGrid) (var_name : Mappers.field_arg)
         (var : list R),
    Mappers.resolve (Mappers.at_link grid) var_name = Py.Ok var ->
    length var = Mappers.number_of_links grid ->
    NodeLinkSpec.rows_ok grid = true ->
    Forall (fun v => (v <= NpMore.float_max)%R) var ->
    exists res,
      MappersMore.map_min_of_node_links_to_node grid var_name None = Py.Ok res
      /\ length res = Mappers.number_of_nodes grid
      /\ forall n : nat,
           n < Mappers.number_of_nodes grid ->
           let row := nth n (Mappers.links_at_node grid) [] in
           (forall e, In e row -> e <> (-1)%Z ->
                      (nth n res 0 <= Np.item_or 0 var e)%R)
           /\ ((exists e, In e row /\ e <> (-1)%Z
                          /\ nth n res 0%R = Np.item_or 0%R var e)
               \/ ((forall e, In e row -> e = (-1)%Z)
                   /\ nth n res 0%R = NpMore.float_max)).
Proof.
  intros grid var_name var Hr Hlen Hok Hbound.
  destruct (NodeLinkFacts.rows_ok_spec grid Hok) as (Hn & Hrows).
  eexists. split.
  - unfold MappersMore.map_min_of_node_links_to_node. cbn [Mappers.default_out].
    apply (NodeLinkFacts.node_links_spec grid var_name var NpMore.float_max
             NpMore.amin NodeLinkSpec.row_min); try assumption.
    intros [| x t] Hne; [congruence | reflexivity].
  - split; [rewrite length_map; exact Hn |].
    intros n Hlt. cbv zeta.
    rewrite (NpFacts.nth_map_in _ _ n [] 0%R) by lia.
    set (row := nth n (Mappers.links_at_node grid) []).
    assert (Hrow : In row (Mappers.links_at_node grid))
      by (apply nth_In; lia).
    destruct (Hrows row Hrow) as (Hne & Hrange).
    split.
    + intros e He Hreal. apply NodeLinkFacts.row_min_le.
      rewrite <- (NodeLinkFacts.link_or_real var NpMore.float_max e Hreal).
      apply in_map, He.
    + assert (Hin : In (NodeLinkSpec.row_min
                          (map (NodeLinkSpec.link_or var NpMore.float_max) row))
                      (map (NodeLinkSpec.link_or var NpMore.float_max) row)).
      { apply NodeLinkFacts.row_min_in. destruct row; [congruence | discriminate]. }
      apply in_map_iff in Hin. destruct Hin as (e & Ee & He).
      destruct (Z.eq_dec e (-1)) as [-> | Hreal].
      * destruct (NodeLinkFacts.all_or_some row) as [Hall | (e' & He' & Hreal')].
        -- right. split; [exact Hall |]. rewrite <- Ee. reflexivity.
        -- left. exists e'. split; [exact He' |]. split; [exact Hreal' |].
           rewrite <- Ee. change (NodeLinkSpec.link_or var NpMore.float_max (-1))
             with NpMore.float_max.
           assert (Hle : (NodeLinkSpec.row_min
                            (map (NodeLinkSpec.link_or var NpMore.float_max) row)
                          <= Np.item_or 0 var e')%R).
           { apply NodeLinkFacts.row_min_le.
             rewrite <- (NodeLinkFacts.link_or_real var NpMore.float_max e' Hreal').
             apply in_map, He'. }
           rewrite <- Ee in Hle.
           change (NodeLinkSpec.link_or var NpMore.float_max (-1))
             with NpMore.float_max in Hle.
           assert (Hup : (Np.item_or 0 var e' <= NpMore.float_max)%R).
           { rewrite Forall_forall in Hbound. apply Hbound.
             apply NodeLinkFacts.item_in.
             pose proof (Hrange e' He'). lia. }
           lra.
      * left. exists e. split; [exact He |]. split; [exact Hreal |].
        rewrite <- Ee. apply NodeLinkFacts.link_or_real, Hreal.
Qed.

Lemma node_links_min_is_minimum_witness :
  exists res,
    MappersMore.map_min_of_node_links_to_node Examples.raster34
      (Mappers.FieldName "grad") None = Py.Ok res
    /\ length res = 12
    /\ forall n : nat,
         n < 12 ->
         let row := nth n (Mappers.links_at_node Examples.raster34) [] in
         (forall e, In e row -> e <> (-1)%Z ->
                    (nth n res 0
                     <= Np.item_or 0
                          [-1; -2; -1; 0; 0; 0; 0; -1; -2; -1; 0; 0; 0; 0;
                           -1; -2; -1] e)%R)
         /\ ((exists e, In e row /\ e <> (-1)%Z
                        /\ nth n res 0%R
                           = Np.item_or 0%R
                               [-1; -2; -1; 0; 0; 0; 0; -1; -2; -1; 0; 0; 0; 0;
                                -1; -2; -1]%R e)
             \/ ((forall e, In e row -> e = (-1)%Z)
                 /\ nth n res 0%R = NpMore.float_max)).
Proof.
  apply (node_links_min_is_minimum Examples.raster34 (Mappers.FieldName "grad")
           [-1; -2; -1; 0; 0; 0; 0; -1; -2; -1; 0; 0; 0; 0; -1; -2; -1]%R).
  - reflexivity.
  - reflexivity.
  - reflexivity.
  - pose proof NodeLinkFacts.float_max_large as H.
    repeat constructor; lra.
Defined.

(** X16: [map_max_of_node_links_to_node] records at every node an upper
    bound of the values of the node's links that one of them attains; the
    entries -1 of missing links never show, unless the node has no link at
    all, where the most negative float is recorded.  (Link values are taken
    not to lie below the most negative float.) *)
Theorem node_links_max_is_maximum :
  forall (grid : Mappers.ModelGrid) (var_name : Mappers.field_arg)
         (var : list R),
    Mappers.resolve (Mappers.at_link grid) var_name = Py.Ok var ->
    length var = Mappers.number_of_links grid ->
    NodeLinkSpec.rows_ok grid = true ->
    Forall (fun v => (- NpMore.float_max <= v)%R) var ->
    exists res,
      MappersMore.map_max_of_node_links_to_node grid var_name None = Py.Ok res
      /\ length res = Mappers.number_of_nodes grid
      /\ forall n : nat,
           n < Mappers.number_of_nodes grid ->
           let row := nth n (Mappers.links_at_node grid) [] in
           (forall e, In e row -> e <> (-1)%Z ->
                      (Np.item_or 0 var e <= nth n res 0)%R)
           /\ ((exists e, In e row /\ e <> (-1)%Z
                          /\ nth n res 0%R = Np.item_or 0%R var e)
               \/ ((forall e, In e row -> e = (-1)%Z)
                   /\ nth n res 0%R = (- NpMore.float_max)%R)).
Proof.
  intros grid var_name var Hr Hlen Hok Hbound.
  destruct (NodeLinkFacts.rows_ok_spec grid Hok) as (Hn & Hrows).
  eexists. split.
  - unfold MappersMore.map_max_of_node_links_to_node. cbn [Mappers.default_out].
    apply (NodeLinkFacts.node_links_spec grid var_name var (- NpMore.float_max)%R
             Np.amax NodeLinkSpec.row_max); try assumption.
    intros [| x t] Hne; [congruence | reflexivity].
  - split; [rewrite length_map; exact Hn |].
    intros n Hlt. cbv zeta.
    rewrite (NpFacts.nth_map_in _ _ n [] 0%R) by lia.
    set (row := nth n (Mappers.links_at_node grid) []).
    assert (Hrow : In row (Mappers.links_at_node grid))
      by (apply nth_In; lia).
    destruct (Hrows row Hrow) as (Hne & Hrange).
    split.
    + intros e He Hreal. apply NodeLinkFacts.row_max_ge.
      rewrite <- (NodeLinkFacts.link_or_real var (- NpMore.float_max)%R e Hreal).
      apply in_map, He.
    + assert (Hin : In (NodeLinkSpec.row_max
                          (map (NodeLinkSpec.link_or var (- NpMore.float_max)%R) row))
                      (map (NodeLinkSpec.link_or var (- NpMore.float_max)%R) row)).
      { apply NodeLinkFacts.row_max_in. destruct row; [congruence | discriminate]. }
      apply in_map_iff in Hin. destruct Hin as (e & Ee & He).
      destruct (Z.eq_dec e (-1)) as [-> | Hreal].
      * destruct (NodeLinkFacts.all_or_some row) as [Hall | (e' & He' & Hreal')].
        -- right. split; [exact Hall |]. rewrite <- Ee. reflexivity.
        -- left. exists e'. split; [exact He' |]. split; [exact Hreal' |].
           rewrite <- Ee. change (NodeLinkSpec.link_or var (- NpMore.float_max)%R (-1))
             with (- NpMore.float_max)%R.
           assert (Hle : (Np.item_or 0 var e'
                          <= NodeLinkSpec.row_max
                               (map (NodeLinkSpec.link_or var
                                       (- NpMore.float_max)%R) row))%R).
           { apply NodeLinkFacts.row_max_ge.
             rewrite <- (NodeLinkFacts.link_or_real var (- NpMore.float_max)%R e' Hreal').
             apply in_map, He'. }
           rewrite <- Ee in Hle.
           change (NodeLinkSpec.link_or var (- NpMore.float_max)%R (-1))
             with (- NpMore.float_max)%R in Hle.
           assert (Hup : (- NpMore.float_max <= Np.item_or 0 var e')%R).
           { rewrite Forall_forall in Hbound. apply Hbound.
             apply NodeLinkFacts.item_in.
             pose proof (Hrange e' He'). lia. }
           lra.
      * left. exists e. split; [exact He |]. split; [exact Hreal |].
        rewrite <- Ee. apply NodeLinkFacts.link_or_real, Hreal.
Qed.

Lemma node_links_max_is_maximum_witness :
  exists res,
    MappersMore.map_max_of_node_links_to_node Examples.raster34
      (Mappers.FieldName "grad") None = Py.Ok res
    /\ length res = 12
    /\ forall n : nat,
         n < 12 ->
         let row := nth n (Mappers.links_at_node Examples.raster34) [] in
         (forall e, In e row -> e <> (-1)%Z ->
                    (Np.item_or 0
                       [-1; -2; -1; 0; 0; 0; 0; -1; -2; -1; 0; 0; 0; 0;
                        -1; -2; -1] e
                     <= nth n res 0)%R)
         /\ ((exists e, In e row /\ e <> (-1)%Z
                        /\ nth n res 0%R
                           = Np.item_or 0%R
                               [-1; -2; -1; 0; 0; 0; 0; -1; -2; -1; 0; 0; 0; 0;
                                -1; -2; -1]%R e)
             \/ ((forall e, In e row -> e = (-1)%Z)
                 /\ nth n res 0%R = (- NpMore.float_max)%R)).
Proof.
  apply (node_links_max_is_maximum Examples.raster34 (Mappers.FieldName "grad")
           [-1; -2; -1; 0; 0; 0; 0; -1; -2; -1; 0; 0; 0; 0; -1; -2; -1]%R).
  - reflexivity.
  - reflexivity.
  - reflexivity.
  - pose proof NodeLinkFacts.float_max_large as H.
    repeat constructor; lra.
Defined.

(** The doctests of the two mappers, on the embedding. *)
Module NodeLinkDoctests.
Import Py Np NpMore Mappers MappersMore.

Ltac min_max_decide :=
  repeat match goal with
    | |- context [Rmin ?a ?b] =>
        first [ rewrite (Rmin_left a b) by lra
              | rewrite (Rmin_right a b) by lra ]
    | |- context [Rmax ?a ?b] =>
        first [ rewrite (Rmax_left a b) by lra
              | rewrite (Rmax_right a b) by lra ]
    end.

Lemma node_links_min_doctest :
  map_min_of_node_links_to_node Examples.raster34 (FieldArray Examples.link_ids) None
  = Ok [0; 0; 1; 2; 3; 4; 5; 6; 10; 11; 12; 13]%R.
Proof.
  pose proof NodeLinkFacts.float_max_large as H.
  unfold map_min_of_node_links_to_node. cbn [default_out].
  rewrite (NodeLinkFacts.node_links_spec Examples.raster34
             (FieldArray Examples.link_ids) Examples.link_ids float_max amin
             NodeLinkSpec.row_min);
    try reflexivity; [| intros [| x t] Hne; [congruence | reflexivity]].
  cbv [Examples.raster34 links_at_node map NodeLinkSpec.row_min fold_left
       NodeLinkSpec.link_or Examples.link_ids item_or norm_index length nth
       Z.eqb Z.leb Z.ltb Z.compare Z.of_nat Z.to_nat andb Pos.compare
       Pos.compare_cont Pos.of_succ_nat Pos.succ Pos.to_nat Pos.iter_op
       Nat.add Z.opp Z.add Pos.eqb].
  min_max_decide. reflexivity.
Qed.

Lemma node_links_max_doctest :
  map_max_of_node_links_to_node Examples.raster34 (FieldArray Examples.link_ids) None
  = Ok [3; 4; 5; 6; 10; 11; 12; 13; 14; 15; 16; 16]%R.
Proof.
  pose proof NodeLinkFacts.float_max_large as H.
  unfold map_max_of_node_links_to_node. cbn [default_out].
  rewrite (NodeLinkFacts.node_links_spec Examples.raster34
             (FieldArray Examples.link_ids) Examples.link_ids (- float_max)%R amax
             NodeLinkSpec.row_max);
    try reflexivity; [| intros [| x t] Hne; [congruence | reflexivity]].
  cbv [Examples.raster34 links_at_node map NodeLinkSpec.row_max fold_left
       NodeLinkSpec.link_or Examples.link_ids item_or norm_index length nth
       Z.eqb Z.leb Z.ltb Z.compare Z.of_nat Z.to_nat andb Pos.compare
       Pos.compare_cont Pos.of_succ_nat Pos.succ Pos.to_nat Pos.iter_op
       Nat.add Z.opp Z.add Pos.eqb].
  min_max_decide. reflexivity.
Qed.

End NodeLinkDoctests.

(** ** Facts about the upwind and downwind mappers *)

Module WindFacts.
Import Py Np NpMore Mappers MappersMore WindSpec.
Local Open Scope py_scope.

Lemma same_shape_spec {A B : Type} (a : list (list A)) :
  forall b : list (list B),
    same_shape a b = true ->
    length a = length b
    /\ forall r s, In (r, s) (combine a b) -> length r = length s.
Proof.
  induction a as [| r a IH]; intros [| s b] H; simpl in H; try discriminate.
  - split; [reflexivity | intros r s []].
  - apply andb_true_iff in H. destruct H as [Hrs Hab].
    apply Nat.eqb_eq in Hrs. destruct (IH b Hab) as [Hlen Hrows].
    split; [simpl; lia |].
    intros r' s' [E | Hin]; [inversion E; subst; exact Hrs | apply Hrows, Hin].
Qed.

Lemma zip_with_combine {A B C : Type} (f : A -> B -> C) (a : list A) :
  forall b : list B,
    map (fun p => f (fst p) (snd p)) (combine a b) = zip_with f a b.
Proof.
  induction a as [| x a IH]; intros [| y b]; simpl; try reflexivity.
  rewrite IH. reflexivity.
Qed.

Lemma dirs_ok_spec (g : ModelGrid) (var : list R) :
  dirs_ok g var = true ->
  length (links_at_node g) = number_of_nodes g
  /\ same_shape (links_at_node g) (link_dirs_at_node g) = true
  /\ forall row, In row (links_at_node g) ->
       row <> [] /\ forallb (valid_index (length var)) row = true.
Proof.
  unfold dirs_ok. intros H.
  apply andb_true_iff in H. destruct H as [H Hrows].
  apply andb_true_iff in H. destruct H as [Hn Hshape].
  apply Nat.eqb_eq in Hn. repeat split; try assumption.
  - intros ->. rewrite forallb_forall in Hrows.
    specialize (Hrows [] H). discriminate.
  - rewrite forallb_forall in Hrows. specialize (Hrows row H).
    apply andb_true_iff in Hrows. apply Hrows.
Qed.

(** [var[links_at_node] * link_dirs_at_node] on a sound grid. *)
Lemma values_at_links_spec (g : ModelGrid) (var : list R) :
  dirs_ok g var = true ->
  values_at_links g var = Ok (flux_rows g var).
Proof.
  intros Hok. destruct (dirs_ok_spec g var Hok) as (Hn & Hshape & Hrows).
  destruct (same_shape_spec _ _ Hshape) as (Hlen & Hpair).
  unfold values_at_links.
  rewrite (NpFacts.mapM_ok _ (map (item_or 0%R var)))
    by (intros row Hrow; apply NpFacts.take_valid, (proj2 (Hrows row Hrow))).
  cbn [bind]. unfold broadcast2M.
  assert (Hl : (if length (map (map (item_or 0%R var)) (links_at_node g)) =? 1
                then length (link_dirs_at_node g)
                else length (map (map (item_or 0%R var)) (links_at_node g)))
               = length (links_at_node g))
    by (rewrite length_map; destruct (_ =? 1); lia).
  rewrite Hl.
  rewrite NpFacts.broadcast_to_same by apply length_map. cbn [bind].
  rewrite NpFacts.broadcast_to_same by lia. cbn [bind].
  rewrite (NpFacts.mapM_ok _
             (fun p => zip_with (fun (v : R) (d : Z) => (v * IZR d)%R)
                         (fst p) (snd p))).
  - f_equal. rewrite zip_with_combine. unfold flux_rows.
    clear. generalize (link_dirs_at_node g).
    induction (links_at_node g) as [| r rows IH]; intros [| d dirs];
      simpl; try reflexivity.
    rewrite IH. f_equal.
    clear. revert d. induction r as [| e r IH]; intros [| x d];
      simpl; try reflexivity.
    rewrite IH. reflexivity.
  - intros [r d] Hin. cbn [fst snd].
    apply NpFacts.broadcast2_same.
    assert (Hin' : exists row, In (row, d) (combine (links_at_node g)
                                             (link_dirs_at_node g))
                               /\ r = map (item_or 0%R var) row).
    { clear - Hin. revert Hin. generalize (link_dirs_at_node g).
      induction (links_at_node g) as [| r0 rows IH]; intros [| d0 dirs] Hin;
        simpl in Hin; try contradiction.
      destruct Hin as [E | Hin].
      - inversion E; subst. exists r0. split; [left; reflexivity | reflexivity].
      - destruct (IH dirs Hin) as (row & Hrow & Er).
        exists row. split; [right; exact Hrow | exact Er]. }
    destruct Hin' as (row & Hrow & ->).
    rewrite length_map. apply (Hpair row d Hrow).
Qed.

Lemma flux_rows_rows (g : ModelGrid) (var : list R) :
  dirs_ok g var = true ->
  length (flux_rows g var) = number_of_nodes g
  /\ forall r, In r (flux_rows g var) -> r <> [].
Proof.
  intros Hok. destruct (dirs_ok_spec g var Hok) as (Hn & Hshape & Hrows).
  destruct (same_shape_spec _ _ Hshape) as (Hlen & Hpair).
  unfold flux_rows. split.
  - rewrite NpFacts.zip_with_length. lia.
  - intros r Hr. rewrite <- zip_with_combine in Hr.
    apply in_map_iff in Hr. destruct Hr as ([row d] & <- & Hin).
    cbn [fst snd]. pose proof (Hpair row d Hin) as E.
    apply in_combine_l in Hin. destruct (Hrows row Hin) as [Hne _].
    destruct row as [| e row]; [congruence |].
    destruct d as [| x d]; [discriminate | discriminate].
Qed.

Lemma item_or_opp (var : list R) (e : Z) :
  item_or 0%R (map Ropp var) e = (- item_or 0%R var e)%R.
Proof.
  unfold item_or. rewrite length_map.
  destruct (norm_index (length var) e) as [k |]; [| lra].
  rewrite <- Ropp_0 at 1. apply map_nth.
Qed.

Lemma dirs_ok_opp (g : ModelGrid) (var : list R) :
  dirs_ok g (map Ropp var) = dirs_ok g var.
Proof. unfold dirs_ok. rewrite length_map. reflexivity. Qed.

(** Reversing the sign of the link values reverses the sign of the
    fluxes. *)
Lemma flux_rows_opp (g : ModelGrid) (var : list R) :
  negate (flux_rows g (map Ropp var)) = flux_rows g var.
Proof.
  unfold negate, flux_rows.
  generalize (link_dirs_at_node g).
  induction (links_at_node g) as [| r rows IH]; intros [| d dirs];
    simpl; try reflexivity.
  rewrite IH. f_equal.
  clear. revert d. induction r as [| e r IH]; intros [| x d];
    simpl; try reflexivity.
  rewrite IH, item_or_opp. f_equal. lra.
Qed.

End WindFacts.

Module WindRuns.
Import Py Np NpMore Mappers MappersMore WindSpec.
Local Open Scope py_scope.

Lemma amax_rows (rows : list (list R)) :
  (forall r, In r rows -> r <> []) ->
  mapM amax rows = Ok (map NodeLinkSpec.row_max rows).
Proof.
  intros H. apply NpFacts.mapM_ok. intros r Hr.
  destruct r as [| x t]; [exfalso; apply (H [] Hr); reflexivity | reflexivity].
Qed.

Lemma upwind_max_run (g : ModelGrid) (var : list R) :
  dirs_ok g var = true ->
  map_upwind_node_link_max_to_node g (FieldArray (map Ropp var)) None
  = Ok (map NodeLinkSpec.row_max (flux_rows g var)).
Proof.
  intros Hok. destruct (WindFacts.flux_rows_rows g var Hok) as (Hlen & Hne).
  unfold map_upwind_node_link_max_to_node. cbn [resolve bind default_out].
  rewrite WindFacts.values_at_links_spec by (rewrite WindFacts.dirs_ok_opp; exact Hok).
  cbn [bind]. rewrite WindFacts.flux_rows_opp.
  rewrite (amax_rows _ Hne). cbn [bind].
  unfold into_out, empty_at_node, zeros.
  rewrite repeat_length, length_map, Hlen, Nat.eqb_refl. reflexivity.
Qed.

Lemma downwind_max_run (g : ModelGrid) (var : list R) :
  dirs_ok g var = true ->
  map_downwind_node_link_max_to_node g (FieldArray var) None
  = Ok (map Rabs (map NodeLinkSpec.row_max (flux_rows g var))).
Proof.
  intros Hok. destruct (WindFacts.flux_rows_rows g var Hok) as (Hlen & Hne).
  unfold map_downwind_node_link_max_to_node. cbn [resolve bind default_out].
  rewrite WindFacts.values_at_links_spec by exact Hok.
  cbn [bind]. rewrite (amax_rows _ Hne). cbn [bind].
  unfold ufunc_out, empty_at_node, zeros.
  apply NpFacts.broadcast_to_same.
  rewrite repeat_length, !length_map. exact Hlen.
Qed.

End WindRuns.

(** X17: the downwind maximum of a link field is the absolute value of the
    upwind maximum of the reversed field: on a sound grid both mappers
    return, and [map_downwind_node_link_max_to_node(grid, var)] equals
    [fabs(map_upwind_node_link_max_to_node(grid, -var))]. *)
Theorem downwind_max_is_upwind_max_of_reversed :
  forall (grid : Mappers.ModelGrid) (var : list R),
    WindSpec.dirs_ok grid var = true ->
    exists up down,
      Mappers.map_upwind_node_link_max_to_node grid
        (Mappers.FieldArray (map Ropp var)) None = Py.Ok up
      /\ MappersMore.map_downwind_node_link_max_to_node grid
           (Mappers.FieldArray var) None = Py.Ok down
      /\ down = map Rabs up.
Proof.
  intros grid var Hok. do 2 eexists.
  split; [apply WindRuns.upwind_max_run, Hok |].
  split; [apply WindRuns.downwind_max_run, Hok | reflexivity].
Qed.

Lemma downwind_max_is_upwind_max_of_reversed_witness :
  exists up down,
    Mappers.map_upwind_node_link_max_to_node Examples.raster34
      (Mappers.FieldArray (map Ropp Examples.grad_mean_doctest)) None
    = Py.Ok up
    /\ MappersMore.map_downwind_node_link_max_to_node Examples.raster34
         (Mappers.FieldArray Examples.grad_mean_doctest) None = Py.Ok down
    /\ down = map Rabs up.
Proof.
  apply (downwind_max_is_upwind_max_of_reversed Examples.raster34
           Examples.grad_mean_doctest).
  reflexivity.
Defined.

(** X18: the downwind mean of a link field is the upwind mean of the
    reversed field: on a sound grid
    [map_downwind_node_link_mean_to_node(grid, var)] and
    [map_upwind_node_link_mean_to_node(grid, -var)] return the same
    array. *)
Theorem downwind_mean_is_upwind_mean_of_reversed :
  forall (grid : Mappers.ModelGrid) (var : list R),
    WindSpec.dirs_ok grid var = true ->
    exists res,
      MappersMore.map_downwind_node_link_mean_to_node grid
        (Mappers.FieldArray var) None = Py.Ok res
      /\ Mappers.map_upwind_node_link_mean_to_node grid
           (Mappers.FieldArray (map Ropp var)) None = Py.Ok res.
Proof.
  intros grid var Hok.
  destruct (WindFacts.flux_rows_rows grid var Hok) as (Hlen & _).
  unfold MappersMore.map_downwind_node_link_mean_to_node,
    Mappers.map_upwind_node_link_mean_to_node.
  cbn [Mappers.resolve Py.bind Mappers.default_out].
  rewrite (WindFacts.values_at_links_spec grid var Hok).
  rewrite WindFacts.values_at_links_spec
    by (rewrite WindFacts.dirs_ok_opp; exact Hok).
  cbn [Py.bind]. rewrite WindFacts.flux_rows_opp.
  unfold Np.ufunc_out.
  rewrite NpFacts.broadcast_to_same
    by (unfold Mappers.empty_at_node, Np.zeros;
        rewrite NpFacts.zip_with_length, repeat_length, !length_map, Hlen;
        lia).
  cbn [Py.bind]. eexists. split; reflexivity.
Qed.

Lemma downwind_mean_is_upwind_mean_of_reversed_witness :
  exists res,
    MappersMore.map_downwind_node_link_mean_to_node Examples.raster34
      (Mappers.FieldArray Examples.grad_mean_doctest) None = Py.Ok res
    /\ Mappers.map_upwind_node_link_mean_to_node Examples.raster34
         (Mappers.FieldArray (map Ropp Examples.grad_mean_doctest)) None
       = Py.Ok res.
Proof.
  apply (downwind_mean_is_upwind_mean_of_reversed Examples.raster34
           Examples.grad_mean_doctest).
  reflexivity.
Defined.

(** ** Facts about the mappers of the value at the steepest link *)

Module PickFacts.
Import Py Np NpMore Mappers MappersMore WindSpec PickSpec.
Local Open Scope py_scope.

(** [argmax] scans from the left and keeps the first largest entry. *)
Lemma argmax_from_spec (t : list R) :
  forall (pre : list R) (best : R) (bi : nat),
    bi < length pre ->
    nth bi (pre ++ t) 0%R = best ->
    (forall y, In y pre -> (y <= best)%R) ->
    let j := argmax_from best bi (length pre) t in
    j < length (pre ++ t)
    /\ forall y, In y (pre ++ t) -> (y <= nth j (pre ++ t) 0)%R.
Proof.
  induction t as [| x t IH]; intros pre best bi Hbi Hbest Hpre; cbn [argmax_from].
  - cbv zeta. rewrite app_nil_r in *. split; [exact Hbi |].
    intros y Hy. rewrite Hbest. apply Hpre, Hy.
  - assert (E : pre ++ x :: t = (pre ++ [x]) ++ t)
      by (rewrite <- app_assoc; reflexivity).
    assert (L : S (length pre) = length (pre ++ [x]))
      by (rewrite length_app; simpl; lia).
    rewrite E, L in *.
    destruct (Rlt_dec best x) as [Hlt | Hge].
    + apply IH.
      * rewrite <- L. lia.
      * rewrite <- E. apply nth_middle.
      * intros y Hy. apply in_app_or in Hy. destruct Hy as [Hy | [<- | []]].
        -- pose proof (Hpre y Hy). lra.
        -- lra.
    + apply IH.
      * rewrite <- L. lia.
      * exact Hbest.
      * intros y Hy. apply in_app_or in Hy. destruct Hy as [Hy | [<- | []]].
        -- apply Hpre, Hy.
        -- lra.
Qed.

Lemma argmax_ix_spec (a : list R) :
  a <> [] ->
  argmax a = Ok (argmax_ix a)
  /\ argmax_ix a < length a
  /\ forall y, In y a -> (y <= nth (argmax_ix a) a 0)%R.
Proof.
  destruct a as [| x t]; [congruence |]. intros _.
  split; [reflexivity |].
  apply (argmax_from_spec t [x] x 0).
  - simpl. lia.
  - reflexivity.
  - intros y [<- | []]. lra.
Qed.

Lemma same_shape_map {A B A' B' : Type} (f : A -> A') (g : B -> B')
  (a : list (list A)) :
  forall b : list (list B),
    same_shape (map (map f) a) (map (map g) b) = same_shape a b.
Proof.
  induction a as [| r a IH]; intros [| s b]; simpl; try reflexivity.
  rewrite !length_map, IH. reflexivity.
Qed.

Lemma same_shape_flux (g : ModelGrid) (var : list R) :
  same_shape (links_at_node g) (link_dirs_at_node g) = true ->
  same_shape (links_at_node g) (flux_rows g var) = true.
Proof.
  unfold flux_rows. generalize (link_dirs_at_node g).
  induction (links_at_node g) as [| r rows IH]; intros [| d dirs] H;
    simpl in *; try discriminate; [reflexivity |].
  apply andb_true_iff in H. destruct H as [Hrd H].
  apply Nat.eqb_eq in Hrd.
  rewrite NpFacts.zip_with_length, <- Hrd, Nat.min_id, Nat.eqb_refl.
  apply IH, H.
Qed.

Lemma same_shape_nth {A B : Type} (a : list (list A)) :
  forall (b : list (list B)) (i : nat),
    same_shape a b = true ->
    length a = length b /\ length (nth i a []) = length (nth i b []).
Proof.
  induction a as [| r a IH]; intros [| s b] i H; simpl in H; try discriminate.
  - destruct i; split; reflexivity.
  - apply andb_true_iff in H. destruct H as [Hrs H].
    apply Nat.eqb_eq in Hrs. destruct i as [| i]; simpl.
    + split; [f_equal; apply (IH b 0 H) | exact Hrs].
    + split; [f_equal; apply (IH b 0 H) | apply (IH b i H)].
Qed.

Lemma in_numbered {A : Type} (cols : list A) (d : A) :
  forall (s : nat) (i : nat) (c : A),
    In (i, c) (zip_with (fun (i : nat) (c : A) => (i, c))
                 (seq s (length cols)) cols) ->
    s <= i < s + length cols /\ c = nth (i - s) cols d.
Proof.
  induction cols as [| c0 cols IH]; intros s i c Hin; simpl in Hin;
    [contradiction |].
  destruct Hin as [E | Hin].
  - inversion E; subst. simpl. rewrite Nat.sub_diag. split; [lia | reflexivity].
  - destruct (IH (S s) i c Hin) as [Hr Hc]. simpl. split; [lia |].
    replace (i - s) with (S (i - S s)) by lia. exact Hc.
Qed.

Lemma numbered {A : Type} (cols : list A) (d : A) :
  forall s : nat,
    zip_with (fun (i : nat) (c : A) => (i, c)) (seq s (length cols)) cols
    = map (fun i => (i, nth (i - s) cols d)) (seq s (length cols)).
Proof.
  induction cols as [| c0 cols IH]; intros s; simpl; [reflexivity |].
  rewrite Nat.sub_diag. f_equal. rewrite IH.
  apply map_ext_in. intros i Hi. apply in_seq in Hi.
  replace (i - s) with (S (i - S s)) by lia. reflexivity.
Qed.

Section Pick.
Variables (g : ModelGrid) (control value : list R).
Variables (score : R -> R) (invalid : R -> bool).
Hypothesis Hcontrol : dirs_ok g control = true.
Hypothesis Hvalue : dirs_ok g value = true.

Local Abbreviation F := (flux_rows g control).
Local Abbreviation rows := (links_at_node g).
Local Abbreviation masked :=
  (zip_with (zip_with (fun (x : R) (m : bool) => if m then 0%R else x))
     (map (map (item_or 0%R value)) rows) (map (map invalid) F)).

Lemma shape_facts (i : nat) :
  length rows = number_of_nodes g
  /\ length F = number_of_nodes g
  /\ length (nth i rows []) = length (nth i F [])
  /\ (i < number_of_nodes g -> nth i F [] <> []).
Proof.
  destruct (WindFacts.dirs_ok_spec g control Hcontrol) as (Hn & Hshape & _).
  destruct (WindFacts.flux_rows_rows g control Hcontrol) as (HF & Hne).
  destruct (same_shape_nth rows F i (same_shape_flux g control Hshape))
    as (_ & Hrow).
  repeat split; try assumption.
  intros Hi. apply Hne. apply nth_In. lia.
Qed.

Lemma pick_cell (i : nat) :
  i < number_of_nodes g ->
  (row <- getitem masked (Z.of_nat i) ;;
   getitem row (Z.of_nat (argmax_ix (map score (nth i F [])))))%py
  = Ok (picked_value g control value score invalid i).
Proof.
  intros Hi. destruct (shape_facts i) as (Hrows & HF & Hrow & Hne).
  specialize (Hne Hi).
  destruct (argmax_ix_spec (map score (nth i F [])))
    as (_ & Hj & _);
    [destruct (nth i F []); [congruence | discriminate] |].
  rewrite length_map in Hj.
  set (j := argmax_ix (map score (nth i F []))) in *.
  assert (Hm : nth i masked []
               = zip_with (fun (x : R) (m : bool) => if m then 0%R else x)
                   (map (item_or 0%R value) (nth i rows []))
                   (map invalid (nth i F []))).
  { rewrite (NpFacts.nth_zip_with _ _ _ i [] [] [])
      by (rewrite length_map; lia).
    rewrite (NpFacts.nth_map_in _ rows i [] []) by lia.
    rewrite (NpFacts.nth_map_in _ F i [] []) by lia.
    reflexivity. }
  rewrite (NpFacts.getitem_of_nat [])
    by (rewrite NpFacts.zip_with_length, !length_map; lia).
  cbn [bind]. rewrite Hm.
  rewrite (NpFacts.getitem_of_nat 0%R)
    by (rewrite NpFacts.zip_with_length, !length_map; lia).
  f_equal.
  rewrite (NpFacts.nth_zip_with _ _ _ j 0%R false 0%R)
    by (rewrite length_map; lia).
  rewrite (NpFacts.nth_map_in _ (nth i rows []) j 0%Z 0%R) by lia.
  rewrite (NpFacts.nth_map_in _ (nth i F []) j 0%R false) by lia.
  reflexivity.
Qed.

(** The part the two mappers share, after the fluxes are computed. *)
Lemma pick_run :
  (which_link <- mapM argmax (map (map score) F) ;;
   link_vals <- mapM (take value) rows ;;
   link_vals_without_invalids <-
     mask_assign2 link_vals (map (map invalid) F) 0%R ;;
   picked <- pick_in_rows link_vals_without_invalids (number_of_nodes g)
               which_link ;;
   assign_all (empty_at_node g) picked)%py
  = Ok (map (picked_value g control value score invalid)
          (seq 0 (number_of_nodes g))).
Proof.
  destruct (WindFacts.dirs_ok_spec g control Hcontrol) as (Hn & Hshape & _).
  destruct (WindFacts.dirs_ok_spec g value Hvalue) as (_ & _ & Hvrows).
  destruct (WindFacts.flux_rows_rows g control Hcontrol) as (HF & Hne).
  rewrite (NpFacts.mapM_ok argmax argmax_ix).
  2:{ intros r Hr. apply in_map_iff in Hr. destruct Hr as (fr & <- & Hfr).
      apply argmax_ix_spec. specialize (Hne fr Hfr).
      destruct fr; [congruence | discriminate]. }
  cbn [bind].
  rewrite (NpFacts.mapM_ok _ (map (item_or 0%R value)))
    by (intros row Hrow; apply NpFacts.take_valid, (proj2 (Hvrows row Hrow))).
  cbn [bind]. unfold mask_assign2.
  rewrite same_shape_map.
  rewrite (same_shape_flux g control Hshape). cbn [bind].
  unfold pick_in_rows.
  rewrite NpFacts.broadcast2_same
    by (rewrite length_seq, !length_map; lia).
  assert (Hw : number_of_nodes g
               = length (map argmax_ix (map (map score) F)))
    by (rewrite !length_map; lia).
  rewrite Hw at 1. rewrite (numbered _ 0).
  rewrite <- Hw.
  rewrite (NpFacts.mapM_ok _
             (fun ic => picked_value g control value score invalid (fst ic))).
  - cbn [bind]. rewrite map_map. cbn [fst].
    apply LinkMapFacts.assign_all_same.
    unfold empty_at_node, zeros. rewrite length_map, length_seq, repeat_length.
    reflexivity.
  - intros ic Hic. apply in_map_iff in Hic. destruct Hic as (i & <- & Hi).
    apply in_seq in Hi. cbn [fst snd]. rewrite Nat.sub_0_r.
    rewrite (NpFacts.nth_map_in _ _ i [] 0) by (rewrite length_map; lia).
    rewrite (NpFacts.nth_map_in _ F i [] []) by lia.
    apply pick_cell. lia.
Qed.

End Pick.

End PickFacts.

Module PickRuns.
Import Py Np NpMore Mappers MappersMore WindSpec PickSpec.
Local Open Scope py_scope.

Lemma map_map_id {A : Type} (l : list (list A)) :
  map (map (fun v => v)) l = l.
Proof.
  induction l as [| r l IH]; simpl; [reflexivity |].
  rewrite IH, map_id. reflexivity.
Qed.

Lemma upwind_run (g : ModelGrid) (control value : list R) :
  dirs_ok g control = true ->
  dirs_ok g value = true ->
  map_value_at_upwind_node_link_max_to_node g
    (FieldArray control) (FieldArray value) None
  = Ok (map (picked_value g control value Ropp (fun v => Rleb 0 v))
          (seq 0 (number_of_nodes g))).
Proof.
  intros Hc Hv. unfold map_value_at_upwind_node_link_max_to_node.
  cbn [resolve bind default_out].
  rewrite (WindFacts.values_at_links_spec g control Hc). cbn [bind].
  apply (PickFacts.pick_run g control value Ropp (fun v => Rleb 0 v) Hc Hv).
Qed.

Lemma downwind_run (g : ModelGrid) (control value : list R) :
  dirs_ok g control = true ->
  dirs_ok g value = true ->
  map_value_at_downwind_node_link_max_to_node g
    (FieldArray control) (FieldArray value) None
  = Ok (map (picked_value g control value (fun v => v) (fun v => Rleb v 0))
          (seq 0 (number_of_nodes g))).
Proof.
  intros Hc Hv. unfold map_value_at_downwind_node_link_max_to_node.
  cbn [resolve bind default_out].
  rewrite (WindFacts.values_at_links_spec g control Hc). cbn [bind].
  rewrite <- (map_map_id (flux_rows g control)) at 1.
  apply (PickFacts.pick_run g control value (fun v => v) (fun v => Rleb v 0)
           Hc Hv).
Qed.

Lemma picked_nth (g : ModelGrid) (control value : list R)
  (score : R -> R) (invalid : R -> bool) (i : nat) :
  i < number_of_nodes g ->
  nth i (map (picked_value g control value score invalid)
           (seq 0 (number_of_nodes g))) 0%R
  = picked_value g control value score invalid i.
Proof.
  intros Hi.
  rewrite (NpFacts.nth_map_in _ _ i 0 0%R) by (rewrite length_seq; exact Hi).
  rewrite seq_nth by exact Hi. reflexivity.
Qed.

End PickRuns.

(** X19: [map_value_at_upwind_node_link_max_to_node] records 0 at every
    node that no link brings flux into; at a node with an upwind link it
    records the value of one of the node's links, one whose control flux
    is negative and the most negative of the node. *)
Theorem value_at_upwind_link_or_zero :
  forall (grid : Mappers.ModelGrid) (control value : list R),
    WindSpec.dirs_ok grid control = true ->
    WindSpec.dirs_ok grid value = true ->
    exists res,
      MappersMore.map_value_at_upwind_node_link_max_to_node grid
        (Mappers.FieldArray control) (Mappers.FieldArray value) None
      = Py.Ok res
      /\ length res = Mappers.number_of_nodes grid
      /\ forall i : nat,
           i < Mappers.number_of_nodes grid ->
           let fluxes := nth i (WindSpec.flux_rows grid control) [] in
           let slots := nth i (Mappers.links_at_node grid) [] in
           ((forall v, In v fluxes -> (0 <= v)%R) -> nth i res 0%R = 0%R)
           /\ ((exists v, In v fluxes /\ (v < 0)%R) ->
               exists j : nat,
                 j < length slots
                 /\ (nth j fluxes 0 < 0)%R
                 /\ (forall v, In v fluxes -> (nth j fluxes 0 <= v)%R)
                 /\ nth i res 0%R = Np.item_or 0%R value (nth j slots 0%Z)).
Proof.
  intros grid control value Hc Hv.
  eexists. split; [apply PickRuns.upwind_run; assumption |].
  split; [rewrite length_map, length_seq; reflexivity |].
  intros i Hi. cbv zeta. rewrite PickRuns.picked_nth by exact Hi.
  destruct (PickFacts.shape_facts grid control Hc i) as (_ & _ & Hrow & Hne).
  specialize (Hne Hi). unfold PickSpec.picked_value.
  set (fluxes := nth i (WindSpec.flux_rows grid control) []) in *.
  destruct (PickFacts.argmax_ix_spec (map Ropp fluxes)) as (_ & Hj & Hmax);
    [destruct fluxes; [congruence | discriminate] |].
  rewrite length_map in Hj.
  set (j := PickSpec.argmax_ix (map Ropp fluxes)) in *.
  rewrite (NpFacts.nth_map_in Ropp fluxes j 0%R 0%R) in Hmax by exact Hj.
  assert (Hleast : forall v, In v fluxes -> (nth j fluxes 0 <= v)%R).
  { intros v Hin. pose proof (Hmax (- v)%R (in_map Ropp _ _ Hin)). lra. }
  split.
  - intros Hall. pose proof (Hall _ (nth_In fluxes 0%R Hj)) as H0.
    unfold Np.Rleb. destruct (Rle_dec 0 (nth j fluxes 0%R)); [reflexivity | lra].
  - intros (v & Hin & Hneg). exists j.
    pose proof (Hleast v Hin) as Hle.
    split; [lia |]. split; [lra |]. split; [exact Hleast |].
    unfold Np.Rleb. destruct (Rle_dec 0 (nth j fluxes 0%R)); [lra | reflexivity].
Qed.

Lemma value_at_upwind_link_or_zero_witness :
  exists res,
    MappersMore.map_value_at_upwind_node_link_max_to_node Examples.raster34
      (Mappers.FieldArray Examples.grad_mean_doctest)
      (Mappers.FieldArray Examples.link_ids) None
    = Py.Ok res
    /\ length res = 12
    /\ forall i : nat,
         i < 12 ->
         let fluxes :=
           nth i (WindSpec.flux_rows Examples.raster34
                    Examples.grad_mean_doctest) [] in
         let slots := nth i (Mappers.links_at_node Examples.raster34) [] in
         ((forall v, In v fluxes -> (0 <= v)%R) -> nth i res 0%R = 0%R)
         /\ ((exists v, In v fluxes /\ (v < 0)%R) ->
             exists j : nat,
               j < length slots
               /\ (nth j fluxes 0 < 0)%R
               /\ (forall v, In v fluxes -> (nth j fluxes 0 <= v)%R)
               /\ nth i res 0%R
                  = Np.item_or 0%R Examples.link_ids (nth j slots 0%Z)).
Proof.
  apply (value_at_upwind_link_or_zero Examples.raster34
           Examples.grad_mean_doctest Examples.link_ids);
    reflexivity.
Defined.

(** X20: [map_value_at_downwind_node_link_max_to_node] records 0 at every
    node that no link carries flux away from; at a node with a downwind
    link it records the value of one of the node's links, one whose control
    flux is positive and the largest of the node. *)
Theorem value_at_downwind_link_or_zero :
  forall (grid : Mappers.ModelGrid) (control value : list R),
    WindSpec.dirs_ok grid control = true ->
    WindSpec.dirs_ok grid value = true ->
    exists res,
      MappersMore.map_value_at_downwind_node_link_max_to_node grid
        (Mappers.FieldArray control) (Mappers.FieldArray value) None
      = Py.Ok res
      /\ length res = Mappers.number_of_nodes grid
      /\ forall i : nat,
           i < Mappers.number_of_nodes grid ->
           let fluxes := nth i (WindSpec.flux_rows grid control) [] in
           let slots := nth i (Mappers.links_at_node grid) [] in
           ((forall v, In v fluxes -> (v <= 0)%R) -> nth i res 0%R = 0%R)
           /\ ((exists v, In v fluxes /\ (0 < v)%R) ->
               exists j : nat,
                 j < length slots
                 /\ (0 < nth j fluxes 0)%R
                 /\ (forall v, In v fluxes -> (v <= nth j fluxes 0)%R)
                 /\ nth i res 0%R = Np.item_or 0%R value (nth j slots 0%Z)).
Proof.
  intros grid control value Hc Hv.
  eexists. split; [apply PickRuns.downwind_run; assumption |].
  split; [rewrite length_map, length_seq; reflexivity |].
  intros i Hi. cbv zeta. rewrite PickRuns.picked_nth by exact Hi.
  destruct (PickFacts.shape_facts grid control Hc i) as (_ & _ & Hrow & Hne).
  specialize (Hne Hi). unfold PickSpec.picked_value.
  set (fluxes := nth i (WindSpec.flux_rows grid control) []) in *.
  rewrite map_id.
  destruct (PickFacts.argmax_ix_spec fluxes) as (_ & Hj & Hmax);
    [exact Hne |].
  set (j := PickSpec.argmax_ix fluxes) in *.
  split.
  - intros Hall. pose proof (Hall _ (nth_In fluxes 0%R Hj)) as H0.
    unfold Np.Rleb. destruct (Rle_dec (nth j fluxes 0%R) 0); [reflexivity | lra].
  - intros (v & Hin & Hpos). exists j.
    pose proof (Hmax v Hin) as Hle.
    split; [lia |]. split; [lra |]. split; [exact Hmax |].
    unfold Np.Rleb. destruct (Rle_dec (nth j fluxes 0%R) 0); [lra | reflexivity].
Qed.

Lemma value_at_downwind_link_or_zero_witness :
  exists res,
    MappersMore.map_value_at_downwind_node_link_max_to_node Examples.raster34
      (Mappers.FieldArray Examples.grad_mean_doctest)
      (Mappers.FieldArray Examples.link_ids) None
    = Py.Ok res
    /\ length res = 12
    /\ forall i : nat,
         i < 12 ->
         let fluxes :=
           nth i (WindSpec.flux_rows Examples.raster34
                    Examples.grad_mean_doctest) [] in
         let slots := nth i (Mappers.links_at_node Examples.raster34) [] in
         ((forall v, In v fluxes -> (v <= 0)%R) -> nth i res 0%R = 0%R)
         /\ ((exists v, In v fluxes /\ (0 < v)%R) ->
             exists j : nat,
               j < length slots
               /\ (0 < nth j fluxes 0)%R
               /\ (forall v, In v fluxes -> (v <= nth j fluxes 0)%R)
               /\ nth i res 0%R
                  = Np.item_or 0%R Examples.link_ids (nth j slots 0%Z)).
Proof.
  apply (value_at_downwind_link_or_zero Examples.raster34
           Examples.grad_mean_doctest Examples.link_ids);
    reflexivity.
Defined.

(** ** Facts about the resolving functions of grid_funcs.py *)

Module ResolveFacts.
Import Py Np Voronoi VoronoiGeometry LengthSpec GridResolve ResolveSpec.
Local Open Scope py_scope.

Ltac bind_inv H :=
  match type of H with
  | bind ?c _ = Ok _ =>
      let x := fresh "v" in
      let E := fresh "E" in
      destruct c as [x |] eqn:E; [cbn [bind] in H | discriminate H]
  end.

Lemma link_tables_ok_spec (grid : ModelGrid) :
  links_ok grid = true ->
  length (node_at_link_head grid) = length (link_length grid)
  /\ length (node_at_link_tail grid) = length (link_length grid)
  /\ length (node_x grid) = length (node_y grid)
  /\ forallb (valid_index (length (node_x grid))) (node_at_link_head grid) = true
  /\ forallb (valid_index (length (node_x grid))) (node_at_link_tail grid) = true.
Proof.
  unfold links_ok. intros H.
  apply andb_true_iff in H. destruct H as [H Vt].
  apply andb_true_iff in H. destruct H as [H Vh].
  apply andb_true_iff in H. destruct H as [H Lxy].
  apply andb_true_iff in H. destruct H as [Lh Lt].
  apply Nat.eqb_eq in Lh. apply Nat.eqb_eq in Lt. apply Nat.eqb_eq in Lxy.
  repeat split; assumption.
Qed.

(** One component, computed as the code computes it. *)
Lemma component_run (coord : list R) (to from : list Z)
  (lengths values : list R) :
  forallb (valid_index (length coord)) to = true ->
  forallb (valid_index (length coord)) from = true ->
  length to = length lengths ->
  length from = length lengths ->
  length values = length lengths ->
  run_component coord to from lengths values
  = Ok (component coord to from lengths values).
Proof.
  intros Ht Hf Lt Lf Lv. unfold run_component.
  rewrite (NpFacts.take_valid 0%R coord to Ht). cbn [bind].
  rewrite (NpFacts.take_valid 0%R coord from Hf). cbn [bind].
  rewrite NpFacts.broadcast2_same by (rewrite !length_map; lia).
  cbn [bind].
  rewrite NpFacts.broadcast2_same
    by (rewrite NpFacts.zip_with_length, !length_map; lia).
  cbn [bind].
  rewrite NpFacts.broadcast2_same
    by (rewrite !NpFacts.zip_with_length, !length_map; lia).
  reflexivity.
Qed.

Lemma component_length (coord : list R) (to from : list Z)
  (lengths values : list R) :
  length to = length lengths ->
  length from = length lengths ->
  length values = length lengths ->
  length (component coord to from lengths values) = length values.
Proof.
  intros Lt Lf Lv. unfold component.
  rewrite !NpFacts.zip_with_length, !length_map. lia.
Qed.

Lemma component_nth (coord : list R) (to from : list Z)
  (lengths values : list R) (i : nat) :
  length to = length lengths ->
  length from = length lengths ->
  length values = length lengths ->
  i < length values ->
  nth i (component coord to from lengths values) 0%R
  = ((item_or 0%R coord (nth i to 0%Z) - item_or 0%R coord (nth i from 0%Z))
     / nth i lengths 0 * nth i values 0)%R.
Proof.
  intros Lt Lf Lv Hi. unfold component.
  rewrite (NpFacts.nth_zip_with _ _ _ i 0%R 0%R 0%R)
    by (rewrite ?NpFacts.zip_with_length, ?length_map; lia).
  rewrite (NpFacts.nth_zip_with _ _ _ i 0%R 0%R 0%R)
    by (rewrite ?NpFacts.zip_with_length, ?length_map; lia).
  rewrite (NpFacts.nth_zip_with _ _ _ i 0%R 0%R 0%R)
    by (rewrite ?length_map; lia).
  rewrite (NpFacts.nth_map_in _ to i 0%Z 0%R) by lia.
  rewrite (NpFacts.nth_map_in _ from i 0%Z 0%R) by lia.
  reflexivity.
Qed.

(** On sound tables [resolve_values_on_links] returns the two components. *)
Ltac split_binds :=
  repeat match goal with
         | |- context [bind ?c _] =>
             lazymatch c with
             | bind _ _ => fail
             | _ => destruct c; cbn [bind]
             end
         end;
  try reflexivity.

(** Both functions evaluate the expression once for x and once for y. *)
Lemma resolve_values_on_links_split (grid : ModelGrid) (link_values : list R) :
  resolve_values_on_links grid link_values
  = (x <- run_component (node_x grid) (node_at_link_head grid)
            (node_at_link_tail grid) (link_length grid) link_values ;;
     y <- run_component (node_y grid) (node_at_link_head grid)
            (node_at_link_tail grid) (link_length grid) link_values ;;
     Ok (x, y)).
Proof.
  unfold resolve_values_on_links, run_component. split_binds.
Qed.

Lemma resolve_values_on_active_links_split (grid : ModelGrid)
  (active_link_values : list R) :
  resolve_values_on_active_links grid active_link_values
  = (link_lengths <- take (link_length grid) (active_links grid) ;;
     x <- run_component (node_x grid) (activelink_tonode grid)
            (activelink_fromnode grid) link_lengths active_link_values ;;
     y <- run_component (node_y grid) (activelink_tonode grid)
            (activelink_fromnode grid) link_lengths active_link_values ;;
     Ok (x, y)).
Proof.
  unfold resolve_values_on_active_links, run_component. split_binds.
Qed.

(** On sound tables [resolve_values_on_links] returns the two components. *)
Lemma resolve_values_on_links_spec (grid : ModelGrid) (link_values : list R) :
  links_ok grid = true ->
  length link_values = length (link_length grid) ->
  resolve_values_on_links grid link_values
  = Ok (component (node_x grid) (node_at_link_head grid)
          (node_at_link_tail grid) (link_length grid) link_values,
        component (node_y grid) (node_at_link_head grid)
          (node_at_link_tail grid) (link_length grid) link_values).
Proof.
  intros Hok Lv.
  destruct (link_tables_ok_spec grid Hok) as (Lh & Lt & Lxy & Vh & Vt).
  rewrite resolve_values_on_links_split.
  rewrite (component_run (node_x grid) _ _ _ link_values Vh Vt Lh Lt Lv).
  rewrite Lxy in Vh, Vt.
  rewrite (component_run (node_y grid) _ _ _ link_values Vh Vt Lh Lt Lv).
  reflexivity.
Qed.

Lemma node_point_combine (xs ys : list R) (i : Z) :
  length xs = length ys ->
  node_point (combine xs ys) i = (item_or 0%R xs i, item_or 0%R ys i).
Proof.
  intros L. unfold node_point, item_or.
  rewrite length_combine, <- L, Nat.min_id.
  destruct (norm_index (length xs) i) as [k |]; [| reflexivity].
  apply (combine_nth xs ys k 0%R 0%R L).
Qed.

(** The two direction cosines of a segment of non-zero length. *)
Lemma unit_components (dx dy v : R) :
  sqrt (dx * dx + dy * dy) <> 0%R ->
  (dx / sqrt (dx * dx + dy * dy) * v * (dx / sqrt (dx * dx + dy * dy) * v)
   + dy / sqrt (dx * dx + dy * dy) * v * (dy / sqrt (dx * dx + dy * dy) * v)
   = v * v)%R.
Proof.
  intros Hne.
  assert (Hpos : (0 <= dx * dx + dy * dy)%R)
    by (pose proof (Rle_0_sqr dx); pose proof (Rle_0_sqr dy);
        unfold Rsqr in *; lra).
  pose proof (sqrt_sqrt _ Hpos) as Hs.
  set (l := sqrt (dx * dx + dy * dy)) in *.
  assert (E : (dx / l * v * (dx / l * v) + dy / l * v * (dy / l * v)
               = (dx * dx + dy * dy) / (l * l) * (v * v))%R)
    by (field; exact Hne).
  rewrite E, <- Hs. field. exact Hne.
Qed.

Lemma nth_error_zip_with {A B C : Type} (f : A -> B -> C) (a : list A) :
  forall (b : list B) (k : nat) (x : A) (y : B),
    nth_error a k = Some x -> nth_error b k = Some y ->
    nth_error (zip_with f a b) k = Some (f x y).
Proof.
  induction a as [| a0 a IH]; intros [| b0 b] [| k] x y Ha Hb;
    simpl in *; try discriminate.
  - congruence.
  - eapply IH; eassumption.
Qed.

Lemma getitem_ok {A : Type} (a : list A) (i : Z) (x : A) :
  getitem a i = Ok x ->
  exists k, norm_index (length a) i = Some k /\ nth_error a k = Some x.
Proof.
  unfold getitem. destruct (norm_index (length a) i) as [k |];
    [| discriminate].
  destruct (nth_error a k) as [y |] eqn:E; [| discriminate].
  intros H. inversion H; subst. exists k. split; [reflexivity | exact E].
Qed.

Lemma getitem_of_nth_error {A : Type} (a : list A) (i : Z) (k : nat) (x : A) :
  norm_index (length a) i = Some k -> nth_error a k = Some x ->
  getitem a i = Ok x.
Proof.
  intros Hn Hk. unfold getitem. rewrite Hn, Hk. reflexivity.
Qed.

Lemma getitem_zip_with {A B C : Type} (f : A -> B -> C) (a : list A)
  (b : list B) (i : Z) (x : A) (y : B) :
  length a = length b ->
  getitem a i = Ok x -> getitem b i = Ok y ->
  getitem (zip_with f a b) i = Ok (f x y).
Proof.
  intros L Ha Hb.
  destruct (getitem_ok a i x Ha) as (k & Hn & Hk).
  destruct (getitem_ok b i y Hb) as (k' & Hn' & Hk').
  rewrite <- L, Hn in Hn'. inversion Hn'; subst k'.
  apply (getitem_of_nth_error _ i k).
  - rewrite NpFacts.zip_with_length, <- L, Nat.min_id. exact Hn.
  - apply nth_error_zip_with; assumption.
Qed.

Lemma take_length {A : Type} (a : list A) (idx : list Z) :
  forall a', take a idx = Ok a' -> length a' = length idx.
Proof.
  unfold take. induction idx as [| i idx IH]; intros a' H; simpl in H.
  - inversion H. reflexivity.
  - bind_inv H. bind_inv H. inversion H; subst. simpl.
    f_equal. apply IH. reflexivity.
Qed.

(** Indexing commutes with an elementwise operation. *)
Lemma take_zip_with {A B C : Type} (f : A -> B -> C) (a : list A)
  (b : list B) (idx : list Z) :
  length a = length b ->
  forall a' b',
    take a idx = Ok a' -> take b idx = Ok b' ->
    take (zip_with f a b) idx = Ok (zip_with f a' b').
Proof.
  intros L. unfold take.
  induction idx as [| i idx IH]; intros a' b' Ha Hb; simpl in Ha, Hb |- *.
  - inversion Ha; inversion Hb. reflexivity.
  - bind_inv Ha. bind_inv Ha. bind_inv Hb. bind_inv Hb.
    inversion Ha; inversion Hb; subst.
    rewrite (getitem_zip_with f a b i _ _ L E E1). cbn [bind].
    rewrite (IH _ _ eq_refl eq_refl). reflexivity.
Qed.

(** An index array that fits one array fits every array of that length. *)
Lemma take_same_length {A B : Type} (d : B) (a : list A) (b : list B)
  (idx : list Z) :
  length a = length b ->
  forall a', take a idx = Ok a' -> exists b', take b idx = Ok b'.
Proof.
  intros L. unfold take.
  induction idx as [| i idx IH]; intros a' Ha; simpl in Ha |- *.
  - exists []. reflexivity.
  - bind_inv Ha. bind_inv Ha.
    destruct (IH _ eq_refl) as (b' & Hb'). rewrite Hb'.
    destruct (getitem_ok a i _ E) as (k & Hn & Hk).
    rewrite (NpFacts.getitem_valid d)
      by (unfold valid_index; rewrite <- L, Hn; reflexivity).
    cbn [bind]. eexists. reflexivity.
Qed.

Lemma mapM_nth_error {A B : Type} (f : A -> result B) (l : list A) :
  forall (l' : list B) (k : nat) (x : A),
    mapM f l = Ok l' -> nth_error l k = Some x ->
    exists y, f x = Ok y /\ nth_error l' k = Some y.
Proof.
  induction l as [| a l IH]; intros l' k x H Hk; simpl in H.
  - destruct k; discriminate.
  - bind_inv H. bind_inv H. inversion H; subst.
    destruct k as [| k]; simpl in Hk |- *.
    + inversion Hk; subst. exists v. split; [assumption | reflexivity].
    + apply (IH _ k x eq_refl Hk).
Qed.

(** Reading an indexed array is reading the array at the index read. *)
Lemma getitem_take {A : Type} (a : list A) (idx : list Z) (a' : list A)
  (i j : Z) :
  take a idx = Ok a' -> getitem idx i = Ok j ->
  getitem a' i = getitem a j.
Proof.
  intros Ha Hi.
  destruct (getitem_ok idx i j Hi) as (k & Hn & Hk).
  destruct (mapM_nth_error _ _ _ k j Ha Hk) as (y & Hy & Hk').
  rewrite Hy. apply (getitem_of_nth_error a' i k); [| exact Hk'].
  rewrite (take_length a idx a' Ha). exact Hn.
Qed.

Lemma take_take {A : Type} (a : list A) (idx : list Z) (a' : list A)
  (act : list Z) :
  take a idx = Ok a' ->
  forall idx', take idx act = Ok idx' -> take a' act = take a idx'.
Proof.
  intros Ha. unfold take at 1 2 3.
  induction act as [| i act IH]; intros idx' H; simpl in H.
  - inversion H. reflexivity.
  - bind_inv H. bind_inv H. inversion H; subst. simpl.
    rewrite (getitem_take a idx a' i v Ha E).
    rewrite (IH _ eq_refl). reflexivity.
Qed.

(** When the expression returns without broadcasting, it has read both
    ends of every link. *)
Lemma run_component_inv (coord : list R) (to from : list Z)
  (lengths values x : list R) :
  length to = length lengths ->
  length from = length lengths ->
  length values = length lengths ->
  run_component coord to from lengths values = Ok x ->
  exists a b,
    take coord to = Ok a /\ take coord from = Ok b
    /\ x = zip_with Rmult (zip_with Rdiv (zip_with Rminus a b) lengths) values.
Proof.
  intros Lt Lf Lv H. unfold run_component in H.
  destruct (take coord to) as [a |] eqn:Ea; [cbn [bind] in H | discriminate H].
  destruct (take coord from) as [b |] eqn:Eb;
    [cbn [bind] in H | discriminate H].
  pose proof (take_length _ _ _ Ea) as La.
  pose proof (take_length _ _ _ Eb) as Lb.
  rewrite NpFacts.broadcast2_same in H by lia. cbn [bind] in H.
  rewrite NpFacts.broadcast2_same in H
    by (rewrite NpFacts.zip_with_length; lia).
  cbn [bind] in H.
  rewrite NpFacts.broadcast2_same in H
    by (rewrite !NpFacts.zip_with_length; lia).
  inversion H. exists a, b. repeat split; reflexivity.
Qed.

(** The expression on the selected links is the selection of the expression
    on all links. *)
Lemma run_component_restrict (coord : list R) (to from act to' from' : list Z)
  (lengths values a b lengths' values' : list R) :
  length to = length lengths ->
  length from = length lengths ->
  length values = length lengths ->
  take coord to = Ok a ->
  take coord from = Ok b ->
  take to act = Ok to' ->
  take from act = Ok from' ->
  take lengths act = Ok lengths' ->
  take values act = Ok values' ->
  exists x',
    take (zip_with Rmult (zip_with Rdiv (zip_with Rminus a b) lengths) values)
      act = Ok x'
    /\ run_component coord to' from' lengths' values' = Ok x'.
Proof.
  intros Lt Lf Lv Ea Eb Eto Efrom El Ev.
  pose proof (take_length _ _ _ Ea) as La.
  pose proof (take_length _ _ _ Eb) as Lb.
  destruct (take_same_length 0%R to a act (eq_sym La) _ Eto) as (a' & Ea').
  destruct (take_same_length 0%R from b act (eq_sym Lb) _ Efrom) as (b' & Eb').
  pose proof (take_take coord to a act Ea _ Eto) as Ta.
  pose proof (take_take coord from b act Eb _ Efrom) as Tb.
  rewrite Ea' in Ta. rewrite Eb' in Tb.
  pose proof (take_length _ _ _ Ea') as La'.
  pose proof (take_length _ _ _ Eb') as Lb'.
  pose proof (take_length _ _ _ El) as Ll'.
  pose proof (take_length _ _ _ Ev) as Lv'.
  exists (zip_with Rmult (zip_with Rdiv (zip_with Rminus a' b') lengths')
            values').
  split.
  - apply take_zip_with;
      [rewrite !NpFacts.zip_with_length; lia | | exact Ev].
    apply take_zip_with;
      [rewrite !NpFacts.zip_with_length; lia | | exact El].
    apply take_zip_with; [lia | exact Ea' | exact Eb'].
  - unfold run_component. rewrite <- Ta, <- Tb. cbn [bind].
    rewrite NpFacts.broadcast2_same by lia. cbn [bind].
    rewrite NpFacts.broadcast2_same
      by (rewrite NpFacts.zip_with_length; lia).
    cbn [bind].
    rewrite NpFacts.broadcast2_same
      by (rewrite !NpFacts.zip_with_length; lia).
    reflexivity.
Qed.

(** The last product of the expression does not broadcast a value array
    of another length. *)
Lemma run_component_wrong_length (coord : list R) (to from : list Z)
  (lengths values : list R) :
  forallb (valid_index (length coord)) to = true ->
  forallb (valid_index (length coord)) from = true ->
  length to = length lengths ->
  length from = length lengths ->
  length lengths <> 1 ->
  length values <> length lengths ->
  length values <> 1 ->
  run_component coord to from lengths values = Raise ValueError.
Proof.
  intros Ht Hf Lt Lf L1 Lv Lv1. unfold run_component.
  rewrite (NpFacts.take_valid 0%R coord to Ht). cbn [bind].
  rewrite (NpFacts.take_valid 0%R coord from Hf). cbn [bind].
  rewrite NpFacts.broadcast2_same by (rewrite !length_map; lia).
  cbn [bind].
  rewrite NpFacts.broadcast2_same
    by (rewrite NpFacts.zip_with_length, !length_map; lia).
  cbn [bind].
  set (u := zip_with Rdiv _ lengths).
  assert (Lu : length u = length lengths)
    by (unfold u; rewrite !NpFacts.zip_with_length, !length_map; lia).
  unfold broadcast2. rewrite Lu.
  replace (length lengths =? 1) with false
    by (symmetry; apply Nat.eqb_neq; exact L1).
  rewrite (NpFacts.broadcast_to_same _ u Lu). cbn [bind].
  unfold broadcast_to.
  replace (length values =? length lengths) with false
    by (symmetry; apply Nat.eqb_neq; exact Lv).
  destruct values as [| v0 [| v1 t]]; [reflexivity | | reflexivity].
  simpl in Lv1. congruence.
Qed.

End ResolveFacts.

(** X21: with the link lengths that [calculate_link_lengths] computes from
    the node coordinates, none of them zero, [resolve_values_on_links]
    returns one x and one y component per link, and the two components of
    a link have the magnitude of the link's value:
    [x * x + y * y = v * v]. *)
Theorem resolved_components_keep_magnitude :
  forall (grid : GridResolve.ModelGrid) (link_values : list R),
    ResolveSpec.links_ok grid = true ->
    VoronoiGeometry.calculate_link_lengths
      (combine (GridResolve.node_x grid) (GridResolve.node_y grid))
      (GridResolve.node_at_link_tail grid)
      (GridResolve.node_at_link_head grid)
    = Py.Ok (GridResolve.link_length grid) ->
    Forall (fun l => l <> 0%R) (GridResolve.link_length grid) ->
    length link_values = length (GridResolve.link_length grid) ->
    exists x y : list R,
      GridResolve.resolve_values_on_links grid link_values = Py.Ok (x, y)
      /\ length x = length link_values
      /\ length y = length link_values
      /\ forall i : nat,
           i < length link_values ->
           (nth i x 0 * nth i x 0 + nth i y 0 * nth i y 0
            = nth i link_values 0 * nth i link_values 0)%R.
Proof.
  intros grid v Hok Hcalc Hnz Lv.
  destruct (ResolveFacts.link_tables_ok_spec grid Hok) as (Lh & Lt & Lxy & Vh & Vt).
  eexists. eexists.
  split; [apply ResolveFacts.resolve_values_on_links_spec; assumption |].
  split; [apply ResolveFacts.component_length; assumption |].
  split; [apply ResolveFacts.component_length; assumption |].
  intros i Hi.
  rewrite !ResolveFacts.component_nth by assumption.
  assert (Hends : LengthSpec.ends_ok
                    (combine (GridResolve.node_x grid) (GridResolve.node_y grid))
                    (GridResolve.node_at_link_tail grid)
                    (GridResolve.node_at_link_head grid) = true).
  { apply LengthFacts.ends_ok_intro;
      [lia | |]; unfold Voronoi.point;
      rewrite length_combine, <- Lxy, Nat.min_id; assumption. }
  rewrite (LengthFacts.calculate_link_lengths_spec _ _ _ Hends) in Hcalc.
  injection Hcalc as Hlen.
  assert (Hl : nth i (GridResolve.link_length grid) 0%R
               = LengthSpec.distance
                   (LengthSpec.node_point
                      (combine (GridResolve.node_x grid)
                         (GridResolve.node_y grid))
                      (nth i (GridResolve.node_at_link_tail grid) 0%Z))
                   (LengthSpec.node_point
                      (combine (GridResolve.node_x grid)
                         (GridResolve.node_y grid))
                      (nth i (GridResolve.node_at_link_head grid) 0%Z))).
  { rewrite <- Hlen.
    rewrite (NpFacts.nth_zip_with _ _ _ i 0%Z 0%Z 0%R) by lia.
    reflexivity. }
  assert (Hne : nth i (GridResolve.link_length grid) 0%R <> 0%R).
  { rewrite Forall_forall in Hnz. apply Hnz. apply nth_In. lia. }
  rewrite Hl in Hne |- *.
  rewrite !ResolveFacts.node_point_combine in Hne |- * by exact Lxy.
  unfold LengthSpec.distance in Hne |- *. cbn [fst snd] in Hne |- *.
  apply ResolveFacts.unit_components. exact Hne.
Qed.

Lemma resolved_components_keep_magnitude_witness :
  exists x y : list R,
    GridResolve.resolve_values_on_links Examples.triangle [2; 10; -5]%R
    = Py.Ok (x, y)
    /\ length x = 3
    /\ length y = 3
    /\ forall i : nat,
         i < 3 ->
         (nth i x 0 * nth i x 0 + nth i y 0 * nth i y 0
          = nth i [2; 10; -5] 0 * nth i [2; 10; -5] 0)%R.
Proof.
  apply (resolved_components_keep_magnitude Examples.triangle [2; 10; -5]%R).
  - reflexivity.
  - exact LengthFacts.calculate_link_lengths_doctest.
  - simpl. repeat constructor; lra.
  - reflexivity.
Defined.

(** X22: resolving on the active links is resolving on all links and then
    selecting the active ones. When the tables of the active links' ends
    are the selections of the tables of all links' ends and
    [resolve_values_on_links] returns [(x, y)] for one value per link,
    [resolve_values_on_active_links] on the values of the active links
    returns [(x[active_links], y[active_links])]. *)
Theorem resolving_active_links_selects :
  forall (grid : GridResolve.ModelGrid) (link_values x y : list R),
    length (GridResolve.node_at_link_head grid)
    = length (GridResolve.link_length grid) ->
    length (GridResolve.node_at_link_tail grid)
    = length (GridResolve.link_length grid) ->
    length link_values = length (GridResolve.link_length grid) ->
    Np.take (GridResolve.node_at_link_head grid) (GridResolve.active_links grid)
    = Py.Ok (GridResolve.activelink_tonode grid) ->
    Np.take (GridResolve.node_at_link_tail grid) (GridResolve.active_links grid)
    = Py.Ok (GridResolve.activelink_fromnode grid) ->
    GridResolve.resolve_values_on_links grid link_values = Py.Ok (x, y) ->
    exists active_link_values xa ya : list R,
      Np.take link_values (GridResolve.active_links grid)
      = Py.Ok active_link_values
      /\ Np.take x (GridResolve.active_links grid) = Py.Ok xa
      /\ Np.take y (GridResolve.active_links grid) = Py.Ok ya
      /\ GridResolve.resolve_values_on_active_links grid active_link_values
         = Py.Ok (xa, ya).
Proof.
  intros grid v x y Lh Lt Lv Hto Hfrom Hres.
  rewrite ResolveFacts.resolve_values_on_links_split in Hres.
  destruct (ResolveSpec.run_component (GridResolve.node_x grid) _ _ _ v)
    as [x0 |] eqn:Ex; [cbn [Py.bind] in Hres | discriminate Hres].
  destruct (ResolveSpec.run_component (GridResolve.node_y grid) _ _ _ v)
    as [y0 |] eqn:Ey; [cbn [Py.bind] in Hres | discriminate Hres].
  inversion Hres; subst x0 y0. clear Hres.
  destruct (ResolveFacts.run_component_inv _ _ _ _ _ _ Lh Lt Lv Ex)
    as (ax & bx & Eax & Ebx & Hx).
  destruct (ResolveFacts.run_component_inv _ _ _ _ _ _ Lh Lt Lv Ey)
    as (ay & by' & Eay & Eby & Hy).
  destruct (ResolveFacts.take_same_length 0%R
              (GridResolve.node_at_link_head grid)
              (GridResolve.link_length grid) _ Lh _ Hto) as (la & Ela).
  destruct (ResolveFacts.take_same_length 0%R
              (GridResolve.node_at_link_head grid) v _
              (eq_trans Lh (eq_sym Lv)) _ Hto) as (va & Eva).
  destruct (ResolveFacts.run_component_restrict (GridResolve.node_x grid)
              _ _ _ _ _ _ _ _ _ _ _ Lh Lt Lv Eax Ebx Hto Hfrom Ela Eva)
    as (xa & Txa & Rxa).
  destruct (ResolveFacts.run_component_restrict (GridResolve.node_y grid)
              _ _ _ _ _ _ _ _ _ _ _ Lh Lt Lv Eay Eby Hto Hfrom Ela Eva)
    as (ya & Tya & Rya).
  exists va, xa, ya. subst x y.
  split; [exact Eva |]. split; [exact Txa |]. split; [exact Tya |].
  rewrite ResolveFacts.resolve_values_on_active_links_split.
  rewrite Ela. cbn [Py.bind]. rewrite Rxa. cbn [Py.bind]. rewrite Rya.
  reflexivity.
Qed.

Lemma resolving_active_links_selects_witness :
  exists active_link_values xa ya : list R,
    Np.take [2; 10; -5]%R (GridResolve.active_links Examples.triangle)
    = Py.Ok active_link_values
    /\ Np.take [2; 0; 3]%R
         (GridResolve.active_links Examples.triangle) = Py.Ok xa
    /\ Np.take [0; 10; 4]%R
         (GridResolve.active_links Examples.triangle) = Py.Ok ya
    /\ GridResolve.resolve_values_on_active_links Examples.triangle
         active_link_values
       = Py.Ok (xa, ya).
Proof.
  apply (resolving_active_links_selects Examples.triangle [2; 10; -5]%R);
    try reflexivity.
  rewrite ResolveFacts.resolve_values_on_links_spec by reflexivity.
  unfold ResolveSpec.component. r_eval.
  do 2 f_equal; repeat (apply f_equal2; [lra |]); reflexivity.
Defined.

(** X23: [resolve_values_on_links] does not truncate or pad its values:
    on a grid with sound link tables and more than one link (or none), a
    value array that has neither one entry per link nor a single entry
    raises [ValueError]. *)
Theorem resolving_rejects_wrong_length :
  forall (grid : GridResolve.ModelGrid) (link_values : list R),
    ResolveSpec.links_ok grid = true ->
    length (GridResolve.link_length grid) <> 1 ->
    length link_values <> length (GridResolve.link_length grid) ->
    length link_values <> 1 ->
    GridResolve.resolve_values_on_links grid link_values
    = Py.Raise Py.ValueError.
Proof.
  intros grid v Hok L1 Lv Lv1.
  destruct (ResolveFacts.link_tables_ok_spec grid Hok) as (Lh & Lt & Lxy & Vh & Vt).
  rewrite ResolveFacts.resolve_values_on_links_split.
  rewrite (ResolveFacts.run_component_wrong_length (GridResolve.node_x grid)
             _ _ _ v Vh Vt Lh Lt L1 Lv Lv1).
  reflexivity.
Qed.

Lemma resolving_rejects_wrong_length_witness :
  GridResolve.resolve_values_on_links Examples.triangle [2; 10]%R
  = Py.Raise Py.ValueError.
Proof.
  apply (resolving_rejects_wrong_length Examples.triangle [2; 10]%R);
    [reflexivity | simpl; lia | simpl; lia | simpl; lia].
Defined.

(** ** Facts about the patch table *)

Module PatchTableFacts.
Import Py Np Voronoi VoronoiQueries PatchTableSpec.
Local Open Scope py_scope.

Lemma skipn_repeat {A : Type} (x : A) (k n : nat) :
  skipn k (repeat x n) = repeat x (n - k).
Proof.
  revert k. induction n as [| n IH]; intros [| k]; simpl; try reflexivity.
  apply IH.
Qed.

(** The rows that hold [i] come in ascending order, from [k] on. *)
Lemma rows_containing_in (i : Z) (rows : list (list Z)) :
  forall (k : nat) (p : Z),
    In p (rows_containing i k rows)
    <-> exists j, p = Z.of_nat (k + j) /\ j < length rows
                  /\ In i (nth j rows []).
Proof.
  induction rows as [| r rows IH]; intros k p; simpl.
  - split; [intros [] | intros (j & _ & Hj & _); lia].
  - rewrite in_app_iff, in_map_iff, IH. split.
    + intros [(x & Hp & Hx) | (j & Hp & Hj & Hin)].
      * apply filter_In in Hx. destruct Hx as [Hx Hi].
        apply Z.eqb_eq in Hi. subst x.
        exists 0. repeat split; [rewrite Nat.add_0_r; congruence | lia
                                | exact Hx].
      * exists (S j). repeat split; [rewrite Hp; f_equal; lia | lia
                                    | exact Hin].
    + intros ([| j] & Hp & Hj & Hin).
      * left. exists i. split; [rewrite Hp; f_equal; lia |].
        apply filter_In. split; [exact Hin | apply Z.eqb_refl].
      * right. exists j. repeat split; [rewrite Hp; f_equal; lia | lia
                                       | exact Hin].
Qed.

Lemma rows_containing_sorted (i : Z) (rows : list (list Z)) :
  forall k : nat, StronglySorted Z.le (rows_containing i k rows).
Proof.
  induction rows as [| r rows IH]; intros k; simpl; [constructor |].
  induction (filter (Z.eqb i) r) as [| x l IHl]; simpl; [apply IH |].
  constructor; [exact IHl |].
  apply Forall_forall. intros p Hp. apply in_app_iff in Hp.
  destruct Hp as [Hp | Hp].
  - apply in_map_iff in Hp. destruct Hp as (y & <- & _). lia.
  - apply rows_containing_in in Hp. destruct Hp as (j & -> & _). lia.
Qed.

Lemma patches_of_spec (simplices : list (list Z)) (i : nat) (p : Z) :
  In p (patches_of simplices i)
  <-> (0 <= p < Z.of_nat (length simplices))%Z
      /\ In (Z.of_nat i) (nth (Z.to_nat p) simplices []).
Proof.
  unfold patches_of. rewrite rows_containing_in. split.
  - intros (j & -> & Hj & Hin). simpl. rewrite Nat2Z.id.
    split; [lia | exact Hin].
  - intros (Hp & Hin). exists (Z.to_nat p).
    repeat split; [simpl; lia | lia | exact Hin].
Qed.

Lemma patch_row_length (fill : entry) (width : nat)
  (self : VoronoiDelaunayGrid) (simplices : list (list Z)) (i : nat) :
  closed_node self i = true \/ length (patches_of simplices i) <= width ->
  length (patch_row fill width self simplices i) = width.
Proof.
  unfold patch_row. intros H.
  destruct (closed_node self i); [apply repeat_length |].
  destruct H as [H | H]; [discriminate |].
  rewrite length_app, length_map, repeat_length. lia.
Qed.

(** One pass of the loop writes the row of its node. *)
Lemma patch_row_step_spec (self : VoronoiDelaunayGrid)
  (simplices : list (list Z)) (fill : entry) (width : nat)
  (pre rest : list (list entry)) :
  length pre < length (status_at_node self) ->
  closed_node self (length pre) = true
  \/ length (patches_of simplices (length pre)) <= width ->
  patch_row_step self simplices (pre ++ repeat fill width :: rest) (length pre)
  = Ok (pre ++ patch_row fill width self simplices (length pre) :: rest).
Proof.
  intros Hst Hfit. unfold patch_row_step, is_boundary, patch_row, closed_node.
  rewrite (NpFacts.getitem_of_nat 0%Z) by exact Hst. cbn [bind].
  unfold item_or. rewrite NpFacts.norm_index_of_nat by exact Hst.
  destruct (nth (length pre) (status_at_node self) 0 =? 4)%Z eqn:E.
  - reflexivity.
  - cbn [negb]. destruct Hfit as [Hc | Hfit].
    + unfold closed_node, item_or in Hc.
      rewrite NpFacts.norm_index_of_nat in Hc by exact Hst. congruence.
    + rewrite CellFacts.getitem_middle. cbn [bind].
      fold (patches_of simplices (length pre)).
      unfold assign_prefix. rewrite repeat_length.
      replace (Nat.min (length (patches_of simplices (length pre))) width)
        with (length (patches_of simplices (length pre))) by lia.
      rewrite NpFacts.broadcast_to_same by apply length_map.
      cbn [bind]. rewrite skipn_repeat.
      apply CellFacts.setitem_middle.
Qed.

Lemma patch_loop (self : VoronoiDelaunayGrid) (simplices : list (list Z))
  (fill : entry) (width : nat) :
  forall (m : nat) (pre : list (list entry)),
    length pre + m <= length (status_at_node self) ->
    (forall i, length pre <= i < length pre + m ->
               closed_node self i = true
               \/ length (patches_of simplices i) <= width) ->
    foldM (patch_row_step self simplices) (seq (length pre) m)
      (pre ++ repeat (repeat fill width) m)
    = Ok (pre ++ map (patch_row fill width self simplices)
                   (seq (length pre) m)).
Proof.
  induction m as [| m IH]; intros pre Hst Hfit.
  - reflexivity.
  - cbn [seq foldM repeat map].
    rewrite patch_row_step_spec by (try apply Hfit; lia). cbn [bind].
    set (row := patch_row fill width self simplices (length pre)).
    assert (E : forall t, pre ++ row :: t = (pre ++ [row]) ++ t)
      by (intros t; rewrite <- app_assoc; reflexivity).
    assert (L : S (length pre) = length (pre ++ [row]))
      by (rewrite length_app; simpl; lia).
    rewrite (E (repeat (repeat fill width) m)).
    rewrite (E (map (patch_row fill width self simplices)
                  (seq (S (length pre)) m))).
    rewrite L. apply IH.
    + rewrite <- L. lia.
    + intros i Hi. apply Hfit. rewrite <- L in Hi. lia.
Qed.

Lemma table_fits_spec (self : VoronoiDelaunayGrid)
  (simplices : list (list Z)) (width : nat) :
  table_fits self simplices width = true ->
  number_of_nodes self <= length (status_at_node self)
  /\ forall i, i < number_of_nodes self ->
               closed_node self i = true
               \/ length (patches_of simplices i) <= width.
Proof.
  unfold table_fits. intros H.
  apply andb_true_iff in H. destruct H as [Hn Hall].
  apply Nat.leb_le in Hn. split; [exact Hn |].
  intros i Hi. rewrite forallb_forall in Hall.
  assert (Hin : In i (seq 0 (number_of_nodes self)))
    by (apply in_seq; lia).
  specialize (Hall i Hin). apply orb_true_iff in Hall.
  destruct Hall as [Hc | Hw]; [left; exact Hc |].
  right. apply Nat.leb_le. exact Hw.
Qed.

(** The table that the loop of [create_patches_from_delaunay_diagram]
    builds. *)
Lemma patch_table (self : VoronoiDelaunayGrid) (simplices : list (list Z))
  (fill : entry) (width : nat) :
  table_fits self simplices width = true ->
  for_range (number_of_nodes self) (patch_row_step self simplices)
    (repeat (repeat fill width) (number_of_nodes self))
  = Ok (map (patch_row fill width self simplices)
          (seq 0 (number_of_nodes self))).
Proof.
  intros H. destruct (table_fits_spec _ _ _ H) as (Hn & Hfit).
  unfold for_range.
  apply (patch_loop self simplices fill width (number_of_nodes self) []).
  - simpl. exact Hn.
  - intros i Hi. apply Hfit. simpl in Hi. lia.
Qed.

Section Built.

Variable delaunay : list point -> Triangulation.
Variable bad : Z.
Variable self : VoronoiDelaunayGrid.
Variable nodata : pyval.
Variable fill : entry.

Local Abbreviation simp := (simplices (delaunay (pts self))).
Local Abbreviation width := (max_dimension (regions (vor self))).
Local Abbreviation table :=
  (map (patch_row fill width self simp) (seq 0 (number_of_nodes self))).

Hypothesis Hpoints :
  array_equal (tri_points (delaunay (pts self))) (points (vor self)) = true.
Hypothesis Hfill : resolve_nodata bad nodata = Ok fill.
Hypothesis Hfits : table_fits self simp width = true.

(** What a successful run of [create_patches_from_delaunay_diagram] leaves
    in the grid. *)
Lemma create_patches_spec :
  create_patches_from_delaunay_diagram delaunay bad self (pts self) (vor self)
    nodata
  = (with_patches self (Some simp) (Some (length simp))
       (Some {| ma_data := table; ma_mask := map (map is_minus_one) table |})
       (set_bad_value self),
     Ok tt).
Proof.
  unfold create_patches_from_delaunay_diagram.
  rewrite Hpoints, Hfill. cbn [negb].
  assert (E : for_range (number_of_nodes self)
                (patch_row_step self simp)
                (repeat (repeat fill width) (number_of_nodes self))
              = Ok table)
    by exact (patch_table self simp fill width Hfits).
  cbv zeta. rewrite E. reflexivity.
Qed.

End Built.

End PatchTableFacts.

Module PatchRuns.
Import Py Np Voronoi VoronoiQueries PatchTableSpec.

Lemma table_row (fill : entry) (width : nat) (self : VoronoiDelaunayGrid)
  (simplices : list (list Z)) (i : nat) :
  i < number_of_nodes self ->
  nth i (map (patch_row fill width self simplices)
           (seq 0 (number_of_nodes self))) []
  = patch_row fill width self simplices i.
Proof.
  intros Hi.
  rewrite (NpFacts.nth_map_in _ _ i 0 []) by (rewrite length_seq; exact Hi).
  rewrite seq_nth by exact Hi. reflexivity.
Qed.

Lemma mask_of_ids (fill : entry) (ids : list Z) (k j : nat) :
  Forall (fun p => (0 <= p)%Z) ids ->
  j < length ids + k ->
  nth j (map is_minus_one (map Id ids ++ repeat fill k)) false
  = if j <? length ids then false else is_minus_one fill.
Proof.
  intros Hpos Hj. rewrite map_app, map_map.
  destruct (j <? length ids) eqn:E.
  - apply Nat.ltb_lt in E.
    rewrite app_nth1 by (rewrite length_map; exact E).
    rewrite (NpFacts.nth_map_in _ ids j 0%Z false) by exact E.
    rewrite Forall_forall in Hpos.
    pose proof (Hpos _ (nth_In ids 0%Z E)) as H0. simpl.
    apply Z.eqb_neq. lia.
  - apply Nat.ltb_ge in E.
    rewrite app_nth2 by (rewrite length_map; exact E).
    rewrite length_map.
    rewrite (NpFacts.nth_map_in _ _ _ fill false)
      by (rewrite repeat_length; lia).
    rewrite nth_repeat. reflexivity.
Qed.

Lemma patches_of_nonneg (simplices : list (list Z)) (i : nat) :
  Forall (fun p => (0 <= p)%Z) (patches_of simplices i).
Proof.
  apply Forall_forall. intros p Hp.
  apply PatchTableFacts.patches_of_spec in Hp. lia.
Qed.

(** The mask of a row of the table. *)
Lemma mask_of_row (fill : entry) (width : nat) (self : VoronoiDelaunayGrid)
  (simplices : list (list Z)) (i j : nat) :
  closed_node self i = true \/ length (patches_of simplices i) <= width ->
  j < width ->
  nth j (map is_minus_one (patch_row fill width self simplices i)) false
  = if closed_node self i || (length (patches_of simplices i) <=? j)
    then is_minus_one fill else false.
Proof.
  intros Hfit Hj. unfold patch_row.
  destruct (closed_node self i) eqn:Ec.
  - cbn [orb]. rewrite (NpFacts.nth_map_in _ _ _ fill false)
      by (rewrite repeat_length; exact Hj).
    rewrite nth_repeat. reflexivity.
  - destruct Hfit as [Hc | Hfit]; [discriminate |]. cbn [orb].
    rewrite mask_of_ids by (try apply patches_of_nonneg; lia).
    destruct (length (patches_of simplices i) <=? j) eqn:E.
    + apply Nat.leb_le in E.
      replace (j <? length (patches_of simplices i)) with false
        by (symmetry; apply Nat.ltb_ge; exact E).
      reflexivity.
    + apply Nat.leb_gt in E.
      replace (j <? length (patches_of simplices i)) with true
        by (symmetry; apply Nat.ltb_lt; exact E).
      reflexivity.
Qed.

Lemma resolve_not_default (bad : Z) (nodata : pyval) (fill : entry) :
  resolve_nodata bad nodata = Ok fill ->
  is_minus_one fill = false ->
  is_default_nodata nodata = false.
Proof.
  destruct nodata as [z | s]; simpl; [| reflexivity].
  destruct (z =? -1)%Z; [| discriminate].
  intros H. inversion H; subst. simpl. discriminate.
Qed.

End PatchRuns.

(** X24: the first call of [patches_at_node()] on a grid whose triangles
    fit the table returns one row per node: the ids of the patches that
    have the node as a corner, in ascending order, and after them -1 up to
    the width of the table; the row of a closed boundary node holds -1
    only. *)
Theorem patch_table_lists_patches_in_order :
  forall (delaunay : list Voronoi.point -> Voronoi.Triangulation) (bad : Z)
         (self : Voronoi.VoronoiDelaunayGrid),
    Voronoi._patches_at_node self = None ->
    Voronoi.array_equal (Voronoi.tri_points (delaunay (Voronoi.pts self)))
      (Voronoi.points (Voronoi.vor self)) = true ->
    PatchTableSpec.table_fits self
      (Voronoi.simplices (delaunay (Voronoi.pts self)))
      (Voronoi.max_dimension (Voronoi.regions (Voronoi.vor self))) = true ->
    exists self' t,
      Voronoi.patches_at_node delaunay bad self (Voronoi.PyInt (-1))
      = (self', Py.Ok t)
      /\ length (Voronoi.ma_data t) = Voronoi.number_of_nodes self
      /\ forall i : nat,
           i < Voronoi.number_of_nodes self ->
           exists ids : list Z,
             nth i (Voronoi.ma_data t) []
             = map Voronoi.Id ids
               ++ repeat (Voronoi.Id (-1))
                    (Voronoi.max_dimension
                       (Voronoi.regions (Voronoi.vor self)) - length ids)
             /\ StronglySorted Z.le ids
             /\ (PatchTableSpec.closed_node self i = true -> ids = [])
             /\ (PatchTableSpec.closed_node self i = false ->
                 length ids
                 <= Voronoi.max_dimension (Voronoi.regions (Voronoi.vor self))
                 /\ forall p : Z,
                      In p ids
                      <-> (0 <= p
                           < Z.of_nat
                               (length (Voronoi.simplices
                                          (delaunay (Voronoi.pts self)))))%Z
                          /\ In (Z.of_nat i)
                               (nth (Z.to_nat p)
                                  (Voronoi.simplices
                                     (delaunay (Voronoi.pts self))) [])).
Proof.
  intros delaunay bad self Hcache Hpoints Hfits.
  unfold Voronoi.patches_at_node. cbn [Voronoi.is_default_nodata Z.eqb].
  rewrite Hcache.
  rewrite (PatchTableFacts.create_patches_spec delaunay bad self
             (Voronoi.PyInt (-1)) (Voronoi.Id (-1)) Hpoints eq_refl Hfits).
  unfold Voronoi.read_patches_at_node.
  cbn [Voronoi.with_patches Voronoi._patches_at_node].
  eexists. eexists. split; [reflexivity |].
  cbn [Voronoi.ma_data].
  split; [rewrite length_map, length_seq; reflexivity |].
  intros i Hi. rewrite PatchRuns.table_row by exact Hi.
  destruct (PatchTableFacts.table_fits_spec _ _ _ Hfits) as (_ & Hfit).
  specialize (Hfit i Hi). unfold PatchTableSpec.patch_row.
  destruct (PatchTableSpec.closed_node self i) eqn:Ec.
  - exists []. cbn [map length app]. rewrite Nat.sub_0_r.
    repeat split; try reflexivity; try constructor; discriminate.
  - destruct Hfit as [Hc | Hw]; [discriminate |].
    exists (PatchTableSpec.patches_of
              (Voronoi.simplices (delaunay (Voronoi.pts self))) i).
    split; [reflexivity |].
    split; [apply PatchTableFacts.rows_containing_sorted |].
    split; [discriminate |].
    intros _. split; [exact Hw |].
    intros p. apply PatchTableFacts.patches_of_spec.
Qed.

Lemma patch_table_lists_patches_in_order_witness :
  exists self' t,
    Voronoi.patches_at_node Examples.sliver_delaunay Examples.bad_index
      Examples.sliver_grid (Voronoi.PyInt (-1))
    = (self', Py.Ok t)
    /\ length (Voronoi.ma_data t) = 4
    /\ forall i : nat,
         i < 4 ->
         exists ids : list Z,
           nth i (Voronoi.ma_data t) []
           = map Voronoi.Id ids
             ++ repeat (Voronoi.Id (-1)) (3 - length ids)
           /\ StronglySorted Z.le ids
           /\ (PatchTableSpec.closed_node Examples.sliver_grid i = true ->
               ids = [])
           /\ (PatchTableSpec.closed_node Examples.sliver_grid i = false ->
               length ids <= 3
               /\ forall p : Z,
                    In p ids
                    <-> (0 <= p < 3)%Z
                        /\ In (Z.of_nat i)
                             (nth (Z.to_nat p)
                                [[0; 2; 3]; [2; 1; 3]; [0; 1; 2]]%Z [])).
Proof.
  apply (patch_table_lists_patches_in_order Examples.sliver_delaunay
           Examples.bad_index Examples.sliver_grid).
  - reflexivity.
  - r_eval. r_decide. reflexivity.
  - reflexivity.
Defined.

(** X25: in the table of the first call of [patches_at_node()] the mask
    marks exactly the entries that hold no patch: every entry of a closed
    boundary node, and at an open node the entries after the node's
    patches. *)
Theorem patch_table_mask_marks_padding :
  forall (delaunay : list Voronoi.point -> Voronoi.Triangulation) (bad : Z)
         (self : Voronoi.VoronoiDelaunayGrid),
    Voronoi._patches_at_node self = None ->
    Voronoi.array_equal (Voronoi.tri_points (delaunay (Voronoi.pts self)))
      (Voronoi.points (Voronoi.vor self)) = true ->
    PatchTableSpec.table_fits self
      (Voronoi.simplices (delaunay (Voronoi.pts self)))
      (Voronoi.max_dimension (Voronoi.regions (Voronoi.vor self))) = true ->
    exists self' t,
      Voronoi.patches_at_node delaunay bad self (Voronoi.PyInt (-1))
      = (self', Py.Ok t)
      /\ forall i j : nat,
           i < Voronoi.number_of_nodes self ->
           j < Voronoi.max_dimension (Voronoi.regions (Voronoi.vor self)) ->
           (nth j (nth i (Voronoi.ma_mask t) []) false = true
            <-> PatchTableSpec.closed_node self i = true
                \/ length (PatchTableSpec.patches_of
                             (Voronoi.simplices (delaunay (Voronoi.pts self)))
                             i) <= j).
Proof.
  intros delaunay bad self Hcache Hpoints Hfits.
  unfold Voronoi.patches_at_node. cbn [Voronoi.is_default_nodata Z.eqb].
  rewrite Hcache.
  rewrite (PatchTableFacts.create_patches_spec delaunay bad self
             (Voronoi.PyInt (-1)) (Voronoi.Id (-1)) Hpoints eq_refl Hfits).
  unfold Voronoi.read_patches_at_node.
  cbn [Voronoi.with_patches Voronoi._patches_at_node].
  eexists. eexists. split; [reflexivity |].
  cbn [Voronoi.ma_mask]. intros i j Hi Hj.
  destruct (PatchTableFacts.table_fits_spec _ _ _ Hfits) as (_ & Hfit).
  rewrite (NpFacts.nth_map_in _ _ i [] [])
    by (rewrite length_map, length_seq; exact Hi).
  rewrite PatchRuns.table_row by exact Hi.
  rewrite PatchRuns.mask_of_row by (try apply Hfit; assumption).
  destruct (PatchTableSpec.closed_node self i); cbn [orb Voronoi.is_minus_one].
  - split; [intros _; left; reflexivity | reflexivity].
  - destruct (length _ <=? j) eqn:E.
    + apply Nat.leb_le in E. split; [intros _; right; exact E | reflexivity].
    + apply Nat.leb_gt in E.
      split; [discriminate | intros [H | H]; [discriminate | lia]].
Qed.

Lemma patch_table_mask_marks_padding_witness :
  exists self' t,
    Voronoi.patches_at_node Examples.sliver_delaunay Examples.bad_index
      Examples.sliver_grid (Voronoi.PyInt (-1))
    = (self', Py.Ok t)
    /\ forall i j : nat,
         i < 4 ->
         j < 3 ->
         (nth j (nth i (Voronoi.ma_mask t) []) false = true
          <-> PatchTableSpec.closed_node Examples.sliver_grid i = true
              \/ length (PatchTableSpec.patches_of
                           [[0; 2; 3]; [2; 1; 3]; [0; 1; 2]]%Z i) <= j).
Proof.
  apply (patch_table_mask_marks_padding Examples.sliver_delaunay
           Examples.bad_index Examples.sliver_grid).
  - reflexivity.
  - r_eval. r_decide. reflexivity.
  - reflexivity.
Defined.

(** X26: with a nodata value other than -1 ('nan', or 'bad_value' when the
    bad index value is not -1) the first such call of [patches_at_node]
    returns a table whose mask marks nothing, and records in
    [set_bad_value] that the table was built. *)
Theorem patch_table_other_nodata_masks_nothing :
  forall (delaunay : list Voronoi.point -> Voronoi.Triangulation) (bad : Z)
         (self : Voronoi.VoronoiDelaunayGrid) (nodata : Voronoi.pyval)
         (fill : Voronoi.entry),
    Voronoi.set_bad_value self = None ->
    Voronoi.resolve_nodata bad nodata = Py.Ok fill ->
    Voronoi.is_minus_one fill = false ->
    Voronoi.array_equal (Voronoi.tri_points (delaunay (Voronoi.pts self)))
      (Voronoi.points (Voronoi.vor self)) = true ->
    PatchTableSpec.table_fits self
      (Voronoi.simplices (delaunay (Voronoi.pts self)))
      (Voronoi.max_dimension (Voronoi.regions (Voronoi.vor self))) = true ->
    exists self' t,
      Voronoi.patches_at_node delaunay bad self nodata = (self', Py.Ok t)
      /\ Voronoi.set_bad_value self' = Some true
      /\ forall i j : nat,
           nth j (nth i (Voronoi.ma_mask t) []) false = false.
Proof.
  intros delaunay bad self nodata fill Hflag Hfill Hm Hpoints Hfits.
  unfold Voronoi.patches_at_node.
  rewrite (PatchRuns.resolve_not_default bad nodata fill Hfill Hm), Hflag.
  rewrite (PatchTableFacts.create_patches_spec delaunay bad self
             nodata fill Hpoints Hfill Hfits).
  unfold Voronoi.read_patches_at_node.
  cbn [Voronoi.with_patches Voronoi._patches_at_node].
  eexists. eexists. split; [reflexivity |].
  split; [reflexivity |].
  cbn [Voronoi.ma_mask]. intros i j.
  destruct (PatchTableFacts.table_fits_spec _ _ _ Hfits) as (_ & Hfit).
  destruct (Nat.lt_ge_cases i (Voronoi.number_of_nodes self)) as [Hi | Hi].
  - rewrite (NpFacts.nth_map_in _ _ i [] [])
      by (rewrite length_map, length_seq; exact Hi).
    rewrite PatchRuns.table_row by exact Hi.
    destruct (Nat.lt_ge_cases j
                (Voronoi.max_dimension (Voronoi.regions (Voronoi.vor self))))
      as [Hj | Hj].
    + rewrite PatchRuns.mask_of_row by (try apply Hfit; assumption).
      rewrite Hm. destruct (_ || _); reflexivity.
    + apply nth_overflow.
      rewrite length_map, PatchTableFacts.patch_row_length
        by (apply Hfit; exact Hi).
      exact Hj.
  - rewrite (nth_overflow (map _ _))
      by (rewrite !length_map, length_seq; exact Hi).
    destruct j; reflexivity.
Qed.

Lemma patch_table_other_nodata_masks_nothing_witness :
  exists self' t,
    Voronoi.patches_at_node Examples.sliver_delaunay Examples.bad_index
      Examples.sliver_grid (Voronoi.PyStr "bad_value")
    = (self', Py.Ok t)
    /\ Voronoi.set_bad_value self' = Some true
    /\ forall i j : nat,
         nth j (nth i (Voronoi.ma_mask t) []) false = false.
Proof.
  apply (patch_table_other_nodata_masks_nothing Examples.sliver_delaunay
           Examples.bad_index Examples.sliver_grid
           (Voronoi.PyStr "bad_value") (Voronoi.Id Examples.bad_index)).
  - reflexivity.
  - reflexivity.
  - reflexivity.
  - r_eval. r_decide. reflexivity.
  - reflexivity.
Defined.

Module PatchCacheFacts.
Import Py Np Voronoi VoronoiQueries PatchTableSpec.

(** A successful run of [create_patches_from_delaunay_diagram] sets the
    patches, their number and the table. *)
Lemma create_patches_sets (delaunay : list point -> Triangulation) (bad : Z)
  (self self' : VoronoiDelaunayGrid) (p : list point) (v : VoronoiDiagram)
  (nodata : pyval) (u : unit) :
  create_patches_from_delaunay_diagram delaunay bad self p v nodata
  = (self', Ok u) ->
  _nodes_at_patch self' = Some (simplices (delaunay p))
  /\ _number_of_patches self' = Some (length (simplices (delaunay p)))
  /\ set_bad_value self' = set_bad_value self
  /\ exists t, _patches_at_node self' = Some t.
Proof.
  unfold create_patches_from_delaunay_diagram.
  destruct (negb (array_equal (tri_points (delaunay p)) (points v)));
    [discriminate |].
  destruct (resolve_nodata bad nodata) as [fill | e]; [| discriminate].
  cbv zeta.
  destruct (for_range _ _ _) as [table | e]; [| discriminate].
  intros H. inversion H; subst. cbn.
  repeat split; try reflexivity. eexists. reflexivity.
Qed.

End PatchCacheFacts.

(** X27: a call of [patches_at_node] that returns a table leaves the grid
    so that the same call again, and the call with the default nodata
    value -1, return that table and change nothing, whatever nodata value
    the table was built with. *)
Theorem patches_at_node_repeats :
  forall (delaunay : list Voronoi.point -> Voronoi.Triangulation) (bad : Z)
         (self self' : Voronoi.VoronoiDelaunayGrid) (nodata : Voronoi.pyval)
         (t : Voronoi.MaskedArray),
    Voronoi.patches_at_node delaunay bad self nodata = (self', Py.Ok t) ->
    Voronoi.patches_at_node delaunay bad self' nodata = (self', Py.Ok t)
    /\ Voronoi.patches_at_node delaunay bad self' (Voronoi.PyInt (-1))
       = (self', Py.Ok t).
Proof.
  intros delaunay bad self self' nodata t H.
  unfold Voronoi.patches_at_node in H |- *.
  change (Voronoi.is_default_nodata (Voronoi.PyInt (-1))) with true.
  cbv iota.
  destruct (Voronoi.is_default_nodata nodata) eqn:Ed.
  - destruct (Voronoi._patches_at_node self) as [t0 |] eqn:Ec.
    + inversion H; subst. rewrite Ec. split; reflexivity.
    + destruct (Voronoi.create_patches_from_delaunay_diagram _ _ _ _ _ _)
        as [s1 [u | e]]; [| discriminate H].
      unfold Voronoi.read_patches_at_node in H.
      destruct (Voronoi._patches_at_node s1) as [t1 |] eqn:E1;
        inversion H; subst.
      rewrite E1. split; reflexivity.
  - destruct (Voronoi.set_bad_value self) as [flag |] eqn:Ef.
    + unfold Voronoi.read_patches_at_node in H |- *.
      destruct (Voronoi._patches_at_node self) as [t0 |] eqn:Ec;
        inversion H; subst.
      rewrite Ef, Ec. split; reflexivity.
    + destruct (Voronoi.create_patches_from_delaunay_diagram _ _ _ _ _ _)
        as [s1 [u | e]]; [| discriminate H].
      unfold Voronoi.read_patches_at_node in H |- *.
      cbn [Voronoi.with_patches Voronoi._patches_at_node] in H.
      destruct (Voronoi._patches_at_node s1) as [t1 |] eqn:E1;
        inversion H; subst.
      cbn [Voronoi.with_patches Voronoi._patches_at_node
           Voronoi.set_bad_value].
      split; reflexivity.
Qed.

Lemma patches_at_node_repeats_witness :
  Voronoi.patches_at_node Examples.sliver_delaunay Examples.bad_index
    (Voronoi.with_patches Examples.sliver_grid
       (Some [[0; 2; 3]; [2; 1; 3]; [0; 1; 2]]%Z) (Some 3)
       (Some Examples.sliver_table) (Some true))
    (Voronoi.PyStr "bad_value")
  = (Voronoi.with_patches Examples.sliver_grid
       (Some [[0; 2; 3]; [2; 1; 3]; [0; 1; 2]]%Z) (Some 3)
       (Some Examples.sliver_table) (Some true),
     Py.Ok Examples.sliver_table)
  /\ Voronoi.patches_at_node Examples.sliver_delaunay Examples.bad_index
       (Voronoi.with_patches Examples.sliver_grid
          (Some [[0; 2; 3]; [2; 1; 3]; [0; 1; 2]]%Z) (Some 3)
          (Some Examples.sliver_table) (Some true))
       (Voronoi.PyInt (-1))
     = (Voronoi.with_patches Examples.sliver_grid
          (Some [[0; 2; 3]; [2; 1; 3]; [0; 1; 2]]%Z) (Some 3)
          (Some Examples.sliver_table) (Some true),
        Py.Ok Examples.sliver_table).
Proof.
  apply (patches_at_node_repeats Examples.sliver_delaunay Examples.bad_index
           Examples.sliver_grid _ (Voronoi.PyStr "bad_value")).
  r_eval. r_decide. r_eval. reflexivity.
Defined.

(** X28: [number_of_patches] and [nodes_at_patch] agree. On a grid where
    the two attributes are unset or set together, when [number_of_patches]
    returns [n], [nodes_at_patch] then returns an array of [n] rows without
    changing the grid again. *)
Theorem number_of_patches_counts_nodes_at_patch :
  forall (delaunay : list Voronoi.point -> Voronoi.Triangulation) (bad : Z)
         (self self' : Voronoi.VoronoiDelaunayGrid) (n : nat),
    PatchTableSpec.cache_ok self = true ->
    VoronoiQueries.number_of_patches delaunay bad self = (self', Py.Ok n) ->
    exists rows : list (list Z),
      VoronoiQueries.nodes_at_patch delaunay bad self' = (self', Py.Ok rows)
      /\ length rows = n
      /\ PatchTableSpec.cache_ok self' = true.
Proof.
  intros delaunay bad self self' n Hok H.
  unfold VoronoiQueries.number_of_patches in H.
  unfold VoronoiQueries.nodes_at_patch, PatchTableSpec.cache_ok in *.
  destruct (Voronoi._number_of_patches self) as [n0 |] eqn:En.
  - injection H as Hs Hn. subst self' n. rewrite En.
    destruct (Voronoi._nodes_at_patch self) as [rows |]; [| discriminate].
    exists rows. apply Nat.eqb_eq in Hok.
    repeat split; [congruence | apply Nat.eqb_eq; exact Hok].
  - destruct (Voronoi.create_patches_from_delaunay_diagram _ _ _ _ _ _)
      as [s1 [u | e]] eqn:Ec; [| discriminate H].
    destruct (PatchCacheFacts.create_patches_sets _ _ _ _ _ _ _ _ Ec)
      as (Hrows & Hn & _).
    rewrite Hn in H. injection H as Hs Hn'. subst self' n.
    rewrite Hrows, Hn. eexists.
    repeat split; [apply Nat.eqb_refl].
Qed.

Lemma number_of_patches_counts_nodes_at_patch_witness :
  exists rows : list (list Z),
    VoronoiQueries.nodes_at_patch Examples.sliver_delaunay Examples.bad_index
      (fst (VoronoiQueries.number_of_patches Examples.sliver_delaunay
              Examples.bad_index Examples.sliver_grid))
    = (fst (VoronoiQueries.number_of_patches Examples.sliver_delaunay
              Examples.bad_index Examples.sliver_grid),
       Py.Ok rows)
    /\ length rows = 3
    /\ PatchTableSpec.cache_ok
         (fst (VoronoiQueries.number_of_patches Examples.sliver_delaunay
                 Examples.bad_index Examples.sliver_grid)) = true.
Proof.
  apply (number_of_patches_counts_nodes_at_patch Examples.sliver_delaunay
           Examples.bad_index Examples.sliver_grid).
  - reflexivity.
  - unfold VoronoiQueries.number_of_patches.
    cbn [Voronoi._number_of_patches Examples.sliver_grid].
    rewrite (PatchTableFacts.create_patches_spec Examples.sliver_delaunay
               Examples.bad_index Examples.sliver_grid (Voronoi.PyInt (-1))
               (Voronoi.Id (-1)));
      [reflexivity | r_eval; r_decide; reflexivity | reflexivity
      | reflexivity].
Defined.

(** ** Facts about [create_links_from_triangulation] *)

Module TriLinkFacts.
Import Py Np VoronoiLinks TriLinkSpec.
Local Open Scope py_scope.

Lemma table_ok_spec (tri : Delaunay) :
  table_ok tri = true ->
  length (neighbors tri) = nsimplex tri
  /\ (forall r, In r (simplices tri) -> length r = 3)
  /\ (forall r, In r (neighbors tri) ->
        length r = 3
        /\ forall n, In n r -> (-1 <= n < Z.of_nat (nsimplex tri))%Z).
Proof.
  unfold table_ok. intros H.
  apply andb_true_iff in H. destruct H as [H Hn].
  apply andb_true_iff in H. destruct H as [Hl Hs].
  apply Nat.eqb_eq in Hl. rewrite forallb_forall in Hs, Hn.
  split; [exact Hl |]. split.
  - intros r Hr. apply Nat.eqb_eq. apply Hs. exact Hr.
  - intros r Hr. specialize (Hn r Hr).
    apply andb_true_iff in Hn. destruct Hn as [H3 Hall].
    apply Nat.eqb_eq in H3. split; [exact H3 |].
    intros n Hin. rewrite forallb_forall in Hall. specialize (Hall n Hin).
    apply andb_true_iff in Hall. destruct Hall as [H1 H2].
    apply Z.leb_le in H1. apply Z.ltb_lt in H2. lia.
Qed.

(** Reading the flags of the triangles that are done. *)
Lemma getitem_tridone (t T : nat) (n : Z) :
  t <= T -> (0 <= n < Z.of_nat T)%Z ->
  getitem (repeat true t ++ repeat false (T - t)) n = Ok (n <? Z.of_nat t)%Z.
Proof.
  intros Ht Hn.
  replace n with (Z.of_nat (Z.to_nat n)) at 1 by lia.
  rewrite (NpFacts.getitem_of_nat false)
    by (rewrite length_app, !repeat_length; lia).
  f_equal. destruct (n <? Z.of_nat t)%Z eqn:E.
  - apply Z.ltb_lt in E.
    rewrite app_nth1 by (rewrite repeat_length; lia).
    apply nth_repeat_lt. lia.
  - apply Z.ltb_ge in E.
    rewrite app_nth2 by (rewrite repeat_length; lia).
    apply nth_repeat.
Qed.

Lemma getitem2_of_nat {A : Type} (d : A) (a : list (list A)) (t i : nat) :
  t < length a -> i < length (nth t a []) ->
  getitem2 a (Z.of_nat t) (Z.of_nat i) = Ok (nth i (nth t a []) d).
Proof.
  intros Ht Hi. unfold getitem2.
  rewrite (NpFacts.getitem_of_nat []) by exact Ht. cbn [bind].
  apply NpFacts.getitem_of_nat. exact Hi.
Qed.

Lemma repeat_cons_sub {A : Type} (x : A) (n k : nat) :
  k < n -> repeat x (n - k) = x :: repeat x (n - S k).
Proof.
  intros H. replace (n - k) with (S (n - S k)) by lia. reflexivity.
Qed.

Lemma setitem_after_map {A B : Type} (f : A -> B) (E : list A) (x y : B)
  (rest : list B) :
  setitem (map f E ++ x :: rest) (Z.of_nat (length E)) y
  = Ok (map f E ++ y :: rest).
Proof.
  rewrite <- (length_map f E). apply CellFacts.setitem_middle.
Qed.

Lemma setitem_after_repeat {A : Type} (a x y : A) (k : nat) (rest : list A) :
  setitem (repeat a k ++ x :: rest) (Z.of_nat k) y
  = Ok (repeat a k ++ y :: rest).
Proof.
  rewrite <- (repeat_length a k) at 2. apply CellFacts.setitem_middle.
Qed.

Section Loop.

Variable tri : Delaunay.
Variable n : nat.
Hypothesis Hok : table_ok tri = true.

Local Abbreviation T := (nsimplex tri).

(** One corner of a triangle: its edge is written to the next slot, when
    it is listed. *)
Lemma vertex_step_spec (t i : nat) (E : list (Z * Z)) :
  t < T -> i < 3 ->
  length (E ++ edges_of_triangle tri t [i]) <= n ->
  vertex_step tri t (state_after n E t T) i
  = Ok (state_after n (E ++ edges_of_triangle tri t [i]) t T).
Proof.
  intros Ht Hi Hn.
  destruct (table_ok_spec tri Hok) as (Hlen & Hsimp & Hnb).
  assert (Hrow : In (nth t (neighbors tri) []) (neighbors tri))
    by (apply nth_In; lia).
  assert (Hcor : In (nth t (simplices tri) []) (simplices tri))
    by (apply nth_In; exact Ht).
  destruct (Hnb _ Hrow) as (H3 & Hrange).
  pose proof (Hsimp _ Hcor) as Hc3.
  pose proof (eq_refl : T = length (simplices tri)) as HT.
  unfold vertex_step.
  rewrite (getitem2_of_nat 0%Z) by lia. cbn [bind].
  set (nb := nth i (nth t (neighbors tri) []) 0%Z) in *.
  assert (Hnbr : (-1 <= nb < Z.of_nat T)%Z)
    by (apply Hrange; apply nth_In; lia).
  assert (Hadd : (if (nb =? -1)%Z then Ok true
                  else done <- getitem (tridone (state_after n E t T)) nb ;;
                       Ok (negb done))
                 = Ok (listed t nb)).
  { unfold listed. destruct (nb =? -1)%Z eqn:E1; [reflexivity |].
    apply Z.eqb_neq in E1. cbn [state_after tridone].
    rewrite getitem_tridone by lia. cbn [bind orb]. f_equal.
    destruct (nb <? Z.of_nat t)%Z eqn:E2; cbn [negb]; symmetry.
    - apply Z.ltb_lt in E2. apply Z.leb_gt. exact E2.
    - apply Z.ltb_ge in E2. apply Z.leb_le. exact E2. }
  rewrite Hadd. cbn [bind].
  unfold edges_of_triangle in Hn |- *. cbn [flat_map] in Hn |- *.
  fold nb in Hn |- *. rewrite app_nil_r in Hn |- *.
  destruct (listed t nb).
  - rewrite length_app in Hn. cbn [length] in Hn.
    assert (Hm1 : (i + 1) mod 3 < 3) by (apply Nat.mod_upper_bound; lia).
    assert (Hm2 : (i + 2) mod 3 < 3) by (apply Nat.mod_upper_bound; lia).
    rewrite (getitem2_of_nat 0%Z) by lia. cbn [bind].
    rewrite (getitem2_of_nat 0%Z) by lia.
    cbn [state_after link_fromnode link_tonode link_id tridone].
    rewrite (repeat_cons_sub 0%Z n (length E)) by lia.
    rewrite setitem_after_map. cbn [bind].
    rewrite setitem_after_map. cbn [bind].
    unfold state_after, edge.
    rewrite !map_app, length_app, <- !app_assoc. cbn [map length app fst snd].
    replace (length E + 1) with (S (length E)) by lia.
    reflexivity.
  - rewrite app_nil_r. reflexivity.
Qed.

Lemma edges_of_triangle_cons (t i : nat) (vs : list nat) :
  edges_of_triangle tri t (i :: vs)
  = edges_of_triangle tri t [i] ++ edges_of_triangle tri t vs.
Proof.
  unfold edges_of_triangle. cbn [flat_map]. rewrite app_nil_r. reflexivity.
Qed.

(** The loop over the corners of triangle [t]. *)
Lemma vertex_loop (t : nat) (vs : list nat) :
  t < T -> Forall (fun i => i < 3) vs ->
  forall E : list (Z * Z),
    length (E ++ edges_of_triangle tri t vs) <= n ->
    foldM (vertex_step tri t) vs (state_after n E t T)
    = Ok (state_after n (E ++ edges_of_triangle tri t vs) t T).
Proof.
  intros Ht Hvs. induction Hvs as [| i vs Hi Hvs IH]; intros E Hn.
  - unfold edges_of_triangle. cbn [flat_map foldM]. rewrite app_nil_r.
    reflexivity.
  - rewrite edges_of_triangle_cons in Hn |- *. rewrite app_assoc in Hn |- *.
    cbn [foldM].
    rewrite vertex_step_spec
      by (try assumption; rewrite length_app in Hn; lia).
    cbn [bind]. apply IH. exact Hn.
Qed.

(** One triangle: its listed edges are written and it is marked done. *)
Lemma triangle_step_spec (t : nat) (E : list (Z * Z)) :
  t < T ->
  length (E ++ edges_of tri [t]) <= n ->
  triangle_step tri (state_after n E t T) t
  = Ok (state_after n (E ++ edges_of tri [t]) (S t) T).
Proof.
  intros Ht Hn. unfold edges_of in Hn |- *. cbn [flat_map] in Hn |- *.
  rewrite app_nil_r in Hn |- *. unfold triangle_step.
  rewrite vertex_loop
    by (try assumption; repeat constructor; lia).
  cbn [bind]. cbn [state_after tridone link_fromnode link_tonode link_id].
  rewrite (repeat_cons_sub false T t) by exact Ht.
  rewrite setitem_after_repeat. cbn [bind].
  unfold state_after. do 2 f_equal.
  change (true :: repeat false (T - S t))
    with ([true] ++ repeat false (T - S t)).
  rewrite app_assoc. f_equal.
  rewrite <- repeat_cons. reflexivity.
Qed.

Lemma edges_of_cons (t : nat) (ts : list nat) :
  edges_of tri (t :: ts) = edges_of tri [t] ++ edges_of tri ts.
Proof.
  unfold edges_of. cbn [flat_map]. rewrite app_nil_r. reflexivity.
Qed.

(** The loop over the triangles, from triangle [t] on. *)
Lemma triangle_loop (m : nat) :
  forall (t : nat) (E : list (Z * Z)),
    t + m <= T ->
    length (E ++ edges_of tri (seq t m)) <= n ->
    foldM (triangle_step tri) (seq t m) (state_after n E t T)
    = Ok (state_after n (E ++ edges_of tri (seq t m)) (t + m) T).
Proof.
  induction m as [| m IH]; intros t E Ht Hn.
  - cbn [seq foldM]. unfold edges_of. cbn [flat_map].
    rewrite app_nil_r, Nat.add_0_r. reflexivity.
  - cbn [seq foldM] in Hn |- *.
    rewrite edges_of_cons in Hn |- *. rewrite app_assoc in Hn |- *.
    rewrite triangle_step_spec
      by (try lia; rewrite length_app in Hn; lia).
    cbn [bind]. rewrite IH by (try lia; exact Hn).
    replace (S t + m) with (t + S m) by lia. reflexivity.
Qed.

End Loop.

(** *** Counting the entries of the neighbour table *)

Lemma count_nonzero_app (a b : list bool) :
  count_nonzero (a ++ b) = count_nonzero a + count_nonzero b.
Proof.
  unfold count_nonzero. rewrite filter_app, length_app. reflexivity.
Qed.

Lemma count_nonzero_map {A : Type} (p : A -> bool) (l : list A) :
  count_nonzero (map p l) = length (filter p l).
Proof.
  unfold count_nonzero.
  induction l as [| x l IH]; simpl; [reflexivity |].
  destruct (p x); simpl; rewrite IH; reflexivity.
Qed.

(** In a row, an entry is listed or names an earlier triangle. *)
Lemma row_listed_or_earlier (t : nat) (r : list Z) :
  (forall n, In n r -> (-1 <= n)%Z) ->
  length (filter (listed t) r)
  + length (filter (fun n => (0 <=? n)%Z && (n <? Z.of_nat t)%Z) r)
  = length r.
Proof.
  induction r as [| n r IH]; intros H; simpl; [reflexivity |].
  assert (Hn : (-1 <= n)%Z) by (apply H; left; reflexivity).
  assert (IH' := IH (fun m Hm => H m (or_intror Hm))).
  unfold listed at 1.
  destruct (Z.eqb_spec n (-1)); destruct (Z.leb_spec (Z.of_nat t) n);
    destruct (Z.leb_spec 0 n); destruct (Z.ltb_spec n (Z.of_nat t));
    simpl; lia.
Qed.

(** In a row, an entry that names a triangle names an earlier one, the
    triangle of the row or a later one. *)
Lemma row_shared (t : nat) (r : list Z) :
  length (filter (fun n => (-1 <? n)%Z) r)
  = length (filter (fun n => (0 <=? n)%Z && (n <? Z.of_nat t)%Z) r)
    + length (filter (fun n => (n =? Z.of_nat t)%Z) r)
    + length (filter (fun n => (Z.of_nat t <? n)%Z) r).
Proof.
  induction r as [| n r IH]; simpl; [reflexivity |].
  destruct (Z.ltb_spec (-1) n); destruct (Z.leb_spec 0 n);
    destruct (Z.ltb_spec n (Z.of_nat t)); destruct (Z.eqb_spec n (Z.of_nat t));
    destruct (Z.ltb_spec (Z.of_nat t) n); simpl; lia.
Qed.

Lemma table_listed_or_earlier (rows : list (list Z)) :
  forall t : nat,
    (forall r, In r rows -> length r = 3 /\ forall n, In n r -> (-1 <= n)%Z) ->
    count_entries listed t rows
    + count_entries (fun t n => (0 <=? n)%Z && (n <? Z.of_nat t)%Z) t rows
    = 3 * length rows.
Proof.
  induction rows as [| r rows IH]; intros t H; simpl; [reflexivity |].
  destruct (H r (or_introl eq_refl)) as (H3 & Hr).
  pose proof (row_listed_or_earlier t r Hr) as E.
  pose proof (IH (S t) (fun r' Hr' => H r' (or_intror Hr'))) as E'.
  lia.
Qed.

Lemma table_shared (rows : list (list Z)) :
  forall t : nat,
    count_nonzero (map (fun n => (-1 <? n)%Z) (concat rows))
    = count_entries (fun t n => (0 <=? n)%Z && (n <? Z.of_nat t)%Z) t rows
      + count_entries (fun t n => (n =? Z.of_nat t)%Z) t rows
      + count_entries (fun t n => (Z.of_nat t <? n)%Z) t rows.
Proof.
  induction rows as [| r rows IH]; intros t; simpl; [reflexivity |].
  rewrite map_app, count_nonzero_app, count_nonzero_map.
  rewrite (row_shared t r), (IH (S t)). lia.
Qed.

(** The edges listed for a triangle are as many as its listed entries. *)
Lemma edges_of_triangle_length (tri : Delaunay) (t : nat) :
  length (nth t (neighbors tri) []) = 3 ->
  length (edges_of_triangle tri t [0; 1; 2])
  = length (filter (listed t) (nth t (neighbors tri) [])).
Proof.
  intros H3. unfold edges_of_triangle.
  destruct (nth t (neighbors tri) []) as [| a [| b [| c [| d r]]]];
    try discriminate.
  cbn [flat_map nth filter].
  destruct (listed t a); destruct (listed t b); destruct (listed t c);
    reflexivity.
Qed.

Lemma edges_of_length (tri : Delaunay) (rows : list (list Z)) :
  forall pre : list (list Z),
    neighbors tri = pre ++ rows ->
    (forall r, In r rows -> length r = 3) ->
    length (edges_of tri (seq (length pre) (length rows)))
    = count_entries listed (length pre) rows.
Proof.
  induction rows as [| r rows IH]; intros pre Hnb H3; [reflexivity |].
  cbn [length seq count_entries].
  rewrite edges_of_cons, length_app.
  unfold edges_of at 1. cbn [flat_map]. rewrite app_nil_r.
  rewrite edges_of_triangle_length
    by (rewrite Hnb, nth_middle; apply H3; left; reflexivity).
  rewrite Hnb at 1. rewrite nth_middle. f_equal.
  replace (S (length pre)) with (length (pre ++ [r]))
    by (rewrite length_app; simpl; lia).
  apply IH.
  - rewrite Hnb, <- app_assoc. reflexivity.
  - intros r' Hr'. apply H3. right. exact Hr'.
Qed.

Lemma mutual_spec (tri : Delaunay) :
  mutual tri = true ->
  count_entries (fun t n => (0 <=? n)%Z && (n <? Z.of_nat t)%Z) 0
    (neighbors tri)
  = count_entries (fun t n => (Z.of_nat t <? n)%Z) 0 (neighbors tri)
  /\ count_entries (fun t n => (n =? Z.of_nat t)%Z) 0 (neighbors tri) = 0.
Proof.
  unfold mutual. intros H. apply andb_true_iff in H. destruct H as [H1 H2].
  apply Nat.eqb_eq in H1. apply Nat.eqb_eq in H2. split; assumption.
Qed.

(** With a mutual neighbour table the number of links the function
    computes is the number of edges its loop lists. *)
Lemma num_links_counts_edges (tri : Delaunay) :
  table_ok tri = true -> mutual tri = true ->
  (3 * Z.of_nat (nsimplex tri)
   - Z.of_nat (count_nonzero
                 (map (fun n => (-1 <? n)%Z) (concat (neighbors tri)))) / 2)%Z
  = Z.of_nat (length (edges_of tri (seq 0 (nsimplex tri)))).
Proof.
  intros Hok Hm.
  destruct (table_ok_spec tri Hok) as (Hlen & _ & Hnb).
  destruct (mutual_spec tri Hm) as (Hsym & Hself).
  pose proof (table_shared (neighbors tri) 0) as Hs.
  assert (Hl : count_entries listed 0 (neighbors tri)
               + count_entries
                   (fun t n => (0 <=? n)%Z && (n <? Z.of_nat t)%Z) 0
                   (neighbors tri)
               = 3 * length (neighbors tri)).
  { apply table_listed_or_earlier. intros r Hr.
    destruct (Hnb r Hr) as (H3 & Hrange).
    split; [exact H3 |]. intros n Hn. specialize (Hrange n Hn). lia. }
  assert (He : length (edges_of tri (seq 0 (nsimplex tri)))
               = count_entries listed 0 (neighbors tri)).
  { rewrite <- Hlen.
    apply (edges_of_length tri (neighbors tri) []); [reflexivity |].
    intros r Hr. apply (Hnb r Hr). }
  rewrite He, Hs, Hself, <- Hsym, Nat.add_0_r.
  set (c := count_entries _ 0 (neighbors tri)) in *.
  replace (Z.of_nat (c + c)) with (Z.of_nat c * 2)%Z by lia.
  rewrite Z.div_mul by lia. lia.
Qed.

(** On a sound and mutual neighbour table the function lists the edges in
    the order of its loop and fills every slot. *)
Lemma create_links_spec (tri : Delaunay) :
  table_ok tri = true -> mutual tri = true ->
  create_links_from_triangulation tri
  = Ok (map fst (edges_of tri (seq 0 (nsimplex tri))),
        map snd (edges_of tri (seq 0 (nsimplex tri))),
        Z.of_nat (length (edges_of tri (seq 0 (nsimplex tri))))).
Proof.
  intros Hok Hm. unfold create_links_from_triangulation. cbv zeta.
  rewrite (num_links_counts_edges tri Hok Hm).
  set (E := edges_of tri (seq 0 (nsimplex tri))).
  replace (Z.of_nat (length E) <? 0)%Z with false
    by (symmetry; apply Z.ltb_ge; lia).
  rewrite Nat2Z.id. unfold for_range.
  assert (H : foldM (triangle_step tri) (seq 0 (nsimplex tri))
                (state_after (length E) [] 0 (nsimplex tri))
              = Ok (state_after (length E) ([] ++ E) (0 + nsimplex tri)
                      (nsimplex tri)))
    by (apply (triangle_loop tri (length E) Hok (nsimplex tri) 0 []);
        [lia | apply Nat.le_refl]).
  unfold state_after in H at 1.
  cbn [map app length repeat] in H. rewrite !Nat.sub_0_r in H.
  rewrite H. cbn [bind app state_after link_fromnode link_tonode].
  rewrite Nat.sub_diag. cbn [repeat]. rewrite !app_nil_r. reflexivity.
Qed.

End TriLinkFacts.

Module TriLinkLists.

Lemma combine_fst_snd {A B : Type} (l : list (A * B)) :
  combine (map fst l) (map snd l) = l.
Proof.
  induction l as [| [a b] l IH]; simpl; [reflexivity |].
  rewrite IH. reflexivity.
Qed.

End TriLinkLists.

(** X29: on a triangulation whose neighbour table is sound and mutual,
    [create_links_from_triangulation] returns without error and fills
    every slot of its two arrays: the number of links it reports is their
    length, and the links are, in the order of the loop, the edges opposite
    the corners where no triangle lies across or one that comes later, so
    an edge shared by two triangles is listed once. *)
Theorem triangulation_links_fill_every_slot :
  forall tri : VoronoiLinks.Delaunay,
    TriLinkSpec.table_ok tri = true ->
    TriLinkSpec.mutual tri = true ->
    exists (link_fromnode link_tonode : list Z) (num_links : Z),
      VoronoiLinks.create_links_from_triangulation tri
      = Py.Ok (link_fromnode, link_tonode, num_links)
      /\ Z.of_nat (length link_fromnode) = num_links
      /\ length link_tonode = length link_fromnode
      /\ combine link_fromnode link_tonode
         = TriLinkSpec.edges_of tri (seq 0 (VoronoiLinks.nsimplex tri)).
Proof.
  intros tri Hok Hm.
  rewrite (TriLinkFacts.create_links_spec tri Hok Hm).
  eexists. eexists. eexists. split; [reflexivity |].
  rewrite !length_map.
  repeat split. apply TriLinkLists.combine_fst_snd.
Qed.

Lemma triangulation_links_fill_every_slot_witness :
  exists (link_fromnode link_tonode : list Z) (num_links : Z),
    VoronoiLinks.create_links_from_triangulation Examples.two_triangles
    = Py.Ok (link_fromnode, link_tonode, num_links)
    /\ Z.of_nat (length link_fromnode) = num_links
    /\ length link_tonode = length link_fromnode
    /\ combine link_fromnode link_tonode
       = [(1, 2); (2, 0); (0, 1); (3, 2); (1, 3)]%Z.
Proof.
  apply (triangulation_links_fill_every_slot Examples.two_triangles);
    reflexivity.
Defined.

(** ** Facts about the construction of a grid *)

Module InitFacts.
Import Py Np Voronoi VoronoiGeometry VoronoiInit PointSpec InitSpec.
Local Open Scope py_scope.

Ltac step_inv H :=
  match type of H with
  | bind ?c _ = Ok _ =>
      let v := fresh "v" in
      let E := fresh "E" in
      destruct c as [v |] eqn:E; [cbn [bind] in H | discriminate H]
  | (if ?b then _ else _) = Ok _ =>
      let E := fresh "E" in
      destruct b eqn:E; [discriminate H |]
  end.

(** A list in ascending y, then x order is determined by its elements. *)
Lemma y_then_x_antisym (p q : point) :
  y_then_x p q -> y_then_x q p -> p = q.
Proof.
  unfold y_then_x. destruct p as [px py], q as [qx qy]. cbn [fst snd].
  intros [H1 | [H1 H1']] [H2 | [H2 H2']]; try lra.
  f_equal; lra.
Qed.

Lemma sorted_points_unique (l1 : list point) :
  forall l2 : list point,
    StronglySorted y_then_x l1 -> StronglySorted y_then_x l2 ->
    Permutation l1 l2 -> l1 = l2.
Proof.
  induction l1 as [| a l1 IH]; intros l2 S1 S2 P.
  - apply Permutation_nil in P. subst. reflexivity.
  - destruct l2 as [| b l2];
      [apply Permutation_sym, Permutation_nil in P; discriminate |].
    inversion S1 as [| ? ? S1' F1]; subst.
    inversion S2 as [| ? ? S2' F2]; subst.
    rewrite Forall_forall in F1, F2.
    assert (Eab : a = b).
    { assert (Ha : In a (b :: l2))
        by (apply (Permutation_in _ P); left; reflexivity).
      assert (Hb : In b (a :: l1))
        by (apply (Permutation_in _ (Permutation_sym P)); left; reflexivity).
      destruct Ha as [Ha | Ha]; [congruence |].
      destruct Hb as [Hb | Hb]; [congruence |].
      apply y_then_x_antisym; [apply F1, Hb | apply F2, Ha]. }
    subst b. f_equal. apply IH; try assumption.
    apply Permutation_cons_inv in P. exact P.
Qed.

(** The helper gives the same array for the same points in any order. *)
Lemma sort_points_of_permutation (l1 l2 : list point) :
  Permutation l1 l2 ->
  sort_points_by_x_then_y l1 = sort_points_by_x_then_y l2.
Proof.
  intros P. apply sorted_points_unique;
    try apply SortFacts.sort_points_sorted.
  apply perm_trans with l1;
    [apply Permutation_sym, SortFacts.sort_points_perm |].
  apply perm_trans with l2; [exact P | apply SortFacts.sort_points_perm].
Qed.

Section WithBackend.

Variable env : Backend.

Lemma find_perimeter_keeps_nodes (self : Grid) (p : list point)
  (r : Grid * (list Z * list Z * list Z)) :
  find_perimeter_nodes env self p = Ok r -> nodes (fst r) = nodes self.
Proof.
  unfold find_perimeter_nodes. intros H.
  step_inv H. step_inv H. inversion H. reflexivity.
Qed.

Lemma cell_area_step_keeps_nodes (v : VoronoiObject) (self self' : Grid)
  (node : Z) :
  cell_area_step v self node = Ok self' -> nodes self' = nodes self.
Proof.
  unfold cell_area_step. intros H.
  repeat step_inv H. inversion H. reflexivity.
Qed.

Lemma cell_area_loop_keeps_nodes (v : VoronoiObject) (l : list Z) :
  forall self self' : Grid,
    foldM (cell_area_step v) l self = Ok self' -> nodes self' = nodes self.
Proof.
  induction l as [| node l IH]; intros self self' H; simpl in H.
  - inversion H. reflexivity.
  - step_inv H. rewrite (IH _ _ H).
    eapply cell_area_step_keeps_nodes. eassumption.
Qed.

Lemma reorient_keeps_nodes (self self' : Grid) (v : VoronoiObject) :
  reorient self v = Ok self' -> nodes self' = nodes self.
Proof.
  unfold reorient. intros H. step_inv H. inversion H. reflexivity.
Qed.

(** The node tables of a grid that [_initialize] returns. *)
Lemma initialize_nodes (x y : list R) (reorient_links : bool) (g : Grid) :
  base_keeps_nodes env ->
  _initialize env x y reorient_links = Ok g ->
  nodes g = nodes_of (sort_points_by_x_then_y (combine x y)).
Proof.
  intros (Ksort & Kin & Kreset & Kdirs & Kunit) H.
  unfold _initialize in H. repeat step_inv H.
  rewrite (Kunit _ _ H).
  match goal with E : make_links_and_link_dirs_at_node env _ = Ok _ |- _ =>
    rewrite (Kdirs _ _ E) end.
  match goal with E : _reset_link_status_list env _ = Ok _ |- _ =>
    rewrite (Kreset _ _ E) end.
  match goal with E : _setup_inlink_and_outlink_matrices env _ = Ok _ |- _ =>
    rewrite (Kin _ _ E) end.
  cbn [with_links nodes].
  match goal with
  | E : (if reorient_links then reorient ?s ?v else Ok ?s) = Ok ?s' |- _ =>
      assert (Hre : nodes s' = nodes s)
        by (destruct reorient_links;
            [exact (reorient_keeps_nodes _ _ _ E)
            | inversion E; reflexivity]);
      rewrite Hre
  end.
  match goal with E : sort_links_by_midpoint env _ = Ok _ |- _ =>
    rewrite (Ksort _ _ E) end.
  cbn [with_links nodes].
  match goal with E : foldM (cell_area_step _) _ _ = Ok _ |- _ =>
    rewrite (cell_area_loop_keeps_nodes _ _ _ _ E) end.
  cbn [with_cells with_vor nodes].
  match goal with E : find_perimeter_nodes env _ _ = Ok _ |- _ =>
    rewrite (find_perimeter_keeps_nodes _ _ _ E) end.
  reflexivity.
Qed.

(** The grid depends on the points, not on the order they are given in. *)
Lemma initialize_of_permutation (x y x' y' : list R) (reorient_links : bool) :
  length x = length y -> length x' = length y' ->
  Permutation (combine x y) (combine x' y') ->
  _initialize env x' y' reorient_links = _initialize env x y reorient_links.
Proof.
  intros L L' P. unfold _initialize.
  rewrite L, L', !Nat.eqb_refl. cbn [negb].
  rewrite (sort_points_of_permutation _ _ P). reflexivity.
Qed.

End WithBackend.

(** Reorienting the links and asking for the patches leave the points and
    the node coordinates as they are. *)
Lemma reorient_keeps_points (g g' : VoronoiDelaunayGrid) :
  reorient_links_upper_right g = Ok g' ->
  Voronoi.pts g' = Voronoi.pts g
  /\ Voronoi.node_x g' = Voronoi.node_x g
  /\ Voronoi.node_y g' = Voronoi.node_y g.
Proof.
  unfold reorient_links_upper_right. intros H.
  repeat step_inv H.
  destruct (0 <? _).
  - repeat step_inv H. inversion H. repeat split; reflexivity.
  - inversion H. repeat split; reflexivity.
Qed.

Lemma create_patches_keeps_points
  (delaunay : list point -> Triangulation) (bad : Z)
  (g : VoronoiDelaunayGrid) (p : list point) (v : VoronoiDiagram)
  (nodata : pyval) :
  let g' := fst (create_patches_from_delaunay_diagram delaunay bad g p v
                   nodata) in
  Voronoi.pts g' = Voronoi.pts g
  /\ Voronoi.node_x g' = Voronoi.node_x g
  /\ Voronoi.node_y g' = Voronoi.node_y g.
Proof.
  cbv zeta. unfold create_patches_from_delaunay_diagram.
  destruct (negb _); [repeat split; reflexivity |].
  destruct (resolve_nodata bad nodata); [| repeat split; reflexivity].
  cbv zeta. destruct (for_range _ _ _); repeat split; reflexivity.
Qed.

Lemma patches_at_node_keeps_points
  (delaunay : list point -> Triangulation) (bad : Z)
  (g : VoronoiDelaunayGrid) (nodata : pyval) :
  let g' := fst (patches_at_node delaunay bad g nodata) in
  Voronoi.pts g' = Voronoi.pts g
  /\ Voronoi.node_x g' = Voronoi.node_x g
  /\ Voronoi.node_y g' = Voronoi.node_y g.
Proof.
  cbv zeta. unfold patches_at_node.
  pose proof (create_patches_keeps_points delaunay bad g (Voronoi.pts g)
                (Voronoi.vor g) nodata) as K.
  cbv zeta in K.
  destruct (create_patches_from_delaunay_diagram delaunay bad g
              (Voronoi.pts g) (Voronoi.vor g) nodata) as [g1 [u | e]];
    cbn [fst] in K.
  - destruct (is_default_nodata nodata).
    + destruct (Voronoi._patches_at_node g); [repeat split; reflexivity |].
      unfold read_patches_at_node.
      destruct (Voronoi._patches_at_node g1); exact K.
    + destruct (Voronoi.set_bad_value g).
      * unfold read_patches_at_node.
        destruct (Voronoi._patches_at_node g); repeat split; reflexivity.
      * unfold read_patches_at_node.
        cbn [with_patches Voronoi._patches_at_node].
        destruct (Voronoi._patches_at_node g1); exact K.
  - destruct (is_default_nodata nodata).
    + destruct (Voronoi._patches_at_node g); [repeat split; reflexivity |].
      exact K.
    + destruct (Voronoi.set_bad_value g); [| exact K].
      unfold read_patches_at_node.
      destruct (Voronoi._patches_at_node g); repeat split; reflexivity.
Qed.

End InitFacts.

Module InitRuns.
Import Py Np Voronoi VoronoiGeometry VoronoiInit PointSpec InitSpec.
Local Open Scope py_scope.

(** The helper on the four points given in ascending x order. *)
Lemma sliver_points_sorted :
  sort_points_by_x_then_y (combine Examples.by_x_xs Examples.by_x_ys)
  = Examples.sliver_points.
Proof.
  rewrite SortFacts.sort_points_two_passes.
  cbv [Examples.by_x_xs Examples.by_x_ys combine stable_sort_by fold_right].
  unfold Examples.eps.
  repeat sort_step.
  reflexivity.
Qed.

(** The helper on the lattice of the class doctest: the points come out row
    by row, as the [node_x] and [node_y] of the doctest show. *)
Lemma lattice_points_sorted :
  let sorted :=
    sort_points_by_x_then_y (combine Examples.lattice_x Examples.lattice_y) in
  map fst sorted = [0; 1; 2; 0; 1; 2; 0; 1; 2; 0; 1; 2]%R
  /\ map snd sorted = [0; 0; 0; 1; 1; 1; 2; 2; 2; 3; 3; 3]%R.
Proof.
  cbv zeta. rewrite SortFacts.sort_points_two_passes.
  cbv [Examples.lattice_x Examples.lattice_y combine stable_sort_by
       fold_right].
  repeat sort_step.
  split; reflexivity.
Qed.

Lemma sliver_backend_keeps_nodes : base_keeps_nodes Examples.sliver_backend.
Proof.
  repeat split; intros s s' H; inversion H; reflexivity.
Qed.

(** The construction of the example grid goes through. *)
Lemma sliver_construction_returns :
  exists g : Grid,
    _initialize Examples.sliver_backend Examples.by_x_xs Examples.by_x_ys false
    = Ok g.
Proof.
  unfold _initialize. rewrite sliver_points_sorted.
  destruct FaceFacts.sliver_links as (widths & Hlinks).
  cbv -[Rplus Rminus Rmult Rdiv Rinv Ropp IZR INR R0 R1 Rmax Rabs sqrt atan
        PI Np.Rltb Np.Rleb Rlt_dec Rle_dec Req_dec_T
        create_links_and_faces_from_voronoi_diagram Examples.sliver_vor].
  rewrite Hlinks.
  r_eval. eexists. reflexivity.
Qed.

End InitRuns.



